(** * MentOS: paging, process life cycle and memory mapping

    A shallow embedding of the kernel's page-fault handler, page-table
    iterator and area cloning ([paging.c]), of [fork]/[execve] with the
    argument marshalling ([process.c]) and of [mmap]/[munmap], together with
    the properties the design specification states about them.

    Kernel functions become functions over an explicit kernel state.  A
    function that can call [kernel_panic], that dereferences a pointer the
    code does not check, or that loops on memory contents, returns an
    [outcome] rather than a plain value. *)

From Stdlib Require Import ZArith Lia Bool.
From stdpp Require Import base list strings.

Open Scope Z_scope.

(** ** Machine arithmetic *)

(** Unsigned 32-bit wrap-around ([uint32_t], [uintptr_t], [size_t]). *)
Definition wrap32 (x : Z) : Z := x mod 2 ^ 32.

(** Two's complement reading of a 32-bit pattern ([int]). *)
Definition to_int32 (x : Z) : Z := (x + 2 ^ 31) mod 2 ^ 32 - 2 ^ 31.

(** One-bit bit-field assignment [w.f = b]. *)
Definition set_bit (w i : Z) (b : bool) : Z :=
  if b then Z.setbit w i else Z.clearbit w i.

(** A bit-field of [width] bits whose lowest bit is [lo]. *)
Definition get_field (w lo width : Z) : Z :=
  Z.land (Z.shiftr w lo) (Z.ones width).

(** Bit-field assignment [w.f = v]: the value is truncated to the width of
    the field, the other bits of the word are kept. *)
Definition set_field (w lo width v : Z) : Z :=
  Z.lor (Z.land w (Z.lnot (Z.shiftl (Z.ones width) lo)))
        (Z.shiftl (Z.land v (Z.ones width)) lo).

(** [(flags & MASK) != 0] *)
Definition has_flag (flags mask : Z) : bool := negb (Z.land flags mask =? 0).

(** ** Outcomes of kernel code *)

(** What a kernel function does on a state of type [S]: it returns a value
    and leaves a state, it stops in [kernel_panic] (which does not return),
    it dereferences a pointer that was not checked against NULL or runs past
    a fixed-size array, it fails an [assert], or the model's loop bound was
    too small. *)
Inductive outcome (S A : Type) : Type :=
| Ret (a : A) (s : S)
| Panic (msg : string) (s : S)
| Fault (s : S)
| AssertFail (s : S)
| OutOfFuel.

Arguments Ret {S A} a s.
Arguments Panic {S A} msg s.
Arguments Fault {S A} s.
Arguments AssertFail {S A} s.
Arguments OutOfFuel {S A}.

(** What a run returned, and the state it stopped in ([d] when the loop
    bound was too small). *)
Definition result_of {S A} (o : outcome S A) : option A :=
  match o with
  | Ret a _ => Some a
  | _ => None
  end.

Definition state_of {S A} (d : S) (o : outcome S A) : S :=
  match o with
  | Ret _ s | Panic _ s | Fault s | AssertFail s => s
  | OutOfFuel => d
  end.

(** How a run ended. *)
Inductive ending : Type :=
| Returned | Panicked | Faulted | AssertFailed | Exhausted.

Definition ending_of {S A} (o : outcome S A) : ending :=
  match o with
  | Ret _ _ => Returned
  | Panic _ _ => Panicked
  | Fault _ => Faulted
  | AssertFail _ => AssertFailed
  | OutOfFuel => Exhausted
  end.

Definition M (S A : Type) : Type := S -> outcome S A.

Definition ret {S A} (a : A) : M S A := fun s => Ret a s.

Definition bind {S A B} (c : M S A) (k : A -> M S B) : M S B :=
  fun s =>
    match c s with
    | Ret a s' => k a s'
    | Panic msg s' => Panic msg s'
    | Fault s' => Fault s'
    | AssertFail s' => AssertFail s'
    | OutOfFuel => OutOfFuel
    end.

Definition kernel_panic {S A} (msg : string) : M S A := fun s => Panic msg s.
Definition fault {S A} : M S A := fun s => Fault s.
Definition assert_fail {S A} : M S A := fun s => AssertFail s.
Definition out_of_fuel {S A} : M S A := fun _ => OutOfFuel.
Definition get {S} : M S S := fun s => Ret s s.
Definition modify {S} (f : S -> S) : M S unit := fun s => Ret tt (f s).

(** [assert(c)] *)
Definition assert {S} (c : bool) : M S unit :=
  fun s => if c then Ret tt s else AssertFail s.

Notation "'let*' x ':=' c 'in' k" := (bind c (fun x => k))
  (at level 10, x pattern, c at level 100, k at level 200).

(** ** The trap frame

    Modelled from the spec: the declaration of [pt_regs] is not among the
    sources; it is the saved register set of the data model, in the layout
    the x86 interrupt entry pushes. *)
Record pt_regs : Type := mk_pt_regs {
  gs : Z; fs : Z; es : Z; ds : Z;
  edi : Z; esi : Z; ebp : Z; esp : Z;
  ebx : Z; edx : Z; ecx : Z; eax : Z;
  int_no : Z; err_code : Z;
  eip : Z; cs : Z; eflags : Z; useresp : Z; ss : Z
}.

(** * Paging ([paging.c]) *)

Module Paging.

(** Modelled from the spec: the header that defines [PAGE_SIZE] and
    [MAX_PAGE_TABLE_ENTRIES] is not among the sources; the data model has
    1024 directory entries of 1024 table entries of 4 KiB pages. *)
Definition PAGE_SIZE : Z := 4096.
Definition MAX_PAGE_TABLE_ENTRIES : Z := 1024.

(** Modelled from the spec: [SIGSEGV] is declared in a header that is not
    among the sources; the specification's scenario names it signal 11. *)
Definition SIGSEGV : Z := 11.

(** The [MEMMAP_FLAGS] the functions of this file test.  The enumeration is
    declared in a header that is not among the sources, so its values are
    parameters of the development. *)
Class MemmapFlags : Type := {
  MM_USER : Z;
  MM_GLOBAL : Z;
  MM_RW : Z;
  MM_PRESENT : Z;
  MM_COW : Z;
  MM_UPDADDR : Z
}.

(** A physical page descriptor ([page_t *]), by its identity. *)
Definition page_t : Type := Z.

(** The zone allocator's and the virtual-memory mapper's address
    translations.  They are collaborators whose code is not among the
    sources; [None] and [0] stand for the NULL they return on failure. *)
Class ZoneAllocator : Type := {
  get_page_from_physical_address : Z -> option page_t;
  get_virtual_address_from_page : page_t -> Z;
  get_page_from_virtual_address : Z -> option page_t;
  get_physical_address_from_page : page_t -> Z;
  vmem_map_physical_pages : page_t -> Z;
  is_valid_virtual_address : Z -> bool;
  MAX_PHY_PFN : Z
}.

(** What the hardware and the rest of the kernel see of this file's work. *)
Inductive event : Type :=
| EvInvlpg (addr : Z)            (* paging_flush_tlb_single(addr) *)
| EvSignal (pid : Z) (sig : Z)   (* sys_kill(pid, sig) *)
| EvSchedulerRun                 (* scheduler_run(f) *)
| EvAllocPage (page : page_t)    (* alloc_pages(GFP_HIGHUSER, 0) gave page *)
| EvZeroPage (page : page_t).    (* memset of the page through its mapping *)

(** The kernel state this file works on.  Page directories and page tables
    are arrays of 32-bit entries in kernel memory; [kmem] gives the entry
    stored at an address.  The two pools are what the allocators will hand
    out, call after call: an empty pool is an allocator that returns NULL. *)
Record kstate : Type := mk_kstate {
  kmem : Z -> Z;
  cr2 : Z;                       (* get_cr2() *)
  cr3 : Z;                       (* paging_get_current_directory() *)
  current : option Z;            (* pid of scheduler_get_current_process() *)
  pgtbl_pool : list Z;           (* kmem_cache_alloc(pgtbl_cache, GFP_KERNEL) *)
  page_pool : list page_t;       (* alloc_pages(GFP_HIGHUSER, 0) *)
  trace : list event
}.

Definition set_kmem (f : (Z -> Z) -> Z -> Z) (s : kstate) : kstate :=
  mk_kstate (f (kmem s)) (cr2 s) (cr3 s) (current s) (pgtbl_pool s)
            (page_pool s) (trace s).
Definition set_pgtbl_pool (l : list Z) (s : kstate) : kstate :=
  mk_kstate (kmem s) (cr2 s) (cr3 s) (current s) l (page_pool s) (trace s).
Definition set_page_pool (l : list page_t) (s : kstate) : kstate :=
  mk_kstate (kmem s) (cr2 s) (cr3 s) (current s) (pgtbl_pool s) l (trace s).
Definition add_event (e : event) (s : kstate) : kstate :=
  mk_kstate (kmem s) (cr2 s) (cr3 s) (current s) (pgtbl_pool s)
            (page_pool s) (trace s ++ [e]).

Definition upd (m : Z -> Z) (a v : Z) : Z -> Z :=
  fun x => if x =? a then v else m x.

(** Reading and writing the entry a pointer designates.  The pointer was
    not checked by the caller: NULL is a fault. *)
Definition load (a : Z) : M kstate Z :=
  fun s => if a =? 0 then Fault s else Ret (kmem s a) s.
Definition store (a w : Z) : M kstate unit :=
  fun s => if a =? 0 then Fault s else Ret tt (set_kmem (fun m => upd m a w) s).
Definition emit (e : event) : M kstate unit := modify (add_event e).

(** *** Entries

    Modelled from the spec: the declarations of [page_dir_entry_t] and
    [page_table_entry_t] are not among the sources.  An entry is a plain
    32-bit word in the two-level x86 form: present, rw and user in bits 0 to
    2, accessed in bit 5, dirty in bit 6, global in bit 8, the available
    bits 9 to 11 and the frame number in bits 12 to 31.  A leaf entry keeps
    its [kernel_cow] bit in the first available bit and the two-bit field
    [available] in the other two; a directory entry has a three-bit field
    [available]. *)
Definition pte_present (w : Z) : bool := Z.testbit w 0.
Definition pte_rw (w : Z) : bool := Z.testbit w 1.
Definition pte_user (w : Z) : bool := Z.testbit w 2.
Definition pte_accessed (w : Z) : bool := Z.testbit w 5.
Definition pte_dirty (w : Z) : bool := Z.testbit w 6.
Definition pte_global (w : Z) : bool := Z.testbit w 8.
Definition pte_kernel_cow (w : Z) : bool := Z.testbit w 9.
Definition pte_available (w : Z) : Z := get_field w 10 2.
Definition pte_frame (w : Z) : Z := get_field w 12 20.

Definition pte_set_present (w : Z) (b : bool) : Z := set_bit w 0 b.
Definition pte_set_rw (w : Z) (b : bool) : Z := set_bit w 1 b.
Definition pte_set_user (w : Z) (b : bool) : Z := set_bit w 2 b.
Definition pte_set_global (w : Z) (b : bool) : Z := set_bit w 8 b.
Definition pte_set_kernel_cow (w : Z) (b : bool) : Z := set_bit w 9 b.
Definition pte_set_available (w v : Z) : Z := set_field w 10 2 v.
Definition pte_set_frame (w v : Z) : Z := set_field w 12 20 v.

Definition pde_present (w : Z) : bool := Z.testbit w 0.
Definition pde_rw (w : Z) : bool := Z.testbit w 1.
Definition pde_user (w : Z) : bool := Z.testbit w 2.
Definition pde_accessed (w : Z) : bool := Z.testbit w 5.
Definition pde_global (w : Z) : bool := Z.testbit w 8.
Definition pde_available (w : Z) : Z := get_field w 9 3.
Definition pde_frame (w : Z) : Z := get_field w 12 20.

Definition pde_set_present (w : Z) (b : bool) : Z := set_bit w 0 b.
Definition pde_set_rw (w : Z) (b : bool) : Z := set_bit w 1 b.
Definition pde_set_user (w : Z) (b : bool) : Z := set_bit w 2 b.
Definition pde_set_accessed (w : Z) (b : bool) : Z := set_bit w 5 b.
Definition pde_set_global (w : Z) (b : bool) : Z := set_bit w 8 b.
Definition pde_set_available (w v : Z) : Z := set_field w 9 3 v.
Definition pde_set_frame (w v : Z) : Z := set_field w 12 20 v.

(** Address of [&base[i]] for an array of 4-byte entries. *)
Definition entry_at (base i : Z) : Z := base + 4 * i.

(** [entry->field = ...]: a read-modify-write of the entry's word. *)
Definition update (a : Z) (f : Z -> Z) : M kstate unit :=
  let* w := load a in store a (f w).

Definition paging_flush_tlb_single (addr : Z) : M kstate unit :=
  emit (EvInvlpg addr).

(** Modelled from the spec: [sys_kill] is not among the sources; it appends
    a signal record to the target task's pending queue, kept here as an
    event of the trace. *)
Definition sys_kill (pid sig : Z) : M kstate unit := emit (EvSignal pid sig).

(** [scheduler_run] is not among the sources; the call is recorded. *)
Definition scheduler_run (f : pt_regs) : M kstate unit := emit EvSchedulerRun.

Definition scheduler_get_current_process : M kstate (option Z) :=
  fun s => Ret (current s) s.

(** [alloc_pages(GFP_HIGHUSER, 0)] *)
Definition alloc_pages : M kstate (option page_t) :=
  fun s =>
    match page_pool s with
    | [] => Ret None s
    | p :: ps => Ret (Some p) (add_event (EvAllocPage p) (set_page_pool ps s))
    end.

(** [kmem_cache_alloc(pgtbl_cache, GFP_KERNEL)]: the address of a page
    table, or 0. *)
Definition kmem_cache_alloc_pgtbl : M kstate Z :=
  fun s =>
    match pgtbl_pool s with
    | [] => Ret 0 s
    | t :: ts => Ret t (set_pgtbl_pool ts s)
    end.

Section Code.
Context `{flags_of : MemmapFlags} `{zone : ZoneAllocator}.

Definition __set_pg_table_flags (table flags : Z) : M kstate unit :=
  if table =? 0 then ret tt
  else
    let* _ := update table (fun w => pte_set_rw w (has_flag flags MM_RW)) in
    let* _ := update table (fun w => pte_set_present w (has_flag flags MM_PRESENT)) in
    let* _ := update table (fun w => pte_set_kernel_cow w (has_flag flags MM_COW)) in
    let* _ := update table (fun w => pte_set_available w 1) in
    let* _ := update table (fun w => pte_set_global w (has_flag flags MM_GLOBAL)) in
    update table (fun w => pte_set_user w (has_flag flags MM_USER)).

(** Prints the frame and calls [kernel_panic]. *)
Definition __page_fault_panic {A} (f : pt_regs) (addr : Z) : M kstate A :=
  kernel_panic "Page fault!".

Definition __page_handle_cow (entry : Z) : M kstate Z :=
  if entry =? 0 then ret 1
  else
    let* w := load entry in
    if pte_kernel_cow w then
      let* _ := update entry (fun w => pte_set_kernel_cow w false) in
      let* w := load entry in
      if negb (pte_present w) then
        let* page := alloc_pages in
        match page with
        | None => ret 1
        | Some page =>
            let vaddr := vmem_map_physical_pages page in
            if vaddr =? 0 then ret 1
            else
              let* _ := emit (EvZeroPage page) in
              let* _ := update entry (fun w =>
                          pte_set_frame w
                            (Z.shiftr (get_physical_address_from_page page) 12)) in
              let* _ := update entry (fun w => pte_set_present w true) in
              ret 0
        end
      else ret 1
    else ret 1.

Definition __mem_pg_entry_alloc (entry flags : Z) : M kstate Z :=
  if entry =? 0 then ret 0
  else
    let* w := load entry in
    if negb (pde_present w) then
      let* _ := update entry (fun w => pde_set_present w true) in
      let* _ := update entry (fun w => pde_set_rw w true) in
      let* _ := update entry (fun w => pde_set_global w (has_flag flags MM_GLOBAL)) in
      let* _ := update entry (fun w => pde_set_user w (has_flag flags MM_USER)) in
      let* _ := update entry (fun w => pde_set_accessed w false) in
      let* _ := update entry (fun w => pde_set_available w 1) in
      let* new_table := kmem_cache_alloc_pgtbl in
      if new_table =? 0 then ret 0 else ret new_table
    else
      let* _ := update entry (fun w =>
                  pde_set_present w (pde_present w || has_flag flags MM_PRESENT)) in
      let* _ := update entry (fun w =>
                  pde_set_rw w (pde_rw w || has_flag flags MM_RW)) in
      let* w := load entry in
      if pde_global w && negb (has_flag flags MM_GLOBAL) then
        kernel_panic
          "Attempted to remove the global flag from a page directory entry."
      else
        let* _ := update entry (fun w =>
                    pde_set_global w (pde_global w && has_flag flags MM_GLOBAL)) in
        let* _ := update entry (fun w =>
                    pde_set_user w (pde_user w || has_flag flags MM_USER)) in
        let* w := load entry in
        match get_page_from_physical_address (wrap32 (Z.shiftl (pde_frame w) 12)) with
        | None => ret 0
        | Some page =>
            let lowmem_addr := get_virtual_address_from_page page in
            if lowmem_addr =? 0 then ret 0 else ret lowmem_addr
        end.

Definition __set_pg_entry_frame (entry table : Z) : M kstate Z :=
  if entry =? 0 then ret (-1)
  else if table =? 0 then ret (-1)
  else
    match get_page_from_virtual_address table with
    | None => ret (-1)
    | Some table_page =>
        let phy_addr := get_physical_address_from_page table_page in
        if phy_addr =? 0 then ret (-1)
        else
          let* _ := update entry (fun w => pde_set_frame w (Z.shiftr phy_addr 12)) in
          ret 0
    end.

(** The SIGSEGV path of the handler: notify the current process and run the
    scheduler.  [false] when there is no current process, in which case the
    handler goes on to the panic. *)
Definition notify_sigsegv (f : pt_regs) : M kstate bool :=
  let* task := scheduler_get_current_process in
  match task with
  | Some pid =>
      let* _ := sys_kill pid SIGSEGV in
      let* _ := scheduler_run f in
      ret true
  | None => ret false
  end.

Definition page_fault_handler (f : pt_regs) : M kstate unit :=
  let err_user := Z.testbit (err_code f) 2 in
  let err_rw := Z.testbit (err_code f) 1 in
  let err_present := Z.testbit (err_code f) 0 in
  let* s := get in
  let faulting_addr := cr2 s in
  let phy_dir := cr3 s in
  if phy_dir =? 0 then __page_fault_panic f faulting_addr
  else
  match get_page_from_physical_address phy_dir with
  | None => __page_fault_panic f faulting_addr
  | Some dir_page =>
  let lowmem_dir := get_virtual_address_from_page dir_page in
  if lowmem_dir =? 0 then __page_fault_panic f faulting_addr
  else
  let direntry := entry_at lowmem_dir (faulting_addr / (1024 * PAGE_SIZE)) in
  let* dw := load direntry in
  if negb (pde_present dw) then
    let* sent := (if err_user then notify_sigsegv f else ret false) in
    if sent then ret tt else __page_fault_panic f faulting_addr
  else
  let phy_table := wrap32 (Z.shiftl (pde_frame dw) 12) in
  match get_page_from_physical_address phy_table with
  | None => __page_fault_panic f faulting_addr
  | Some table_page =>
  let lowmem_table := get_virtual_address_from_page table_page in
  if lowmem_table =? 0 then __page_fault_panic f faulting_addr
  else
  let table_index := (faulting_addr / PAGE_SIZE) mod 1024 in
  let entry := entry_at lowmem_table table_index in
  if entry =? 0 then __page_fault_panic f faulting_addr
  else
  let* handled :=
    (if is_valid_virtual_address faulting_addr then
       let* orig_entry := load entry in
       if orig_entry =? 0 then __page_fault_panic f faulting_addr
       else
         let* failed := __page_handle_cow orig_entry in
         if negb (failed =? 0) then __page_fault_panic f faulting_addr
         else
           let* ow := load orig_entry in
           let* _ := update entry (fun w => pte_set_frame w (pte_frame ow)) in
           let* _ := __set_pg_table_flags entry
                       (Z.lor MM_PRESENT (Z.lor MM_RW (Z.lor MM_GLOBAL
                          (Z.lor MM_COW MM_UPDADDR)))) in
           ret true
     else
       let* failed := __page_handle_cow entry in
       if negb (failed =? 0) then
         let* sent := (if err_user && err_rw && err_present
                       then notify_sigsegv f else ret false) in
         if sent then ret false else __page_fault_panic f faulting_addr
       else ret true) in
  if handled then paging_flush_tlb_single faulting_addr else ret tt
  end
  end.

(** The two ways the handler ends once it has found that something is
    wrong: with [sigsegv] it notifies the current process, when there is
    one, and runs the scheduler; otherwise it panics. *)
Definition sigsegv_or_panic (sigsegv : bool) (st : kstate) : outcome kstate unit :=
  match (if sigsegv then current st else None) with
  | Some pid =>
      Ret tt (add_event EvSchedulerRun (add_event (EvSignal pid SIGSEGV) st))
  | None => Panic "Page fault!" st
  end.

(** The word [__set_pg_table_flags] leaves in a leaf entry that holds [w]. *)
Definition with_pg_table_flags (w flags : Z) : Z :=
  pte_set_user
    (pte_set_global
       (pte_set_available
          (pte_set_kernel_cow
             (pte_set_present (pte_set_rw w (has_flag flags MM_RW))
                              (has_flag flags MM_PRESENT))
             (has_flag flags MM_COW)) 1)
       (has_flag flags MM_GLOBAL))
    (has_flag flags MM_USER).

(** *** The page iterator *)

Record page_iterator_t : Type := mk_page_iterator {
  it_entry : Z;      (* pointer to the directory entry *)
  it_table : Z;      (* pointer to the page table *)
  it_pfn : Z;
  it_last_pfn : Z;
  it_flags : Z
}.

Record pg_iter_entry_t : Type := mk_pg_iter_entry {
  ie_entry : Z;      (* pointer to the page table entry *)
  ie_pfn : Z
}.

(** The iterator is written through a pointer: the function gives back its
    return value and the iterator as it leaves it.  [iter] is the caller's
    uninitialised variable. *)
Definition __pg_iter_init (iter : page_iterator_t) (pgd addr_start size flags : Z)
  : M kstate (Z * page_iterator_t) :=
  let start_pfn := addr_start / PAGE_SIZE in
  let end_pfn := wrap32 (addr_start + size + PAGE_SIZE - 1) / PAGE_SIZE in
  let base_pgt := start_pfn / 1024 in
  if MAX_PAGE_TABLE_ENTRIES <=? base_pgt then ret (-1, iter)
  else
    let entry := entry_at pgd base_pgt in
    let* table := __mem_pg_entry_alloc entry flags in
    let iter := mk_page_iterator entry table start_pfn end_pfn flags in
    if table =? 0 then ret (-1, iter)
    else
      let* _ := __set_pg_entry_frame entry table in
      ret (0, iter).

Definition __pg_iter_has_next (iter : page_iterator_t) : bool :=
  it_pfn iter <? it_last_pfn iter.

(** [(pg_iter_entry_t){0}] *)
Definition pg_iter_entry_null : pg_iter_entry_t := mk_pg_iter_entry 0 0.

Definition __pg_iter_next (iter : page_iterator_t)
  : M kstate (pg_iter_entry_t * page_iterator_t) :=
  let result :=
    mk_pg_iter_entry (entry_at (it_table iter) (it_pfn iter mod 1024)) (it_pfn iter) in
  let pfn := wrap32 (it_pfn iter + 1) in
  let iter := mk_page_iterator (it_entry iter) (it_table iter) pfn
                (it_last_pfn iter) (it_flags iter) in
  if (pfn mod 1024 =? 0) && negb (pfn =? it_last_pfn iter) then
    let entry := wrap32 (it_entry iter + 4) in
    let iter := mk_page_iterator entry (it_table iter) pfn
                  (it_last_pfn iter) (it_flags iter) in
    if negb (entry mod 4096 =? 0) then
      let* table := __mem_pg_entry_alloc entry (it_flags iter) in
      let iter := mk_page_iterator entry table pfn
                    (it_last_pfn iter) (it_flags iter) in
      if table =? 0 then ret (pg_iter_entry_null, iter)
      else
        let* _ := __set_pg_entry_frame entry table in
        ret (result, iter)
    else ret (result, iter)
  else ret (result, iter).

(** *** Updating and cloning areas *)

(** The body of the loop of [mem_upd_vm_area]; [phy_pfn] is the caller's
    running frame number.  [inl r] is an early [return r]. *)
Definition mem_upd_vm_area_entry (it : pg_iter_entry_t) (flags phy_pfn : Z)
  : M kstate (Z + Z) :=
  let* r :=
    (if has_flag flags MM_UPDADDR then
       if MAX_PHY_PFN <=? phy_pfn then ret (inl (-1))
       else
         let* _ := update (ie_entry it) (fun w => pte_set_frame w phy_pfn) in
         let* _ := paging_flush_tlb_single (wrap32 (ie_pfn it * PAGE_SIZE)) in
         ret (inr (wrap32 (phy_pfn + 1)))
     else ret (inr phy_pfn)) in
  match r with
  | inl code => ret (inl code)
  | inr phy_pfn =>
      let* _ := __set_pg_table_flags (ie_entry it) flags in
      ret (inr phy_pfn)
  end.

Fixpoint mem_upd_vm_area_loop (fuel : nat) (virt_iter : page_iterator_t)
    (flags phy_pfn : Z) : M kstate Z :=
  match fuel with
  | O => out_of_fuel
  | S fuel =>
      if __pg_iter_has_next virt_iter then
        let* (it, virt_iter) := __pg_iter_next virt_iter in
        let* r := mem_upd_vm_area_entry it flags phy_pfn in
        match r with
        | inl code => ret code
        | inr phy_pfn => mem_upd_vm_area_loop fuel virt_iter flags phy_pfn
        end
      else ret 0
  end.

(** The iterations left to an iterator bound the loops over it. *)
Definition iter_fuel (iter : page_iterator_t) : nat :=
  S (Z.to_nat (it_last_pfn iter - it_pfn iter)).

Definition iter0 : page_iterator_t := mk_page_iterator 0 0 0 0 0.

Definition mem_upd_vm_area (pgd virt_start phy_start size flags : Z) : M kstate Z :=
  if pgd =? 0 then ret (-1)
  else
    let* (r, virt_iter) := __pg_iter_init iter0 pgd virt_start size flags in
    if r <? 0 then ret (-1)
    else
      let phy_pfn := phy_start / PAGE_SIZE in
      mem_upd_vm_area_loop (iter_fuel virt_iter) virt_iter flags phy_pfn.

(** The TLB flushes of [n] pages in a row, from the page [pfn] on. *)
Fixpoint flushes (pfn : Z) (n : nat) : list event :=
  match n with
  | O => []
  | S n => EvInvlpg (wrap32 (pfn * PAGE_SIZE)) :: flushes (pfn + 1) n
  end.

(** The body of the loop of [mem_clone_vm_area]. *)
Definition mem_clone_vm_area_entry (src_it dst_it : pg_iter_entry_t) (flags : Z)
  : M kstate unit :=
  let* sw := load (ie_entry src_it) in
  let* _ :=
    (if pte_kernel_cow sw then
       let* _ := store (ie_entry dst_it) (wrap32 (ie_entry src_it)) in
       update (ie_entry dst_it) (fun w => pte_set_present w false)
     else
       let* sw := load (ie_entry src_it) in
       let* _ := update (ie_entry dst_it) (fun w => pte_set_frame w (pte_frame sw)) in
       __set_pg_table_flags (ie_entry dst_it) flags) in
  paging_flush_tlb_single (wrap32 (ie_pfn dst_it * PAGE_SIZE)).

Fixpoint mem_clone_vm_area_loop (fuel : nat) (src_iter dst_iter : page_iterator_t)
    (flags : Z) : M kstate Z :=
  match fuel with
  | O => out_of_fuel
  | S fuel =>
      if __pg_iter_has_next src_iter && __pg_iter_has_next dst_iter then
        let* (src_it, src_iter) := __pg_iter_next src_iter in
        let* (dst_it, dst_iter) := __pg_iter_next dst_iter in
        let* _ := mem_clone_vm_area_entry src_it dst_it flags in
        mem_clone_vm_area_loop fuel src_iter dst_iter flags
      else ret 0
  end.

Definition mem_clone_vm_area (src_pgd dst_pgd src_start dst_start size flags : Z)
  : M kstate Z :=
  if src_pgd =? 0 then ret (-1)
  else if dst_pgd =? 0 then ret (-1)
  else
    let* (r, src_iter) := __pg_iter_init iter0 src_pgd src_start size flags in
    if r <? 0 then ret (-1)
    else
      let* (r, dst_iter) := __pg_iter_init iter0 dst_pgd dst_start size flags in
      if r <? 0 then ret (-1)
      else
        mem_clone_vm_area_loop (iter_fuel src_iter) src_iter dst_iter flags.

(** *** The page tables of a range

    What follows is not code of the kernel: it describes the page tables
    that a walk over a range of pages goes through, to state what
    [mem_clone_vm_area] does to them. *)

(** Where the page table of a directory entry that holds [w] is mapped, as
    [__mem_pg_entry_alloc] finds it; 0 when the frame has no page. *)
Definition table_of (w : Z) : Z :=
  match get_page_from_physical_address (wrap32 (Z.shiftl (pde_frame w) 12)) with
  | None => 0
  | Some page => get_virtual_address_from_page page
  end.

(** The page table [__mem_pg_entry_alloc] gives for the directory entry of
    index [q], in the memory [m] and with the page tables of [pool] left in
    the cache, and what it leaves in the cache: the table of a present entry
    whose global bit the flags do not drop, the next table of the cache for
    an entry that is not present. *)
Definition slot_table (m : Z -> Z) (flags pgd q : Z) (pool : list Z)
  : option (Z * list Z) :=
  let w := m (entry_at pgd q) in
  if pde_present w then
    if pde_global w && negb (has_flag flags MM_GLOBAL) then None
    else Some (table_of w, pool)
  else
    match pool with
    | [] => None
    | t :: pool => Some (t, pool)
    end.

(** The page tables of the [c] directory entries from the index [q] on, in
    order.  With an empty cache, the entries must all be present. *)
Fixpoint range_tables (m : Z -> Z) (flags pgd q : Z) (c : nat) (pool : list Z)
  : option (list Z * list Z) :=
  match c with
  | O => Some ([], pool)
  | S c =>
      match slot_table m flags pgd q pool with
      | None => None
      | Some (t, pool) =>
          match range_tables m flags pgd (q + 1) c pool with
          | None => None
          | Some (ts, pool) => Some (t :: ts, pool)
          end
      end
  end.

(** The number of directory entries that the [n] pages from the page
    [first] on go through. *)
Definition tables_count (first n : Z) : nat :=
  Z.to_nat ((first + n - 1) / 1024 - first / 1024 + 1).

(** The address of a page: a 32-bit multiple of [PAGE_SIZE] that is not
    NULL; and the addresses of its bytes. *)
Definition page_aligned (p : Z) : Prop := 0 < p < 2 ^ 32 /\ p mod PAGE_SIZE = 0.

Definition in_page (p x : Z) : Prop := p <= x < p + PAGE_SIZE.

(** Two page directories and the page tables of a range in each of them,
    laid out apart: all of them are pages; the directories are two; the
    tables are not the directories; the destination tables are distinct, and
    none of them is a source table. *)
Definition clone_layout (src_pgd dst_pgd : Z) (src_tables dst_tables : list Z)
  : Prop :=
  Forall page_aligned (src_pgd :: dst_pgd :: src_tables ++ dst_tables)
  /\ src_pgd <> dst_pgd
  /\ NoDup dst_tables
  /\ (forall t, t ∈ src_tables ++ dst_tables -> t <> src_pgd /\ t <> dst_pgd)
  /\ (forall t, t ∈ dst_tables -> t ∉ src_tables).

(** The leaf entry of the page [first + j], when [tables] are the page
    tables of the directory entries from the one of the page [first] on:
    the entry of the page in the table of its directory entry. *)
Definition table_index (first j : Z) : nat :=
  Z.to_nat ((first + j) / 1024 - first / 1024).

Definition leaf (tables : list Z) (first j : Z) : Z :=
  entry_at (nth (table_index first j) tables 0) ((first + j) mod 1024).

(** The destination entry that holds [dw] is a clone of the source entry at
    the address [se] that held [sw]: the address of the source entry, not
    present, for a source entry that is copy-on-write; otherwise the frame
    of the source entry, with the flag bits that [flags] gives. *)
Definition entry_cloned (flags se sw dw : Z) : Prop :=
  if pte_kernel_cow sw then dw = se /\ pte_present dw = false
  else
    pte_frame dw = pte_frame sw
    /\ pte_rw dw = has_flag flags MM_RW
    /\ pte_present dw = has_flag flags MM_PRESENT
    /\ pte_kernel_cow dw = has_flag flags MM_COW
    /\ pte_global dw = has_flag flags MM_GLOBAL
    /\ pte_user dw = has_flag flags MM_USER.

End Code.

End Paging.

(** * Kernel memory as bytes *)

Module Mem.

Definition mem : Type := Z -> Z.

Definition load8 (m : mem) (a : Z) : Z := m a mod 256.

Definition store8 (m : mem) (a v : Z) : mem :=
  fun x => if x =? a then v mod 256 else m x.

(** Little-endian 32-bit accesses. *)
Definition load32 (m : mem) (a : Z) : Z :=
  load8 m a + 2 ^ 8 * load8 m (a + 1) + 2 ^ 16 * load8 m (a + 2)
  + 2 ^ 24 * load8 m (a + 3).

Definition store32 (m : mem) (a v : Z) : mem :=
  store8 (store8 (store8 (store8 m a v) (a + 1) (v / 2 ^ 8))
                 (a + 2) (v / 2 ^ 16)) (a + 3) (v / 2 ^ 24).

(** [memset(p, 0, n)] *)
Definition zero_range (m : mem) (p n : Z) : mem :=
  fun x => if (p <=? x) && (x <? p + n) then 0 else m x.

(** Storing the bytes of a list from an address on. *)
Fixpoint store_bytes (m : mem) (a : Z) (l : list Z) : mem :=
  match l with
  | [] => m
  | c :: l => store_bytes (store8 m a c) (a + 1) l
  end.

(** The C string ([l] followed by a NUL) stored at [p]. *)
Fixpoint cstr_at (m : mem) (p : Z) (l : list Z) : Prop :=
  match l with
  | [] => load8 m p = 0
  | c :: l => load8 m p = c /\ c <> 0 /\ cstr_at m (p + 1) l
  end.

(** The NULL-terminated array of the non-NULL pointers [ps] stored at [p]. *)
Fixpoint ptrs_at (m : mem) (p : Z) (ps : list Z) : Prop :=
  match ps with
  | [] => load32 m p = 0
  | q :: ps => load32 m p = q /\ q <> 0 /\ ptrs_at m (p + 4) ps
  end.

(** A NULL-terminated argument array at [args]: its pointers are [ps], and
    they point to the strings [ls]. *)
Definition args_at (m : mem) (args : Z) (ps : list Z) (ls : list (list Z)) : Prop :=
  ptrs_at m args ps /\ Forall2 (cstr_at m) ps ls.

(** The bytes an argument array occupies: the pointer array with its
    terminator, and every string with its terminator. *)
Definition in_args (args : Z) (ps : list Z) (ls : list (list Z)) (a : Z) : Prop :=
  (args <= a < args + 4 * (Z.of_nat (length ps) + 1))
  \/ exists i p l, ps !! i = Some p /\ ls !! i = Some l
                   /\ p <= a <= p + Z.of_nat (length l).

(** Two memories that hold the same bytes where [F] says. *)
Definition agree_on (F : Z -> Prop) (m m' : mem) : Prop :=
  forall a, F a -> m' a = m a.

(** [m'] differs from [m] only from [lo] (included) to [hi] (excluded). *)
Definition unchanged_outside (lo hi : Z) (m m' : mem) : Prop :=
  forall a, ~ (lo <= a < hi) -> m' a = m a.

(** Bytes of an ASCII string, for the examples. *)
Fixpoint bytes_of_string (s : string) : list Z :=
  match s with
  | EmptyString => []
  | String c s => Z.of_nat (Ascii.nat_of_ascii c) :: bytes_of_string s
  end.

End Mem.

(** * Processes ([process.c]) *)

Module Process.
Import Mem.

(** Constants of headers that are not among the sources: the interrupt
    flag of [eflags], the size of a fresh stack, the default priority, the
    limits on paths and names, the error numbers and the set-id mode bits.
    Their values are parameters of the development; error numbers are
    positive. *)
Class Config : Type := {
  EFLAG_IF : Z;
  DEFAULT_STACK_SIZE : Z;
  DEFAULT_PRIO : Z;
  PATH_MAX : Z;
  NAME_MAX : Z;
  ENOENT : Z;
  EACCES : Z;
  ENOEXEC : Z;
  ENOMEM : Z;
  ELOOP : Z;
  ENAMETOOLONG : Z;
  S_ISUID : Z;
  S_ISGID : Z;
  errno_positive :
    0 < ENOENT /\ 0 < EACCES /\ 0 < ENOEXEC /\ 0 < ENOMEM /\ 0 < ELOOP
    /\ 0 < ENAMETOOLONG
}.

(** [MAX_OPEN_FD] of [fs/vfs.h]. *)
Definition MAX_OPEN_FD : nat := 16.

(** Modelled from the spec: the states of a task of the data model; their
    declaration is not among the sources. *)
Inductive task_state : Type :=
| TASK_RUNNING
| TASK_SLEEPING
| TASK_STOPPED
| TASK_ZOMBIE.

(** ** Address spaces

    Modelled from the spec: the declarations of [vm_area_struct_t] and
    [mm_struct_t] are not among the sources.  An area has a start, an end
    and flags; an address space owns a page directory, the list of its
    areas, and the addresses of the stack and of the argument and
    environment blocks.  [mmap_cache] designates an area of the list by its
    position. *)
Record vm_area_struct : Type := mk_vm_area {
  vm_start : Z;
  vm_end : Z;
  vm_flags : Z
}.

Definition set_vm_flags (v : Z) (r : vm_area_struct) : vm_area_struct :=
  mk_vm_area (vm_start r) (vm_end r) v.

Record mm_struct : Type := mk_mm {
  pgd : Z;
  mmap_list : list vm_area_struct;
  mmap_cache : option nat;
  map_count : Z;
  start_stack : Z;
  arg_start : Z;
  arg_end : Z;
  env_start : Z;
  env_end : Z
}.

Definition set_mmap_list (v : list vm_area_struct) (r : mm_struct) : mm_struct :=
  mk_mm (pgd r) v (mmap_cache r) (map_count r) (start_stack r) (arg_start r) (arg_end r) (env_start r) (env_end r).
Definition set_mmap_cache (v : option nat) (r : mm_struct) : mm_struct :=
  mk_mm (pgd r) (mmap_list r) v (map_count r) (start_stack r) (arg_start r) (arg_end r) (env_start r) (env_end r).
Definition set_map_count (v : Z) (r : mm_struct) : mm_struct :=
  mk_mm (pgd r) (mmap_list r) (mmap_cache r) v (start_stack r) (arg_start r) (arg_end r) (env_start r) (env_end r).
Definition set_arg_start (v : Z) (r : mm_struct) : mm_struct :=
  mk_mm (pgd r) (mmap_list r) (mmap_cache r) (map_count r) (start_stack r) v (arg_end r) (env_start r) (env_end r).
Definition set_arg_end (v : Z) (r : mm_struct) : mm_struct :=
  mk_mm (pgd r) (mmap_list r) (mmap_cache r) (map_count r) (start_stack r) (arg_start r) v (env_start r) (env_end r).
Definition set_env_start (v : Z) (r : mm_struct) : mm_struct :=
  mk_mm (pgd r) (mmap_list r) (mmap_cache r) (map_count r) (start_stack r) (arg_start r) (arg_end r) v (env_end r).
Definition set_env_end (v : Z) (r : mm_struct) : mm_struct :=
  mk_mm (pgd r) (mmap_list r) (mmap_cache r) (map_count r) (start_stack r) (arg_start r) (arg_end r) (env_start r) v.

(** ** Files

    What this file reads of an open file: its name, mode bits and owner, its
    contents, and whether [vfs_fstat] succeeds on it. *)
Record vfs_file : Type := mk_vfs_file {
  f_name : list Z;
  f_mask : Z;
  f_uid : Z;
  f_gid : Z;
  f_data : list Z;
  f_stat_ok : bool
}.


Record vfs_file_descriptor : Type := mk_vfs_fd {
  file_struct : option vfs_file;
  flags_mask : Z
}.


(** ** Tasks *)

Record thread_struct : Type := mk_thread {
  regs : pt_regs;
  fpu_enabled : bool
}.

Definition set_regs (v : pt_regs) (r : thread_struct) : thread_struct :=
  mk_thread v (fpu_enabled r).

Record sched_entity : Type := mk_sched_entity {
  prio : Z;
  start_runtime : Z;
  exec_start : Z;
  exec_runtime : Z;
  sum_exec_runtime : Z;
  vruntime : Z;
  period : Z;
  deadline : Z;
  arrivaltime : Z;
  executed : bool;
  is_periodic : bool;
  is_under_analysis : bool;
  next_period : Z;
  worst_case_exec : Z;
  utilization_factor : Z
}.


(** A task points to its parent and children by their position in the
    kernel's table of tasks.  [sighand] holds the handler of every signal (0
    is [SIG_DFL]); the masks are bit sets.  The terminal options and the
    keyboard buffer of a task are left out. *)
Record task_struct : Type := mk_task {
  pid : Z;
  state : task_state;
  parent : option nat;
  children : list nat;
  thread : thread_struct;
  uid : Z;
  ruid : Z;
  gid : Z;
  rgid : Z;
  sid : Z;
  pgid : Z;
  se : sched_entity;
  exit_code : Z;
  name : list Z;
  mm : option mm_struct;
  error_no : Z;
  cwd : list Z;
  fd_list : list vfs_file_descriptor;
  sighand : list Z;
  blocked : Z;
  real_blocked : Z;
  saved_sigmask : Z;
  pending : list Z;
  real_timer : option Z
}.

Definition set_children (v : list nat) (r : task_struct) : task_struct :=
  mk_task (pid r) (state r) (parent r) v (thread r) (uid r) (ruid r) (gid r) (rgid r) (sid r) (pgid r) (se r) (exit_code r) (name r) (mm r) (error_no r) (cwd r) (fd_list r) (sighand r) (blocked r) (real_blocked r) (saved_sigmask r) (pending r) (real_timer r).
Definition set_thread (v : thread_struct) (r : task_struct) : task_struct :=
  mk_task (pid r) (state r) (parent r) (children r) v (uid r) (ruid r) (gid r) (rgid r) (sid r) (pgid r) (se r) (exit_code r) (name r) (mm r) (error_no r) (cwd r) (fd_list r) (sighand r) (blocked r) (real_blocked r) (saved_sigmask r) (pending r) (real_timer r).
Definition set_uid (v : Z) (r : task_struct) : task_struct :=
  mk_task (pid r) (state r) (parent r) (children r) (thread r) v (ruid r) (gid r) (rgid r) (sid r) (pgid r) (se r) (exit_code r) (name r) (mm r) (error_no r) (cwd r) (fd_list r) (sighand r) (blocked r) (real_blocked r) (saved_sigmask r) (pending r) (real_timer r).
Definition set_ruid (v : Z) (r : task_struct) : task_struct :=
  mk_task (pid r) (state r) (parent r) (children r) (thread r) (uid r) v (gid r) (rgid r) (sid r) (pgid r) (se r) (exit_code r) (name r) (mm r) (error_no r) (cwd r) (fd_list r) (sighand r) (blocked r) (real_blocked r) (saved_sigmask r) (pending r) (real_timer r).
Definition set_gid (v : Z) (r : task_struct) : task_struct :=
  mk_task (pid r) (state r) (parent r) (children r) (thread r) (uid r) (ruid r) v (rgid r) (sid r) (pgid r) (se r) (exit_code r) (name r) (mm r) (error_no r) (cwd r) (fd_list r) (sighand r) (blocked r) (real_blocked r) (saved_sigmask r) (pending r) (real_timer r).
Definition set_rgid (v : Z) (r : task_struct) : task_struct :=
  mk_task (pid r) (state r) (parent r) (children r) (thread r) (uid r) (ruid r) (gid r) v (sid r) (pgid r) (se r) (exit_code r) (name r) (mm r) (error_no r) (cwd r) (fd_list r) (sighand r) (blocked r) (real_blocked r) (saved_sigmask r) (pending r) (real_timer r).
Definition set_sid (v : Z) (r : task_struct) : task_struct :=
  mk_task (pid r) (state r) (parent r) (children r) (thread r) (uid r) (ruid r) (gid r) (rgid r) v (pgid r) (se r) (exit_code r) (name r) (mm r) (error_no r) (cwd r) (fd_list r) (sighand r) (blocked r) (real_blocked r) (saved_sigmask r) (pending r) (real_timer r).
Definition set_pgid (v : Z) (r : task_struct) : task_struct :=
  mk_task (pid r) (state r) (parent r) (children r) (thread r) (uid r) (ruid r) (gid r) (rgid r) (sid r) v (se r) (exit_code r) (name r) (mm r) (error_no r) (cwd r) (fd_list r) (sighand r) (blocked r) (real_blocked r) (saved_sigmask r) (pending r) (real_timer r).
Definition set_name (v : list Z) (r : task_struct) : task_struct :=
  mk_task (pid r) (state r) (parent r) (children r) (thread r) (uid r) (ruid r) (gid r) (rgid r) (sid r) (pgid r) (se r) (exit_code r) v (mm r) (error_no r) (cwd r) (fd_list r) (sighand r) (blocked r) (real_blocked r) (saved_sigmask r) (pending r) (real_timer r).
Definition set_mm (v : option mm_struct) (r : task_struct) : task_struct :=
  mk_task (pid r) (state r) (parent r) (children r) (thread r) (uid r) (ruid r) (gid r) (rgid r) (sid r) (pgid r) (se r) (exit_code r) (name r) v (error_no r) (cwd r) (fd_list r) (sighand r) (blocked r) (real_blocked r) (saved_sigmask r) (pending r) (real_timer r).

Definition max_fd (t : task_struct) : Z := Z.of_nat (length (fd_list t)).

(** ** Kernel state *)

Inductive event : Type :=
| EvMmDestroy (m : mm_struct)              (* mm_destroy(m) *)
| EvMmCreateBlank (m : option mm_struct)   (* mm_create_blank gave m *)
| EvElfLoadFile (file : list Z) (r : Z)    (* elf_load_file on the file gave r *)
| EvRestoreContext (task : nat).           (* scheduler_restore_context *)

(** The pools are what the allocators will hand out, call after call: the
    pid manager, [kmalloc] (an address, 0 for NULL) and [mm_create_blank].
    An empty pool is an allocator that fails.  [vfs] is the file system, by
    path; [cur_pgd] is the page directory in use. *)
Record kstate : Type := mk_kstate {
  kmem : mem;
  tasks : list task_struct;
  current : option nat;
  runqueue : list nat;
  pid_pool : list Z;
  ticks : Z;
  kmalloc_pool : list Z;
  blank_mms : list mm_struct;
  vfs : list (list Z * vfs_file);
  errno : Z;
  cur_pgd : Z;
  trace : list event
}.

Definition set_kmem (v : mem) (r : kstate) : kstate :=
  mk_kstate v (tasks r) (current r) (runqueue r) (pid_pool r) (ticks r) (kmalloc_pool r) (blank_mms r) (vfs r) (errno r) (cur_pgd r) (trace r).
Definition set_tasks (v : list task_struct) (r : kstate) : kstate :=
  mk_kstate (kmem r) v (current r) (runqueue r) (pid_pool r) (ticks r) (kmalloc_pool r) (blank_mms r) (vfs r) (errno r) (cur_pgd r) (trace r).
Definition set_runqueue (v : list nat) (r : kstate) : kstate :=
  mk_kstate (kmem r) (tasks r) (current r) v (pid_pool r) (ticks r) (kmalloc_pool r) (blank_mms r) (vfs r) (errno r) (cur_pgd r) (trace r).
Definition set_pid_pool (v : list Z) (r : kstate) : kstate :=
  mk_kstate (kmem r) (tasks r) (current r) (runqueue r) v (ticks r) (kmalloc_pool r) (blank_mms r) (vfs r) (errno r) (cur_pgd r) (trace r).
Definition set_kmalloc_pool (v : list Z) (r : kstate) : kstate :=
  mk_kstate (kmem r) (tasks r) (current r) (runqueue r) (pid_pool r) (ticks r) v (blank_mms r) (vfs r) (errno r) (cur_pgd r) (trace r).
Definition set_blank_mms (v : list mm_struct) (r : kstate) : kstate :=
  mk_kstate (kmem r) (tasks r) (current r) (runqueue r) (pid_pool r) (ticks r) (kmalloc_pool r) v (vfs r) (errno r) (cur_pgd r) (trace r).
Definition set_errno (v : Z) (r : kstate) : kstate :=
  mk_kstate (kmem r) (tasks r) (current r) (runqueue r) (pid_pool r) (ticks r) (kmalloc_pool r) (blank_mms r) (vfs r) v (cur_pgd r) (trace r).
Definition set_trace (v : list event) (r : kstate) : kstate :=
  mk_kstate (kmem r) (tasks r) (current r) (runqueue r) (pid_pool r) (ticks r) (kmalloc_pool r) (blank_mms r) (vfs r) (errno r) (cur_pgd r) v.
Definition set_cur_pgd (v : Z) (r : kstate) : kstate :=
  mk_kstate (kmem r) (tasks r) (current r) (runqueue r) (pid_pool r) (ticks r) (kmalloc_pool r) (blank_mms r) (vfs r) (errno r) v (trace r).

(** Collaborators whose code is not among the sources: the permission
    check of the file system, the ELF loader (its return value, the entry
    point it stores and the address space of the task as it leaves it), the
    cloning of an address space (NULL when it fails), and what a [vfs_open]
    that finds no file leaves in [errno], from what [errno] held and the
    path. *)
Class Collaborators : Type := {
  vfs_valid_exec_permission : task_struct -> vfs_file -> bool;
  elf_check_file_type : vfs_file -> bool;
  elf_load_file : task_struct -> vfs_file -> Z * Z * option mm_struct;
  mm_clone : option mm_struct -> option mm_struct;
  vfs_open_errno : Z -> list Z -> Z
}.

(** Modelled from the spec: [mm_clone] is not among the sources.  By the
    specification it produces the address space of the child from the
    parent's, cloning every area of the parent with [mem_clone_vm_area], and
    after a fork parent and child have identical memory contents.
    [user_memory m a] is the byte at the user address [a] in the address
    space [m], if the address is mapped there. *)
Class CloneContract `{Collaborators} : Type := {
  user_memory : mm_struct -> Z -> option Z;
  mm_clone_copies :
    forall m : mm_struct,
    exists m', mm_clone (Some m) = Some m'
               /\ forall a, user_memory m' a = user_memory m a
}.

(** ** Tasks of the table *)

(** [*task] for a task pointer: a pointer outside the table is a fault. *)
Definition task_at (t : nat) : M kstate task_struct :=
  fun s => match tasks s !! t with
           | Some x => Ret x s
           | None => Fault s
           end.

Definition update_task (t : nat) (f : task_struct -> task_struct) : M kstate unit :=
  let* x := task_at t in
  modify (fun s => set_tasks (<[t := f x]> (tasks s)) s).

Definition update_regs (t : nat) (f : pt_regs -> pt_regs) : M kstate unit :=
  update_task t (fun x => set_thread (set_regs (f (regs (thread x))) (thread x)) x).

Definition set_eax (v : Z) (r : pt_regs) : pt_regs :=
  mk_pt_regs (gs r) (fs r) (es r) (ds r) (edi r) (esi r) (ebp r) (esp r)
             (ebx r) (edx r) (ecx r) v (int_no r) (err_code r)
             (eip r) (cs r) (eflags r) (useresp r) (ss r).
Definition set_ebp (v : Z) (r : pt_regs) : pt_regs :=
  mk_pt_regs (gs r) (fs r) (es r) (ds r) (edi r) (esi r) v (esp r)
             (ebx r) (edx r) (ecx r) (eax r) (int_no r) (err_code r)
             (eip r) (cs r) (eflags r) (useresp r) (ss r).
Definition set_eflags (v : Z) (r : pt_regs) : pt_regs :=
  mk_pt_regs (gs r) (fs r) (es r) (ds r) (edi r) (esi r) (ebp r) (esp r)
             (ebx r) (edx r) (ecx r) (eax r) (int_no r) (err_code r)
             (eip r) (cs r) v (useresp r) (ss r).
Definition set_eip (v : Z) (r : pt_regs) : pt_regs :=
  mk_pt_regs (gs r) (fs r) (es r) (ds r) (edi r) (esi r) (ebp r) (esp r)
             (ebx r) (edx r) (ecx r) (eax r) (int_no r) (err_code r)
             v (cs r) (eflags r) (useresp r) (ss r).
Definition set_useresp (v : Z) (r : pt_regs) : pt_regs :=
  mk_pt_regs (gs r) (fs r) (es r) (ds r) (edi r) (esi r) (ebp r) (esp r)
             (ebx r) (edx r) (ecx r) (eax r) (int_no r) (err_code r)
             (eip r) (cs r) (eflags r) v (ss r).

Definition emit (e : event) : M kstate unit :=
  modify (fun s => set_trace (trace s ++ [e]) s).

(** [pid_manager_get_free_pid()]; -1 when no pid is left. *)
Definition pid_manager_get_free_pid : M kstate Z :=
  fun s => match pid_pool s with
           | [] => Ret (-1) s
           | p :: ps => Ret p (set_pid_pool ps s)
           end.

Definition timer_get_ticks : M kstate Z := fun s => Ret (ticks s) s.

(** [kmalloc(size)]: an address, or 0. *)
Definition kmalloc (size : Z) : M kstate Z :=
  fun s => match kmalloc_pool s with
           | [] => Ret 0 s
           | a :: l => Ret a (set_kmalloc_pool l s)
           end.

(** [kfree(p)]: the pool never hands an address out twice, so releasing a
    block changes nothing this file can see. *)
Definition kfree (p : Z) : M kstate unit := ret tt.

(** Modelled from the spec: [scheduler_enqueue_task] is not among the
    sources; the run queue is the list of the tasks that can run. *)
Definition scheduler_enqueue_task (t : nat) : M kstate unit :=
  modify (fun s => set_runqueue (runqueue s ++ [t]) s).

(** Modelled from the spec: [scheduler_store_context] is not among the
    sources; it saves the register snapshot of the trap frame into the
    task. *)
Definition scheduler_store_context (f : pt_regs) (t : nat) : M kstate unit :=
  update_regs t (fun _ => f).

(** Modelled from the spec: [vfs_init_task] and [vfs_dup_task] are not among
    the sources; a fresh table has [MAX_OPEN_FD] empty descriptors, a
    duplicated one holds the descriptors of the source. *)
Definition vfs_init_task : list vfs_file_descriptor :=
  replicate MAX_OPEN_FD (mk_vfs_fd None 0).
Definition vfs_dup_task (source : task_struct) : list vfs_file_descriptor :=
  fd_list source.

Definition pt_regs_zero : pt_regs :=
  mk_pt_regs 0 0 0 0 0 0 0 0 0 0 0 0 0 0 0 0 0 0 0.

(** Number of signals ([NSIG]). *)
Definition NSIG : nat := 32.

(** ** Memory accesses and strings *)

Definition read8 (a : Z) : M kstate Z := fun s => Ret (load8 (kmem s) a) s.
Definition read32 (a : Z) : M kstate Z := fun s => Ret (load32 (kmem s) a) s.
Definition write8 (a v : Z) : M kstate unit :=
  modify (fun s => set_kmem (store8 (kmem s) a v) s).
Definition write32 (a v : Z) : M kstate unit :=
  modify (fun s => set_kmem (store32 (kmem s) a v) s).

(** [strlen(p)]; the bound stands for the memory the loop may walk. *)
Fixpoint strlen (fuel : nat) (p : Z) : M kstate Z :=
  match fuel with
  | O => out_of_fuel
  | S fuel =>
      let* c := read8 p in
      if c =? 0 then ret 0
      else let* n := strlen fuel (p + 1) in ret (n + 1)
  end.

(** The bytes of the C string at [p], without its terminator. *)
Fixpoint read_cstr (fuel : nat) (p : Z) : M kstate (list Z) :=
  match fuel with
  | O => out_of_fuel
  | S fuel =>
      let* c := read8 p in
      if c =? 0 then ret []
      else let* l := read_cstr fuel (p + 1) in ret (c :: l)
  end.

(** Copying [n] bytes upwards from [src] to [dst]. *)
Fixpoint copy_bytes (n : nat) (dst src : Z) : M kstate unit :=
  match n with
  | O => ret tt
  | S n =>
      let* c := read8 src in
      let* _ := write8 dst c in
      copy_bytes n (dst + 1) (src + 1)
  end.

(** [strcpy(dst, src)] into an array of [cap] bytes: a string that does not
    fit runs past the array. *)
Definition strcpy (fuel : nat) (cap dst src : Z) : M kstate unit :=
  let* n := strlen fuel src in
  if cap <=? n then fault
  else copy_bytes (S (Z.to_nat n)) dst src.

(** The macro [PUSH_VALUE_ON_STACK(stack, item)] is defined in a header that
    is not among the sources: it moves the stack pointer down by the size of
    the item and stores the item at the new top. *)
Definition push8 (stack v : Z) : M kstate Z :=
  let stack := wrap32 (stack - 1) in
  let* _ := write8 stack v in ret stack.
Definition push32 (stack v : Z) : M kstate Z :=
  let stack := wrap32 (stack - 4) in
  let* _ := write32 stack v in ret stack.

(** ** Counting and pushing arguments *)

Fixpoint count_args_loop (fuel : nat) (args argc : Z) : M kstate Z :=
  match fuel with
  | O => out_of_fuel
  | S fuel =>
      let* p := read32 (args + 4 * argc) in
      if p =? 0 then ret argc
      else count_args_loop fuel args (argc + 1)
  end.

Definition __count_args (fuel : nat) (args : Z) : M kstate Z :=
  count_args_loop fuel args 0.

(** [for (int i = 0; i < argc; i++) nchar += strlen(args[i]) + 1;] with [n]
    iterations left. *)
Fixpoint count_chars_loop (fuel n : nat) (args i nchar : Z) : M kstate Z :=
  match n with
  | O => ret nchar
  | S n =>
      let* p := read32 (args + 4 * i) in
      let* len := strlen fuel p in
      count_chars_loop fuel n args (i + 1) (to_int32 (nchar + (len + 1)))
  end.

Definition __count_args_bytes (fuel : nat) (args : Z) : M kstate Z :=
  let* argc := __count_args fuel args in
  let* nchar := count_chars_loop fuel (Z.to_nat argc) args 0 0 in
  ret (to_int32 (nchar + (argc + 1) * 4)).

(** The loop [for (int j = strlen(args[i]); j >= 0; --j)] that pushes the
    byte [args[i][j]], with [k] iterations left, that is [j = k - 1]. *)
Fixpoint push_chars_loop (k : nat) (args i stack : Z) : M kstate Z :=
  match k with
  | O => ret stack
  | S k =>
      let* p := read32 (args + 4 * i) in
      let* c := read8 (p + Z.of_nat k) in
      let* stack := push8 stack c in
      push_chars_loop k args i stack
  end.

(** The first loop of [__push_args_on_stack], with [n] iterations left, that
    is [i = n - 1]; [locs] holds [args_location[n..argc-1]].  The array
    [args_location] has 256 slots: writing another one runs past it. *)
Fixpoint push_strings_loop (fuel n : nat) (args stack : Z) (locs : list Z)
  : M kstate (Z * list Z) :=
  match n with
  | O => ret (stack, locs)
  | S n =>
      let i := Z.of_nat n in
      let* p := read32 (args + 4 * i) in
      let* len := strlen fuel p in
      let* stack := push_chars_loop (S (Z.to_nat len)) args i stack in
      if 256 <=? i then fault
      else push_strings_loop fuel n args stack (stack :: locs)
  end.

(** The second loop: [args_location[argc-1]] is pushed first. *)
Fixpoint push_pointers_loop (rlocs : list Z) (stack : Z) : M kstate Z :=
  match rlocs with
  | [] => ret stack
  | q :: rlocs =>
      let* stack := push32 stack q in
      push_pointers_loop rlocs stack
  end.

(** The stack pointer is passed by reference: the function gives back its
    final value, which is also the pointer it returns. *)
Definition __push_args_on_stack (fuel : nat) (stack args : Z) : M kstate Z :=
  let* argc := __count_args fuel args in
  let* (stack, locs) := push_strings_loop fuel (Z.to_nat argc) args stack [] in
  let* stack := push32 stack 0 in
  push_pointers_loop (rev locs) stack.

(** The strings of the NULL-terminated argument array at [args], as a
    program that is handed the array reads them. *)
Fixpoint read_args_loop (fuel n : nat) (args i : Z) : M kstate (list (list Z)) :=
  match n with
  | O => ret []
  | S n =>
      let* p := read32 (args + 4 * i) in
      let* l := read_cstr fuel p in
      let* ls := read_args_loop fuel n args (i + 1) in
      ret (l :: ls)
  end.

Definition read_args (fuel : nat) (args : Z) : M kstate (list (list Z)) :=
  let* argc := __count_args fuel args in
  read_args_loop fuel (Z.to_nat argc) args 0.

(** The bytes of an argument array with the strings [ls]: every string with
    its terminator, and the pointers with theirs. *)
Definition chars_bytes (ls : list (list Z)) : Z :=
  fold_right (fun l n => Z.of_nat (length l) + 1 + n) 0 ls.

Definition args_bytes (ls : list (list Z)) : Z :=
  chars_bytes ls + (Z.of_nat (length ls) + 1) * 4.

(** A bound that is enough for the loops over the memory of an argument
    array with the strings [ls]. *)
Definition enough_fuel (fuel : nat) (ls : list (list Z)) : Prop :=
  (length ls < fuel)%nat /\ Forall (fun l => (length l < fuel)%nat) ls.

(** ** The file system as this file uses it *)

Fixpoint bytes_eqb (a b : list Z) : bool :=
  match a, b with
  | [], [] => true
  | x :: a, y :: b => (x =? y) && bytes_eqb a b
  | _, _ => false
  end.

Fixpoint vfs_lookup (fs : list (list Z * vfs_file)) (path : list Z) : option vfs_file :=
  match fs with
  | [] => None
  | (p, f) :: fs => if bytes_eqb p path then Some f else vfs_lookup fs path
  end.

(** [vfs_read(file, buf, offset, nbytes)]: the bytes it stores in [buf];
    their number is what it returns. *)
Definition vfs_read (file : vfs_file) (offset nbytes : Z) : list Z :=
  take (Z.to_nat nbytes) (drop (Z.to_nat offset) (f_data file)).

(** [strchr(buf, 10)] followed by [*lineend = 0]: the line before the first
    newline of the C string, when it has one. *)
Fixpoint line_before_newline (buf : list Z) : option (list Z) :=
  match buf with
  | [] => None
  | c :: buf =>
      if c =? 0 then None
      else if c =? 10 then Some []
      else option_map (cons c) (line_before_newline buf)
  end.

(** ** What a call leaves of the tasks

    [alive]: the current task and the run queue are as they were, and every
    task is in the state it was in.  [ends R c]: however a run of [c] ends,
    by a return, in a panic, on a fault or on a failed assertion, the state
    it ends in is related by [R] to the state it started from.  A run that
    the loop bound of the model cuts short has no final state: [state_of]
    then gives the initial one. *)
Definition alive (s s' : kstate) : Prop :=
  current s' = current s /\ runqueue s' = runqueue s
  /\ state <$> tasks s' = state <$> tasks s.

Definition ends {A} (R : kstate -> kstate -> Prop) (c : M kstate A) : Prop :=
  forall s, R s (state_of s (c s)).


Section Code.
Context `{config : Config} `{others : Collaborators}.

(** The task is built in a zeroed block and linked into the table; the
    function gives back its pointer.  [source] and [parent] are task pointers
    or NULL. *)
Definition __alloc_task (source parent : option nat) (name : option (list Z))
  : M kstate nat :=
  let* s := get in
  let proc := length (tasks s) in
  let* new_pid := pid_manager_get_free_pid in
  let* src :=
    match source with
    | Some i => let* x := task_at i in ret (Some x)
    | None => ret None
    end in
  let* _ :=
    match parent with
    | Some i => update_task i (fun x => set_children (children x ++ [proc]) x)
    | None => ret tt
    end in
  let* now := timer_get_ticks in
  let task :=
    mk_task
      new_pid TASK_RUNNING parent []
      (match src with Some x => thread x | None => mk_thread pt_regs_zero false end)
      0 0 0 0 0 0
      (mk_sched_entity DEFAULT_PRIO now now 0 0 0 0 0 now false false false 0 0 0)
      0
      (match name with Some n => n | None => [] end)
      None
      0
      (match src with Some x => cwd x | None => bytes_of_string "/" end)
      (match src with Some x => vfs_dup_task x | None => vfs_init_task end)
      (replicate NSIG 0) 0 0 0 [] None in
  let* _ := modify (fun s => set_tasks (tasks s ++ [task]) s) in
  ret proc.

Definition sys_fork (f : pt_regs) : M kstate Z :=
  let* s := get in
  match current s with
  | None => kernel_panic "There is no current process!"
  | Some cur =>
      let* _ := scheduler_store_context f cur in
      let* c := task_at cur in
      let* proc := __alloc_task (Some cur) (Some cur) (Some (name c)) in
      let* c := task_at cur in
      let* _ := update_task proc (set_mm (mm_clone (mm c))) in
      let* _ := update_regs proc (set_eax 0) in
      let* _ := update_regs proc (fun r => set_eflags (Z.lor (eflags r) EFLAG_IF) r) in
      let* c := task_at cur in
      let* _ := update_task proc (set_sid (sid c)) in
      let* _ := update_task proc (set_pgid (pgid c)) in
      let* _ := update_task proc (set_uid (uid c)) in
      let* _ := update_task proc (set_ruid (ruid c)) in
      let* _ := update_task proc (set_gid (gid c)) in
      let* _ := update_task proc (set_rgid (rgid c)) in
      let* _ := scheduler_enqueue_task proc in
      let* p := task_at proc in
      ret (pid p)
  end.

(** The child [sys_fork] builds from the table entry [p] of the parent
    (after the trap frame was saved in it), with the pid and the time it is
    given. *)
Definition forked_child (cur : nat) (p : task_struct) (new_pid now : Z) : task_struct :=
  mk_task new_pid TASK_RUNNING (Some cur) []
    (mk_thread
       (set_eflags (Z.lor (eflags (regs (thread p))) EFLAG_IF)
                   (set_eax 0 (regs (thread p))))
       (fpu_enabled (thread p)))
    (uid p) (ruid p) (gid p) (rgid p) (sid p) (pgid p)
    (mk_sched_entity DEFAULT_PRIO now now 0 0 0 0 0 now false false false 0 0 0)
    0 (name p) (mm_clone (mm p)) 0 (cwd p) (fd_list p)
    (replicate NSIG 0) 0 0 0 [] None.

(** ** Loading an executable *)

(** [mm_destroy] and [mm_create_blank] are not among the sources: the first
    is recorded, the second hands out the next blank address space. *)
Definition mm_destroy (m : mm_struct) : M kstate unit := emit (EvMmDestroy m).

Definition mm_create_blank (stack_size : Z) : M kstate (option mm_struct) :=
  fun s =>
    match blank_mms s with
    | [] => Ret None (set_trace (trace s ++ [EvMmCreateBlank None]) s)
    | m :: l =>
        Ret (Some m)
            (set_trace (trace s ++ [EvMmCreateBlank (Some m)]) (set_blank_mms l s))
    end.

Definition paging_get_current_pgd : M kstate Z := fun s => Ret (cur_pgd s) s.
Definition paging_switch_pgd (dir : Z) : M kstate unit := modify (set_cur_pgd dir).

Definition __reset_process (task : nat) : M kstate Z :=
  let* m := mm_create_blank DEFAULT_STACK_SIZE in
  let* _ := update_task task (set_mm m) in
  match m with
  | None => ret 0
  | Some m =>
      let* crtdir := paging_get_current_pgd in
      let* _ := paging_switch_pgd (pgd m) in
      let* _ := modify (fun s =>
                  set_kmem (zero_range (kmem s) (start_stack m) DEFAULT_STACK_SIZE) s) in
      let* _ := update_regs task (set_ebp (wrap32 (start_stack m + DEFAULT_STACK_SIZE))) in
      let* _ := update_regs task (fun r => set_useresp (ebp r) r) in
      let* _ := update_regs task (fun r => set_eflags (Z.lor (eflags r) EFLAG_IF) r) in
      let* _ := paging_switch_pgd crtdir in
      ret 1
  end.

(** The task [__reset_process] leaves when [mm_create_blank] gave it the
    address space [m]: its stack pointers are at the top of the stack of [m]
    and its interrupt flag is set. *)
Definition reset_task (m : mm_struct) (t : task_struct) : task_struct :=
  let top := wrap32 (start_stack m + DEFAULT_STACK_SIZE) in
  let r := regs (thread t) in
  set_thread
    (set_regs (set_eflags (Z.lor (eflags r) EFLAG_IF)
                 (set_useresp top (set_ebp top r)))
              (thread t))
    (set_mm (Some m) t).

(** The two bytes the read does not fill, for a file shorter than that, are
    taken as 0. *)
Definition __has_shebang (file : vfs_file) : bool :=
  let buf := vfs_read file 0 2 in
  (nth 0 buf 0 =? 35) && (nth 1 buf 0 =? 33).

(** Modelled from the spec: [vfs_open(path, O_RDONLY, 0)], whose code is not
    among the sources, by the contract of the file system that the
    specification gives, [open(path, flags, mode)] returning a file pointer:
    the file at the path, or NULL.  What it then leaves in [errno] is the
    parameter [vfs_open_errno]. *)
Definition vfs_open (fuel : nat) (path : Z) : M kstate (option vfs_file) :=
  let* name := (if path =? 0 then ret [] else read_cstr fuel path) in
  let* s := get in
  match (if path =? 0 then None else vfs_lookup (vfs s) name) with
  | Some file => ret (Some file)
  | None =>
      let* _ := modify (fun s => set_errno (vfs_open_errno (errno s) name) s) in
      ret None
  end.

(** [strdup(buf)] for the string [line]: a block of [kmalloc] that holds a
    copy, or NULL. *)
Definition strdup (line : list Z) : M kstate Z :=
  let* p := kmalloc (Z.of_nat (length line) + 1) in
  if p =? 0 then ret 0
  else
    let* _ := modify (fun s => set_kmem (store_bytes (kmem s) p (line ++ [0])) s) in
    ret p.

(** [__load_executable] from its label [start] on, with the passes the
    [goto start] can still take; the entry point is written through the
    pointer to the task's [eip]. *)
Fixpoint load_executable_from (passes fuel : nat) (path : Z) (task : nat)
    (interpreter_loop : Z) : M kstate Z :=
  match passes with
  | O => out_of_fuel
  | S passes =>
      let* file := vfs_open fuel path in
      match file with
      | None => let* s := get in ret (- errno s)
      | Some file =>
          let* t := task_at task in
          if negb (vfs_valid_exec_permission t file) then ret (- EACCES)
          else if negb (elf_check_file_type file || __has_shebang file) then
            ret (- ENOEXEC)
          else
            let* _ := (if has_flag (f_mask file) S_ISUID
                       then update_task task (set_uid (f_uid file)) else ret tt) in
            let* _ := (if has_flag (f_mask file) S_ISGID
                       then update_task task (set_gid (f_gid file)) else ret tt) in
            let* t := task_at task in
            let* _ := match mm t with
                      | Some m => mm_destroy m
                      | None => ret tt
                      end in
            let* ok := __reset_process task in
            if ok =? 0 then ret (- ENOMEM)
            else if __has_shebang file then
              if negb (interpreter_loop =? 0) then
                let* _ := kfree path in
                ret (- ELOOP)
              else
                let buf := vfs_read file 2 PATH_MAX in
                let bytes_read := Z.of_nat (length buf) in
                (* buf[bytes_read] = 0 in an array of PATH_MAX bytes *)
                if PATH_MAX <=? bytes_read then fault
                else
                  match line_before_newline buf with
                  | None => ret (- ENAMETOOLONG)
                  | Some line =>
                      let* path := strdup line in
                      load_executable_from passes fuel path task (interpreter_loop + 1)
                  end
            else
              let* t := task_at task in
              let '(r, entry, m) := elf_load_file t file in
              let* _ := update_task task (set_mm m) in
              let* _ := update_regs task (set_eip entry) in
              let* _ := emit (EvElfLoadFile (f_name file) r) in
              if negb (interpreter_loop =? 0) then
                let* _ := kfree path in
                ret 2
              else ret r
      end
  end.

Definition __load_executable (fuel : nat) (path : Z) (task : nat) : M kstate Z :=
  load_executable_from 2 fuel path task 0.

(** The task with the effective ids [__load_executable] gives it for a file
    with the setuid or the setgid bit. *)
Definition with_file_ids (file : vfs_file) (t : task_struct) : task_struct :=
  let t := if has_flag (f_mask file) S_ISUID then set_uid (f_uid file) t else t in
  if has_flag (f_mask file) S_ISGID then set_gid (f_gid file) t else t.

(** The task [__load_executable] leaves when it has loaded the ELF file
    [file] into the blank address space [b]. *)
Definition loaded_task (file : vfs_file) (b : mm_struct) (t : task_struct)
  : task_struct :=
  let t := reset_task b (with_file_ids file t) in
  let '(_, entry, m) := elf_load_file t file in
  set_thread (set_regs (set_eip entry (regs (thread t))) (thread t)) (set_mm m t).

(** ** [execve] *)

(** What the section that copies the arguments leaves to the rest of
    [sys_execve]. *)
Record saved_args : Type := mk_saved_args {
  sa_argc : Z;
  sa_argv_bytes : Z;
  sa_envp_bytes : Z;
  sa_args_mem : Z;
  sa_saved_argv : Z;
  sa_saved_envp : Z
}.

(** The section COPY PROGRAM ARGUMENTS of [sys_execve]; [inl r] is an early
    [return r]. *)
Definition sys_execve_copy_arguments (fuel : nat) (origin_argv origin_envp : Z)
  : M kstate (Z + saved_args) :=
  let* argc := __count_args fuel origin_argv in
  let* argv_bytes := __count_args_bytes fuel origin_argv in
  let* envc := __count_args fuel origin_envp in
  let* envp_bytes := __count_args_bytes fuel origin_envp in
  if (argv_bytes <? 0) || (envp_bytes <? 0) then ret (inl (-1))
  else
    let* args_mem := kmalloc (wrap32 (to_int32 (argv_bytes + envp_bytes))) in
    if args_mem =? 0 then ret (inl (-1))
    else
      let args_mem_ptr := wrap32 (args_mem + to_int32 (argv_bytes + envp_bytes)) in
      let* args_mem_ptr := __push_args_on_stack fuel args_mem_ptr origin_argv in
      let saved_argv := args_mem_ptr in
      let* args_mem_ptr := __push_args_on_stack fuel args_mem_ptr origin_envp in
      let saved_envp := args_mem_ptr in
      let* _ := assert (args_mem_ptr =? args_mem) in
      ret (inr (mk_saved_args argc argv_bytes envp_bytes args_mem saved_argv saved_envp)).

(** The branch of [sys_execve] for a loaded interpreter: a new argument
    array with the file name as its second entry, copied with the
    environment into a block of its own. *)
Fixpoint shift_argv_loop (n : nat) (int_argv saved_argv i : Z) : M kstate unit :=
  match n with
  | O => ret tt
  | S n =>
      let* q := read32 (saved_argv + 4 * i) in
      let* _ := write32 (int_argv + 4 * (i + 1)) q in
      shift_argv_loop n int_argv saved_argv (i + 1)
  end.

Definition sys_execve_interpreter_arguments (fuel : nat) (saved_filename : Z)
    (a : saved_args) : M kstate (Z + saved_args) :=
  let argc := sa_argc a in
  let* int_argv := kmalloc (wrap32 ((argc + 2) * 4)) in
  if int_argv =? 0 then ret (inl (-1))
  else
    let* q := read32 (sa_saved_argv a) in
    let* _ := write32 int_argv q in
    let* _ := write32 (int_argv + 4) saved_filename in
    let* _ := shift_argv_loop (Z.to_nat argc) int_argv (sa_saved_argv a) 1 in
    let argc := to_int32 (argc + 1) in
    let* int_argv_bytes := __count_args_bytes fuel int_argv in
    let* int_args_mem := kmalloc (wrap32 int_argv_bytes) in
    if int_args_mem =? 0 then ret (inl (-1))
    else
      let int_args_mem_ptr :=
        wrap32 (int_args_mem + to_int32 (int_argv_bytes + sa_envp_bytes a)) in
      let* int_args_mem_ptr := __push_args_on_stack fuel int_args_mem_ptr int_argv in
      let saved_argv := int_args_mem_ptr in
      let* int_args_mem_ptr :=
        __push_args_on_stack fuel int_args_mem_ptr (sa_saved_envp a) in
      let saved_envp := int_args_mem_ptr in
      let* _ := assert (int_args_mem_ptr =? int_args_mem) in
      let* _ := kfree (sa_args_mem a) in
      ret (inr (mk_saved_args argc (sa_argv_bytes a) (sa_envp_bytes a)
                              int_args_mem saved_argv saved_envp)).

(** [current->mm->field = v] *)
Definition update_mm (task : nat) (f : mm_struct -> mm_struct) : M kstate unit :=
  let* t := task_at task in
  match mm t with
  | None => fault
  | Some m => update_task task (set_mm (Some (f m)))
  end.

(** The section INITIALIZE PROGRAM ARGUMENTS of [sys_execve]. *)
Definition sys_execve_push_arguments (fuel : nat) (cur : nat) (a : saved_args)
  : M kstate unit :=
  let* crtdir := paging_get_current_pgd in
  let* t := task_at cur in
  match mm t with
  | None => fault
  | Some m =>
      let* _ := paging_switch_pgd (pgd m) in
      let sp := useresp (regs (thread t)) in
      let* _ := update_mm cur (set_arg_start sp) in
      let* sp := __push_args_on_stack fuel sp (sa_saved_argv a) in
      let* _ := update_regs cur (set_useresp sp) in
      let final_argv := sp in
      let* _ := update_mm cur (set_arg_end sp) in
      let* _ := update_mm cur (set_env_start sp) in
      let* sp := __push_args_on_stack fuel sp (sa_saved_envp a) in
      let* _ := update_regs cur (set_useresp sp) in
      let final_envp := sp in
      let* _ := update_mm cur (set_env_end sp) in
      let* sp := push32 sp final_envp in
      let* sp := push32 sp final_argv in
      let* sp := push32 sp (sa_argc a) in
      let* _ := update_regs cur (set_useresp sp) in
      paging_switch_pgd crtdir
  end.

(** Modelled from the spec: [scheduler_restore_context] is not among the
    sources; it reverses [scheduler_store_context], so the trap frame
    becomes the register set saved in the task. *)
Definition scheduler_restore_context (task : nat) : M kstate pt_regs :=
  let* t := task_at task in
  let* _ := emit (EvRestoreContext task) in
  ret (regs (thread t)).

(** [sys_execve] gives back its return value and the trap frame as it leaves
    it.  [name_buffer] and [saved_filename] are the addresses of its two
    local arrays. *)
Definition sys_execve (fuel : nat) (name_buffer saved_filename : Z) (f : pt_regs)
  : M kstate (Z * pt_regs) :=
  let* s := get in
  match current s with
  | None => kernel_panic "There is no current process!"
  | Some cur =>
      let filename := ebx f in
      if filename =? 0 then ret (-1, f)
      else
        let origin_argv := ecx f in
        let origin_envp := edx f in
        if origin_argv =? 0 then ret (-1, f)
        else
          let* argv0 := read32 origin_argv in
          if argv0 =? 0 then ret (-1, f)
          else if origin_envp =? 0 then ret (-1, f)
          else
            let* _ := strcpy fuel NAME_MAX name_buffer argv0 in
            let* _ := strcpy fuel PATH_MAX saved_filename filename in
            let* r := sys_execve_copy_arguments fuel origin_argv origin_envp in
            match r with
            | inl code => ret (code, f)
            | inr a =>
                let* r := __load_executable fuel filename cur in
                if r <=? 0 then
                  let* _ := kfree (sa_args_mem a) in
                  ret (r, f)
                else
                  let* r := (if r =? 2
                             then sys_execve_interpreter_arguments fuel saved_filename a
                             else ret (inr a)) in
                  match r with
                  | inl code => ret (code, f)
                  | inr a =>
                      let* _ := sys_execve_push_arguments fuel cur a in
                      let* new_name := read_cstr fuel name_buffer in
                      let* _ := update_task cur (set_name new_name) in
                      let* _ := kfree (sa_args_mem a) in
                      let* f := scheduler_restore_context cur in
                      ret (0, f)
                  end
            end
  end.

End Code.

End Process.

(** * Memory mapping ([sys_mmap], [sys_munmap]) *)

Module Mmap.
Import Process.

(** The operations on areas that [sys_mmap] and [sys_munmap] call; their code
    is not among the sources.  An area is designated by its position in the
    list of its address space.  [vm_area_search_free_area] gives the start
    it found, or [None] for its non-zero status; [vm_area_create] gives the
    address space as it leaves it and the new area, or [None] for NULL;
    [vm_area_destroy] gives its status and the address space as it leaves
    it. *)
Class VmArea : Type := {
  vm_area_is_valid : mm_struct -> Z -> Z -> bool;
  vm_area_search_free_area : mm_struct -> Z -> option Z;
  vm_area_create : mm_struct -> Z -> Z -> Z -> option (mm_struct * nat);
  vm_area_destroy : mm_struct -> nat -> Z * mm_struct
}.

Section Code.
Context `{flags_of : Paging.MemmapFlags} `{areas : VmArea}.

(** [fget] of [process.c]. *)
Definition fget (fd : Z) : M kstate (option vfs_file_descriptor) :=
  let* s := get in
  match current s with
  | None => assert_fail   (* assert(current) *)
  | Some cur =>
      let* t := task_at cur in
      if (fd <? 0) || (max_fd t <=? fd) then ret None
      else ret (fd_list t !! Z.to_nat fd)
  end.

(** [sys_mmap] gives back the address it returns, 0 for NULL. *)
Definition sys_mmap (addr length prot flags fd offset : Z) : M kstate Z :=
  let* s := get in
  let task := current s in
  let* file_descriptor := fget fd in
  match file_descriptor with
  | None => ret 0
  | Some file_descriptor =>
  match file_struct file_descriptor with
  | None => ret 0
  | Some file =>
  if negb (f_stat_ok file) then ret 0
  else
  let st_size := Z.of_nat (List.length (f_data file)) in
  if wrap32 st_size <? wrap32 (offset + length) then ret 0
  else
  match task with
  | None => fault
  | Some task =>
  let* t := task_at task in
  match mm t with
  | None => fault
  | Some m =>
  let found :=
    if negb (addr =? 0) && vm_area_is_valid m addr (wrap32 (addr + length))
    then Some addr
    else vm_area_search_free_area m length in
  match found with
  | None => ret 0
  | Some start =>
  match vm_area_create m start length
          (Z.lor Paging.MM_PRESENT (Z.lor Paging.MM_RW
             (Z.lor Paging.MM_COW Paging.MM_USER))) with
  | None => ret 0
  | Some (m, segment) =>
  (* task->mm->mmap_cache->vm_flags = flags *)
  match mmap_cache m with
  | None => fault
  | Some c =>
  match mmap_list m !! c with
  | None => fault
  | Some area =>
  let m := set_mmap_list (<[c := set_vm_flags flags area]> (mmap_list m)) m in
  let* _ := update_task task (set_mm (Some m)) in
  match mmap_list m !! segment with
  | None => fault
  | Some segment => ret (vm_start segment)
  end end end end end end end end end.

(** Whether an area is the one [sys_munmap] looks for. *)
Definition munmap_match (start length : Z) (segment : vm_area_struct) : bool :=
  let size := wrap32 (vm_end segment - vm_start segment) in
  (start =? vm_start segment) && (length =? size).

(** The loop of [sys_munmap], from the last area of the list to the first,
    with the [n] first areas left to visit. *)
Fixpoint sys_munmap_loop (n : nat) (task : nat) (m : mm_struct) (start length : Z)
  : M kstate Z :=
  match n with
  | O => ret 1
  | S n =>
      match mmap_list m !! n with
      | None => ret (-1)
      | Some segment =>
          if munmap_match start length segment then
            let '(r, m) := vm_area_destroy m n in
            let* _ := update_task task (set_mm (Some m)) in
            if r <? 0 then ret (-1) else ret 0
          else sys_munmap_loop n task m start length
      end
  end.

Definition sys_munmap (addr length : Z) : M kstate Z :=
  let* s := get in
  match current s with
  | None => fault
  | Some task =>
      let* t := task_at task in
      match mm t with
      | None => fault
      | Some m =>
          sys_munmap_loop (List.length (mmap_list m)) task m addr length
      end
  end.

(** The state [sys_munmap] leaves when it destroys the area at position [i]
    of the address space [m] of the task [cur], and what it returns. *)
Definition after_destroy (cur : nat) (t : task_struct) (m : mm_struct) (i : nat)
    (st : kstate) : kstate :=
  set_tasks (<[cur := set_mm (Some (snd (vm_area_destroy m i))) t]> (tasks st)) st.

Definition destroy_status (m : mm_struct) (i : nat) : Z :=
  if fst (vm_area_destroy m i) <? 0 then -1 else 0.

(** No area at a position from [p] (excluded) up to [n] (excluded), or below
    [n], is the one looked for. *)
Definition no_match_between (l : list vm_area_struct) (start length : Z) (p n : nat)
  : Prop :=
  forall j seg, (p < j < n)%nat -> l !! j = Some seg ->
                munmap_match start length seg = false.

Definition no_match_below (l : list vm_area_struct) (start length : Z) (n : nat)
  : Prop :=
  forall j seg, (j < n)%nat -> l !! j = Some seg ->
                munmap_match start length seg = false.

End Code.

(** ** The operations on areas, from the specification *)

(** Modelled from the spec: the list of areas is kept sorted by start
    address.  The position of a new area that starts at [start] is after the
    areas that start at or below it. *)
Fixpoint insert_position (l : list vm_area_struct) (start : Z) : nat :=
  match l with
  | [] => O
  | a :: l => if vm_start a <=? start then S (insert_position l start) else O
  end.

(** Modelled from the spec: [vm_area_create] is not among the sources.  It
    adds the area from [start] to [start + size] to the list, which stays
    sorted by start address, makes it the cached area and counts it; it gives
    NULL when the allocation fails, which [can_alloc] decides. *)
Definition spec_vm_area_create (can_alloc : mm_struct -> bool)
    (m : mm_struct) (start size pgflags : Z) : option (mm_struct * nat) :=
  if can_alloc m then
    let p := insert_position (mmap_list m) start in
    let area := mk_vm_area start (wrap32 (start + size)) pgflags in
    let l := take p (mmap_list m) ++ area :: drop p (mmap_list m) in
    Some (set_map_count (map_count m + 1)
            (set_mmap_cache (Some p) (set_mmap_list l m)), p)
  else None.

(** Modelled from the spec: [vm_area_destroy] is not among the sources.  It
    removes the area from the list of its address space and counts it out. *)
Definition spec_vm_area_destroy (m : mm_struct) (segment : nat) : Z * mm_struct :=
  (0, set_map_count (map_count m - 1)
        (set_mmap_list (delete segment (mmap_list m)) m)).

(** The operations on areas with the two above, whatever the validation of a
    range and the search of a free one do. *)
Definition spec_vm_area (is_valid : mm_struct -> Z -> Z -> bool)
    (search : mm_struct -> Z -> option Z) (can_alloc : mm_struct -> bool) : VmArea :=
  {| vm_area_is_valid := is_valid;
     vm_area_search_free_area := search;
     vm_area_create := spec_vm_area_create can_alloc;
     vm_area_destroy := spec_vm_area_destroy |}.

(** The areas of a list are sorted by start address. *)
Fixpoint sorted_by_start (l : list vm_area_struct) : Prop :=
  match l with
  | [] => True
  | a :: l => Forall (fun b => vm_start a <= vm_start b) l /\ sorted_by_start l
  end.

End Mmap.

(** * The working directory ([sys_getcwd], [sys_fchdir]) *)

Module Cwd.
Import Mem Process.

(** What [sys_fchdir] uses and the sources do not have: the resolution of a
    path to an absolute path that fits the buffer it is given ([None] when
    [resolve_path] fails), the field [flags] of a file, and three
    constants. *)
Class Directories : Type := {
  resolve_path : list Z -> option (list Z);
  file_flags : vfs_file -> Z;
  DT_DIR : Z;
  EBADF : Z;
  ENOTDIR : Z
}.

Definition set_cwd (v : list Z) (r : task_struct) : task_struct :=
  mk_task (pid r) (state r) (parent r) (children r) (thread r) (uid r) (ruid r)
    (gid r) (rgid r) (sid r) (pgid r) (se r) (exit_code r) (name r) (mm r)
    (error_no r) v (fd_list r) (sighand r) (blocked r) (real_blocked r)
    (saved_sigmask r) (pending r) (real_timer r).

(** The bytes [strncpy(dst, src, n)] writes for the C string [src]: those of
    the string as far as [n] goes, then NULs up to [n] bytes. *)
Definition strncpy_bytes (src : list Z) (n : Z) : list Z :=
  take (Z.to_nat n) (src ++ replicate (Z.to_nat n) 0).

Section Code.
Context `{config : Config} `{dirs : Directories}.

(** [sys_getcwd] gives back the pointer it returns; [(char * )-EACCES] is
    the 32-bit pattern of the negative number. *)
Definition sys_getcwd (buf size : Z) : M kstate Z :=
  let* s := get in
  match current s with
  | Some cur =>
      if negb (buf =? 0) then
        let* t := task_at cur in
        let* _ := modify (fun s =>
                    set_kmem (store_bytes (kmem s) buf
                                (strncpy_bytes (cwd t) size)) s) in
        ret buf
      else ret (wrap32 (- EACCES))
  | None => ret (wrap32 (- EACCES))
  end.

Definition sys_fchdir (fd : Z) : M kstate Z :=
  let* s := get in
  match current s with
  | None => assert_fail   (* assert(current) *)
  | Some cur =>
      let* t := task_at cur in
      if (fd <? 0) || (max_fd t <=? fd) then ret (- EBADF)
      else
        match fd_list t !! Z.to_nat fd with
        | None => fault
        | Some vfd =>
            match file_struct vfd with
            | None => ret (- ENOENT)
            | Some file =>
                if negb (has_flag (file_flags file) DT_DIR) then ret (- ENOTDIR)
                else
                  match resolve_path (f_name file) with
                  | None => ret (- ENOENT)
                  | Some absolute_path =>
                      let* _ := update_task cur (set_cwd absolute_path) in
                      ret 0
                  end
            end
        end
  end.

End Code.

End Cwd.

(** * The real-time clock ([rtc.c]) *)

Module Rtc.

Definition CMOS_ADDR : Z := 112.   (* 0x70 *)
Definition CMOS_DATA : Z := 113.   (* 0x71 *)

(** The declaration of [tm_t] is not among the sources: the record has the
    fields this file reads and writes, all of type [int]. *)
Record tm_t : Type := mk_tm {
  tm_sec : Z; tm_min : Z; tm_hour : Z; tm_mday : Z;
  tm_mon : Z; tm_year : Z; tm_wday : Z
}.

Definition set_tm_sec (v : Z) (t : tm_t) : tm_t :=
  mk_tm v (tm_min t) (tm_hour t) (tm_mday t) (tm_mon t) (tm_year t) (tm_wday t).
Definition set_tm_min (v : Z) (t : tm_t) : tm_t :=
  mk_tm (tm_sec t) v (tm_hour t) (tm_mday t) (tm_mon t) (tm_year t) (tm_wday t).
Definition set_tm_hour (v : Z) (t : tm_t) : tm_t :=
  mk_tm (tm_sec t) (tm_min t) v (tm_mday t) (tm_mon t) (tm_year t) (tm_wday t).
Definition set_tm_mday (v : Z) (t : tm_t) : tm_t :=
  mk_tm (tm_sec t) (tm_min t) (tm_hour t) v (tm_mon t) (tm_year t) (tm_wday t).
Definition set_tm_mon (v : Z) (t : tm_t) : tm_t :=
  mk_tm (tm_sec t) (tm_min t) (tm_hour t) (tm_mday t) v (tm_year t) (tm_wday t).
Definition set_tm_year (v : Z) (t : tm_t) : tm_t :=
  mk_tm (tm_sec t) (tm_min t) (tm_hour t) (tm_mday t) (tm_mon t) v (tm_wday t).
Definition set_tm_wday (v : Z) (t : tm_t) : tm_t :=
  mk_tm (tm_sec t) (tm_min t) (tm_hour t) (tm_mday t) (tm_mon t) (tm_year t) v.

(** The calls to the interrupt controller, whose code is not among the
    sources, are recorded. *)
Inductive event : Type :=
| EvIrqInstall      (* irq_install_handler(IRQ_REAL_TIME_CLOCK, ...) *)
| EvIrqEnable       (* pic8259_irq_enable(IRQ_REAL_TIME_CLOCK) *)
| EvIrqUninstall    (* irq_uninstall_handler(IRQ_REAL_TIME_CLOCK, ...) *)
| EvIrqDisable.     (* pic8259_irq_disable(IRQ_REAL_TIME_CLOCK) *)

(** The driver's variables and the CMOS chip behind its two ports.
    [cmos_index] is the register selected by the last write to the address
    port; [cmos n r] is the byte the data port gives to its [n]-th read when
    the register [r] is selected; [writes] are the register writes done
    through the data port. *)
Record rstate : Type := mk_rstate {
  cmos_index : Z;
  cmos : nat -> Z -> Z;
  reads : nat;
  writes : list (Z * Z);
  global_time : tm_t;
  previous_global_time : tm_t;
  is_bcd : Z;
  first_update : Z;
  trace : list event
}.

Definition set_cmos_index (v : Z) (r : rstate) : rstate :=
  mk_rstate v (cmos r) (reads r) (writes r) (global_time r)
            (previous_global_time r) (is_bcd r) (first_update r) (trace r).
Definition set_reads (v : nat) (r : rstate) : rstate :=
  mk_rstate (cmos_index r) (cmos r) v (writes r) (global_time r)
            (previous_global_time r) (is_bcd r) (first_update r) (trace r).
Definition set_writes (v : list (Z * Z)) (r : rstate) : rstate :=
  mk_rstate (cmos_index r) (cmos r) (reads r) v (global_time r)
            (previous_global_time r) (is_bcd r) (first_update r) (trace r).
Definition set_global_time (v : tm_t) (r : rstate) : rstate :=
  mk_rstate (cmos_index r) (cmos r) (reads r) (writes r) v
            (previous_global_time r) (is_bcd r) (first_update r) (trace r).
Definition set_previous_global_time (v : tm_t) (r : rstate) : rstate :=
  mk_rstate (cmos_index r) (cmos r) (reads r) (writes r) (global_time r)
            v (is_bcd r) (first_update r) (trace r).
Definition set_is_bcd (v : Z) (r : rstate) : rstate :=
  mk_rstate (cmos_index r) (cmos r) (reads r) (writes r) (global_time r)
            (previous_global_time r) v (first_update r) (trace r).
Definition set_first_update (v : Z) (r : rstate) : rstate :=
  mk_rstate (cmos_index r) (cmos r) (reads r) (writes r) (global_time r)
            (previous_global_time r) (is_bcd r) v (trace r).
Definition set_trace (v : list event) (r : rstate) : rstate :=
  mk_rstate (cmos_index r) (cmos r) (reads r) (writes r) (global_time r)
            (previous_global_time r) (is_bcd r) (first_update r) v.

Definition byte (x : Z) : Z := x mod 256.

(** [outportb] and [inportb] of [io/port_io.h], which is not among the
    sources, on the two ports this file uses. *)
Definition outportb (port value : Z) : M rstate unit :=
  modify (fun s =>
            if port =? CMOS_ADDR then set_cmos_index (byte value) s
            else if port =? CMOS_DATA then
              set_writes (writes s ++ [(cmos_index s, byte value)]) s
            else s).

Definition inportb (port : Z) : M rstate Z :=
  fun s =>
    if port =? CMOS_DATA then
      Ret (byte (cmos s (reads s) (cmos_index s))) (set_reads (S (reads s)) s)
    else Ret 0 s.

Definition emit (e : event) : M rstate unit :=
  modify (fun s => set_trace (trace s ++ [e]) s).

Definition rtc_are_different (t0 t1 : tm_t) : Z :=
  if negb (tm_sec t0 =? tm_sec t1) then 1
  else if negb (tm_min t0 =? tm_min t1) then 1
  else if negb (tm_hour t0 =? tm_hour t1) then 1
  else if negb (tm_mon t0 =? tm_mon t1) then 1
  else if negb (tm_year t0 =? tm_year t1) then 1
  else if negb (tm_wday t0 =? tm_wday t1) then 1
  else if negb (tm_mday t0 =? tm_mday t1) then 1
  else 0.

Definition is_updating_rtc : M rstate Z :=
  let* _ := outportb CMOS_ADDR 10 in
  let* status := inportb CMOS_DATA in
  ret (if negb (Z.land status 128 =? 0) then 1 else 0).

Definition read_register (reg : Z) : M rstate Z :=
  let* _ := outportb CMOS_ADDR reg in
  inportb CMOS_DATA.

Definition write_register (reg value : Z) : M rstate unit :=
  let* _ := outportb CMOS_ADDR reg in
  outportb CMOS_DATA value.

(** The argument and the result are of type [unsigned char]. *)
Definition bcd2bin (bcd : Z) : Z :=
  byte (Z.shiftr (byte bcd) 4 * 10 + Z.land (byte bcd) 15).

(** [global_time.field = v] *)
Definition set_time (f : tm_t -> tm_t) : M rstate unit :=
  modify (fun s => set_global_time (f (global_time s)) s).

Definition rtc_read_datetime : M rstate unit :=
  let* c := read_register 12 in
  if negb (Z.land c 16 =? 0) then
    let* s := get in
    if negb (is_bcd s =? 0) then
      let* v := read_register 0 in
      let* _ := set_time (set_tm_sec (bcd2bin v)) in
      let* v := read_register 2 in
      let* _ := set_time (set_tm_min (bcd2bin v)) in
      let* v := read_register 4 in
      let* _ := set_time (set_tm_hour (bcd2bin v + 2)) in
      let* v := read_register 8 in
      let* _ := set_time (set_tm_mon (bcd2bin v)) in
      let* v := read_register 9 in
      let* _ := set_time (set_tm_year (bcd2bin v + 2000)) in
      let* v := read_register 6 in
      let* _ := set_time (set_tm_wday (bcd2bin v)) in
      let* v := read_register 7 in
      set_time (set_tm_mday (bcd2bin v))
    else
      let* v := read_register 0 in
      let* _ := set_time (set_tm_sec v) in
      let* v := read_register 2 in
      let* _ := set_time (set_tm_min v) in
      let* v := read_register 4 in
      let* _ := set_time (set_tm_hour (v + 2)) in
      let* v := read_register 8 in
      let* _ := set_time (set_tm_mon v) in
      let* v := read_register 9 in
      let* _ := set_time (set_tm_year (v + 2000)) in
      let* v := read_register 6 in
      let* _ := set_time (set_tm_wday v) in
      let* v := read_register 7 in
      set_time (set_tm_mday v)
  else ret tt.

(** The value [rtc_read_datetime] makes of a register byte, and the time it
    stores when the first of its reads, the one of the status register C, is
    the [n]-th read of the data port: the registers 0, 2, 4, 8, 9, 6 and 7
    are read next, in this order. *)
Definition decode (bcd v : Z) : Z := if negb (bcd =? 0) then bcd2bin v else v.

Definition time_read (s : rstate) (n : nat) : tm_t :=
  let reg (k : nat) (r : Z) := decode (is_bcd s) (byte (cmos s (n + k)%nat r)) in
  mk_tm (reg 1%nat 0) (reg 2%nat 2) (reg 3%nat 4 + 2) (reg 7%nat 7)
        (reg 4%nat 8) (reg 5%nat 9 + 2000) (reg 6%nat 6).

(** The chip, the writes to it, the data mode and the calls to the interrupt
    controller are as they were. *)
Definition same_settings (s s' : rstate) : Prop :=
  cmos s' = cmos s /\ writes s' = writes s /\ is_bcd s' = is_bcd s
  /\ trace s' = trace s.

(** [while (is_updating_rtc()) {}]; the bound stands for the time the chip
    may stay busy. *)
Fixpoint wait_while_updating (fuel : nat) : M rstate unit :=
  match fuel with
  | O => out_of_fuel
  | S fuel =>
      let* u := is_updating_rtc in
      if negb (u =? 0) then wait_while_updating fuel else ret tt
  end.

(** The [do ... while (!rtc_are_different(...))] loop of the first update,
    with [n] turns left. *)
Fixpoint first_update_loop (fuel n : nat) : M rstate unit :=
  match n with
  | O => out_of_fuel
  | S n =>
      let* _ := modify (fun s => set_previous_global_time (global_time s) s) in
      let* _ := wait_while_updating fuel in
      let* _ := rtc_read_datetime in
      let* s := get in
      if negb (rtc_are_different (previous_global_time s) (global_time s) =? 0)
      then ret tt
      else first_update_loop fuel n
  end.

Definition rtc_update_datetime (fuel : nat) : M rstate unit :=
  let* _ := wait_while_updating fuel in
  let* _ := rtc_read_datetime in
  let* s := get in
  if negb (first_update s =? 0) then
    let* _ := first_update_loop fuel fuel in
    modify (set_first_update 0)
  else ret tt.

(** [memcpy(time, &global_time, sizeof(tm_t))]: the time it stores. *)
Definition gettime : M rstate tm_t := fun s => Ret (global_time s) s.

(** The byte [rtc_initialize] writes to the status register B when it has
    read [status] from it. *)
Definition rtc_status_b (status : Z) : Z :=
  let status := byte (Z.lor status 2) in
  let status := byte (Z.lor status 16) in
  let status := byte (Z.land status (wrap32 (Z.lnot 32))) in
  byte (Z.land status (wrap32 (Z.lnot 64))).

Definition rtc_initialize (fuel : nat) : M rstate Z :=
  let* status := read_register 11 in
  let status := rtc_status_b status in
  let* _ := modify (set_is_bcd (if Z.land status 4 =? 0 then 1 else 0)) in
  let* _ := write_register 11 status in
  let* _ := read_register 12 in
  let* _ := emit EvIrqInstall in
  let* _ := emit EvIrqEnable in
  let* _ := rtc_update_datetime fuel in
  ret 0.

Definition rtc_finalize : M rstate Z :=
  let* _ := emit EvIrqUninstall in
  let* _ := emit EvIrqDisable in
  ret 0.

End Rtc.

(** * Sample configurations

    The values MentOS gives to the constants, and small machines, for the
    examples that follow. *)

Module Samples.

#[export] Instance mentos_flags : Paging.MemmapFlags :=
  {| Paging.MM_USER := 1; Paging.MM_GLOBAL := 2; Paging.MM_RW := 4;
     Paging.MM_PRESENT := 8; Paging.MM_COW := 16; Paging.MM_UPDADDR := 32 |}.

(** Low memory mapped at its physical addresses; a page is designated by its
    frame number; no address is in the virtual-alias range. *)
#[export] Instance flat_zone : Paging.ZoneAllocator :=
  {| Paging.get_page_from_physical_address := fun a => Some (a / 4096);
     Paging.get_virtual_address_from_page := fun p => p * 4096;
     Paging.get_page_from_virtual_address := fun a => Some (a / 4096);
     Paging.get_physical_address_from_page := fun p => p * 4096;
     Paging.vmem_map_physical_pages := fun p => p * 4096;
     Paging.is_valid_virtual_address := fun _ => false;
     Paging.MAX_PHY_PFN := 2 ^ 20 |}.

(** A machine whose page directory is at 0x1000 and whose memory holds the
    entries [l], given by address; the fault is at [addr]. *)
Fixpoint entries (l : list (Z * Z)) (a : Z) : Z :=
  match l with
  | [] => 0
  | (k, v) :: l => if k =? a then v else entries l a
  end.

Definition machine (l : list (Z * Z)) (addr : Z) (cur : option Z) : Paging.kstate :=
  Paging.mk_kstate (entries l) addr 4096 cur [] [] [].

(** A trap frame with the given error code. *)
Definition fault_frame (code : Z) : pt_regs :=
  mk_pt_regs 0 0 0 0 0 0 0 0 0 0 0 0 14 code 0 0 0 0 0.

(** The constants as x86 and MentOS have them. *)
#[export] Instance mentos_config : Process.Config :=
  {| Process.EFLAG_IF := 512;
     Process.DEFAULT_STACK_SIZE := 1048576;
     Process.DEFAULT_PRIO := 120;
     Process.PATH_MAX := 4096;
     Process.NAME_MAX := 255;
     Process.ENOENT := 2;
     Process.EACCES := 13;
     Process.ENOEXEC := 8;
     Process.ENOMEM := 12;
     Process.ELOOP := 40;
     Process.ENAMETOOLONG := 36;
     Process.S_ISUID := 2048;
     Process.S_ISGID := 1024;
     Process.errno_positive :=
       conj eq_refl (conj eq_refl (conj eq_refl (conj eq_refl
         (conj eq_refl eq_refl)))) |}.

(** A file system in which a file can be executed when one of its execute
    bits is set, an ELF executable starts with the ELF magic number and
    loads at 0x08048000, and the clone of an address space is described as
    the original. *)
Definition is_elf (file : Process.vfs_file) : bool :=
  Process.bytes_eqb (take 4 (Process.f_data file)) [127; 69; 76; 70].

(** The clone of an address space has the same areas, under a page
    directory of its own, one page after the original. *)
Definition cloned_mm (m : Process.mm_struct) : Process.mm_struct :=
  Process.mk_mm (Process.pgd m + 4096) (Process.mmap_list m)
    (Process.mmap_cache m) (Process.map_count m) (Process.start_stack m)
    (Process.arg_start m) (Process.arg_end m) (Process.env_start m)
    (Process.env_end m).

#[export] Instance sample_collaborators : Process.Collaborators :=
  {| Process.vfs_valid_exec_permission :=
       fun _ file => has_flag (Process.f_mask file) 73;
     Process.elf_check_file_type := is_elf;
     Process.elf_load_file := fun t file => (1, 134512640, Process.mm t);
     Process.mm_clone := fmap cloned_mm;
     Process.vfs_open_errno := fun _ _ => 2 |}.

(** An argument array laid out in memory: the strings one after the other
    from [strs] on, the pointers at [args]. *)
Fixpoint put_strings (m : Mem.mem) (p : Z) (ls : list (list Z)) : Mem.mem * list Z :=
  match ls with
  | [] => (m, [])
  | l :: ls =>
      let '(m', ps) :=
        put_strings (Mem.store_bytes m p (l ++ [0])) (p + Z.of_nat (length l) + 1) ls in
      (m', p :: ps)
  end.

Fixpoint put_pointers (m : Mem.mem) (a : Z) (ps : list Z) : Mem.mem :=
  match ps with
  | [] => Mem.store32 m a 0
  | q :: ps => put_pointers (Mem.store32 m a q) (a + 4) ps
  end.

Definition put_args (m : Mem.mem) (args strs : Z) (ls : list (list Z)) : Mem.mem :=
  let '(m', ps) := put_strings m strs ls in put_pointers m' args ps.

Definition str (s : string) : list Z := Mem.bytes_of_string s.

(** A user program at 0x1000 that calls [execve("script", {"script", "a"},
    {"PATH=/bin"})]: the file name is at 0x1000, the argument array at
    0x1100 with its strings at 0x1200, the environment at 0x1300 with its
    strings at 0x1400. *)
Definition exec_memory : Mem.mem :=
  put_args
    (put_args (Mem.store_bytes (fun _ => 0) 4096 (str "script" ++ [0]))
              4352 4608 [str "script"; str "a"])
    4864 5120 [str "PATH=/bin"].

(** The memory of an address space: the bytes of the user program, where
    it has an area. *)
Definition in_area (m : Process.mm_struct) (a : Z) : bool :=
  existsb (fun v => (Process.vm_start v <=? a) && (a <? Process.vm_end v))
          (Process.mmap_list m).

#[export] Instance sample_clone : Process.CloneContract :=
  {| Process.user_memory :=
       fun m a => if in_area m a then Some (Mem.load8 exec_memory a) else None;
     Process.mm_clone_copies :=
       fun m => ex_intro _ (cloned_mm m) (conj eq_refl (fun _ => eq_refl)) |}.

Definition exec_frame : pt_regs :=
  mk_pt_regs 0 0 0 0 0 0 0 0 4096 4864 4352 11 128 0 8192 0 512 12288 0.

Definition old_mm : Process.mm_struct :=
  Process.mk_mm 7340032 [Process.mk_vm_area 4096 12288 0] None 1 8192 0 0 0 0.

(** The blank address spaces [mm_create_blank] will hand out: a stack of
    [DEFAULT_STACK_SIZE] bytes from 0x70000000 on. *)
Definition blank_mm (dir : Z) : Process.mm_struct :=
  Process.mk_mm dir [Process.mk_vm_area 1879048192 1880096768 0] None 1
                1879048192 0 0 0 0.

Definition init_task : Process.task_struct :=
  Process.mk_task 1 Process.TASK_RUNNING None []
    (Process.mk_thread exec_frame false) 0 0 0 0 0 0
    (Process.mk_sched_entity 120 0 0 0 0 0 0 0 0 false false false 0 0 0)
    0 (str "init") (Some old_mm) 0 (str "/")
    Process.vfs_init_task (replicate Process.NSIG 0) 0 0 0 [] None.

Definition script_file (interpreter : string) : Process.vfs_file :=
  Process.mk_vfs_file (str "script") 493 0 0
    (str "#!" ++ str interpreter ++ [10] ++ str "echo hi" ++ [10]) true.

Definition elf_file (name : string) : Process.vfs_file :=
  Process.mk_vfs_file (str name) 493 0 0 ([127; 69; 76; 70] ++ replicate 60 0) true.

(** A kernel with one task, the file [script] whose first line names the
    interpreter, and the interpreter itself, which is an ELF executable or
    one more script.  The kernel heap hands out blocks at 0xC0100000,
    0xC0101000 and so on. *)
Definition exec_kernel (interpreter : string) (fs : list (list Z * Process.vfs_file))
  : Process.kstate :=
  Process.mk_kstate exec_memory [init_task] (Some 0%nat) [0%nat] [2; 3] 0
    [3222274048; 3222278144; 3222282240; 3222286336]
    [blank_mm 7344128; blank_mm 7348224]
    ((str "script", script_file interpreter) :: fs) 0 7340032 [].

(** The addresses of the two local arrays of [sys_execve] on the kernel
    stack. *)
Definition name_buffer : Z := 3221225472.
Definition saved_filename : Z := 3221229568.

(** An address space with two areas, and a task on it that has a file of
    8192 bytes open as its descriptor 3; a kernel where it is the current
    task. *)
Definition two_areas_mm : Process.mm_struct :=
  Process.mk_mm 7340032
    [Process.mk_vm_area 4096 12288 0; Process.mk_vm_area 1879048192 1880096768 0]
    None 2 8192 0 0 0 0.

Definition data_file : Process.vfs_file :=
  Process.mk_vfs_file (str "data") 420 0 0 (replicate (Z.to_nat 8192) 0) true.

Definition mmap_task : Process.task_struct :=
  Process.mk_task 1 Process.TASK_RUNNING None []
    (Process.mk_thread exec_frame false) 0 0 0 0 0 0
    (Process.mk_sched_entity 120 0 0 0 0 0 0 0 0 false false false 0 0 0)
    0 (str "init") (Some two_areas_mm) 0 (str "/")
    (<[3%nat := Process.mk_vfs_fd (Some data_file) 0]> Process.vfs_init_task)
    (replicate Process.NSIG 0) 0 0 0 [] None.

Definition mmap_kernel : Process.kstate :=
  Process.mk_kstate (fun _ => 0) [mmap_task] (Some 0%nat) [0%nat] [2; 3] 0
    [] [] [] 0 7340032 [].

(** Operations on areas that take any range for valid, find free space at
    0x40000000 and never fail to allocate. *)
Definition sample_areas : Mmap.VmArea :=
  Mmap.spec_vm_area (fun _ _ _ => true) (fun _ _ => Some 1073741824)
                    (fun _ => true).

(** A machine that faults at 0x4005: the directory at 0x1000 has its first
    table at 0x2000, the leaf entry of the page at 0x4000 is copy-on-write
    and not present, and the allocator has the page 9 to give. *)
Definition cow_machine : Paging.kstate :=
  Paging.mk_kstate (entries [(4096, 8193); (8208, 512)]) 16389 4096 (Some 1)
                   [] [9] [].

(** A machine whose page-table cache has one table to give, at 0x3000. *)
Definition cache_machine (l : list (Z * Z)) : Paging.kstate :=
  Paging.mk_kstate (entries l) 0 4096 None [12288] [] [].

(** Two page directories, at 0x1000 and at 0x4000.  The source directory has
    the page tables of its first two entries at 0x2000 and 0x3000, and the
    one of its last entry at 0x2000 again: the last entry of that table maps
    a plain page on the frame 7, and the first entry of the table at 0x3000
    is copy-on-write.  The destination directory has the page table of its
    first entry, and of its last one, at 0x5000, and its second entry is not
    present; the cache has one page table to give, at 0x6000. *)
Definition clone_machine : Paging.kstate :=
  Paging.mk_kstate
    (entries [(4096, 8193); (4100, 12289); (8188, 8193);
              (12284, 28675); (12288, 37376);
              (16384, 20481); (20476, 20481)])
    0 4096 None [24576] [] [].

(** A kernel whose memory holds an array of 257 arguments at 0x1000: every
    pointer is 0x01010101, where the string [a] is. *)
Definition many_args_memory : Mem.mem :=
  fun a => if (4096 <=? a) && (a <? 5124) then 1
           else if a =? 16843009 then 97 else 0.

Definition many_args_kernel : Process.kstate :=
  Process.mk_kstate many_args_memory [init_task] (Some 0%nat) [0%nat] [2; 3] 0
    [] [] [] 0 7340032 [].

(** A kernel in which the file [script] is an ELF executable, and one with
    no file at all. *)
Definition elf_kernel : Process.kstate :=
  Process.mk_kstate exec_memory [init_task] (Some 0%nat) [0%nat] [2; 3] 0
    [3222274048] [blank_mm 7344128] [(str "script", elf_file "script")]
    0 7340032 [].


(** A file named [script] that is a text with no first line for an
    interpreter, with the given mode; a kernel with the given files and one
    block in its heap. *)
Definition plain_file (mode : Z) : Process.vfs_file :=
  Process.mk_vfs_file (str "script") mode 0 0 (str "echo hi" ++ [10]) true.

Definition file_kernel (fs : list (list Z * Process.vfs_file)) : Process.kstate :=
  Process.mk_kstate exec_memory [init_task] (Some 0%nat) [0%nat] [2; 3] 0
    [3222274048] [blank_mm 7344128] fs 0 7340032 [].

(** A caller whose first argument is a pointer into the block that
    [kmalloc] is about to give, 31 bytes above its start, where the memory
    holds the empty string. *)
Definition overlap_memory : Mem.mem := Mem.store32 exec_memory 4352 3222274079.

Definition overlap_kernel : Process.kstate :=
  Process.mk_kstate overlap_memory [init_task] (Some 0%nat) [0%nat] [2; 3] 0
    [3222274048] [blank_mm 7344128] [] 0 7340032 [].

(** The kernel of the 257 arguments, with one block in its heap. *)
Definition many_args_heap_kernel : Process.kstate :=
  Process.set_kmalloc_pool [3222274048] many_args_kernel.

(** Directories: a file is one when its name ends with a slash; paths
    resolve to themselves. *)
#[export] Instance sample_directories : Cwd.Directories :=
  {| Cwd.resolve_path := fun p => Some p;
     Cwd.file_flags := fun file => if last (Process.f_name file) is Some 47 then 4 else 8;
     Cwd.DT_DIR := 4;
     Cwd.EBADF := 9;
     Cwd.ENOTDIR := 20 |}.

(** A clock chip that is never busy and has always ended an update; its
    seconds register gives the number of the read, the other registers give
    0.  The driver before [rtc_initialize]. *)
Definition ticking_cmos (n : nat) (r : Z) : Z :=
  if r =? 12 then 16 else if r =? 0 then Z.of_nat n else 0.

Definition rtc_boot : Rtc.rstate :=
  Rtc.mk_rstate 0 ticking_cmos 0 [] (Rtc.mk_tm 0 0 0 0 0 0 0)
                (Rtc.mk_tm 0 0 0 0 0 0 0) 0 1 [].

End Samples.

(** * Facts about bit fields *)

Section BitFields.

Lemma testbit_set_bit_eq (w i : Z) (b : bool) :
  0 <= i -> Z.testbit (set_bit w i b) i = b.
Proof.
  intros Hi. unfold set_bit. destruct b.
  - rewrite Z.setbit_eqb by lia. now rewrite Z.eqb_refl.
  - rewrite Z.clearbit_eqb. rewrite Z.eqb_refl. now rewrite andb_false_r.
Qed.

Lemma testbit_set_bit_neq (w i j : Z) (b : bool) :
  0 <= i -> i <> j -> Z.testbit (set_bit w i b) j = Z.testbit w j.
Proof.
  intros Hi Hij. unfold set_bit. destruct b.
  - rewrite Z.setbit_eqb by lia.
    destruct (Z.eqb_spec i j); [lia | reflexivity].
  - rewrite Z.clearbit_eqb.
    destruct (Z.eqb_spec i j); [lia | now rewrite andb_true_r].
Qed.

Lemma testbit_set_field (w lo width v j : Z) :
  0 <= lo -> 0 <= width -> 0 <= j ->
  Z.testbit (set_field w lo width v) j =
  if (lo <=? j) && (j <? lo + width) then Z.testbit v (j - lo) else Z.testbit w j.
Proof.
  intros Hlo Hwd Hj. unfold set_field.
  rewrite Z.lor_spec, !Z.land_spec, Z.lnot_spec by lia.
  rewrite !Z.shiftl_spec by lia.
  destruct (Z.leb_spec lo j) as [Hle | Hlt]; simpl.
  - rewrite Z.land_spec, !Z.testbit_ones by lia.
    replace (0 <=? j - lo) with true by (symmetry; apply Z.leb_le; lia).
    simpl. destruct (Z.ltb_spec j (lo + width)) as [H1 | H1].
    + replace (j - lo <? width) with true by (symmetry; apply Z.ltb_lt; lia).
      simpl. now rewrite andb_false_r, andb_true_r.
    + replace (j - lo <? width) with false by (symmetry; apply Z.ltb_ge; lia).
      simpl. now rewrite andb_true_r, andb_false_r, orb_false_r.
  - rewrite !(Z.testbit_neg_r _ (j - lo)) by lia.
    simpl. now rewrite andb_true_r, orb_false_r.
Qed.

Lemma get_field_ext (w w' lo width : Z) :
  0 <= lo -> 0 <= width ->
  (forall j, lo <= j < lo + width -> Z.testbit w j = Z.testbit w' j) ->
  get_field w lo width = get_field w' lo width.
Proof.
  intros Hlo Hwd Hbits. unfold get_field. apply Z.bits_inj'. intros n Hn.
  rewrite !Z.land_spec, !Z.shiftr_spec, Z.testbit_ones by lia.
  replace (0 <=? n) with true by (symmetry; apply Z.leb_le; lia). simpl.
  destruct (Z.ltb_spec n width).
  - rewrite Hbits by lia. reflexivity.
  - now rewrite !andb_false_r.
Qed.

Lemma get_field_set_bit (w lo width i : Z) (b : bool) :
  0 <= lo -> 0 <= width -> 0 <= i -> i < lo \/ lo + width <= i ->
  get_field (set_bit w i b) lo width = get_field w lo width.
Proof.
  intros. apply get_field_ext; try lia. intros j Hj.
  apply testbit_set_bit_neq; lia.
Qed.

Lemma get_field_set_field_other (w lo width lo' width' v : Z) :
  0 <= lo -> 0 <= width -> 0 <= lo' -> 0 <= width' ->
  lo' + width' <= lo \/ lo + width <= lo' ->
  get_field (set_field w lo' width' v) lo width = get_field w lo width.
Proof.
  intros. apply get_field_ext; try lia. intros j Hj.
  rewrite testbit_set_field by lia.
  destruct (Z.leb_spec lo' j); simpl; [|reflexivity].
  destruct (Z.ltb_spec j (lo' + width')); [lia | reflexivity].
Qed.

Lemma get_field_set_field_same (w lo width v : Z) :
  0 <= lo -> 0 <= width ->
  get_field (set_field w lo width v) lo width = Z.land v (Z.ones width).
Proof.
  intros Hlo Hwd. unfold get_field. apply Z.bits_inj'. intros n Hn.
  rewrite !Z.land_spec, Z.shiftr_spec, Z.testbit_ones by lia.
  replace (0 <=? n) with true by (symmetry; apply Z.leb_le; lia). simpl.
  destruct (Z.ltb_spec n width).
  - rewrite testbit_set_field by lia.
    replace (lo <=? n + lo) with true by (symmetry; apply Z.leb_le; lia).
    replace (n + lo <? lo + width) with true by (symmetry; apply Z.ltb_lt; lia).
    simpl. now replace (n + lo - lo) with n by lia.
  - now rewrite !andb_false_r.
Qed.

Lemma get_field_idem (w lo width : Z) :
  0 <= lo -> 0 <= width ->
  Z.land (get_field w lo width) (Z.ones width) = get_field w lo width.
Proof.
  intros. unfold get_field. rewrite <- Z.land_assoc, Z.land_diag. reflexivity.
Qed.

Lemma testbit_set_field_out (w lo width v j : Z) :
  0 <= lo -> 0 <= width -> 0 <= j -> j < lo \/ lo + width <= j ->
  Z.testbit (set_field w lo width v) j = Z.testbit w j.
Proof.
  intros. rewrite testbit_set_field by lia.
  destruct (Z.leb_spec lo j); simpl; [|reflexivity].
  destruct (Z.ltb_spec j (lo + width)); [lia | reflexivity].
Qed.

(** An even word is unchanged when its lowest bit is cleared. *)
Lemma clearbit0_even (w : Z) : Z.even w = true -> Z.clearbit w 0 = w.
Proof.
  intros Hw. apply Z.bits_inj'. intros n Hn. rewrite Z.clearbit_eqb.
  destruct (Z.eqb_spec 0 n) as [<- | Hne].
  - rewrite Z.bit0_odd, <- Z.negb_even, Hw. reflexivity.
  - now rewrite andb_true_r.
Qed.

End BitFields.

(** * Facts about the paging code *)

Section PagingFacts.
Import Paging.
Context `{MemmapFlags} `{ZoneAllocator}.

Lemma upd_same (m : Z -> Z) (a v : Z) : upd m a v a = v.
Proof. unfold upd. now rewrite Z.eqb_refl. Qed.

Lemma upd_other (m : Z -> Z) (a b v : Z) : b <> a -> upd m a v b = m b.
Proof. intros Hne. unfold upd. destruct (Z.eqb_spec b a); [lia | reflexivity]. Qed.

Lemma load_ok (a : Z) (s : kstate) : a <> 0 -> load a s = Ret (kmem s a) s.
Proof. intros Hne. unfold load. destruct (Z.eqb_spec a 0); [lia | reflexivity]. Qed.

Lemma store_ok (a w : Z) (s : kstate) :
  a <> 0 -> store a w s = Ret tt (set_kmem (fun m => upd m a w) s).
Proof. intros Hne. unfold store. destruct (Z.eqb_spec a 0); [lia | reflexivity]. Qed.

Lemma update_ok (a : Z) (f : Z -> Z) (s : kstate) :
  a <> 0 ->
  update a f s = Ret tt (set_kmem (fun m => upd m a (f (m a))) s).
Proof.
  intros Hne. unfold update, bind. rewrite load_ok by assumption.
  now rewrite store_ok.
Qed.

(** Running [c] first and [k] on its result. *)
Lemma bind_Ret {S A B} (c : M S A) (k : A -> M S B) (s s' : S) (a : A) :
  c s = Ret a s' -> bind c k s = k a s'.
Proof. intros Hc. unfold bind. now rewrite Hc. Qed.

(** C8. Updating a page-directory entry that is present and global with
    flags that do not include [MM_GLOBAL] ends in a kernel panic: the
    function does not return, and the entry is still global. *)
Theorem mem_pg_entry_alloc_drop_global_panics (entry flags : Z) (st : kstate) :
  entry <> 0 ->
  pde_present (kmem st entry) = true ->
  pde_global (kmem st entry) = true ->
  has_flag flags MM_GLOBAL = false ->
  exists st',
    __mem_pg_entry_alloc entry flags st
    = Panic "Attempted to remove the global flag from a page directory entry." st'
    /\ pde_global (kmem st' entry) = true
    /\ pgtbl_pool st' = pgtbl_pool st.
Proof.
  intros Hne Hpresent Hglobal Hflag.
  unfold __mem_pg_entry_alloc.
  destruct (Z.eqb_spec entry 0) as [|_]; [lia|].
  erewrite bind_Ret by (apply load_ok; assumption).
  rewrite Hpresent. cbn [negb].
  erewrite bind_Ret by (apply update_ok; assumption).
  erewrite bind_Ret by (apply update_ok; assumption).
  erewrite bind_Ret by (apply load_ok; assumption).
  cbn [kmem set_kmem]. rewrite !upd_same.
  assert (Hg : pde_global
                 (pde_set_rw
                    (pde_set_present (kmem st entry)
                       (pde_present (kmem st entry) || has_flag flags MM_PRESENT))
                    (pde_rw
                       (pde_set_present (kmem st entry)
                          (pde_present (kmem st entry) || has_flag flags MM_PRESENT))
                     || has_flag flags MM_RW)) = true).
  { unfold pde_global, pde_set_rw, pde_set_present.
    rewrite !testbit_set_bit_neq by lia. exact Hglobal. }
  rewrite Hg, Hflag. cbn [negb andb].
  eexists. split; [reflexivity|]. split; [|reflexivity].
  cbn [kmem set_kmem]. rewrite !upd_same. exact Hg.
Qed.

Lemma notify_or_panic (f : pt_regs) (sigsegv : bool) (addr : Z) (st : kstate) :
  (let* sent := (if sigsegv then notify_sigsegv f else ret false) in
   if sent then ret tt else __page_fault_panic f addr) st
  = sigsegv_or_panic sigsegv st.
Proof.
  unfold sigsegv_or_panic. destruct sigsegv; [|reflexivity].
  unfold notify_sigsegv, scheduler_get_current_process, bind.
  destruct (current st); reflexivity.
Qed.

(** C4, as the code has it. A fault under a page-directory entry that is not
    present: when the error code has its user bit set and there is a current
    process, SIGSEGV is queued for it, the scheduler is run and the handler
    returns, with no entry changed and no TLB flush (the access is not
    retried by the handler); when the user bit is clear, or there is no
    current process, the kernel panics. *)
Theorem page_fault_directory_entry_not_present
    (f : pt_regs) (st : kstate) (dir_page : page_t) :
  cr3 st <> 0 ->
  get_page_from_physical_address (cr3 st) = Some dir_page ->
  0 < get_virtual_address_from_page dir_page ->
  0 <= cr2 st ->
  pde_present
    (kmem st (entry_at (get_virtual_address_from_page dir_page)
                       (cr2 st / (1024 * PAGE_SIZE)))) = false ->
  page_fault_handler f st
  = match (if Z.testbit (err_code f) 2 then current st else None) with
    | Some pid =>
        Ret tt (add_event EvSchedulerRun (add_event (EvSignal pid SIGSEGV) st))
    | None => Panic "Page fault!" st
    end.
Proof.
  intros Hcr3 Hpage Hdir Hcr2 Hnp.
  unfold page_fault_handler.
  erewrite bind_Ret by reflexivity.
  destruct (Z.eqb_spec (cr3 st) 0) as [|_]; [lia|].
  rewrite Hpage.
  destruct (Z.eqb_spec (get_virtual_address_from_page dir_page) 0) as [|_]; [lia|].
  assert (Hentry : entry_at (get_virtual_address_from_page dir_page)
                     (cr2 st / (1024 * PAGE_SIZE)) <> 0).
  { unfold entry_at, PAGE_SIZE.
    pose proof (Z.div_pos (cr2 st) (1024 * 4096) Hcr2 ltac:(lia)). lia. }
  erewrite bind_Ret by (apply load_ok; exact Hentry).
  rewrite Hnp. cbn [negb].
  apply (notify_or_panic f (Z.testbit (err_code f) 2) (cr2 st) st).
Qed.

(** The leaf entry the handler works on is copy-on-write and present, and
    the address is not in the virtual-alias range: the bit is cleared,
    nothing is allocated, and the handler ends as it does for a page that is
    not copy-on-write. *)
Lemma page_fault_cow_present
    (f : pt_regs) (st : kstate) (dir_page table_page : page_t) :
  let lowmem_dir := get_virtual_address_from_page dir_page in
  let dw := kmem st (entry_at lowmem_dir (cr2 st / (1024 * PAGE_SIZE))) in
  let lowmem_table := get_virtual_address_from_page table_page in
  let entry := entry_at lowmem_table ((cr2 st / PAGE_SIZE) mod 1024) in
  cr3 st <> 0 ->
  get_page_from_physical_address (cr3 st) = Some dir_page ->
  0 < lowmem_dir ->
  0 <= cr2 st ->
  pde_present dw = true ->
  get_page_from_physical_address (wrap32 (Z.shiftl (pde_frame dw) 12))
  = Some table_page ->
  0 < lowmem_table ->
  is_valid_virtual_address (cr2 st) = false ->
  pte_kernel_cow (kmem st entry) = true ->
  pte_present (kmem st entry) = true ->
  page_fault_handler f st
  = sigsegv_or_panic
      (Z.testbit (err_code f) 2 && Z.testbit (err_code f) 1
       && Z.testbit (err_code f) 0)
      (set_kmem (fun m => upd m entry (pte_set_kernel_cow (m entry) false)) st).
Proof.
  intros lowmem_dir dw lowmem_table entry
         Hcr3 Hpage Hdir Hcr2 Hpresent Htable Hlow Hvalid Hcow Hp.
  unfold page_fault_handler.
  erewrite bind_Ret by reflexivity.
  destruct (Z.eqb_spec (cr3 st) 0) as [|_]; [lia|].
  rewrite Hpage. fold lowmem_dir.
  destruct (Z.eqb_spec lowmem_dir 0) as [|_]; [lia|].
  assert (Hde : entry_at lowmem_dir (cr2 st / (1024 * PAGE_SIZE)) <> 0).
  { unfold entry_at, PAGE_SIZE.
    pose proof (Z.div_pos (cr2 st) (1024 * 4096) Hcr2 ltac:(lia)). lia. }
  erewrite bind_Ret by (apply load_ok; exact Hde).
  fold dw. rewrite Hpresent. cbn [negb].
  rewrite Htable. fold lowmem_table.
  destruct (Z.eqb_spec lowmem_table 0) as [|_]; [lia|].
  assert (He : entry <> 0).
  { unfold entry, entry_at.
    pose proof (Z.mod_pos_bound (cr2 st / PAGE_SIZE) 1024 ltac:(lia)). lia. }
  fold entry. destruct (Z.eqb_spec entry 0) as [|_]; [lia|].
  rewrite Hvalid.
  (* the copy-on-write handling fails *)
  assert (Hcow' : __page_handle_cow entry st
                  = Ret 1 (set_kmem (fun m => upd m entry
                                       (pte_set_kernel_cow (m entry) false)) st)).
  { unfold __page_handle_cow.
    destruct (Z.eqb_spec entry 0) as [|_]; [lia|].
    erewrite bind_Ret by (apply load_ok; exact He).
    rewrite Hcow.
    erewrite bind_Ret by (apply update_ok; exact He).
    erewrite bind_Ret by (apply load_ok; exact He).
    cbn [kmem set_kmem]. rewrite upd_same.
    unfold pte_present, pte_set_kernel_cow.
    rewrite testbit_set_bit_neq by lia.
    unfold pte_present in Hp. rewrite Hp. reflexivity. }
  unfold bind at 1. unfold bind at 1. rewrite Hcow'.
  change (negb (1 =? 0)) with true. cbv iota.
  set (st' := set_kmem _ st).
  set (b := Z.testbit (err_code f) 2 && Z.testbit (err_code f) 1
            && Z.testbit (err_code f) 0).
  unfold sigsegv_or_panic, bind.
  destruct b; [|reflexivity].
  unfold notify_sigsegv, scheduler_get_current_process, bind.
  destruct (current st'); reflexivity.
Qed.

End PagingFacts.

Section CloneFacts.
Import Paging.
Context `{MemmapFlags} `{ZoneAllocator}.


Lemma set_pg_table_flags_ok (table flags : Z) (st : kstate) :
  table <> 0 ->
  exists st',
    __set_pg_table_flags table flags st = Ret tt st'
    /\ kmem st' table = with_pg_table_flags (kmem st table) flags
    /\ (forall a, a <> table -> kmem st' a = kmem st a)
    /\ trace st' = trace st /\ pgtbl_pool st' = pgtbl_pool st
    /\ page_pool st' = page_pool st.
Proof.
  intros Hne. unfold __set_pg_table_flags.
  destruct (Z.eqb_spec table 0) as [|_]; [lia|].
  do 5 (erewrite bind_Ret by (apply update_ok; exact Hne)).
  rewrite update_ok by exact Hne.
  eexists. split; [reflexivity|].
  cbn [kmem set_kmem trace pgtbl_pool page_pool].
  split; [|split; [|auto]].
  - rewrite !upd_same. reflexivity.
  - intros a Ha. rewrite !upd_other by exact Ha. reflexivity.
Qed.

Lemma with_pg_table_flags_fields (w flags : Z) :
  let w' := with_pg_table_flags w flags in
  pte_frame w' = pte_frame w
  /\ pte_rw w' = has_flag flags MM_RW
  /\ pte_present w' = has_flag flags MM_PRESENT
  /\ pte_kernel_cow w' = has_flag flags MM_COW
  /\ pte_global w' = has_flag flags MM_GLOBAL
  /\ pte_user w' = has_flag flags MM_USER
  /\ pte_available w' = 1.
Proof.
  unfold with_pg_table_flags, pte_frame, pte_rw, pte_present, pte_kernel_cow,
    pte_global, pte_user, pte_available, pte_set_user, pte_set_global,
    pte_set_available, pte_set_kernel_cow, pte_set_present, pte_set_rw.
  cbv zeta. repeat split.
  - rewrite !get_field_set_bit by lia.
    rewrite get_field_set_field_other by lia.
    rewrite !get_field_set_bit by lia. reflexivity.
  - rewrite !testbit_set_bit_neq by lia.
    rewrite testbit_set_field_out by lia.
    rewrite !testbit_set_bit_neq by lia.
    apply testbit_set_bit_eq; lia.
  - rewrite !testbit_set_bit_neq by lia.
    rewrite testbit_set_field_out by lia.
    rewrite !testbit_set_bit_neq by lia.
    apply testbit_set_bit_eq; lia.
  - rewrite !testbit_set_bit_neq by lia.
    rewrite testbit_set_field_out by lia.
    apply testbit_set_bit_eq; lia.
  - rewrite !testbit_set_bit_neq by lia.
    apply testbit_set_bit_eq; lia.
  - apply testbit_set_bit_eq; lia.
  - rewrite !get_field_set_bit by lia.
    rewrite get_field_set_field_same by lia. reflexivity.
Qed.

(** One turn of the loop of [mem_clone_vm_area], on the leaf entries the two
    iterators yield.  When the source entry is copy-on-write, the word of
    the destination entry becomes the address of the source entry, with its
    present bit cleared; since entries are aligned, the word is that address.
    Otherwise the destination entry takes the frame number of the source
    entry and the flag bits that [flags] gives.  In both cases the TLB entry
    of the destination page is flushed, and no other entry changes. *)
Lemma mem_clone_vm_area_entry_ok
    (src_it dst_it : pg_iter_entry_t) (flags : Z) (st : kstate) :
  0 < ie_entry src_it < 2 ^ 32 ->
  ie_entry dst_it <> 0 ->
  exists st',
    mem_clone_vm_area_entry src_it dst_it flags st = Ret tt st'
    /\ trace st' = trace st ++ [EvInvlpg (wrap32 (ie_pfn dst_it * PAGE_SIZE))]
    /\ pgtbl_pool st' = pgtbl_pool st
    /\ (forall a, a <> ie_entry dst_it -> kmem st' a = kmem st a)
    /\ let sw := kmem st (ie_entry src_it) in
       let dw := kmem st' (ie_entry dst_it) in
       if pte_kernel_cow sw then
         dw = Z.clearbit (ie_entry src_it) 0
         /\ (Z.even (ie_entry src_it) = true -> dw = ie_entry src_it)
         /\ pte_present dw = false
       else
         pte_frame dw = pte_frame sw
         /\ pte_rw dw = has_flag flags MM_RW
         /\ pte_present dw = has_flag flags MM_PRESENT
         /\ pte_kernel_cow dw = has_flag flags MM_COW
         /\ pte_global dw = has_flag flags MM_GLOBAL
         /\ pte_user dw = has_flag flags MM_USER.
Proof.
  intros Hsrc Hdst. cbv zeta. unfold mem_clone_vm_area_entry.
  assert (Hs : ie_entry src_it <> 0) by lia.
  erewrite bind_Ret by (apply load_ok; exact Hs).
  destruct (pte_kernel_cow (kmem st (ie_entry src_it))) eqn:Hcow.
  - (* copy-on-write: the destination aliases the source entry *)
    erewrite bind_Ret; cycle 1.
    { erewrite bind_Ret by (apply store_ok; exact Hdst).
      apply update_ok; exact Hdst. }
    eexists. split; [reflexivity|].
    cbn [kmem set_kmem trace add_event pgtbl_pool].
    split; [reflexivity|]. split; [reflexivity|]. split.
    { intros a Ha. rewrite !upd_other by exact Ha. reflexivity. }
    rewrite !upd_same.
    assert (Hw : wrap32 (ie_entry src_it) = ie_entry src_it).
    { unfold wrap32. apply Z.mod_small. lia. }
    rewrite Hw. unfold pte_set_present, set_bit.
    split; [reflexivity|]. split.
    + intros Heven. apply clearbit0_even. exact Heven.
    + unfold pte_present. rewrite Z.clearbit_eqb. apply andb_false_r.
  - (* a plain entry: frame and flags *)
    destruct (set_pg_table_flags_ok (ie_entry dst_it) flags
                (set_kmem (fun m => upd m (ie_entry dst_it)
                             (pte_set_frame (m (ie_entry dst_it))
                                (pte_frame (kmem st (ie_entry src_it))))) st)
                Hdst) as (st1 & Hrun & Hword & Hframe & Htr & Hpool & _).
    erewrite bind_Ret; cycle 1.
    { erewrite bind_Ret by (apply load_ok; exact Hs).
      erewrite bind_Ret by (apply update_ok; exact Hdst).
      exact Hrun. }
    eexists. split; [reflexivity|].
    cbn [kmem set_kmem trace add_event pgtbl_pool]. rewrite Htr.
    split; [reflexivity|]. split; [exact Hpool|]. split.
    { intros a Ha. rewrite Hframe by exact Ha.
      cbn [kmem set_kmem]. now rewrite upd_other. }
    rewrite Hword. cbn [kmem set_kmem]. rewrite upd_same.
    destruct (with_pg_table_flags_fields
                (pte_set_frame (kmem st (ie_entry dst_it))
                   (pte_frame (kmem st (ie_entry src_it)))) flags)
      as (Hf & Hrw & Hp & Hc & Hg & Hu & _).
    repeat split; try assumption.
    rewrite Hf. unfold pte_set_frame, pte_frame.
    rewrite get_field_set_field_same by lia.
    apply get_field_idem; lia.
Qed.

End CloneFacts.

(** * Facts about memory and strings *)

Section MemFacts.
Import Mem.

Lemma load8_store8_same (m : mem) (a v : Z) : load8 (store8 m a v) a = v mod 256.
Proof.
  unfold load8, store8. rewrite Z.eqb_refl. apply Z.mod_mod. lia.
Qed.

Lemma store8_other (m : mem) (a b v : Z) : b <> a -> store8 m a v b = m b.
Proof.
  intros Hne. unfold store8. destruct (Z.eqb_spec b a); [lia | reflexivity].
Qed.

Lemma load8_range (m : mem) (a : Z) : 0 <= load8 m a < 256.
Proof. unfold load8. apply Z.mod_pos_bound. lia. Qed.

Lemma unchanged_outside_refl (lo hi : Z) (m : mem) : unchanged_outside lo hi m m.
Proof. intros a _. reflexivity. Qed.

Lemma unchanged_outside_trans (lo hi lo' hi' : Z) (m1 m2 m3 : mem) :
  unchanged_outside lo hi m1 m2 ->
  unchanged_outside lo' hi' m2 m3 ->
  unchanged_outside (Z.min lo lo') (Z.max hi hi') m1 m3.
Proof.
  intros H12 H23 a Ha. rewrite H23 by lia. apply H12. lia.
Qed.


Lemma unchanged_store8 (m : mem) (a v : Z) :
  unchanged_outside a (a + 1) m (store8 m a v).
Proof. intros b Hb. apply store8_other. lia. Qed.

Lemma unchanged_store32 (m : mem) (a v : Z) :
  unchanged_outside a (a + 4) m (store32 m a v).
Proof.
  intros b Hb. unfold store32. rewrite !store8_other by lia. reflexivity.
Qed.

Lemma agree_unchanged (F : Z -> Prop) (lo hi : Z) (m0 m m' : mem) :
  agree_on F m0 m ->
  unchanged_outside lo hi m m' ->
  (forall a, lo <= a < hi -> ~ F a) ->
  agree_on F m0 m'.
Proof.
  intros Hag Hun Hdis a Ha. rewrite Hun; [apply Hag; exact Ha|].
  intros Hin. exact (Hdis a Hin Ha).
Qed.

Lemma load8_agree (F : Z -> Prop) (m m' : mem) (a : Z) :
  agree_on F m m' -> F a -> load8 m' a = load8 m a.
Proof. intros Hag Ha. unfold load8. now rewrite Hag. Qed.

Lemma load32_agree (F : Z -> Prop) (m m' : mem) (a : Z) :
  agree_on F m m' -> (forall k, 0 <= k < 4 -> F (a + k)) ->
  load32 m' a = load32 m a.
Proof.
  intros Hag Ha. unfold load32.
  rewrite (load8_agree F m m' a) by (try assumption; replace a with (a + 0) by lia; apply Ha; lia).
  rewrite !(load8_agree F m m' (a + _)) by (try assumption; apply Ha; lia).
  reflexivity.
Qed.

(** The bytes of the strings and the slots of the pointer array are part of
    the argument array. *)
Lemma in_args_slot (args : Z) (ps : list Z) (ls : list (list Z)) (i k : Z) :
  0 <= i <= Z.of_nat (length ps) -> 0 <= k < 4 ->
  in_args args ps ls (args + 4 * i + k).
Proof. intros Hi Hk. left. lia. Qed.

Lemma in_args_char (args : Z) (ps : list Z) (ls : list (list Z)) (i : nat)
    (p : Z) (l : list Z) (k : Z) :
  ps !! i = Some p -> ls !! i = Some l -> 0 <= k <= Z.of_nat (length l) ->
  in_args args ps ls (p + k).
Proof. intros Hp Hl Hk. right. exists i, p, l. repeat split; try assumption; lia. Qed.

(** Reading an argument array. *)

Lemma cstr_at_agree (F : Z -> Prop) (m m' : mem) (l : list Z) : forall (p : Z),
  agree_on F m m' ->
  (forall k, 0 <= k <= Z.of_nat (length l) -> F (p + k)) ->
  cstr_at m p l -> cstr_at m' p l.
Proof.
  induction l as [|c l IH]; intros p Hag HF Hc; cbn in *.
  - rewrite (load8_agree F m m') by (try assumption; replace p with (p + 0) by lia; apply HF; lia).
    exact Hc.
  - destruct Hc as (Hb & Hnz & Hrest).
    rewrite (load8_agree F m m') by (try assumption; replace p with (p + 0) by lia; apply HF; lia).
    repeat split; try assumption.
    apply IH; try assumption.
    intros k Hk. replace (p + 1 + k) with (p + (1 + k)) by lia. apply HF. lia.
Qed.

Lemma ptrs_at_agree (F : Z -> Prop) (m m' : mem) (ps : list Z) : forall (p : Z),
  agree_on F m m' ->
  (forall k, 0 <= k < 4 * (Z.of_nat (length ps) + 1) -> F (p + k)) ->
  ptrs_at m p ps -> ptrs_at m' p ps.
Proof.
  induction ps as [|q ps IH]; intros p Hag HF Hp; cbn in *.
  - rewrite (load32_agree F m m') by (try assumption; intros k Hk; apply HF; lia).
    exact Hp.
  - destruct Hp as (Hq & Hnz & Hrest).
    rewrite (load32_agree F m m') by (try assumption; intros k Hk; apply HF; lia).
    repeat split; try assumption.
    apply IH; try assumption.
    intros k Hk. replace (p + 4 + k) with (p + (4 + k)) by lia. apply HF. lia.
Qed.

Lemma ptrs_at_lookup (m : mem) (ps : list Z) : forall (p : Z) (i : nat) (q : Z),
  ptrs_at m p ps -> ps !! i = Some q ->
  load32 m (p + 4 * Z.of_nat i) = q /\ q <> 0.
Proof.
  induction ps as [|q0 ps IH]; intros p i q Hp Hi; [discriminate|].
  cbn in Hp. destruct Hp as (Hq & Hnz & Hrest).
  destruct i as [|i]; cbn in Hi.
  - injection Hi as <-. rewrite Z.add_0_r. auto.
  - destruct (IH (p + 4) i q Hrest Hi) as [Hl Hn].
    split; [|exact Hn]. rewrite <- Hl. f_equal. lia.
Qed.

Lemma ptrs_at_end (m : mem) (ps : list Z) : forall (p : Z),
  ptrs_at m p ps -> load32 m (p + 4 * Z.of_nat (length ps)) = 0.
Proof.
  induction ps as [|q ps IH]; intros p Hp; cbn in Hp.
  - cbn. rewrite Z.add_0_r. exact Hp.
  - destruct Hp as (_ & _ & Hrest). rewrite <- (IH (p + 4) Hrest).
    f_equal. cbn [length]. lia.
Qed.

Lemma cstr_at_lookup (m : mem) (l : list Z) : forall (p : Z) (k : nat) (c : Z),
  cstr_at m p l -> l !! k = Some c ->
  load8 m (p + Z.of_nat k) = c /\ c <> 0.
Proof.
  induction l as [|c0 l IH]; intros p k c Hc Hk; [discriminate|].
  cbn in Hc. destruct Hc as (Hb & Hnz & Hrest).
  destruct k as [|k]; cbn in Hk.
  - injection Hk as <-. rewrite Z.add_0_r. auto.
  - destruct (IH (p + 1) k c Hrest Hk) as [Hl Hn].
    split; [|exact Hn]. rewrite <- Hl. f_equal. lia.
Qed.

Lemma cstr_at_end (m : mem) (l : list Z) : forall (p : Z),
  cstr_at m p l -> load8 m (p + Z.of_nat (length l)) = 0.
Proof.
  induction l as [|c l IH]; intros p Hc; cbn in Hc.
  - cbn. rewrite Z.add_0_r. exact Hc.
  - destruct Hc as (_ & _ & Hrest). rewrite <- (IH (p + 1) Hrest).
    f_equal. cbn [length]. lia.
Qed.

End MemFacts.

(** * Facts about processes *)

Section ProcessFacts.
Import Mem Process.
Context `{Config} `{Collaborators}.

Lemma task_at_ok (t : nat) (x : task_struct) (s : kstate) :
  tasks s !! t = Some x -> task_at t s = Ret x s.
Proof. intros Ht. unfold task_at. now rewrite Ht. Qed.

Lemma update_task_ok (t : nat) (x : task_struct) (f : task_struct -> task_struct)
    (s : kstate) :
  tasks s !! t = Some x ->
  update_task t f s = Ret tt (set_tasks (<[t := f x]> (tasks s)) s).
Proof.
  intros Ht. unfold update_task. erewrite bind_Ret by (apply task_at_ok; exact Ht).
  reflexivity.
Qed.

Lemma update_regs_ok (t : nat) (x : task_struct) (f : pt_regs -> pt_regs)
    (s : kstate) :
  tasks s !! t = Some x ->
  update_regs t f s
  = Ret tt (set_tasks
              (<[t := set_thread (set_regs (f (regs (thread x))) (thread x)) x]>
                 (tasks s)) s).
Proof.
  intros Ht. unfold update_regs.
  now rewrite (update_task_ok t x) by exact Ht.
Qed.

(** The last task of the table, and its update. *)
Lemma lookup_last_task (l : list task_struct) (x : task_struct) :
  (l ++ [x]) !! length l = Some x.
Proof. rewrite lookup_app_r by lia. now rewrite Nat.sub_diag. Qed.

Lemma insert_last_task (l : list task_struct) (x y : task_struct) :
  <[length l := y]> (l ++ [x]) = l ++ [y].
Proof.
  rewrite insert_app_r_alt by lia. now rewrite Nat.sub_diag.
Qed.

Lemma sys_fork_runs (f : pt_regs) (st : kstate) (cur : nat) (parent : task_struct) :
  current st = Some cur ->
  tasks st !! cur = Some parent ->
  let p := set_thread (set_regs f (thread parent)) parent in
  let new_pid := match pid_pool st with [] => -1 | q :: _ => q end in
  let child := forked_child cur p new_pid (ticks st) in
  sys_fork f st
  = Ret new_pid
      (set_runqueue (runqueue st ++ [length (tasks st)])
         (set_tasks
            (<[cur := set_children (children p ++ [length (tasks st)]) p]>
               (tasks st) ++ [child])
            (set_pid_pool (tl (pid_pool st)) st))).
Proof.
  intros Hcur Htask. cbv zeta.
  destruct st as [km tk cu rq pp tks kp bm fs en cp tr].
  cbn [current tasks pid_pool ticks runqueue] in *.
  set (p := set_thread (set_regs f (thread parent)) parent).
  set (new_pid := match pp with [] => -1 | q :: _ => q end).
  set (child := forked_child cur p new_pid tks).
  set (st := mk_kstate km tk cu rq pp tks kp bm fs en cp tr).
  unfold sys_fork. erewrite bind_Ret by reflexivity.
  change (current st) with cu. rewrite Hcur.
  unfold scheduler_store_context.
  erewrite bind_Ret by (apply update_regs_ok; exact Htask).
  fold p.
  assert (Hlen : (cur < length tk)%nat)
    by (apply lookup_lt_is_Some; eauto).
  set (s1 := set_tasks (<[cur := p]> tk) st).
  assert (H1 : tasks s1 !! cur = Some p).
  { unfold s1. cbn. apply list_lookup_insert_eq. exact Hlen. }
  erewrite bind_Ret by (apply task_at_ok; exact H1).
  (* the allocation *)
  set (p2 := set_children (children p ++ [length tk]) p).
  set (task0 :=
         mk_task new_pid TASK_RUNNING (Some cur) [] (thread p)
           0 0 0 0 0 0
           (mk_sched_entity DEFAULT_PRIO tks tks 0 0 0 0 0 tks
                            false false false 0 0 0)
           0 (name p) None 0 (cwd p) (fd_list p) (replicate NSIG 0) 0 0 0 [] None).
  set (s2 := set_tasks (<[cur := p2]> tk ++ [task0])
               (set_pid_pool (tl pp) st)).
  assert (Halloc : __alloc_task (Some cur) (Some cur) (Some (name p)) s1
                   = Ret (length tk) s2).
  { unfold __alloc_task. erewrite bind_Ret by reflexivity.
    assert (Hpid : pid_manager_get_free_pid s1
                   = Ret new_pid (set_pid_pool (tl (pid_pool st)) s1)).
    { unfold pid_manager_get_free_pid, new_pid, s1, st. cbn.
      destruct pp; reflexivity. }
    erewrite bind_Ret by exact Hpid.
    erewrite bind_Ret; cycle 1.
    { erewrite bind_Ret by (apply task_at_ok; cbn; exact H1). reflexivity. }
    erewrite bind_Ret by (apply update_task_ok; cbn; exact H1).
    erewrite bind_Ret by reflexivity.
    erewrite bind_Ret by reflexivity.
    unfold ret, s2, s1. cbn.
    rewrite length_insert, list_insert_insert_eq. reflexivity. }
  erewrite bind_Ret by exact Halloc.
  assert (Hlen2 : length (<[cur := p2]> tk) = length tk)
    by apply length_insert.
  assert (H2 : tasks s2 !! cur = Some p2).
  { unfold s2. cbn. rewrite lookup_app_l by (rewrite Hlen2; exact Hlen).
    apply list_lookup_insert_eq. exact Hlen. }
  erewrite bind_Ret by (apply task_at_ok; exact H2).
  (* the updates of the child, one field at a time *)
  assert (Hstep : forall (g : task_struct -> task_struct) (x : task_struct) s,
             tasks s = <[cur := p2]> tk ++ [x] ->
             update_task (length tk) g s
             = Ret tt (set_tasks (<[cur := p2]> tk ++ [g x]) s)).
  { intros g x s Hs. erewrite update_task_ok; cycle 1.
    { rewrite Hs, <- Hlen2. apply lookup_last_task. }
    rewrite Hs. rewrite <- Hlen2 at 1. now rewrite insert_last_task. }
  assert (Hcurr : forall x s, tasks s = <[cur := p2]> tk ++ [x] ->
                              task_at cur s = Ret p2 s).
  { intros x s Hs. apply task_at_ok. rewrite Hs.
    rewrite lookup_app_l by (rewrite Hlen2; exact Hlen).
    apply list_lookup_insert_eq. exact Hlen. }
  erewrite bind_Ret by (apply Hstep; reflexivity).
  unfold update_regs.
  erewrite bind_Ret by (apply Hstep; reflexivity).
  erewrite bind_Ret by (apply Hstep; reflexivity).
  erewrite bind_Ret by (eapply Hcurr; reflexivity).
  do 6 (erewrite bind_Ret by (apply Hstep; reflexivity)).
  erewrite bind_Ret by reflexivity.
  erewrite bind_Ret; cycle 1.
  { apply task_at_ok. cbn. rewrite <- Hlen2. apply lookup_last_task. }
  unfold ret. reflexivity.
Qed.



End ProcessFacts.

(** * Facts about the argument marshalling *)

Section ArgsFacts.
Import Mem Process.

Lemma to_int32_mod (a : Z) : to_int32 a mod 2 ^ 32 = a mod 2 ^ 32.
Proof.
  unfold to_int32.
  rewrite Zminus_mod, Zmod_mod, <- Zminus_mod.
  f_equal. lia.
Qed.

Lemma to_int32_eqm (a b : Z) :
  a mod 2 ^ 32 = b mod 2 ^ 32 -> to_int32 a = to_int32 b.
Proof.
  intros Hab. unfold to_int32.
  rewrite (Zplus_mod a), (Zplus_mod b), Hab. reflexivity.
Qed.

Lemma to_int32_add_l (a b : Z) : to_int32 (to_int32 a + b) = to_int32 (a + b).
Proof.
  apply to_int32_eqm. rewrite Zplus_mod, to_int32_mod, <- Zplus_mod. reflexivity.
Qed.

Lemma wrap32_add_to_int32 (a b : Z) : wrap32 (a + to_int32 b) = wrap32 (a + b).
Proof.
  unfold wrap32. rewrite Zplus_mod, to_int32_mod, <- Zplus_mod. reflexivity.
Qed.

Lemma to_int32_small (a : Z) : 0 <= a < 2 ^ 31 -> to_int32 a = a.
Proof.
  intros Ha. unfold to_int32. rewrite Z.mod_small by lia. lia.
Qed.

Lemma chars_bytes_cons (l : list Z) (ls : list (list Z)) :
  chars_bytes (l :: ls) = Z.of_nat (length l) + 1 + chars_bytes ls.
Proof. reflexivity. Qed.

Lemma chars_bytes_nonneg (ls : list (list Z)) : 0 <= chars_bytes ls.
Proof.
  induction ls as [|l ls IH]; [reflexivity|]. rewrite chars_bytes_cons. lia.
Qed.

Lemma chars_bytes_app (l1 l2 : list (list Z)) :
  chars_bytes (l1 ++ l2) = chars_bytes l1 + chars_bytes l2.
Proof.
  induction l1 as [|l l1 IH]; [reflexivity|].
  rewrite <- app_comm_cons, !chars_bytes_cons, IH. lia.
Qed.

Lemma chars_bytes_take_S (ls : list (list Z)) (n : nat) (l : list Z) :
  ls !! n = Some l ->
  chars_bytes (take (S n) ls) = chars_bytes (take n ls) + (Z.of_nat (length l) + 1).
Proof.
  intros Hl. rewrite (take_S_r ls n l Hl), chars_bytes_app, chars_bytes_cons.
  change (chars_bytes []) with 0. lia.
Qed.

Lemma set_kmem_twice (m1 m2 : mem) (s : kstate) :
  set_kmem m2 (set_kmem m1 s) = set_kmem m2 s.
Proof. reflexivity. Qed.

Lemma set_kmem_same (s : kstate) : set_kmem (kmem s) s = s.
Proof. destruct s; reflexivity. Qed.

Lemma strlen_ok (l : list Z) : forall (p : Z) (fuel : nat) (s : kstate),
  cstr_at (kmem s) p l -> (length l < fuel)%nat ->
  strlen fuel p s = Ret (Z.of_nat (length l)) s.
Proof.
  induction l as [|c l IH]; intros p fuel s Hc Hfuel;
    (destruct fuel as [|fuel]; [cbn in Hfuel; lia|]);
    cbn [cstr_at] in Hc; cbn [strlen length];
    erewrite bind_Ret by reflexivity.
  - rewrite Hc. reflexivity.
  - destruct Hc as (Hb & Hnz & Hrest). rewrite Hb.
    destruct (Z.eqb_spec c 0); [lia|].
    erewrite bind_Ret by (apply IH; [exact Hrest | cbn in Hfuel; lia]).
    unfold ret. f_equal. lia.
Qed.

Lemma count_args_loop_ok (ps : list Z) : forall (args : Z) (k fuel : nat) (s : kstate),
  ptrs_at (kmem s) (args + 4 * Z.of_nat k) ps -> (length ps < fuel)%nat ->
  count_args_loop fuel args (Z.of_nat k) s = Ret (Z.of_nat (k + length ps)) s.
Proof.
  induction ps as [|q ps IH]; intros args k fuel s Hp Hfuel;
    (destruct fuel as [|fuel]; [cbn in Hfuel; lia|]);
    cbn [ptrs_at] in Hp; cbn [count_args_loop length];
    erewrite bind_Ret by reflexivity.
  - rewrite Hp. cbn. unfold ret. f_equal. lia.
  - destruct Hp as (Hq & Hnz & Hrest). rewrite Hq.
    destruct (Z.eqb_spec q 0); [lia|].
    replace (Z.of_nat k + 1) with (Z.of_nat (S k)) by lia.
    rewrite IH; [f_equal; lia | | cbn in Hfuel; lia].
    replace (args + 4 * Z.of_nat (S k)) with (args + 4 * Z.of_nat k + 4) by lia.
    exact Hrest.
Qed.

Lemma count_args_ok (args : Z) (ps : list Z) (fuel : nat) (s : kstate) :
  ptrs_at (kmem s) args ps -> (length ps < fuel)%nat ->
  __count_args fuel args s = Ret (Z.of_nat (length ps)) s.
Proof.
  intros Hp Hfuel. unfold __count_args.
  apply (count_args_loop_ok ps args 0 fuel s); [|exact Hfuel].
  now rewrite Z.add_0_r.
Qed.

Lemma args_at_lookup (m : mem) (args : Z) (ps : list Z) (ls : list (list Z)) (i : nat) :
  args_at m args ps ls -> (i < length ps)%nat ->
  exists p l, ps !! i = Some p /\ ls !! i = Some l
              /\ load32 m (args + 4 * Z.of_nat i) = p /\ cstr_at m p l.
Proof.
  intros [Hp Hall] Hi.
  destruct (lookup_lt_is_Some_2 ps i Hi) as [p Hpi].
  destruct (Forall2_lookup_l _ _ _ _ _ Hall Hpi) as (l & Hli & Hc).
  exists p, l. repeat split; try assumption.
  apply (ptrs_at_lookup m ps args i p Hp Hpi).
Qed.

Lemma args_at_length (m : mem) (args : Z) (ps : list Z) (ls : list (list Z)) :
  args_at m args ps ls -> length ps = length ls.
Proof. intros [_ Hall]. exact (Forall2_length _ _ _ Hall). Qed.

Lemma count_chars_loop_ok (fuel : nat) (args : Z) (ps : list Z) (ls : list (list Z))
    (s : kstate) :
  args_at (kmem s) args ps ls -> enough_fuel fuel ls ->
  forall (n i : nat) (nchar : Z),
    (i + n = length ps)%nat ->
    exists r,
      count_chars_loop fuel n args (Z.of_nat i) nchar s = Ret r s
      /\ to_int32 r = to_int32 (nchar + chars_bytes (drop i ls)).
Proof.
  intros Hargs [_ Hfuel]. pose proof (args_at_length _ _ _ _ Hargs) as Hlen.
  induction n as [|n IH]; intros i nchar Hin.
  - exists nchar. split; [reflexivity|].
    rewrite drop_ge by lia. cbn. now rewrite Z.add_0_r.
  - destruct (args_at_lookup _ _ _ _ i Hargs ltac:(lia)) as (p & l & Hp & Hl & Hload & Hc).
    destruct (IH (S i) (to_int32 (nchar + (Z.of_nat (length l) + 1))) ltac:(lia))
      as (r & Hrun & Hr).
    exists r. split.
    + cbn [count_chars_loop]. erewrite bind_Ret by reflexivity. rewrite Hload.
      erewrite bind_Ret; cycle 1.
      { apply strlen_ok; [exact Hc|].
        rewrite Forall_forall in Hfuel. apply Hfuel.
        apply (list_elem_of_lookup_2 _ i). exact Hl. }
      replace (Z.of_nat i + 1) with (Z.of_nat (S i)) by lia. exact Hrun.
    + rewrite Hr, to_int32_add_l. f_equal.
      rewrite (drop_S ls l i Hl), chars_bytes_cons. lia.
Qed.

Lemma count_args_bytes_ok (fuel : nat) (args : Z) (ps : list Z) (ls : list (list Z))
    (s : kstate) :
  args_at (kmem s) args ps ls -> enough_fuel fuel ls ->
  __count_args_bytes fuel args s = Ret (to_int32 (args_bytes ls)) s.
Proof.
  intros Hargs Hfuel. pose proof (args_at_length _ _ _ _ Hargs) as Hlen.
  unfold __count_args_bytes.
  erewrite bind_Ret; cycle 1.
  { apply count_args_ok; [exact (proj1 Hargs)|]. rewrite Hlen. exact (proj1 Hfuel). }
  rewrite Nat2Z.id.
  destruct (count_chars_loop_ok fuel args ps ls s Hargs Hfuel (length ps) 0 0
              ltac:(lia)) as (r & Hrun & Hr).
  erewrite bind_Ret by exact Hrun.
  unfold ret. f_equal. unfold args_bytes.
  rewrite <- to_int32_add_l, Hr, to_int32_add_l.
  rewrite drop_0, Hlen. f_equal.
Qed.

Lemma push8_ok (sp v : Z) (s : kstate) :
  1 <= sp < 2 ^ 32 ->
  push8 sp v s = Ret (sp - 1) (set_kmem (store8 (kmem s) (sp - 1) v) s).
Proof.
  intros Hsp. unfold push8, write8, wrap32. rewrite Z.mod_small by lia.
  reflexivity.
Qed.

Lemma push32_ok (sp v : Z) (s : kstate) :
  4 <= sp < 2 ^ 32 ->
  push32 sp v s = Ret (sp - 4) (set_kmem (store32 (kmem s) (sp - 4) v) s).
Proof.
  intros Hsp. unfold push32, write32, wrap32. rewrite Z.mod_small by lia.
  reflexivity.
Qed.

(** Pushing the [k] first bytes of the string of [args[i]], the last one
    first, below [sp]: the memory changes in the [k] bytes below [sp] only.
    [m0] is the memory the argument array was read in, [F] the addresses it
    occupies. *)
Lemma push_chars_loop_ok (F : Z -> Prop) (m0 : mem) (args i p : Z) :
  (forall j, 0 <= j < 4 -> F (args + 4 * i + j)) ->
  load32 m0 (args + 4 * i) = p ->
  forall (k : nat) (sp : Z) (s : kstate),
    agree_on F m0 (kmem s) ->
    (forall a, sp - Z.of_nat k <= a < sp -> ~ F a) ->
    Z.of_nat k <= sp < 2 ^ 32 ->
    exists m',
      push_chars_loop k args i sp s = Ret (sp - Z.of_nat k) (set_kmem m' s)
      /\ unchanged_outside (sp - Z.of_nat k) sp (kmem s) m'.
Proof.
  intros Hslot Hload. induction k as [|k IH]; intros sp s Hag Hdis Hsp.
  - exists (kmem s). cbn [push_chars_loop]. unfold ret.
    rewrite set_kmem_same, Z.sub_0_r. split; [reflexivity|].
    apply unchanged_outside_refl.
  - cbn [push_chars_loop].
    erewrite bind_Ret by reflexivity.
    erewrite bind_Ret by reflexivity.
    erewrite bind_Ret by (apply push8_ok; lia).
    set (s1 := set_kmem _ s).
    assert (Hag1 : agree_on F m0 (kmem s1)).
    { apply (agree_unchanged F (sp - 1) sp m0 (kmem s)); [exact Hag| |].
      - unfold s1. cbn [kmem set_kmem].
        replace sp with (sp - 1 + 1) at 2 by lia. apply unchanged_store8.
      - intros a Ha. apply Hdis. lia. }
    destruct (IH (sp - 1) s1 Hag1) as (m' & Hrun & Hun).
    { intros a Ha. apply Hdis. lia. }
    { lia. }
    exists m'. split.
    + rewrite Hrun. unfold s1. rewrite set_kmem_twice. f_equal. lia.
    + intros a Ha. rewrite Hun by lia.
      unfold s1. cbn [kmem set_kmem]. apply store8_other. lia.
Qed.

(** The first loop of [__push_args_on_stack] over the [n] first arguments. *)
Lemma push_strings_loop_ok (fuel : nat) (m0 : mem) (args : Z) (ps : list Z)
    (ls : list (list Z)) :
  args_at m0 args ps ls -> enough_fuel fuel ls ->
  forall (n : nat) (sp : Z) (locs : list Z) (s : kstate),
    (n <= length ps)%nat -> (n <= 256)%nat ->
    agree_on (in_args args ps ls) m0 (kmem s) ->
    (forall a, sp - chars_bytes (take n ls) <= a < sp -> ~ in_args args ps ls a) ->
    chars_bytes (take n ls) <= sp < 2 ^ 32 ->
    exists m' locs',
      push_strings_loop fuel n args sp locs s
      = Ret (sp - chars_bytes (take n ls), locs') (set_kmem m' s)
      /\ unchanged_outside (sp - chars_bytes (take n ls)) sp (kmem s) m'
      /\ length locs' = (n + length locs)%nat.
Proof.
  intros Hargs [_ Hfuel]. pose proof (args_at_length _ _ _ _ Hargs) as Hlen.
  induction n as [|n IH]; intros sp locs s Hn H256 Hag Hdis Hsp.
  - exists (kmem s), locs. cbn [push_strings_loop take]. unfold ret.
    change (chars_bytes []) with 0. rewrite set_kmem_same, Z.sub_0_r.
    split; [reflexivity|]. split; [apply unchanged_outside_refl | reflexivity].
  - destruct (args_at_lookup _ _ _ _ n Hargs ltac:(lia))
      as (p & l & Hp & Hl & Hload & Hc).
    rewrite (chars_bytes_take_S ls n l Hl) in *.
    pose proof (chars_bytes_nonneg (take n ls)) as Hnn.
    assert (Hslot : forall j, 0 <= j < 4 ->
                      in_args args ps ls (args + 4 * Z.of_nat n + j)).
    { intros j Hj. apply in_args_slot; lia. }
    cbn [push_strings_loop].
    erewrite bind_Ret by reflexivity.
    assert (Hread : load32 (kmem s) (args + 4 * Z.of_nat n) = p).
    { rewrite (load32_agree (in_args args ps ls) m0) by assumption. exact Hload. }
    rewrite Hread.
    assert (Hc' : cstr_at (kmem s) p l).
    { apply (cstr_at_agree (in_args args ps ls) m0); try assumption.
      intros k Hk. apply (in_args_char args ps ls n p l); assumption. }
    erewrite bind_Ret; cycle 1.
    { apply strlen_ok; [exact Hc'|].
      rewrite Forall_forall in Hfuel. apply Hfuel.
      apply (list_elem_of_lookup_2 _ n). exact Hl. }
    rewrite Nat2Z.id.
    destruct (push_chars_loop_ok (in_args args ps ls) m0 args (Z.of_nat n) p
                Hslot Hload (S (length l)) sp s Hag) as (m1 & Hrun1 & Hun1).
    { intros a Ha. apply Hdis. lia. }
    { lia. }
    erewrite bind_Ret by exact Hrun1.
    destruct (Z.leb_spec 256 (Z.of_nat n)) as [|_]; [lia|].
    set (sp1 := sp - Z.of_nat (S (length l))) in *.
    set (s1 := set_kmem m1 s).
    assert (Hag1 : agree_on (in_args args ps ls) m0 (kmem s1)).
    { apply (agree_unchanged _ sp1 sp m0 (kmem s)); [exact Hag|exact Hun1|].
      intros a Ha. apply Hdis. unfold sp1 in Ha. lia. }
    destruct (IH sp1 (sp1 :: locs) s1 ltac:(lia) ltac:(lia) Hag1)
      as (m' & locs' & Hrun & Hun & Hlocs).
    { intros a Ha. apply Hdis. unfold sp1 in Ha. lia. }
    { unfold sp1. lia. }
    exists m', locs'. split; [|split].
    + rewrite Hrun. unfold s1. rewrite set_kmem_twice. f_equal. f_equal.
      unfold sp1. lia.
    + intros a Ha. rewrite Hun by (unfold sp1; lia).
      unfold s1. cbn [kmem set_kmem]. apply Hun1. unfold sp1. lia.
    + rewrite Hlocs. cbn [length]. lia.
Qed.

(** The second loop: one word for every location. *)
Lemma push_pointers_loop_ok (rlocs : list Z) : forall (sp : Z) (s : kstate),
  4 * Z.of_nat (length rlocs) <= sp < 2 ^ 32 ->
  exists m',
    push_pointers_loop rlocs sp s
    = Ret (sp - 4 * Z.of_nat (length rlocs)) (set_kmem m' s)
    /\ unchanged_outside (sp - 4 * Z.of_nat (length rlocs)) sp (kmem s) m'.
Proof.
  induction rlocs as [|q rlocs IH]; intros sp s Hsp.
  - exists (kmem s). cbn [push_pointers_loop length]. unfold ret.
    rewrite set_kmem_same, Z.sub_0_r. split; [reflexivity|].
    apply unchanged_outside_refl.
  - cbn [push_pointers_loop]. cbn [length] in Hsp |- *.
    erewrite bind_Ret by (apply push32_ok; lia).
    set (s1 := set_kmem _ s).
    destruct (IH (sp - 4) s1 ltac:(lia)) as (m' & Hrun & Hun).
    exists m'. split.
    + rewrite Hrun. unfold s1. rewrite set_kmem_twice. f_equal. lia.
    + intros a Ha. rewrite Hun by lia. unfold s1. cbn [kmem set_kmem].
      apply unchanged_store32. lia.
Qed.

(** [__push_args_on_stack] on an argument array of at most 256 entries, with
    room below [sp] that the array does not occupy: the stack pointer moves
    down by exactly the bytes [__count_args_bytes] counts, and the memory
    changes in these bytes only. *)
Lemma push_args_on_stack_ok (fuel : nat) (sp args : Z) (ps : list Z)
    (ls : list (list Z)) (s : kstate) :
  args_at (kmem s) args ps ls -> enough_fuel fuel ls ->
  (length ps <= 256)%nat ->
  args_bytes ls <= sp < 2 ^ 32 ->
  (forall a, sp - args_bytes ls <= a < sp -> ~ in_args args ps ls a) ->
  exists m',
    __push_args_on_stack fuel sp args s
    = Ret (sp - args_bytes ls) (set_kmem m' s)
    /\ unchanged_outside (sp - args_bytes ls) sp (kmem s) m'.
Proof.
  intros Hargs Hfuel H256 Hsp Hdis.
  pose proof (args_at_length _ _ _ _ Hargs) as Hlen.
  pose proof (chars_bytes_nonneg ls) as Hnn.
  unfold args_bytes in *.
  unfold __push_args_on_stack.
  erewrite bind_Ret; cycle 1.
  { apply count_args_ok; [exact (proj1 Hargs)|]. rewrite Hlen. exact (proj1 Hfuel). }
  rewrite Nat2Z.id.
  assert (Htake : take (length ps) ls = ls) by (apply take_ge; lia).
  destruct (push_strings_loop_ok fuel (kmem s) args ps ls Hargs Hfuel
              (length ps) sp [] s ltac:(lia) H256)
    as (m1 & locs & Hrun1 & Hun1 & Hlocs).
  { intros a Ha. reflexivity. }
  { rewrite Htake. intros a Ha. apply Hdis. lia. }
  { rewrite Htake. lia. }
  rewrite Htake in *.
  erewrite bind_Ret by exact Hrun1. cbv beta iota.
  erewrite bind_Ret by (apply push32_ok; lia).
  set (sp1 := sp - chars_bytes ls) in *.
  set (s2 := set_kmem _ (set_kmem m1 s)).
  destruct (push_pointers_loop_ok (rev locs) (sp1 - 4) s2) as (m' & Hrun & Hun).
  { rewrite length_rev, Hlocs. cbn [length]. unfold sp1. lia. }
  rewrite length_rev, Hlocs in Hrun, Hun. cbn [length] in Hrun, Hun.
  rewrite Nat.add_0_r in Hrun, Hun.
  exists m'. split.
  - rewrite Hrun. unfold s2. rewrite !set_kmem_twice. f_equal.
    unfold sp1. lia.
  - intros a Ha. rewrite Hun by (unfold sp1; lia).
    unfold s2. cbn [kmem set_kmem].
    rewrite unchanged_store32 by (unfold sp1; lia).
    apply Hun1. unfold sp1. lia.
Qed.

End ArgsFacts.

Section CopyArguments.
Import Mem Process.
Context `{Config} `{Collaborators}.

Lemma args_at_agree (m m' : mem) (args : Z) (ps : list Z) (ls : list (list Z)) :
  agree_on (in_args args ps ls) m m' ->
  args_at m args ps ls -> args_at m' args ps ls.
Proof.
  intros Hag [Hp Hall]. split.
  - apply (ptrs_at_agree (in_args args ps ls) m); try assumption.
    intros k Hk. left. lia.
  - apply Forall2_same_length_lookup. split; [exact (Forall2_length _ _ _ Hall)|].
    intros i p l Hpi Hli.
    apply (cstr_at_agree (in_args args ps ls) m); try assumption.
    + intros k Hk. apply (in_args_char args ps ls i p l); assumption.
    + exact (Forall2_lookup_lr _ _ _ _ _ _ Hall Hpi Hli).
Qed.

(** C10, as the code has it.  The section of [sys_execve] that copies the
    arguments, on argument and environment arrays of at most 256 entries
    each, with a block of [kmalloc] that lies in the address space and that
    the two arrays do not occupy.  [__count_args_bytes] gives the bytes of
    an array (every string with its terminator, and the pointers with
    theirs); pushing the array moves the pointer down by exactly these
    bytes; so the pointer is back at the start of the block after the two
    pushes, and the assertion holds: the section ends by a return, of -1
    when a count is negative as an [int], of the saved arrays otherwise. *)
Theorem sys_execve_copy_arguments_assertion
    (fuel : nat) (origin_argv origin_envp args_mem : Z) (pool : list Z)
    (ps_a ps_e : list Z) (ls_a ls_e : list (list Z)) (st : kstate) :
  args_at (kmem st) origin_argv ps_a ls_a ->
  args_at (kmem st) origin_envp ps_e ls_e ->
  enough_fuel fuel ls_a -> enough_fuel fuel ls_e ->
  (length ps_a <= 256)%nat -> (length ps_e <= 256)%nat ->
  kmalloc_pool st = args_mem :: pool ->
  0 < args_mem ->
  args_mem + args_bytes ls_a + args_bytes ls_e < 2 ^ 32 ->
  (forall a, args_mem <= a < args_mem + args_bytes ls_a + args_bytes ls_e ->
             ~ in_args origin_argv ps_a ls_a a /\ ~ in_args origin_envp ps_e ls_e a) ->
  let top := args_mem + args_bytes ls_a + args_bytes ls_e in
  let st0 := set_kmalloc_pool pool st in
  __count_args_bytes fuel origin_argv st = Ret (to_int32 (args_bytes ls_a)) st
  /\ __count_args_bytes fuel origin_envp st = Ret (to_int32 (args_bytes ls_e)) st
  /\ exists st1 st2,
       __push_args_on_stack fuel top origin_argv st0
       = Ret (top - args_bytes ls_a) st1
       /\ __push_args_on_stack fuel (top - args_bytes ls_a) origin_envp st1
          = Ret args_mem st2
       /\ (sys_execve_copy_arguments fuel origin_argv origin_envp st
           = Ret (inl (-1)) st
           \/ sys_execve_copy_arguments fuel origin_argv origin_envp st
              = Ret (inr (mk_saved_args (Z.of_nat (length ps_a))
                            (to_int32 (args_bytes ls_a)) (to_int32 (args_bytes ls_e))
                            args_mem (top - args_bytes ls_a) args_mem)) st2).
Proof.
  intros Hargv Henvp Hfa Hfe H256a H256e Hpool Hmem Hfit Hdis top st0.
  pose proof (chars_bytes_nonneg ls_a) as Hna.
  pose proof (chars_bytes_nonneg ls_e) as Hne.
  assert (HA : 0 <= args_bytes ls_a) by (unfold args_bytes; lia).
  assert (HE : 0 <= args_bytes ls_e) by (unfold args_bytes; lia).
  pose proof (count_args_bytes_ok fuel origin_argv ps_a ls_a st Hargv Hfa) as Hca.
  pose proof (count_args_bytes_ok fuel origin_envp ps_e ls_e st Henvp Hfe) as Hce.
  split; [exact Hca|]. split; [exact Hce|].
  (* the first push, in the upper part of the block *)
  destruct (push_args_on_stack_ok fuel top origin_argv ps_a ls_a st0)
    as (m1 & Hrun1 & Hun1); try assumption.
  { unfold top. lia. }
  { intros a Ha. apply Hdis. unfold top in Ha. lia. }
  set (st1 := set_kmem m1 st0) in *.
  (* the environment is still where it was *)
  assert (Henvp1 : args_at (kmem st1) origin_envp ps_e ls_e).
  { apply (args_at_agree (kmem st)); [|exact Henvp].
    intros a Ha. unfold st1. cbn [kmem set_kmem]. apply Hun1.
    intros Hin. apply (Hdis a); [unfold top in Hin; lia | exact Ha]. }
  destruct (push_args_on_stack_ok fuel (top - args_bytes ls_a) origin_envp
              ps_e ls_e st1) as (m2 & Hrun2 & Hun2); try assumption.
  { unfold top. lia. }
  { intros a Ha. apply Hdis. unfold top in Ha. lia. }
  replace (top - args_bytes ls_a - args_bytes ls_e) with args_mem in Hrun2, Hun2
    by (unfold top; lia).
  exists st1, (set_kmem m2 st1). split; [exact Hrun1|]. split; [exact Hrun2|].
  unfold sys_execve_copy_arguments.
  erewrite bind_Ret; cycle 1.
  { apply count_args_ok; [exact (proj1 Hargv)|].
    rewrite (args_at_length _ _ _ _ Hargv). exact (proj1 Hfa). }
  erewrite bind_Ret by exact Hca.
  erewrite bind_Ret; cycle 1.
  { apply count_args_ok; [exact (proj1 Henvp)|].
    rewrite (args_at_length _ _ _ _ Henvp). exact (proj1 Hfe). }
  erewrite bind_Ret by exact Hce.
  destruct ((to_int32 (args_bytes ls_a) <? 0) || (to_int32 (args_bytes ls_e) <? 0));
    [left; reflexivity | right].
  assert (Hk : kmalloc (wrap32 (to_int32 (to_int32 (args_bytes ls_a)
                                          + to_int32 (args_bytes ls_e)))) st
               = Ret args_mem st0).
  { unfold kmalloc. rewrite Hpool. reflexivity. }
  erewrite bind_Ret by exact Hk.
  destruct (Z.eqb_spec args_mem 0) as [|_]; [lia|].
  assert (Htop : wrap32 (args_mem + to_int32 (to_int32 (args_bytes ls_a)
                                              + to_int32 (args_bytes ls_e))) = top).
  { rewrite wrap32_add_to_int32, Z.add_assoc, wrap32_add_to_int32.
    replace (args_mem + to_int32 (args_bytes ls_a) + args_bytes ls_e)
      with (args_mem + args_bytes ls_e + to_int32 (args_bytes ls_a)) by lia.
    rewrite wrap32_add_to_int32. unfold wrap32, top.
    rewrite Z.mod_small by lia. lia. }
  rewrite Htop.
  erewrite bind_Ret by exact Hrun1.
  erewrite bind_Ret by exact Hrun2.
  unfold assert at 1. unfold bind at 1. rewrite Z.eqb_refl. reflexivity.
Qed.

End CopyArguments.

(** * What [execve] leaves of the tasks *)

Section ExecveFacts.
Import Mem Process.
Context `{Config} `{Collaborators}.

Lemma alive_preorder : PreOrder alive.
Proof.
  split.
  - intros s. repeat split.
  - intros s1 s2 s3 (Hc & Hr & Hs) (Hc' & Hr' & Hs'). repeat split; congruence.
Qed.

#[local] Existing Instance alive_preorder.

(** *** Composition *)

Lemma ends_ret {A} (R : kstate -> kstate -> Prop) `{!Reflexive R} (a : A) :
  ends R (ret a).
Proof. intros s. reflexivity. Qed.

Lemma ends_bind {A B} (R : kstate -> kstate -> Prop) `{!PreOrder R}
    (c : M kstate A) (k : A -> M kstate B) :
  ends R c -> (forall a, ends R (k a)) -> ends R (bind c k).
Proof.
  intros Hc Hk s. specialize (Hc s). unfold bind.
  destruct (c s) as [a s1| | | |]; cbn [state_of] in *; try assumption.
  specialize (Hk a s1).
  destruct (k a s1) as [b s2| | | |]; cbn [state_of] in *;
    solve [reflexivity | now transitivity s1].
Qed.

Lemma ends_fault {A} (R : kstate -> kstate -> Prop) `{!Reflexive R} :
  ends R (fault : M kstate A).
Proof. intros s. reflexivity. Qed.

Lemma ends_assert_fail {A} (R : kstate -> kstate -> Prop) `{!Reflexive R} :
  ends R (assert_fail : M kstate A).
Proof. intros s. reflexivity. Qed.

Lemma ends_out_of_fuel {A} (R : kstate -> kstate -> Prop) `{!Reflexive R} :
  ends R (out_of_fuel : M kstate A).
Proof. intros s. reflexivity. Qed.

Lemma ends_panic {A} (R : kstate -> kstate -> Prop) `{!Reflexive R} (msg : string) :
  ends R (kernel_panic msg : M kstate A).
Proof. intros s. reflexivity. Qed.

Lemma ends_get (R : kstate -> kstate -> Prop) `{!Reflexive R} :
  ends R (get : M kstate kstate).
Proof. intros s. reflexivity. Qed.

Lemma ends_assert (R : kstate -> kstate -> Prop) `{!Reflexive R} (b : bool) :
  ends R (assert b : M kstate unit).
Proof. intros s. unfold assert. destruct b; reflexivity. Qed.

Lemma ends_modify (R : kstate -> kstate -> Prop) (f : kstate -> kstate) :
  (forall s, R s (f s)) -> ends R (modify f).
Proof. intros Hf s. apply Hf. Qed.

(** Going through the structure of a piece of code. *)
Ltac ends_step :=
  first
    [ apply ends_ret; typeclasses eauto
    | apply ends_get; typeclasses eauto
    | apply ends_assert; typeclasses eauto
    | apply ends_fault; typeclasses eauto
    | apply ends_out_of_fuel; typeclasses eauto
    | apply ends_panic; typeclasses eauto
    | assumption
    | apply ends_bind; [typeclasses eauto | | intros ?]
    | match goal with
      | |- ends _ (if ?b then _ else _) => destruct b
      | |- ends _ (match ?x with _ => _ end) => destruct x
      | |- ends _ (let '(_, _) := ?x in _) => destruct x
      end ].

(** *** The pieces of [sys_execve] *)

Create HintDb ends.

Lemma alive_read8 (a : Z) : ends alive (read8 a).
Proof. intros s. reflexivity. Qed.

Lemma alive_read32 (a : Z) : ends alive (read32 a).
Proof. intros s. reflexivity. Qed.

Lemma alive_set_kmem (f : kstate -> mem) :
  ends alive (modify (fun s => set_kmem (f s) s)).
Proof. apply ends_modify. intros s. repeat split. Qed.

Lemma alive_write8 (a v : Z) : ends alive (write8 a v).
Proof. apply alive_set_kmem. Qed.

Lemma alive_write32 (a v : Z) : ends alive (write32 a v).
Proof. apply alive_set_kmem. Qed.

Lemma alive_kmalloc (n : Z) : ends alive (kmalloc n).
Proof. intros s. unfold kmalloc. destruct (kmalloc_pool s); repeat split. Qed.

Lemma alive_kfree (p : Z) : ends alive (kfree p).
Proof. apply ends_ret. typeclasses eauto. Qed.

Lemma alive_task_at (t : nat) : ends alive (task_at t).
Proof. intros s. unfold task_at. destruct (tasks s !! t); reflexivity. Qed.

Lemma alive_paging (dir : Z) : ends alive (paging_switch_pgd dir).
Proof. apply ends_modify. intros s. repeat split. Qed.

Lemma alive_get_pgd : ends alive paging_get_current_pgd.
Proof. intros s. reflexivity. Qed.

Lemma alive_emit (e : event) : ends alive (emit e).
Proof. apply ends_modify. intros s. repeat split. Qed.

Lemma alive_set_errno (e : Z) : ends alive (modify (set_errno e)).
Proof. apply ends_modify. intros s. repeat split. Qed.

Lemma alive_update_task (t : nat) (f : task_struct -> task_struct) :
  (forall x, state (f x) = state x) -> ends alive (update_task t f).
Proof.
  intros Hf s. unfold update_task, bind, task_at.
  destruct (tasks s !! t) as [y|] eqn:Hy; [|reflexivity].
  cbn. repeat split. cbn.
  rewrite list_fmap_insert, Hf. apply list_insert_id.
  rewrite list_lookup_fmap, Hy. reflexivity.
Qed.

Lemma alive_update_regs (t : nat) (f : pt_regs -> pt_regs) :
  ends alive (update_regs t f).
Proof. unfold update_regs. apply alive_update_task. reflexivity. Qed.

Lemma alive_mm_destroy (m : mm_struct) : ends alive (mm_destroy m).
Proof. apply alive_emit. Qed.

Lemma alive_mm_create_blank (n : Z) : ends alive (mm_create_blank n).
Proof. intros s. unfold mm_create_blank. destruct (blank_mms s); repeat split. Qed.

#[local] Hint Resolve alive_read8 alive_read32 alive_write8 alive_write32 alive_kmalloc
  alive_kfree alive_task_at alive_set_kmem alive_paging alive_get_pgd alive_emit
  alive_set_errno alive_update_regs alive_mm_destroy alive_mm_create_blank : ends.

Ltac alive_auto :=
  repeat (first [ solve [auto with ends]
                | solve [apply alive_update_task; reflexivity]
                | ends_step ]).

Lemma alive_update_mm (t : nat) (f : mm_struct -> mm_struct) :
  ends alive (update_mm t f).
Proof. unfold update_mm. alive_auto. Qed.

Lemma alive_strlen (fuel : nat) : forall p, ends alive (strlen fuel p).
Proof. induction fuel as [|fuel IH]; intros p; cbn [strlen]; alive_auto. Qed.

Lemma alive_read_cstr (fuel : nat) : forall p, ends alive (read_cstr fuel p).
Proof. induction fuel as [|fuel IH]; intros p; cbn [read_cstr]; alive_auto. Qed.

Lemma alive_copy_bytes (n : nat) : forall dst src, ends alive (copy_bytes n dst src).
Proof. induction n as [|n IH]; intros dst src; cbn [copy_bytes]; alive_auto. Qed.

#[local] Hint Resolve alive_update_mm alive_strlen alive_read_cstr alive_copy_bytes : ends.

Lemma alive_strcpy (fuel : nat) (cap dst src : Z) :
  ends alive (strcpy fuel cap dst src).
Proof. unfold strcpy. alive_auto. Qed.

Lemma alive_push8 (sp v : Z) : ends alive (push8 sp v).
Proof. unfold push8. alive_auto. Qed.

Lemma alive_push32 (sp v : Z) : ends alive (push32 sp v).
Proof. unfold push32. alive_auto. Qed.

#[local] Hint Resolve alive_strcpy alive_push8 alive_push32 : ends.

Lemma alive_count_args_loop (fuel : nat) :
  forall args argc, ends alive (count_args_loop fuel args argc).
Proof. induction fuel as [|fuel IH]; intros args argc; cbn [count_args_loop]; alive_auto. Qed.

Lemma alive_count_chars_loop (fuel n : nat) :
  forall args i nchar, ends alive (count_chars_loop fuel n args i nchar).
Proof.
  induction n as [|n IH]; intros args i nchar; cbn [count_chars_loop]; alive_auto.
Qed.

#[local] Hint Resolve alive_count_args_loop alive_count_chars_loop : ends.

Lemma alive_count_args (fuel : nat) (args : Z) : ends alive (__count_args fuel args).
Proof. unfold __count_args. alive_auto. Qed.

#[local] Hint Resolve alive_count_args : ends.

Lemma alive_count_args_bytes (fuel : nat) (args : Z) :
  ends alive (__count_args_bytes fuel args).
Proof. unfold __count_args_bytes. alive_auto. Qed.

Lemma alive_push_chars_loop (k : nat) :
  forall args i sp, ends alive (push_chars_loop k args i sp).
Proof. induction k as [|k IH]; intros args i sp; cbn [push_chars_loop]; alive_auto. Qed.

#[local] Hint Resolve alive_count_args_bytes alive_push_chars_loop : ends.

Lemma alive_push_strings_loop (fuel n : nat) :
  forall args sp locs, ends alive (push_strings_loop fuel n args sp locs).
Proof.
  induction n as [|n IH]; intros args sp locs; cbn [push_strings_loop]; alive_auto.
Qed.

Lemma alive_push_pointers_loop (rlocs : list Z) :
  forall sp, ends alive (push_pointers_loop rlocs sp).
Proof. induction rlocs as [|q rlocs IH]; intros sp; cbn [push_pointers_loop]; alive_auto. Qed.

#[local] Hint Resolve alive_push_strings_loop alive_push_pointers_loop : ends.

Lemma alive_push_args_on_stack (fuel : nat) (sp args : Z) :
  ends alive (__push_args_on_stack fuel sp args).
Proof. unfold __push_args_on_stack. alive_auto. Qed.

#[local] Hint Resolve alive_push_args_on_stack : ends.

Lemma alive_copy_arguments (fuel : nat) (origin_argv origin_envp : Z) :
  ends alive (sys_execve_copy_arguments fuel origin_argv origin_envp).
Proof. unfold sys_execve_copy_arguments. alive_auto. Qed.

Lemma alive_shift_argv_loop (n : nat) :
  forall int_argv saved_argv i, ends alive (shift_argv_loop n int_argv saved_argv i).
Proof.
  induction n as [|n IH]; intros int_argv saved_argv i; cbn [shift_argv_loop]; alive_auto.
Qed.

#[local] Hint Resolve alive_copy_arguments alive_shift_argv_loop : ends.

Lemma alive_interpreter_arguments (fuel : nat) (saved_filename : Z) (a : saved_args) :
  ends alive (sys_execve_interpreter_arguments fuel saved_filename a).
Proof. unfold sys_execve_interpreter_arguments. alive_auto. Qed.

Lemma alive_strdup (line : list Z) : ends alive (strdup line).
Proof. unfold strdup. alive_auto. Qed.

Lemma alive_reset_process (task : nat) : ends alive (__reset_process task).
Proof. unfold __reset_process. alive_auto. Qed.

Lemma alive_vfs_open (fuel : nat) (path : Z) : ends alive (vfs_open fuel path).
Proof. unfold vfs_open. alive_auto. Qed.

#[local] Hint Resolve alive_interpreter_arguments alive_strdup alive_reset_process
  alive_vfs_open : ends.

Lemma alive_load_executable_from (fuel : nat) (task : nat) (passes : nat) :
  forall path interpreter_loop,
    ends alive (load_executable_from passes fuel path task interpreter_loop).
Proof.
  induction passes as [|passes IH]; intros path il; cbn [load_executable_from];
    [alive_auto|].
  cbv zeta. alive_auto.
Qed.

Lemma alive_push_arguments (fuel : nat) (cur : nat) (a : saved_args) :
  ends alive (sys_execve_push_arguments fuel cur a).
Proof. unfold sys_execve_push_arguments. alive_auto. Qed.

Lemma alive_restore_context (task : nat) : ends alive (scheduler_restore_context task).
Proof. unfold scheduler_restore_context. alive_auto. Qed.

#[local] Hint Resolve alive_load_executable_from alive_push_arguments
  alive_restore_context : ends.


End ExecveFacts.

(** * Calls to [execve] that fail before the address space is torn down *)

Section ExecveFailures.
Import Mem Process.
Context `{config : Config} `{others : Collaborators}.

Lemma read_cstr_ok (l : list Z) : forall (p : Z) (fuel : nat) (s : kstate),
  cstr_at (kmem s) p l -> (length l < fuel)%nat ->
  read_cstr fuel p s = Ret l s.
Proof.
  induction l as [|c l IH]; intros p fuel s Hc Hfuel;
    (destruct fuel as [|fuel]; [cbn in Hfuel; lia|]); cbn [read_cstr].
  - cbn in Hc. erewrite bind_Ret by reflexivity. rewrite Hc. reflexivity.
  - cbn in Hc. destruct Hc as (Hb & Hnz & Hrest).
    erewrite bind_Ret by reflexivity. rewrite Hb.
    destruct (Z.eqb_spec c 0) as [|_]; [contradiction|].
    erewrite bind_Ret by (apply IH; [exact Hrest | cbn in Hfuel; lia]).
    reflexivity.
Qed.

Lemma vfs_open_ok (fuel : nat) (path : Z) (name : list Z) (s : kstate) :
  path <> 0 -> cstr_at (kmem s) path name -> (length name < fuel)%nat ->
  vfs_open fuel path s
  = match vfs_lookup (vfs s) name with
    | Some file => Ret (Some file) s
    | None => Ret None (set_errno (vfs_open_errno (errno s) name) s)
    end.
Proof.
  intros Hne Hc Hfuel. unfold vfs_open.
  destruct (Z.eqb_spec path 0) as [|_]; [contradiction|].
  erewrite bind_Ret by (apply read_cstr_ok; eassumption).
  erewrite bind_Ret by reflexivity.
  destruct (vfs_lookup (vfs s) name); reflexivity.
Qed.

(** The three ways [__load_executable] refuses a file. *)
Lemma load_executable_refuses (fuel : nat) (path : Z) (task : nat)
    (name : list Z) (t : task_struct) (st : kstate) :
  path <> 0 -> cstr_at (kmem st) path name -> (length name < fuel)%nat ->
  tasks st !! task = Some t ->
  (vfs_lookup (vfs st) name = None ->
   __load_executable fuel path task st
   = Ret (- vfs_open_errno (errno st) name) (set_errno (vfs_open_errno (errno st) name) st))
  /\ (forall file,
        vfs_lookup (vfs st) name = Some file ->
        vfs_valid_exec_permission t file = false ->
        __load_executable fuel path task st = Ret (- EACCES) st)
  /\ (forall file,
        vfs_lookup (vfs st) name = Some file ->
        vfs_valid_exec_permission t file = true ->
        elf_check_file_type file = false -> __has_shebang file = false ->
        __load_executable fuel path task st = Ret (- ENOEXEC) st).
Proof.
  intros Hne Hc Hfuel Ht.
  pose proof (vfs_open_ok fuel path name st Hne Hc Hfuel) as Hopen.
  split; [|split].
  - intros Hl. rewrite Hl in Hopen.
    unfold __load_executable. cbn [load_executable_from].
    erewrite bind_Ret by exact Hopen. cbv iota beta.
    erewrite bind_Ret by reflexivity. reflexivity.
  - intros file Hl Hperm. rewrite Hl in Hopen.
    unfold __load_executable. cbn [load_executable_from].
    erewrite bind_Ret by exact Hopen. cbv iota beta.
    erewrite bind_Ret by (apply task_at_ok; exact Ht).
    rewrite Hperm. reflexivity.
  - intros file Hl Hperm Helf Hsh. rewrite Hl in Hopen.
    unfold __load_executable. cbn [load_executable_from].
    erewrite bind_Ret by exact Hopen. cbv iota beta.
    erewrite bind_Ret by (apply task_at_ok; exact Ht).
    rewrite Hperm, Helf, Hsh. reflexivity.
Qed.

(** The checks of the arguments. *)
Lemma sys_execve_null_runs (fuel : nat) (name_buffer saved_filename : Z)
    (f : pt_regs) (st : kstate) (cur : nat) :
  current st = Some cur ->
  ebx f = 0 \/ ecx f = 0 \/ load32 (kmem st) (ecx f) = 0 \/ edx f = 0 ->
  sys_execve fuel name_buffer saved_filename f st = Ret (-1, f) st.
Proof.
  intros Hcur Hnull. unfold sys_execve.
  erewrite bind_Ret by reflexivity. rewrite Hcur.
  destruct (Z.eqb_spec (ebx f) 0) as [|Hb]; [reflexivity|].
  destruct (Z.eqb_spec (ecx f) 0) as [|Hc]; [reflexivity|].
  erewrite bind_Ret by reflexivity.
  destruct (Z.eqb_spec (load32 (kmem st) (ecx f)) 0) as [|Ha]; [reflexivity|].
  destruct (Z.eqb_spec (edx f) 0) as [|Hd]; [reflexivity|].
  exfalso. tauto.
Qed.






End ExecveFailures.

(** * Facts about memory mapping *)

Section MmapFacts.
Import Process Mmap.
Context `{flags_of : Paging.MemmapFlags} `{areas : VmArea}.

Lemma sys_munmap_loop_none (n cur : nat) (m : mm_struct) (start length : Z)
    (st : kstate) :
  (n <= List.length (mmap_list m))%nat ->
  no_match_below (mmap_list m) start length n ->
  sys_munmap_loop n cur m start length st = Ret 1 st.
Proof.
  induction n as [|n IH]; intros Hn Hnone; [reflexivity|].
  cbn [sys_munmap_loop].
  destruct (lookup_lt_is_Some_2 (mmap_list m) n ltac:(lia)) as [seg Hseg].
  rewrite Hseg, (Hnone n seg) by (lia || assumption).
  apply IH; [lia|]. intros j seg' Hj. apply Hnone. lia.
Qed.

Lemma sys_munmap_loop_last (n cur p : nat) (t : task_struct) (m : mm_struct)
    (start length : Z) (seg : vm_area_struct) (st : kstate) :
  (p < n <= List.length (mmap_list m))%nat ->
  tasks st !! cur = Some t ->
  mmap_list m !! p = Some seg ->
  munmap_match start length seg = true ->
  no_match_between (mmap_list m) start length p n ->
  sys_munmap_loop n cur m start length st
  = Ret (destroy_status m p) (after_destroy cur t m p st).
Proof.
  induction n as [|n IH]; intros Hn Ht Hseg Hmatch Hnone; [lia|].
  cbn [sys_munmap_loop].
  destruct (decide (n = p)) as [-> | Hne].
  - rewrite Hseg, Hmatch. unfold destroy_status, after_destroy.
    destruct (vm_area_destroy m p) as [r m'] eqn:Hd. cbn [fst snd].
    erewrite bind_Ret by (apply update_task_ok; exact Ht).
    destruct (r <? 0); reflexivity.
  - destruct (lookup_lt_is_Some_2 (mmap_list m) n ltac:(lia)) as [seg' Hseg'].
    rewrite Hseg', (Hnone n seg') by (lia || assumption).
    apply IH; try assumption; [lia|].
    intros j s Hj. apply Hnone. lia.
Qed.

(** Looking for the last area that matches, below position [n]. *)
Lemma last_match_cases (l : list vm_area_struct) (start length : Z) (n : nat) :
  (n <= List.length l)%nat ->
  no_match_below l start length n
  \/ exists p seg, (p < n)%nat /\ l !! p = Some seg
                   /\ munmap_match start length seg = true
                   /\ no_match_between l start length p n.
Proof.
  induction n as [|n IH]; intros Hn.
  - left. intros j seg Hj. lia.
  - destruct (lookup_lt_is_Some_2 l n ltac:(lia)) as [seg Hseg].
    destruct (munmap_match start length seg) eqn:Hm.
    + right. exists n, seg. repeat split; try assumption; try lia.
      intros j s Hj. lia.
    + destruct (IH ltac:(lia)) as [Hnone | (p & s & Hp & Hs & Hmatch & Hbetween)].
      * left. intros j s Hj Hl.
        destruct (decide (j = n)) as [-> | Hne].
        -- congruence.
        -- apply (Hnone j); [lia | assumption].
      * right. exists p, s. repeat split; try assumption; try lia.
        intros j s' Hj Hl.
        destruct (decide (j = n)) as [-> | Hne].
        -- congruence.
        -- apply (Hbetween j); [lia | assumption].
Qed.

Lemma munmap_match_spec (start length : Z) (seg : vm_area_struct) :
  munmap_match start length seg = true
  <-> vm_start seg = start /\ wrap32 (vm_end seg - vm_start seg) = length.
Proof.
  unfold munmap_match. rewrite andb_true_iff, !Z.eqb_eq. intuition congruence.
Qed.

Lemma sys_munmap_runs (addr length : Z) (st : kstate) (cur : nat)
    (t : task_struct) (m : mm_struct) :
  current st = Some cur ->
  tasks st !! cur = Some t ->
  mm t = Some m ->
  sys_munmap addr length st
  = sys_munmap_loop (List.length (mmap_list m)) cur m addr length st.
Proof.
  intros Hcur Ht Hm. unfold sys_munmap.
  erewrite bind_Ret by reflexivity. rewrite Hcur.
  erewrite bind_Ret by (apply task_at_ok; exact Ht).
  now rewrite Hm.
Qed.

(** C7. [sys_munmap(addr, len)] on the current task: either no area of the
    list starts at [addr] with size [len], and the call returns 1 and leaves
    the state, the list of areas included, as it was; or it destroys one
    area, which starts at [addr] and has exactly the size [len] (the last
    such area of the list), and returns the outcome of the destruction. *)
Theorem sys_munmap_exact_match (addr length : Z) (st : kstate) (cur : nat)
    (t : task_struct) (m : mm_struct) :
  current st = Some cur ->
  tasks st !! cur = Some t ->
  mm t = Some m ->
  (sys_munmap addr length st = Ret 1 st
   /\ forall seg, seg ∈ mmap_list m ->
        ~ (vm_start seg = addr /\ wrap32 (vm_end seg - vm_start seg) = length))
  \/ (exists p seg,
        mmap_list m !! p = Some seg
        /\ vm_start seg = addr
        /\ wrap32 (vm_end seg - vm_start seg) = length
        /\ sys_munmap addr length st
           = Ret (destroy_status m p) (after_destroy cur t m p st)).
Proof.
  intros Hcur Ht Hm.
  rewrite (sys_munmap_runs addr length st cur t m Hcur Ht Hm).
  destruct (last_match_cases (mmap_list m) addr length
              (List.length (mmap_list m)) ltac:(lia))
    as [Hnone | (p & seg & Hp & Hseg & Hmatch & Hbetween)].
  - left. split.
    + apply sys_munmap_loop_none; [lia | exact Hnone].
    + intros seg Hin Hmatch.
      apply list_elem_of_lookup in Hin as [j Hj].
      apply munmap_match_spec in Hmatch.
      rewrite (Hnone j seg) in Hmatch; [discriminate| |exact Hj].
      apply lookup_lt_is_Some. eauto.
  - right. exists p, seg.
    apply munmap_match_spec in Hmatch as Hm'. destruct Hm' as [Hs Hsize].
    repeat split; try assumption.
    apply sys_munmap_loop_last with (seg := seg); try assumption. lia.
Qed.

End MmapFacts.

Section RoundTrip.
Import Process Mmap.
Context `{flags_of : Paging.MemmapFlags}.
Variables (is_valid : mm_struct -> Z -> Z -> bool)
          (search : mm_struct -> Z -> option Z)
          (can_alloc : mm_struct -> bool).

#[local] Abbreviation spec_areas := (spec_vm_area is_valid search can_alloc).

Lemma insert_position_le (l : list vm_area_struct) (start : Z) :
  (insert_position l start <= List.length l)%nat.
Proof.
  induction l as [|a l IH]; cbn; [lia|].
  destruct (vm_start a <=? start); cbn; lia.
Qed.

(** In a sorted list, every area from the insertion position on starts
    above [start]. *)
Lemma insert_position_above (l : list vm_area_struct) (start : Z) (j : nat)
    (seg : vm_area_struct) :
  sorted_by_start l ->
  (insert_position l start <= j)%nat ->
  l !! j = Some seg ->
  start < vm_start seg.
Proof.
  revert j. induction l as [|a l IH]; intros j Hsorted Hj Hseg; [discriminate|].
  cbn in Hsorted. destruct Hsorted as [Hall Hsorted].
  cbn in Hj. destruct (Z.leb_spec (vm_start a) start) as [Hle | Hgt].
  - destruct j as [|j]; [lia|]. cbn in Hseg.
    apply (IH j); [assumption | lia | assumption].
  - destruct j as [|j]; cbn in Hseg.
    + congruence.
    + rewrite Forall_forall in Hall.
      pose proof (Hall seg (list_elem_of_lookup_2 _ _ _ Hseg)). lia.
Qed.

Lemma delete_inserted (l : list vm_area_struct) (p : nat) (x : vm_area_struct) :
  (p <= List.length l)%nat ->
  delete p (take p l ++ x :: drop p l) = l.
Proof.
  intros Hp.
  pose proof (delete_middle (take p l) (drop p l) x) as Hd.
  rewrite length_take in Hd.
  replace (p `min` List.length l)%nat with p in Hd by lia.
  rewrite Hd. apply take_drop.
Qed.

Lemma wrap32_size (start length : Z) :
  0 <= length < 2 ^ 32 ->
  wrap32 (wrap32 (start + length) - start) = length.
Proof.
  intros Hl. unfold wrap32.
  rewrite Zminus_mod_idemp_l.
  replace (start + length - start) with length by lia.
  apply Z.mod_small. exact Hl.
Qed.

(** C9. With the creation and the destruction of areas the specification
    describes: in an address space whose areas are sorted by start address,
    a [sys_mmap] of [len] bytes that returns a non-NULL address [a] has added
    one area, from [a] to [a + len], and the [sys_munmap(a, len)] that
    follows returns 0 and leaves the list of areas exactly as it was before
    the [sys_mmap]. *)
Theorem mmap_munmap_round_trip
    (addr length prot flags fd offset a : Z) (st st1 : kstate) (cur : nat)
    (t : task_struct) (m : mm_struct) :
  current st = Some cur ->
  tasks st !! cur = Some t ->
  mm t = Some m ->
  sorted_by_start (mmap_list m) ->
  0 <= length < 2 ^ 32 ->
  sys_mmap (areas := spec_areas) addr length prot flags fd offset st = Ret a st1 ->
  a <> 0 ->
  exists t1 m1 seg st2 t2 m2,
    tasks st1 !! cur = Some t1 /\ mm t1 = Some m1
    /\ List.length (mmap_list m1) = S (List.length (mmap_list m))
    /\ seg ∈ mmap_list m1 /\ vm_start seg = a
    /\ vm_end seg = wrap32 (a + length)
    /\ sys_munmap (areas := spec_areas) a length st1 = Ret 0 st2
    /\ tasks st2 !! cur = Some t2 /\ mm t2 = Some m2
    /\ mmap_list m2 = mmap_list m.
Proof.
  intros Hcur Ht Hm Hsorted Hlen Hmmap Ha.
  assert (Hcurlen : (cur < List.length (tasks st))%nat)
    by (apply lookup_lt_is_Some; eauto).
  unfold sys_mmap in Hmmap.
  erewrite bind_Ret in Hmmap by reflexivity.
  rewrite Hcur in Hmmap.
  assert (Hfget : fget fd st
                  = Ret (if (fd <? 0) || (max_fd t <=? fd) then None
                         else fd_list t !! Z.to_nat fd) st).
  { unfold fget. erewrite bind_Ret by reflexivity. rewrite Hcur.
    erewrite bind_Ret by (apply task_at_ok; exact Ht).
    destruct ((fd <? 0) || (max_fd t <=? fd)); reflexivity. }
  erewrite bind_Ret in Hmmap by exact Hfget.
  destruct (if (fd <? 0) || (max_fd t <=? fd) then None
            else fd_list t !! Z.to_nat fd) as [d|];
    [|inversion Hmmap; congruence].
  destruct (file_struct d) as [file|]; [|inversion Hmmap; congruence].
  destruct (f_stat_ok file); cbn [negb] in Hmmap; [|inversion Hmmap; congruence].
  destruct (wrap32 (Z.of_nat (List.length (f_data file))) <? wrap32 (offset + length));
    [inversion Hmmap; congruence|].
  erewrite bind_Ret in Hmmap by (apply task_at_ok; exact Ht).
  rewrite Hm in Hmmap.
  destruct (if negb (addr =? 0) && vm_area_is_valid m addr (wrap32 (addr + length))
            then Some addr else vm_area_search_free_area m length) as [start|];
    [|inversion Hmmap; congruence].
  cbn [vm_area_create spec_vm_area] in Hmmap.
  unfold spec_vm_area_create in Hmmap.
  destruct (can_alloc m); [|inversion Hmmap; congruence].
  set (p := insert_position (mmap_list m) start) in *.
  assert (Hp : (p <= List.length (mmap_list m))%nat) by apply insert_position_le.
  set (area := mk_vm_area start (wrap32 (start + length)) _) in *.
  set (l1 := take p (mmap_list m) ++ area :: drop p (mmap_list m)) in *.
  cbn [mmap_cache mmap_list set_map_count set_mmap_cache set_mmap_list] in Hmmap.
  assert (Hl1p : l1 !! p = Some area).
  { unfold l1. rewrite lookup_app_r by (rewrite length_take; lia).
    rewrite length_take. replace (p - p `min` List.length (mmap_list m))%nat with O by lia.
    reflexivity. }
  rewrite Hl1p in Hmmap.
  set (area' := set_vm_flags flags area) in *.
  set (l2 := <[p := area']> l1) in *.
  assert (Hl2 : l2 = take p (mmap_list m) ++ area' :: drop p (mmap_list m)).
  { unfold l2, l1.
    pose proof (insert_app_r_alt (take p (mmap_list m))
                  (area :: drop p (mmap_list m)) p area') as Hi.
    rewrite length_take in Hi.
    replace (p - p `min` List.length (mmap_list m))%nat with O in Hi by lia.
    apply Hi. lia. }
  assert (Hl2p : l2 !! p = Some area').
  { rewrite Hl2. rewrite lookup_app_r by (rewrite length_take; lia).
    rewrite length_take. replace (p - p `min` List.length (mmap_list m))%nat with O by lia.
    reflexivity. }
  erewrite bind_Ret in Hmmap by (apply update_task_ok; exact Ht).
  cbn [mmap_list] in Hmmap. rewrite Hl2p in Hmmap.
  inversion Hmmap as [[Hret Hst1]]. clear Hmmap. subst st1.
  cbn [vm_start area' set_vm_flags area] in Hret.
  set (m1 := mk_mm (pgd m) l2 (Some p) (map_count m + 1) (start_stack m)
               (arg_start m) (arg_end m) (env_start m) (env_end m)) in *.
  set (t1 := set_mm (Some m1) t) in *.
  set (st1 := set_tasks (<[cur := t1]> (tasks st)) st).
  assert (Ht1 : tasks st1 !! cur = Some t1).
  { cbn. apply list_lookup_insert_eq. exact Hcurlen. }
  assert (Hmatch : munmap_match a length area' = true).
  { apply munmap_match_spec. cbn. split; [congruence|].
    apply wrap32_size. exact Hlen. }
  assert (Hnone : no_match_between (mmap_list m1) a length p (List.length (mmap_list m1))).
  { intros j seg Hj Hseg. cbn [mmap_list m1] in Hseg.
    rewrite Hl2 in Hseg.
    rewrite lookup_app_r in Hseg by (rewrite length_take; lia).
    rewrite length_take in Hseg.
    replace (j - p `min` List.length (mmap_list m))%nat with (S (j - S p)) in Hseg by lia.
    change ((area' :: drop p (mmap_list m)) !! S (j - S p)%nat)
      with (drop p (mmap_list m) !! (j - S p)%nat) in Hseg.
    rewrite lookup_drop in Hseg.
    assert (Hge : (p <= p + (j - S p))%nat) by lia.
    pose proof (insert_position_above (mmap_list m) start _ seg Hsorted
                  Hge Hseg) as Habove.
    unfold munmap_match. destruct (Z.eqb_spec a (vm_start seg)); [lia | reflexivity]. }
  assert (Hlen1 : List.length (mmap_list m1) = S (List.length (mmap_list m))).
  { cbn [mmap_list m1]. rewrite Hl2, length_app, length_take. cbn.
    rewrite length_drop. lia. }
  exists t1, m1, area', (after_destroy (areas := spec_areas) cur t1 m1 p st1),
    (set_mm (Some (snd (@vm_area_destroy spec_areas m1 p))) t1),
    (snd (@vm_area_destroy spec_areas m1 p)).
  split; [exact Ht1|]. split; [reflexivity|]. split; [exact Hlen1|].
  split; [apply (list_elem_of_lookup_2 _ p); exact Hl2p|].
  split; [cbn; congruence|]. split; [cbn; congruence|].
  split.
  { change (sys_munmap (areas := spec_areas) a length st1
            = Ret 0 (after_destroy (areas := spec_areas) cur t1 m1 p st1)).
    rewrite (sys_munmap_runs (areas := spec_areas) a length st1 cur t1 m1);
      [| exact Hcur | exact Ht1 | reflexivity].
    rewrite (sys_munmap_loop_last (areas := spec_areas) _ cur p t1 m1 a length area' st1);
      try assumption; [reflexivity | lia]. }
  split.
  { unfold after_destroy. cbn [tasks set_tasks].
    apply list_lookup_insert_eq. apply lookup_lt_is_Some. eauto. }
  split; [reflexivity|].
  cbn [vm_area_destroy spec_vm_area spec_vm_area_destroy snd
       mmap_list set_map_count set_mmap_list m1].
  rewrite Hl2. apply delete_inserted. exact Hp.
Qed.

End RoundTrip.

(** * Examples *)

Section PagingExamples.
Import Paging Samples.

(** A directory at 0x1000 whose first entry is present and global. *)
Lemma mem_pg_entry_alloc_drop_global_example :
  exists st',
    __mem_pg_entry_alloc 4096 0 (machine [(4096, 257)] 0 None)
    = Panic "Attempted to remove the global flag from a page directory entry." st'
    /\ pde_global (kmem st' 4096) = true
    /\ pgtbl_pool st' = pgtbl_pool (machine [(4096, 257)] 0 None).
Proof.
  apply mem_pg_entry_alloc_drop_global_panics; [lia | reflexivity ..].
Defined.

(** A user-mode fault at 0x4005 of the process 3, with an empty directory. *)
Lemma page_fault_directory_entry_not_present_example :
  page_fault_handler (fault_frame 4) (machine [] 16389 (Some 3))
  = Ret tt (add_event EvSchedulerRun
              (add_event (EvSignal 3 SIGSEGV) (machine [] 16389 (Some 3)))).
Proof.
  apply (page_fault_directory_entry_not_present
           (fault_frame 4) (machine [] 16389 (Some 3)) 1);
    [cbn; lia | reflexivity | cbn; lia | cbn; lia | reflexivity].
Defined.

(** C4 fails as stated: a fault under a directory entry that is not present,
    with the user bit of the error code set, when there is no current
    process, ends in a panic; no signal is queued and the scheduler is not
    run. *)
Lemma page_fault_user_without_process_panics :
  Z.testbit (err_code (fault_frame 4)) 2 = true
  /\ page_fault_handler (fault_frame 4) (machine [] 16389 None)
     = Panic "Page fault!" (machine [] 16389 None).
Proof. split; reflexivity. Qed.

(** C2 fails on the code. The leaf entry of the page at 0x4000 is
    copy-on-write and present.  The handler clears the copy-on-write bit and
    allocates nothing, but the fault is not resolved: a write from user mode
    that faults on the present page gets SIGSEGV, any other access ends in a
    panic, and the TLB entry is not flushed in either case. *)
Theorem page_fault_cow_present_not_resolved :
  let st := machine [(4096, 8193); (8208, 29185)] 16389 (Some 1) in
  pte_kernel_cow (kmem st 8208) = true
  /\ pte_present (kmem st 8208) = true
  /\ (exists st',
        page_fault_handler (fault_frame 7) st = Ret tt st'
        /\ trace st' = [EvSignal 1 SIGSEGV; EvSchedulerRun]
        /\ pte_kernel_cow (kmem st' 8208) = false
        /\ pte_frame (kmem st' 8208) = pte_frame (kmem st 8208)
        /\ page_pool st' = page_pool st)
  /\ (exists st',
        page_fault_handler (fault_frame 6) st = Panic "Page fault!" st'
        /\ trace st' = []
        /\ pte_kernel_cow (kmem st' 8208) = false
        /\ page_pool st' = page_pool st).
Proof.
  cbv zeta. split; [reflexivity|]. split; [reflexivity|]. split.
  - eexists. split; [vm_compute; reflexivity|]. repeat split.
  - eexists. split; [vm_compute; reflexivity|]. repeat split.
Qed.

(** The whole of [mem_clone_vm_area] on two pages.  The source directory at
    0x1000 has its table at 0x2000, the destination directory at 0x3000 has
    its table at 0x4000.  The first source entry is a plain page on the frame
    7, the second one is copy-on-write.  The first destination entry gets the
    frame 7 with the flags asked for, the second one holds the address of the
    second source entry and is not present; the TLB is flushed for the two
    destination pages. *)
Example mem_clone_vm_area_two_pages :
  let st := machine [(4096, 8193); (12288, 16385); (8192, 28675); (8196, 37376)]
                    0 None in
  let out := mem_clone_vm_area 4096 12288 0 0 8192 29 st in
  result_of out = Some 0
  /\ trace (state_of st out) = [EvInvlpg 0; EvInvlpg 4096]
  /\ pte_frame (kmem (state_of st out) 16384) = 7
  /\ pte_present (kmem (state_of st out) 16384) = true
  /\ pte_kernel_cow (kmem (state_of st out) 16384) = true
  /\ kmem (state_of st out) 16388 = 8196
  /\ pte_present (kmem (state_of st out) 16388) = false.
Proof.
  cbv zeta.
  split; [vm_compute; reflexivity|]. split; [vm_compute; reflexivity|].
  split; [vm_compute; reflexivity|]. split; [vm_compute; reflexivity|].
  split; [vm_compute; reflexivity|]. split; vm_compute; reflexivity.
Qed.

End PagingExamples.

Section ProcessExamples.
Import Mem Process Samples.

Ltac bytes_there :=
  vm_compute; repeat split; try reflexivity; intro; discriminate.

Lemma exec_argv_at (interpreter : string) (fs : list (list Z * vfs_file)) :
  args_at (kmem (exec_kernel interpreter fs)) 4352 [4608; 4615]
          [str "script"; str "a"].
Proof.
  split; [bytes_there|]. repeat constructor; bytes_there.
Qed.

Lemma exec_envp_at (interpreter : string) (fs : list (list Z * vfs_file)) :
  args_at (kmem (exec_kernel interpreter fs)) 4864 [5120] [str "PATH=/bin"].
Proof.
  split; [bytes_there|]. repeat constructor; bytes_there.
Qed.


(** A run that gave a result is a return. *)
Lemma ret_of_result {S A : Type} (o : outcome S A) (a : A) (d : S) :
  result_of o = Some a -> o = Ret a (state_of d o).
Proof.
  destruct o; cbn; intros E; try discriminate. now inversion E.
Qed.


(** C6 fails on the code. [execve("script", {"script", "a"}, envp)], where
    the first line of [script] is [#!/bin/sh] and [/bin/sh] is an ELF
    executable, succeeds and loads [/bin/sh]; but the program finds three
    arguments on its stack that are [script], [script] and [a]: the first one
    is the argument the caller gave, not the path of the interpreter.  The
    environment is the caller's. *)
Theorem sys_execve_shebang_argv :
  exists f' st',
    sys_execve 64 name_buffer saved_filename exec_frame
      (exec_kernel "/bin/sh" [(str "/bin/sh", elf_file "/bin/sh")])
    = Ret (0, f') st'
    /\ trace st'
       = [EvMmDestroy old_mm; EvMmCreateBlank (Some (blank_mm 7344128));
          EvMmDestroy (blank_mm 7344128);
          EvMmCreateBlank (Some (blank_mm 7348224));
          EvElfLoadFile (str "/bin/sh") 1;
          EvRestoreContext 0%nat]
    /\ load32 (kmem st') (useresp f') = 3
    /\ result_of (read_args 64 (load32 (kmem st') (useresp f' + 4)) st')
       = Some [str "script"; str "script"; str "a"]
    /\ result_of (read_args 64 (load32 (kmem st') (useresp f' + 8)) st')
       = Some [str "PATH=/bin"]
    /\ [str "script"; str "script"; str "a"]
       <> [str "/bin/sh"; str "script"; str "a"].
Proof.
  eexists.
  exists (state_of
            (exec_kernel "/bin/sh" [(str "/bin/sh", elf_file "/bin/sh")])
            (sys_execve 64 name_buffer saved_filename exec_frame
               (exec_kernel "/bin/sh" [(str "/bin/sh", elf_file "/bin/sh")]))).
  split; [apply ret_of_result; vm_compute; reflexivity|].
  split; [vm_compute; reflexivity|]. split; [vm_compute; reflexivity|].
  split; [vm_compute; reflexivity|]. split; [vm_compute; reflexivity|].
  vm_compute. discriminate.
Qed.

(** The arguments of the [execve] of the sample program, copied to the first
    block of the kernel heap. *)
Lemma sys_execve_copy_arguments_assertion_example :
  let st := exec_kernel "/bin/sh" [] in
  let ls_a := [str "script"; str "a"] in
  let ls_e := [str "PATH=/bin"] in
  let args_mem := 3222274048 in
  let top := args_mem + args_bytes ls_a + args_bytes ls_e in
  let st0 := set_kmalloc_pool [3222278144; 3222282240; 3222286336] st in
  __count_args_bytes 64 4352 st = Ret (to_int32 (args_bytes ls_a)) st
  /\ __count_args_bytes 64 4864 st = Ret (to_int32 (args_bytes ls_e)) st
  /\ exists st1 st2,
       __push_args_on_stack 64 top 4352 st0 = Ret (top - args_bytes ls_a) st1
       /\ __push_args_on_stack 64 (top - args_bytes ls_a) 4864 st1
          = Ret args_mem st2
       /\ (sys_execve_copy_arguments 64 4352 4864 st = Ret (inl (-1)) st
           \/ sys_execve_copy_arguments 64 4352 4864 st
              = Ret (inr (mk_saved_args (Z.of_nat (length [4608; 4615]))
                            (to_int32 (args_bytes ls_a))
                            (to_int32 (args_bytes ls_e))
                            args_mem (top - args_bytes ls_a) args_mem)) st2).
Proof.
  cbv zeta.
  apply (sys_execve_copy_arguments_assertion 64 4352 4864 3222274048
           [3222278144; 3222282240; 3222286336] [4608; 4615] [5120]
           [str "script"; str "a"] [str "PATH=/bin"] (exec_kernel "/bin/sh" [])).
  - apply exec_argv_at.
  - apply exec_envp_at.
  - split; [cbn; lia|]. repeat constructor; cbn; lia.
  - split; [cbn; lia|]. repeat constructor; cbn; lia.
  - cbn; lia.
  - cbn; lia.
  - reflexivity.
  - lia.
  - vm_compute. reflexivity.
  - assert (Ea : args_bytes [str "script"; str "a"] = 21) by reflexivity.
    assert (Ee : args_bytes [str "PATH=/bin"] = 18) by reflexivity.
    intros a Ha. rewrite Ea, Ee in Ha.
    split.
    + intros [Hr | (i & p & l & Hp & Hl & Hin)].
      * cbn in Hr. lia.
      * destruct i as [|[|i]]; cbn in Hp, Hl; try discriminate;
          inversion Hp; inversion Hl; subst; cbn in Hin; lia.
    + intros [Hr | (i & p & l & Hp & Hl & Hin)].
      * cbn in Hr. lia.
      * destruct i as [|i]; cbn in Hp, Hl; try discriminate;
          inversion Hp; inversion Hl; subst; cbn in Hin; lia.
Defined.

End ProcessExamples.

Section MmapExamples.
Import Process Mmap Samples.

(** Unmapping the first area of the sample address space. *)
Lemma sys_munmap_exact_match_example :
  (sys_munmap (areas := sample_areas) 4096 8192 mmap_kernel = Ret 1 mmap_kernel
   /\ forall seg, seg ∈ mmap_list two_areas_mm ->
        ~ (vm_start seg = 4096 /\ wrap32 (vm_end seg - vm_start seg) = 8192))
  \/ (exists p seg,
        mmap_list two_areas_mm !! p = Some seg
        /\ vm_start seg = 4096
        /\ wrap32 (vm_end seg - vm_start seg) = 8192
        /\ sys_munmap (areas := sample_areas) 4096 8192 mmap_kernel
           = Ret (destroy_status (areas := sample_areas) two_areas_mm p)
                 (after_destroy (areas := sample_areas) 0 mmap_task two_areas_mm p
                    mmap_kernel)).
Proof.
  apply (sys_munmap_exact_match (areas := sample_areas) 4096 8192 mmap_kernel
           0%nat mmap_task two_areas_mm); reflexivity.
Defined.

(** Mapping one page of the open file, and unmapping it. *)
Lemma mmap_munmap_round_trip_example :
  exists st1,
    sys_mmap (areas := sample_areas) 0 4096 3 2 3 0 mmap_kernel
    = Ret 1073741824 st1
    /\ exists t1 m1 seg st2 t2 m2,
         tasks st1 !! 0%nat = Some t1 /\ mm t1 = Some m1
         /\ List.length (mmap_list m1) = S (List.length (mmap_list two_areas_mm))
         /\ seg ∈ mmap_list m1 /\ vm_start seg = 1073741824
         /\ vm_end seg = wrap32 (1073741824 + 4096)
         /\ sys_munmap (areas := sample_areas) 1073741824 4096 st1 = Ret 0 st2
         /\ tasks st2 !! 0%nat = Some t2 /\ mm t2 = Some m2
         /\ mmap_list m2 = mmap_list two_areas_mm.
Proof.
  eexists. split; [vm_compute; reflexivity|].
  apply (mmap_munmap_round_trip (fun _ _ _ => true) (fun _ _ => Some 1073741824)
           (fun _ => true) 0 4096 3 2 3 0 1073741824 mmap_kernel _ 0%nat
           mmap_task two_areas_mm);
    try reflexivity.
  - cbn. repeat constructor; cbn; lia.
  - lia.
  - lia.
Defined.

End MmapExamples.

(** * Facts about the real-time clock *)

Section RtcFacts.
Import Rtc.

Lemma byte_small (x : Z) : 0 <= x < 256 -> byte x = x.
Proof. intros Hx. unfold byte. now apply Z.mod_small. Qed.

Lemma byte_range (x : Z) : 0 <= byte x < 256.
Proof. unfold byte. apply Z.mod_pos_bound. lia. Qed.

Lemma testbit_byte (x i : Z) : 0 <= i < 8 -> Z.testbit (byte x) i = Z.testbit x i.
Proof.
  intros Hi. unfold byte. change 256 with (2 ^ 8).
  apply Z.mod_pow2_bits_low. lia.
Qed.

(** X1. [bcd2bin] decodes binary-coded decimal: on the byte whose high
    nibble is the digit [h] and whose low nibble is the digit [l], it gives
    [10 * h + l]. *)
Theorem bcd2bin_decodes (h l : Z) :
  0 <= h < 10 -> 0 <= l < 10 -> bcd2bin (16 * h + l) = 10 * h + l.
Proof.
  intros Hh Hl. unfold bcd2bin.
  rewrite (byte_small (16 * h + l)) by lia.
  rewrite Z.shiftr_div_pow2 by lia.
  change 15 with (Z.ones 4). rewrite Z.land_ones by lia.
  change (2 ^ 4) with 16.
  replace ((16 * h + l) / 16) with h
    by (apply (Z.div_unique _ 16 h l); lia).
  replace ((16 * h + l) mod 16) with l
    by (apply (Z.mod_unique _ 16 h l); lia).
  rewrite byte_small by lia. lia.
Qed.

Lemma bcd2bin_decodes_example : bcd2bin (16 * 5 + 9) = 10 * 5 + 9.
Proof. apply bcd2bin_decodes; lia. Defined.

Lemma rtc_are_different_range (t0 t1 : tm_t) :
  rtc_are_different t0 t1 = 0 \/ rtc_are_different t0 t1 = 1.
Proof.
  unfold rtc_are_different.
  repeat match goal with
         | |- context [negb (?a =? ?b)] =>
             destruct (a =? b); cbn [negb]; auto
         end.
Qed.

(** X2. [rtc_are_different] gives 0 exactly when the two times have the same
    seconds, minutes, hours, month, year, day of the week and day of the
    month, and 1 otherwise. *)
Theorem rtc_are_different_spec (t0 t1 : tm_t) :
  (rtc_are_different t0 t1 = 0
   <-> tm_sec t0 = tm_sec t1 /\ tm_min t0 = tm_min t1
       /\ tm_hour t0 = tm_hour t1 /\ tm_mon t0 = tm_mon t1
       /\ tm_year t0 = tm_year t1 /\ tm_wday t0 = tm_wday t1
       /\ tm_mday t0 = tm_mday t1)
  /\ (rtc_are_different t0 t1 <> 0 -> rtc_are_different t0 t1 = 1).
Proof.
  split.
  - unfold rtc_are_different.
    repeat match goal with
           | |- context [negb (?a =? ?b)] =>
               destruct (Z.eqb_spec a b); cbn [negb];
               [| split; [discriminate | intros; exfalso; tauto]]
           end.
    split; [intros _; tauto | reflexivity].
  - intros Hd. destruct (rtc_are_different_range t0 t1); [contradiction|assumption].
Qed.

(** ** Reading the registers *)

Lemma read_register_run (reg : Z) (s : rstate) :
  read_register reg s
  = Ret (byte (cmos s (reads s) (byte reg)))
        (set_reads (S (reads s)) (set_cmos_index (byte reg) s)).
Proof. reflexivity. Qed.

(** The decoding [rtc_read_datetime] applies to the bytes it reads. *)
Lemma is_updating_rtc_run (s : rstate) :
  is_updating_rtc s
  = Ret (if negb (Z.land (byte (cmos s (reads s) 10)) 128 =? 0) then 1 else 0)
        (set_reads (S (reads s)) (set_cmos_index 10 s)).
Proof. reflexivity. Qed.

Lemma bind_ret_inv {S A B : Type} (c : M S A) (k : A -> M S B) (s s' : S) (b : B) :
  bind c k s = Ret b s' -> exists a s1, c s = Ret a s1 /\ k a s1 = Ret b s'.
Proof.
  unfold bind. destruct (c s) as [a s1| | | |]; try discriminate. eauto.
Qed.

Lemma land_bit (c i : Z) :
  0 <= i -> (Z.land c (2 ^ i) =? 0) = negb (Z.testbit c i).
Proof.
  intros Hi. destruct (Z.testbit c i) eqn:Hc; cbn [negb].
  - apply Z.eqb_neq. intros H0.
    assert (Hb : Z.testbit (Z.land c (2 ^ i)) i = true).
    { rewrite Z.land_spec, Hc, Z.pow2_bits_true by lia. reflexivity. }
    rewrite H0, Z.bits_0 in Hb. discriminate.
  - apply Z.eqb_eq. apply Z.bits_inj'. intros n Hn.
    rewrite Z.land_spec, Z.bits_0, Z.pow2_bits_eqb by lia.
    destruct (Z.eqb_spec i n) as [<- | Hne].
    + now rewrite Hc.
    + apply andb_false_r.
Qed.

Lemma read_register_at (reg ci : Z) (cm : nat -> Z -> Z) (rd : nat)
    (wr : list (Z * Z)) (gt pgt : tm_t) (bcd fu : Z) (tr : list event) :
  0 <= reg < 256 ->
  read_register reg (mk_rstate ci cm rd wr gt pgt bcd fu tr)
  = Ret (byte (cm rd reg)) (mk_rstate reg cm (S rd) wr gt pgt bcd fu tr).
Proof.
  intros Hreg. rewrite read_register_run. cbn. now rewrite (byte_small reg).
Qed.

Lemma set_time_at (f : tm_t -> tm_t) (ci : Z) (cm : nat -> Z -> Z) (rd : nat)
    (wr : list (Z * Z)) (gt pgt : tm_t) (bcd fu : Z) (tr : list event) :
  set_time f (mk_rstate ci cm rd wr gt pgt bcd fu tr)
  = Ret tt (mk_rstate ci cm rd wr (f gt) pgt bcd fu tr).
Proof. reflexivity. Qed.

Ltac rtc_step :=
  first [ erewrite bind_Ret by (apply read_register_at; lia)
        | erewrite bind_Ret by apply set_time_at ].

(** X3. [rtc_read_datetime] reads the status register C first.  When its
    update-ended bit (bit 4) is clear, this is its only read and the time is
    left as it was.  Otherwise it reads seven more registers (seconds,
    minutes, hours, month, year, day of the week, day of the month, in this
    order), decodes them from BCD when [is_bcd] is set, and stores them with
    2 added to the hours and 2000 to the year.  The previous time and the
    settings are not touched. *)
Theorem rtc_read_datetime_spec (s : rstate) :
  exists s',
    rtc_read_datetime s = Ret tt s'
    /\ same_settings s s'
    /\ previous_global_time s' = previous_global_time s
    /\ first_update s' = first_update s
    /\ if Z.testbit (cmos s (reads s) 12) 4
       then global_time s' = time_read s (reads s) /\ reads s' = (reads s + 8)%nat
       else global_time s' = global_time s /\ reads s' = S (reads s).
Proof.
  destruct s as [ci cm rd wr gt pgt bcd fu tr].
  unfold rtc_read_datetime, same_settings.
  cbn [cmos reads writes is_bcd trace previous_global_time first_update
       global_time].
  rtc_step.
  change 16 with (2 ^ 4). rewrite land_bit by lia.
  rewrite testbit_byte by lia.
  destruct (Z.testbit (cm rd 12) 4); cbn [negb].
  - erewrite bind_Ret by reflexivity. cbn [is_bcd].
    unfold time_read, decode. cbn [is_bcd cmos].
    replace (rd + 8)%nat with (S (S (S (S (S (S (S (S rd)))))))) by lia.
    replace (rd + 1)%nat with (S rd) by lia.
    replace (rd + 2)%nat with (S (S rd)) by lia.
    replace (rd + 3)%nat with (S (S (S rd))) by lia.
    replace (rd + 4)%nat with (S (S (S (S rd)))) by lia.
    replace (rd + 5)%nat with (S (S (S (S (S rd))))) by lia.
    replace (rd + 6)%nat with (S (S (S (S (S (S rd)))))) by lia.
    replace (rd + 7)%nat with (S (S (S (S (S (S (S rd))))))) by lia.
    destruct (bcd =? 0); cbn [negb]; do 13 rtc_step;
      (eexists; split; [reflexivity|]); cbn; repeat split.
  - eexists. split; [reflexivity|]. cbn. repeat split.
Qed.

(** ** Waiting for the clock *)

Lemma same_settings_refl (s : rstate) : same_settings s s.
Proof. repeat split. Qed.

Lemma same_settings_trans (s1 s2 s3 : rstate) :
  same_settings s1 s2 -> same_settings s2 s3 -> same_settings s1 s3.
Proof.
  intros (A1 & A2 & A3 & A4) (B1 & B2 & B3 & B4).
  repeat split; congruence.
Qed.

Lemma wait_while_updating_keeps (fuel : nat) (s s' : rstate) (u : unit) :
  wait_while_updating fuel s = Ret u s' ->
  same_settings s s' /\ global_time s' = global_time s
  /\ previous_global_time s' = previous_global_time s
  /\ first_update s' = first_update s.
Proof.
  revert s. induction fuel as [|fuel IH]; intros s Hr; [discriminate|].
  cbn [wait_while_updating] in Hr.
  erewrite bind_Ret in Hr by apply is_updating_rtc_run.
  destruct (negb (_ =? 0)).
  - apply IH in Hr as (Hs & Hg & Hp & Hf). cbn in Hg, Hp, Hf.
    split; [|auto].
    eapply same_settings_trans; [|exact Hs]. repeat split.
  - inversion Hr; subst. repeat split.
Qed.

Lemma rtc_read_datetime_keeps (s s' : rstate) (u : unit) :
  rtc_read_datetime s = Ret u s' ->
  same_settings s s' /\ previous_global_time s' = previous_global_time s
  /\ first_update s' = first_update s.
Proof.
  intros Hr. destruct (rtc_read_datetime_spec s) as (s1 & Hs1 & Hs & Hp & Hf & _).
  rewrite Hs1 in Hr. inversion Hr; subst. auto.
Qed.

Lemma first_update_loop_different (fuel n : nat) (s s' : rstate) (u : unit) :
  first_update_loop fuel n s = Ret u s' ->
  same_settings s s' /\ first_update s' = first_update s
  /\ rtc_are_different (previous_global_time s') (global_time s') = 1.
Proof.
  revert s. induction n as [|n IH]; intros s Hr; [discriminate|].
  cbn [first_update_loop] in Hr.
  erewrite bind_Ret in Hr by reflexivity.
  apply bind_ret_inv in Hr as (u1 & s1 & Hw & Hr).
  apply wait_while_updating_keeps in Hw as (Hs1 & _ & _ & Hf1).
  apply bind_ret_inv in Hr as (u2 & s2 & Hd & Hr).
  apply rtc_read_datetime_keeps in Hd as (Hs2 & _ & Hf2).
  erewrite bind_Ret in Hr by reflexivity.
  assert (Hs : same_settings s s2).
  { eapply same_settings_trans; [|exact Hs2].
    eapply same_settings_trans; [|exact Hs1]. repeat split. }
  assert (Hf : first_update s2 = first_update s)
    by (rewrite Hf2, Hf1; reflexivity).
  destruct (Z.eqb_spec (rtc_are_different (previous_global_time s2)
                          (global_time s2)) 0) as [He | Hne]; cbn [negb] in Hr.
  - apply IH in Hr as (Hs3 & Hf3 & Hdiff).
    split; [eapply same_settings_trans; eassumption|].
    split; [congruence | exact Hdiff].
  - inversion Hr; subst. split; [exact Hs|]. split; [exact Hf|].
    destruct (rtc_are_different_range (previous_global_time s')
                (global_time s')); [contradiction | assumption].
Qed.

(** X4. When [rtc_update_datetime] returns, the first update is over
    ([first_update] is 0).  If this was the first update, the driver has
    read the clock until the time changed: the previous time and the current
    time differ.  Otherwise the previous time is left as it was.  The chip's
    registers are only read, and the settings are as they were. *)
Theorem rtc_update_datetime_first (fuel : nat) (s s' : rstate) :
  rtc_update_datetime fuel s = Ret tt s' ->
  same_settings s s'
  /\ first_update s' = 0
  /\ (first_update s <> 0 ->
      rtc_are_different (previous_global_time s') (global_time s') = 1)
  /\ (first_update s = 0 ->
      previous_global_time s' = previous_global_time s).
Proof.
  intros Hr. unfold rtc_update_datetime in Hr.
  apply bind_ret_inv in Hr as (u1 & s1 & Hw & Hr).
  apply wait_while_updating_keeps in Hw as (Hs1 & _ & Hp1 & Hf1).
  apply bind_ret_inv in Hr as (u2 & s2 & Hd & Hr).
  apply rtc_read_datetime_keeps in Hd as (Hs2 & Hp2 & Hf2).
  erewrite bind_Ret in Hr by reflexivity.
  assert (Hs : same_settings s s2)
    by (eapply same_settings_trans; eassumption).
  assert (Hf : first_update s2 = first_update s) by congruence.
  rewrite Hf in Hr.
  destruct (Z.eqb_spec (first_update s) 0) as [He | Hne]; cbn [negb] in Hr.
  - inversion Hr; subst s'. split; [exact Hs|].
    split; [congruence|]. split; [intros; contradiction|].
    intros _. congruence.
  - apply bind_ret_inv in Hr as (u3 & s3 & Hl & Hr).
    apply first_update_loop_different in Hl as (Hs3 & Hf3 & Hdiff).
    inversion Hr; subst s'. cbn.
    split.
    { destruct Hs as (A1 & A2 & A3 & A4), Hs3 as (B1 & B2 & B3 & B4).
      repeat split; cbn; congruence. }
    split; [reflexivity|]. split; [intros _; exact Hdiff|].
    intros; contradiction.
Qed.

(** ** Initialisation *)

Lemma rtc_status_b_bits (b : Z) :
  let w := rtc_status_b b in
  Z.testbit w 1 = true /\ Z.testbit w 4 = true
  /\ Z.testbit w 5 = false /\ Z.testbit w 6 = false
  /\ Z.testbit w 0 = Z.testbit b 0 /\ Z.testbit w 2 = Z.testbit b 2
  /\ Z.testbit w 3 = Z.testbit b 3 /\ Z.testbit w 7 = Z.testbit b 7
  /\ 0 <= w < 256.
Proof.
  cbv zeta. unfold rtc_status_b.
  repeat split;
    try (repeat first [ rewrite testbit_byte by lia
                      | rewrite Z.land_spec | rewrite Z.lor_spec ];
         cbn; rewrite ?andb_true_r, ?orb_false_r, ?orb_true_r, ?andb_false_r;
         reflexivity);
    apply byte_range.
Qed.

(** X5. When [rtc_initialize] returns, it returns 0 and has written the
    status register B once, with the byte it read from it changed in four
    bits: 24-hour mode (bit 1) and update-ended interrupts (bit 4) are on,
    alarm (bit 5) and periodic (bit 6) interrupts are off.  [is_bcd] is set
    exactly when the data-mode bit (bit 2) of that byte is clear.  The
    interrupt handler is installed and enabled, and the first update is
    over. *)
Theorem rtc_initialize_status (fuel : nat) (s s' : rstate) (r : Z) :
  rtc_initialize fuel s = Ret r s' ->
  let b := byte (cmos s (reads s) 11) in
  let w := rtc_status_b b in
  r = 0
  /\ writes s' = writes s ++ [(11, w)]
  /\ Z.testbit w 1 = true /\ Z.testbit w 4 = true
  /\ Z.testbit w 5 = false /\ Z.testbit w 6 = false
  /\ (forall i, i = 0 \/ i = 2 \/ i = 3 \/ i = 7 -> Z.testbit w i = Z.testbit b i)
  /\ is_bcd s' = (if Z.testbit b 2 then 0 else 1)
  /\ trace s' = trace s ++ [EvIrqInstall; EvIrqEnable]
  /\ first_update s' = 0.
Proof.
  intros Hr b w.
  destruct (rtc_status_b_bits b) as (H1 & H4 & H5 & H6 & H0 & H2 & H3 & H7 & Hw).
  fold w in H1, H4, H5, H6, H0, H2, H3, H7, Hw.
  destruct s as [ci cm rd wr gt pgt bcd fu tr].
  unfold rtc_initialize in Hr. cbn [cmos reads] in b.
  erewrite bind_Ret in Hr by (apply read_register_at; lia).
  fold b in Hr. fold w in Hr.
  erewrite bind_Ret in Hr by reflexivity.
  erewrite bind_Ret in Hr by reflexivity.
  erewrite bind_Ret in Hr by reflexivity.
  erewrite bind_Ret in Hr by reflexivity.
  erewrite bind_Ret in Hr by reflexivity.
  apply bind_ret_inv in Hr as (u & s1 & Hu & Hr).
  destruct u. apply rtc_update_datetime_first in Hu as (Hs & Hf & _).
  destruct Hs as (_ & Hwr & Hbcd & Htr).
  inversion Hr; subst r s'. cbn in Hwr, Hbcd, Htr.
  split; [reflexivity|].
  split; [rewrite Hwr; rewrite (byte_small w) by exact Hw; reflexivity|].
  repeat (split; [assumption|]).
  split; [intros i [-> | [-> | [-> | ->]]]; assumption|].
  split.
  { rewrite Hbcd. change 4 with (2 ^ 2). rewrite land_bit by lia.
    rewrite H2. destruct (Z.testbit b 2); reflexivity. }
  split; [rewrite Htr, <- app_assoc; reflexivity | exact Hf].
Qed.

End RtcFacts.

(** * More facts about the paging code *)

Section PagingEntries.
Import Paging.
Context `{flags_of : MemmapFlags} `{zone : ZoneAllocator}.

Lemma with_pg_table_flags_other_bits (w flags j : Z) :
  0 <= j -> j <> 0 -> j <> 1 -> j <> 2 -> j <> 8 -> j <> 9 -> j <> 10 ->
  j <> 11 ->
  Z.testbit (with_pg_table_flags w flags) j = Z.testbit w j.
Proof.
  intros. unfold with_pg_table_flags, pte_set_user, pte_set_global,
    pte_set_available, pte_set_kernel_cow, pte_set_present, pte_set_rw.
  rewrite !testbit_set_bit_neq by lia.
  rewrite testbit_set_field_out by lia.
  rewrite !testbit_set_bit_neq by lia. reflexivity.
Qed.

(** X6. [__set_pg_table_flags] on a leaf entry makes its rw, present,
    copy-on-write, global and user bits those of [flags] and its field
    [available] 1; it keeps the frame number and the accessed and dirty
    bits, and changes no other entry.  On a NULL entry it does nothing. *)
Theorem set_pg_table_flags_spec (table flags : Z) (st : kstate) :
  __set_pg_table_flags 0 flags st = Ret tt st
  /\ (table <> 0 ->
      exists st',
        __set_pg_table_flags table flags st = Ret tt st'
        /\ (forall a, a <> table -> kmem st' a = kmem st a)
        /\ trace st' = trace st
        /\ let w := kmem st table in
           let w' := kmem st' table in
           pte_frame w' = pte_frame w
           /\ pte_accessed w' = pte_accessed w
           /\ pte_dirty w' = pte_dirty w
           /\ pte_rw w' = has_flag flags MM_RW
           /\ pte_present w' = has_flag flags MM_PRESENT
           /\ pte_kernel_cow w' = has_flag flags MM_COW
           /\ pte_global w' = has_flag flags MM_GLOBAL
           /\ pte_user w' = has_flag flags MM_USER
           /\ pte_available w' = 1).
Proof.
  split; [reflexivity|]. intros Hne.
  destruct (set_pg_table_flags_ok table flags st Hne)
    as (st' & Hrun & Hw & Hother & Htr & _).
  exists st'. split; [exact Hrun|]. split; [exact Hother|]. split; [exact Htr|].
  cbv zeta. rewrite Hw.
  destruct (with_pg_table_flags_fields (kmem st table) flags)
    as (Hf & Hrw & Hp & Hc & Hg & Hu & Ha).
  split; [exact Hf|].
  split; [apply with_pg_table_flags_other_bits; lia|].
  split; [apply with_pg_table_flags_other_bits; lia|].
  auto 10.
Qed.

(** ** Copy on write *)

Lemma page_handle_cow_allocates (entry : Z) (st : kstate) (p : page_t)
    (ps : list page_t) :
  entry <> 0 ->
  pte_kernel_cow (kmem st entry) = true ->
  pte_present (kmem st entry) = false ->
  page_pool st = p :: ps ->
  vmem_map_physical_pages p <> 0 ->
  exists st',
    __page_handle_cow entry st = Ret 0 st'
    /\ kmem st' entry
       = pte_set_present
           (pte_set_frame (pte_set_kernel_cow (kmem st entry) false)
              (Z.shiftr (get_physical_address_from_page p) 12))
           true
    /\ (forall a, a <> entry -> kmem st' a = kmem st a)
    /\ page_pool st' = ps
    /\ trace st' = trace st ++ [EvAllocPage p; EvZeroPage p]
    /\ cr2 st' = cr2 st /\ cr3 st' = cr3 st /\ current st' = current st
    /\ pgtbl_pool st' = pgtbl_pool st.
Proof.
  intros He Hcow Hp Hpool Hmap.
  unfold __page_handle_cow.
  destruct (Z.eqb_spec entry 0) as [|_]; [lia|].
  erewrite bind_Ret by (apply load_ok; exact He).
  rewrite Hcow.
  erewrite bind_Ret by (apply update_ok; exact He).
  erewrite bind_Ret by (apply load_ok; exact He).
  cbn [kmem set_kmem]. rewrite upd_same.
  unfold pte_present at 1. unfold pte_set_kernel_cow at 1.
  rewrite testbit_set_bit_neq by lia.
  unfold pte_present in Hp. rewrite Hp. cbn [negb].
  unfold alloc_pages at 1. unfold bind at 1.
  cbn [page_pool set_kmem]. rewrite Hpool.
  destruct (Z.eqb_spec (vmem_map_physical_pages p) 0) as [|_]; [lia|].
  erewrite bind_Ret by reflexivity.
  erewrite bind_Ret by (apply update_ok; exact He).
  erewrite bind_Ret by (apply update_ok; exact He).
  eexists. split; [reflexivity|].
  cbn [kmem set_kmem add_event set_page_pool page_pool trace cr2 cr3 current
       pgtbl_pool].
  split; [rewrite !upd_same; reflexivity|].
  split; [intros a Ha; rewrite !upd_other by exact Ha; reflexivity|].
  split; [reflexivity|].
  split; [rewrite <- app_assoc; reflexivity|].
  repeat split.
Qed.

Lemma cow_entry_word (w fr : Z) :
  let w' := pte_set_present (pte_set_frame (pte_set_kernel_cow w false) fr) true in
  pte_present w' = true
  /\ pte_kernel_cow w' = false
  /\ pte_frame w' = Z.land fr (Z.ones 20)
  /\ pte_rw w' = pte_rw w /\ pte_user w' = pte_user w
  /\ pte_global w' = pte_global w.
Proof.
  cbv zeta. unfold pte_present, pte_kernel_cow, pte_frame, pte_rw, pte_user,
    pte_global, pte_set_present, pte_set_frame, pte_set_kernel_cow.
  repeat split.
  - apply testbit_set_bit_eq; lia.
  - rewrite testbit_set_bit_neq by lia.
    rewrite testbit_set_field_out by lia.
    apply testbit_set_bit_eq; lia.
  - rewrite get_field_set_bit by lia.
    apply get_field_set_field_same; lia.
  - rewrite testbit_set_bit_neq by lia.
    rewrite testbit_set_field_out by lia.
    apply testbit_set_bit_neq; lia.
  - rewrite testbit_set_bit_neq by lia.
    rewrite testbit_set_field_out by lia.
    apply testbit_set_bit_neq; lia.
  - rewrite testbit_set_bit_neq by lia.
    rewrite testbit_set_field_out by lia.
    apply testbit_set_bit_neq; lia.
Qed.

(** X7. [__page_handle_cow] on a copy-on-write entry that is not present,
    when a page can be allocated and mapped: it returns 0; the page is taken
    from the allocator and zeroed; the entry is present, no longer
    copy-on-write, and its frame is the one of the new page; its rw, user and
    global bits and the other entries are as they were. *)
Theorem page_handle_cow_success (entry : Z) (st : kstate) (p : page_t)
    (ps : list page_t) :
  entry <> 0 ->
  pte_kernel_cow (kmem st entry) = true ->
  pte_present (kmem st entry) = false ->
  page_pool st = p :: ps ->
  vmem_map_physical_pages p <> 0 ->
  exists st',
    __page_handle_cow entry st = Ret 0 st'
    /\ page_pool st' = ps
    /\ trace st' = trace st ++ [EvAllocPage p; EvZeroPage p]
    /\ (forall a, a <> entry -> kmem st' a = kmem st a)
    /\ pte_present (kmem st' entry) = true
    /\ pte_kernel_cow (kmem st' entry) = false
    /\ pte_frame (kmem st' entry)
       = Z.land (Z.shiftr (get_physical_address_from_page p) 12) (Z.ones 20)
    /\ pte_rw (kmem st' entry) = pte_rw (kmem st entry)
    /\ pte_user (kmem st' entry) = pte_user (kmem st entry)
    /\ pte_global (kmem st' entry) = pte_global (kmem st entry).
Proof.
  intros He Hcow Hp Hpool Hmap.
  destruct (page_handle_cow_allocates entry st p ps He Hcow Hp Hpool Hmap)
    as (st' & Hrun & Hw & Hother & Hpp & Htr & _).
  exists st'. split; [exact Hrun|]. split; [exact Hpp|]. split; [exact Htr|].
  split; [exact Hother|]. rewrite Hw. apply cow_entry_word.
Qed.

(** X8. [__page_handle_cow] returns 1 and changes nothing on a NULL entry
    and on an entry that is not copy-on-write.  On a copy-on-write entry
    that is not present it also returns 1 when no page can be allocated, or
    when the page cannot be mapped; but then the entry has lost its
    copy-on-write bit, and the page that could not be mapped is not given
    back to the allocator. *)
Theorem page_handle_cow_failure (entry : Z) (st : kstate) :
  __page_handle_cow 0 st = Ret 1 st
  /\ (entry <> 0 -> pte_kernel_cow (kmem st entry) = false ->
      __page_handle_cow entry st = Ret 1 st)
  /\ (entry <> 0 -> pte_kernel_cow (kmem st entry) = true ->
      pte_present (kmem st entry) = false ->
      match page_pool st with
      | [] => True
      | p :: _ => vmem_map_physical_pages p = 0
      end ->
      exists st',
        __page_handle_cow entry st = Ret 1 st'
        /\ pte_kernel_cow (kmem st' entry) = false
        /\ pte_present (kmem st' entry) = false
        /\ pte_frame (kmem st' entry) = pte_frame (kmem st entry)
        /\ (forall a, a <> entry -> kmem st' a = kmem st a)
        /\ page_pool st' = tl (page_pool st)).
Proof.
  split; [reflexivity|]. split.
  - intros He Hcow. unfold __page_handle_cow.
    destruct (Z.eqb_spec entry 0) as [|_]; [lia|].
    erewrite bind_Ret by (apply load_ok; exact He).
    now rewrite Hcow.
  - intros He Hcow Hp Hpool. unfold __page_handle_cow.
    destruct (Z.eqb_spec entry 0) as [|_]; [lia|].
    erewrite bind_Ret by (apply load_ok; exact He).
    rewrite Hcow.
    erewrite bind_Ret by (apply update_ok; exact He).
    erewrite bind_Ret by (apply load_ok; exact He).
    cbn [kmem set_kmem]. rewrite upd_same.
    unfold pte_present at 1. unfold pte_set_kernel_cow at 1.
    rewrite testbit_set_bit_neq by lia.
    unfold pte_present in Hp. rewrite Hp. cbn [negb].
    unfold alloc_pages at 1. unfold bind at 1. cbn [page_pool set_kmem].
    assert (Hword : pte_kernel_cow (pte_set_kernel_cow (kmem st entry) false) = false
                    /\ Z.testbit (pte_set_kernel_cow (kmem st entry) false) 0 = false
                    /\ pte_frame (pte_set_kernel_cow (kmem st entry) false)
                       = pte_frame (kmem st entry)).
    { unfold pte_kernel_cow, pte_frame, pte_set_kernel_cow.
      split; [apply testbit_set_bit_eq; lia|].
      split; [rewrite testbit_set_bit_neq by lia; exact Hp|].
      apply get_field_set_bit; lia. }
    destruct Hword as (Hc' & Hp' & Hf').
    destruct (page_pool st) as [|p ps] eqn:Hpp.
    + eexists. split; [reflexivity|].
      cbn [kmem set_kmem page_pool]. rewrite upd_same.
      split; [exact Hc'|]. split; [exact Hp'|]. split; [exact Hf'|].
      split; [intros a Ha; apply upd_other; exact Ha|].
      rewrite Hpp. reflexivity.
    + rewrite Hpool. cbn [Z.eqb].
      eexists. split; [reflexivity|].
      cbn [kmem set_kmem page_pool add_event set_page_pool]. rewrite upd_same.
      split; [exact Hc'|]. split; [exact Hp'|]. split; [exact Hf'|].
      split; [intros a Ha; apply upd_other; exact Ha|reflexivity].
Qed.

(** X9. Demand paging.  A fault at an address whose directory entry is
    present and whose leaf entry is copy-on-write and not present, outside
    the range of the virtual mappings, when a page can be allocated and
    mapped: [page_fault_handler] returns; it has allocated and zeroed one
    page, made the leaf entry present on the frame of that page, and flushed
    the TLB entry of the faulting address; it has sent no signal and has not
    run the scheduler; no other entry has changed. *)
Theorem page_fault_demand_paging
    (f : pt_regs) (st : kstate) (dir_page table_page p : page_t)
    (ps : list page_t) :
  let lowmem_dir := get_virtual_address_from_page dir_page in
  let dw := kmem st (entry_at lowmem_dir (cr2 st / (1024 * PAGE_SIZE))) in
  let lowmem_table := get_virtual_address_from_page table_page in
  let entry := entry_at lowmem_table ((cr2 st / PAGE_SIZE) mod 1024) in
  cr3 st <> 0 ->
  get_page_from_physical_address (cr3 st) = Some dir_page ->
  0 < lowmem_dir ->
  0 <= cr2 st ->
  pde_present dw = true ->
  get_page_from_physical_address (wrap32 (Z.shiftl (pde_frame dw) 12))
  = Some table_page ->
  0 < lowmem_table ->
  is_valid_virtual_address (cr2 st) = false ->
  pte_kernel_cow (kmem st entry) = true ->
  pte_present (kmem st entry) = false ->
  page_pool st = p :: ps ->
  vmem_map_physical_pages p <> 0 ->
  exists st',
    page_fault_handler f st = Ret tt st'
    /\ trace st' = trace st ++ [EvAllocPage p; EvZeroPage p; EvInvlpg (cr2 st)]
    /\ page_pool st' = ps
    /\ pte_present (kmem st' entry) = true
    /\ pte_kernel_cow (kmem st' entry) = false
    /\ pte_frame (kmem st' entry)
       = Z.land (Z.shiftr (get_physical_address_from_page p) 12) (Z.ones 20)
    /\ (forall a, a <> entry -> kmem st' a = kmem st a).
Proof.
  intros lowmem_dir dw lowmem_table entry
         Hcr3 Hpage Hdir Hcr2 Hpresent Htable Hlow Hvalid Hcow Hp Hpool Hmap.
  unfold page_fault_handler.
  erewrite bind_Ret by reflexivity.
  destruct (Z.eqb_spec (cr3 st) 0) as [|_]; [lia|].
  rewrite Hpage. fold lowmem_dir.
  destruct (Z.eqb_spec lowmem_dir 0) as [|_]; [lia|].
  assert (Hde : entry_at lowmem_dir (cr2 st / (1024 * PAGE_SIZE)) <> 0).
  { unfold entry_at, PAGE_SIZE.
    pose proof (Z.div_pos (cr2 st) (1024 * 4096) Hcr2 ltac:(lia)). lia. }
  erewrite bind_Ret by (apply load_ok; exact Hde).
  fold dw. rewrite Hpresent. cbn [negb].
  rewrite Htable. fold lowmem_table.
  destruct (Z.eqb_spec lowmem_table 0) as [|_]; [lia|].
  assert (He : entry <> 0).
  { unfold entry, entry_at.
    pose proof (Z.mod_pos_bound (cr2 st / PAGE_SIZE) 1024 ltac:(lia)). lia. }
  fold entry. destruct (Z.eqb_spec entry 0) as [|_]; [lia|].
  rewrite Hvalid.
  destruct (page_handle_cow_allocates entry st p ps He Hcow Hp Hpool Hmap)
    as (st1 & Hrun & Hw & Hother & Hpp & Htr & Hc2 & _).
  unfold bind at 1. unfold bind at 1. rewrite Hrun.
  change (negb (0 =? 0)) with false. cbv iota.
  unfold ret at 1. cbv iota.
  eexists. split; [reflexivity|].
  cbn [trace add_event page_pool kmem].
  split; [rewrite Htr, <- app_assoc; reflexivity|].
  split; [exact Hpp|]. rewrite Hw.
  destruct (cow_entry_word (kmem st entry)
              (Z.shiftr (get_physical_address_from_page p) 12))
    as (H1 & H2 & H3 & _).
  auto.
Qed.

(** ** Directory entries *)

Lemma pde_fresh_word (w : Z) (g u : bool) :
  let w' := pde_set_available
              (pde_set_accessed
                 (pde_set_user
                    (pde_set_global (pde_set_rw (pde_set_present w true) true) g)
                    u) false) 1 in
  pde_present w' = true /\ pde_rw w' = true /\ pde_global w' = g
  /\ pde_user w' = u /\ pde_accessed w' = false /\ pde_available w' = 1
  /\ pde_frame w' = pde_frame w.
Proof.
  cbv zeta. unfold pde_present, pde_rw, pde_global, pde_user, pde_accessed,
    pde_available, pde_frame, pde_set_available, pde_set_accessed,
    pde_set_user, pde_set_global, pde_set_rw, pde_set_present.
  repeat split.
  - rewrite testbit_set_field_out by lia.
    rewrite !testbit_set_bit_neq by lia. apply testbit_set_bit_eq; lia.
  - rewrite testbit_set_field_out by lia.
    rewrite !testbit_set_bit_neq by lia. apply testbit_set_bit_eq; lia.
  - rewrite testbit_set_field_out by lia.
    rewrite !testbit_set_bit_neq by lia. apply testbit_set_bit_eq; lia.
  - rewrite testbit_set_field_out by lia.
    rewrite !testbit_set_bit_neq by lia. apply testbit_set_bit_eq; lia.
  - rewrite testbit_set_field_out by lia. apply testbit_set_bit_eq; lia.
  - apply get_field_set_field_same; lia.
  - rewrite get_field_set_field_other by lia.
    rewrite !get_field_set_bit by lia. reflexivity.
Qed.

(** X10. [__mem_pg_entry_alloc] on a directory entry that is not present
    marks it present and writable, sets its global and user bits from
    [flags], clears its accessed bit, and keeps its frame number; it returns
    the next page table of the cache.  When the cache gives none it returns
    NULL, and the entry stays marked present. *)
Theorem mem_pg_entry_alloc_fresh (entry flags : Z) (st : kstate) :
  entry <> 0 ->
  pde_present (kmem st entry) = false ->
  exists st',
    __mem_pg_entry_alloc entry flags st
    = Ret (match pgtbl_pool st with [] => 0 | t :: _ => t end) st'
    /\ pgtbl_pool st' = tl (pgtbl_pool st)
    /\ (forall a, a <> entry -> kmem st' a = kmem st a)
    /\ trace st' = trace st
    /\ pde_present (kmem st' entry) = true
    /\ pde_rw (kmem st' entry) = true
    /\ pde_global (kmem st' entry) = has_flag flags MM_GLOBAL
    /\ pde_user (kmem st' entry) = has_flag flags MM_USER
    /\ pde_accessed (kmem st' entry) = false
    /\ pde_available (kmem st' entry) = 1
    /\ pde_frame (kmem st' entry) = pde_frame (kmem st entry).
Proof.
  intros He Hp. unfold __mem_pg_entry_alloc.
  destruct (Z.eqb_spec entry 0) as [|_]; [lia|].
  erewrite bind_Ret by (apply load_ok; exact He).
  rewrite Hp. cbn [negb].
  do 6 (erewrite bind_Ret by (apply update_ok; exact He)).
  unfold kmem_cache_alloc_pgtbl at 1. unfold bind at 1.
  cbn [pgtbl_pool set_kmem].
  pose proof (pde_fresh_word (kmem st entry) (has_flag flags MM_GLOBAL)
                (has_flag flags MM_USER)) as Hword. cbv zeta in Hword.
  destruct (pgtbl_pool st) as [|t ts] eqn:Hpool.
  - cbn [Z.eqb]. eexists. split; [reflexivity|].
    cbn [pgtbl_pool set_kmem kmem trace]. rewrite !upd_same.
    split; [rewrite Hpool; reflexivity|].
    split; [intros a Ha; rewrite !upd_other by exact Ha; reflexivity|].
    split; [reflexivity | exact Hword].
  - assert (Hret : (if t =? 0 then ret 0 else ret t)
                   = (ret t : M kstate Z)).
    { destruct (Z.eqb_spec t 0) as [-> |]; reflexivity. }
    rewrite Hret. eexists. split; [reflexivity|].
    cbn [pgtbl_pool set_kmem set_pgtbl_pool kmem trace]. rewrite !upd_same.
    split; [reflexivity|].
    split; [intros a Ha; rewrite !upd_other by exact Ha; reflexivity|].
    split; [reflexivity | exact Hword].
Qed.

Lemma pde_merged_word (w : Z) (p r g u : bool) :
  let w1 := pde_set_present w (pde_present w || p) in
  let w2 := pde_set_rw w1 (pde_rw w1 || r) in
  let w3 := pde_set_global w2 (pde_global w2 && g) in
  let w4 := pde_set_user w3 (pde_user w3 || u) in
  pde_global w2 = pde_global w
  /\ pde_present w4 = pde_present w || p
  /\ pde_rw w4 = pde_rw w || r
  /\ pde_global w4 = pde_global w && g
  /\ pde_user w4 = pde_user w || u
  /\ pde_frame w4 = pde_frame w.
Proof.
  cbv zeta. unfold pde_present, pde_rw, pde_global, pde_user, pde_frame,
    pde_set_user, pde_set_global, pde_set_rw, pde_set_present.
  repeat split.
  - rewrite !testbit_set_bit_neq by lia. reflexivity.
  - rewrite !testbit_set_bit_neq by lia. apply testbit_set_bit_eq; lia.
  - rewrite !testbit_set_bit_neq by lia. rewrite testbit_set_bit_eq by lia.
    rewrite testbit_set_bit_neq by lia. reflexivity.
  - rewrite !testbit_set_bit_neq by lia. rewrite testbit_set_bit_eq by lia.
    rewrite !testbit_set_bit_neq by lia. reflexivity.
  - rewrite testbit_set_bit_eq by lia.
    rewrite !testbit_set_bit_neq by lia. reflexivity.
  - rewrite !get_field_set_bit by lia. reflexivity.
Qed.

(** X11. [__mem_pg_entry_alloc] on a directory entry that is present, with
    flags that do not drop its global bit: the flags are merged into the
    entry (present, rw and user are only ever added, global is kept only if
    asked for), the frame number is kept, nothing is allocated, and the
    function returns the address at which the page table of the entry is
    mapped, or NULL when the frame has no page or no mapping. *)
Theorem mem_pg_entry_alloc_present (entry flags : Z) (st : kstate) :
  entry <> 0 ->
  pde_present (kmem st entry) = true ->
  pde_global (kmem st entry) && negb (has_flag flags MM_GLOBAL) = false ->
  exists st',
    __mem_pg_entry_alloc entry flags st
    = Ret (match get_page_from_physical_address
                   (wrap32 (Z.shiftl (pde_frame (kmem st entry)) 12)) with
           | None => 0
           | Some page => get_virtual_address_from_page page
           end) st'
    /\ pgtbl_pool st' = pgtbl_pool st
    /\ trace st' = trace st
    /\ (forall a, a <> entry -> kmem st' a = kmem st a)
    /\ pde_present (kmem st' entry) = true
    /\ pde_rw (kmem st' entry) = pde_rw (kmem st entry) || has_flag flags MM_RW
    /\ pde_user (kmem st' entry)
       = pde_user (kmem st entry) || has_flag flags MM_USER
    /\ pde_global (kmem st' entry)
       = pde_global (kmem st entry) && has_flag flags MM_GLOBAL
    /\ pde_frame (kmem st' entry) = pde_frame (kmem st entry).
Proof.
  intros He Hp Hg. unfold __mem_pg_entry_alloc.
  destruct (Z.eqb_spec entry 0) as [|_]; [lia|].
  erewrite bind_Ret by (apply load_ok; exact He).
  rewrite Hp. cbn [negb].
  do 2 (erewrite bind_Ret by (apply update_ok; exact He)).
  erewrite bind_Ret by (apply load_ok; exact He).
  cbn [kmem set_kmem]. rewrite !upd_same.
  pose proof (pde_merged_word (kmem st entry) (has_flag flags MM_PRESENT)
                (has_flag flags MM_RW) (has_flag flags MM_GLOBAL)
                (has_flag flags MM_USER)) as Hword.
  cbv zeta in Hword. destruct Hword as (Hg2 & Hp4 & Hr4 & Hg4 & Hu4 & Hf4).
  rewrite Hg2, Hg.
  do 2 (erewrite bind_Ret by (apply update_ok; exact He)).
  erewrite bind_Ret by (apply load_ok; exact He).
  cbn [kmem set_kmem]. rewrite !upd_same. rewrite Hf4.
  assert (Hret :
    forall s : kstate,
      match get_page_from_physical_address
              (wrap32 (Z.shiftl (pde_frame (kmem st entry)) 12)) with
      | None => ret 0
      | Some page =>
          if get_virtual_address_from_page page =? 0 then ret 0
          else ret (get_virtual_address_from_page page)
      end s
      = Ret (match get_page_from_physical_address
                     (wrap32 (Z.shiftl (pde_frame (kmem st entry)) 12)) with
             | None => 0
             | Some page => get_virtual_address_from_page page
             end) s).
  { intros s.
    destruct (get_page_from_physical_address _) as [page|]; [|reflexivity].
    destruct (Z.eqb_spec (get_virtual_address_from_page page) 0) as [-> |];
      reflexivity. }
  rewrite Hret. eexists. split; [reflexivity|].
  cbn [pgtbl_pool set_kmem kmem trace]. rewrite !upd_same.
  split; [reflexivity|]. split; [reflexivity|].
  split; [intros a Ha; rewrite !upd_other by exact Ha; reflexivity|].
  rewrite Hp4, Hr4, Hu4, Hg4, Hf4, Hp. cbn [orb]. repeat split.
Qed.

(** X12. [__set_pg_entry_frame] returns 0 or -1.  It returns -1, and changes
    nothing, when the entry or the table is NULL, or the table has no page or
    no physical address.  When it returns 0, it has stored the physical
    frame of the table in the entry and kept the flag bits of the entry. *)
Theorem set_pg_entry_frame_spec (entry table : Z) (st : kstate) :
  exists r st',
    __set_pg_entry_frame entry table st = Ret r st'
    /\ ((r = -1 /\ st' = st)
        \/ (r = 0 /\ entry <> 0 /\ table <> 0
            /\ exists page,
                 get_page_from_virtual_address table = Some page
                 /\ get_physical_address_from_page page <> 0
                 /\ pde_frame (kmem st' entry)
                    = Z.land (Z.shiftr (get_physical_address_from_page page) 12)
                             (Z.ones 20)
                 /\ (forall j, 0 <= j < 12 ->
                       Z.testbit (kmem st' entry) j = Z.testbit (kmem st entry) j)
                 /\ (forall a, a <> entry -> kmem st' a = kmem st a)
                 /\ trace st' = trace st)).
Proof.
  unfold __set_pg_entry_frame.
  destruct (Z.eqb_spec entry 0) as [|He]; [eexists _, _; split; [reflexivity|auto]|].
  destruct (Z.eqb_spec table 0) as [|Ht]; [eexists _, _; split; [reflexivity|auto]|].
  destruct (get_page_from_virtual_address table) as [page|] eqn:Hpage;
    [|eexists _, _; split; [reflexivity|auto]].
  destruct (Z.eqb_spec (get_physical_address_from_page page) 0) as [|Hphy];
    [eexists _, _; split; [reflexivity|auto]|].
  erewrite bind_Ret by (apply update_ok; exact He).
  eexists _, _. split; [reflexivity|]. right.
  split; [reflexivity|]. split; [exact He|]. split; [exact Ht|].
  exists page. split; [reflexivity|]. split; [exact Hphy|].
  cbn [kmem set_kmem trace]. rewrite upd_same.
  unfold pde_frame, pde_set_frame.
  split; [apply get_field_set_field_same; lia|].
  split; [intros j Hj; apply testbit_set_field_out; lia|].
  split; [intros a Ha; apply upd_other; exact Ha | reflexivity].
Qed.

End PagingEntries.

(** * Facts about the page iterator and the update of an area *)

Section PagingAreas.
Import Paging.
Context `{flags_of : MemmapFlags} `{zone : ZoneAllocator}.

(** X13. [__pg_iter_init] on a 32-bit start address.  The check of the
    directory index never fails, so when the function returns, it returns -1
    exactly when it could get no page table for the first directory entry of
    the range, and 0 otherwise, with an iterator on that entry that goes
    from the page of the start address to the page after the last byte of
    the range. *)
Theorem pg_iter_init_spec (pgd addr size flags r : Z) (it : page_iterator_t)
    (st st' : kstate) :
  0 <= addr < 2 ^ 32 ->
  __pg_iter_init iter0 pgd addr size flags st = Ret (r, it) st' ->
  it_entry it = entry_at pgd (addr / PAGE_SIZE / 1024)
  /\ it_pfn it = addr / PAGE_SIZE
  /\ it_last_pfn it = wrap32 (addr + size + PAGE_SIZE - 1) / PAGE_SIZE
  /\ it_flags it = flags
  /\ ((r = 0 /\ it_table it <> 0) \/ (r = -1 /\ it_table it = 0)).
Proof.
  intros Haddr Hr. unfold __pg_iter_init in Hr.
  assert (Hidx : addr / PAGE_SIZE / 1024 < MAX_PAGE_TABLE_ENTRIES).
  { unfold PAGE_SIZE, MAX_PAGE_TABLE_ENTRIES.
    rewrite Z.div_div by lia. apply Z.div_lt_upper_bound; lia. }
  destruct (Z.leb_spec MAX_PAGE_TABLE_ENTRIES (addr / PAGE_SIZE / 1024));
    [lia|].
  apply bind_ret_inv in Hr as (table & s1 & _ & Hr).
  destruct (Z.eqb_spec table 0) as [-> | Hne].
  - inversion Hr; subst. cbn. auto 10.
  - apply bind_ret_inv in Hr as (x & s2 & _ & Hr).
    inversion Hr; subst. cbn. auto 10.
Qed.

(** ** One turn of the iterator inside a page table *)

Lemma pg_iter_next_inside (E T a b fl : Z) (st : kstate) :
  0 <= a -> a < b -> b <= (a / 1024 + 1) * 1024 -> b <= 2 ^ 20 ->
  __pg_iter_next (mk_page_iterator E T a b fl) st
  = Ret (mk_pg_iter_entry (entry_at T (a mod 1024)) a,
         mk_page_iterator E T (a + 1) b fl) st.
Proof.
  intros Ha Hab Hb Hmax. unfold __pg_iter_next.
  cbn [it_pfn it_table it_entry it_last_pfn it_flags].
  assert (Hw : wrap32 (a + 1) = a + 1)
    by (unfold wrap32; apply Z.mod_small; lia).
  rewrite Hw.
  assert (Hcond : ((a + 1) mod 1024 =? 0) && negb (a + 1 =? b) = false).
  { destruct (Z.eqb_spec ((a + 1) mod 1024) 0) as [Hz|]; [|reflexivity].
    destruct (Z.eqb_spec (a + 1) b) as [|Hne]; [reflexivity|]. exfalso.
    pose proof (Z.div_mod a 1024 ltac:(lia)) as Hdm.
    pose proof (Z.mod_pos_bound a 1024 ltac:(lia)) as Hr.
    assert (Hlt : a mod 1024 + 1 < 1024) by lia.
    rewrite <- Zplus_mod_idemp_l in Hz.
    rewrite Z.mod_small in Hz by lia. lia. }
  rewrite Hcond. reflexivity.
Qed.

Lemma same_table_index (a b i : Z) :
  0 <= a -> b <= (a / 1024 + 1) * 1024 -> 0 <= i -> a + i < b ->
  (a + i) mod 1024 = a mod 1024 + i /\ (a + i) / 1024 = a / 1024.
Proof.
  intros Ha Hb Hi Hlt.
  pose proof (Z.div_mod a 1024 ltac:(lia)) as Hdm.
  pose proof (Z.mod_pos_bound a 1024 ltac:(lia)) as Hr.
  split.
  - symmetry. apply (Z.mod_unique _ 1024 (a / 1024)); lia.
  - symmetry. apply (Z.div_unique _ 1024 (a / 1024) (a mod 1024 + i)); lia.
Qed.

(** ** The loop of [mem_upd_vm_area] inside a page table *)

Lemma entry_at_inj (T i j : Z) : entry_at T i = entry_at T j -> i = j.
Proof. unfold entry_at. lia. Qed.

Lemma mem_upd_vm_area_entry_mapped (e pfn flags phy : Z) (st : kstate) :
  e <> 0 -> has_flag flags MM_UPDADDR = true -> phy < MAX_PHY_PFN ->
  exists st',
    mem_upd_vm_area_entry (mk_pg_iter_entry e pfn) flags phy st
    = Ret (inr (wrap32 (phy + 1))) st'
    /\ kmem st' e = with_pg_table_flags (pte_set_frame (kmem st e) phy) flags
    /\ (forall a, a <> e -> kmem st' a = kmem st a)
    /\ trace st' = trace st ++ [EvInvlpg (wrap32 (pfn * PAGE_SIZE))]
    /\ pgtbl_pool st' = pgtbl_pool st /\ page_pool st' = page_pool st.
Proof.
  intros He Hupd Hphy. unfold mem_upd_vm_area_entry.
  cbn [ie_entry ie_pfn]. rewrite Hupd.
  destruct (Z.leb_spec MAX_PHY_PFN phy); [lia|].
  set (s1 := add_event (EvInvlpg (wrap32 (pfn * PAGE_SIZE)))
               (set_kmem (fun m => upd m e (pte_set_frame (m e) phy)) st)).
  assert (Hfirst :
    (let* _ := update e (fun w => pte_set_frame w phy) in
     let* _ := paging_flush_tlb_single (wrap32 (pfn * PAGE_SIZE)) in
     ret (inr (wrap32 (phy + 1)) : Z + Z)) st
    = Ret (inr (wrap32 (phy + 1))) s1).
  { erewrite bind_Ret by (apply update_ok; exact He). reflexivity. }
  erewrite bind_Ret by exact Hfirst.
  destruct (set_pg_table_flags_ok e flags s1 He)
    as (st' & Hrun & Hw & Hother & Htr & Hp1 & Hp2).
  erewrite bind_Ret by exact Hrun.
  exists st'. split; [reflexivity|].
  split; [rewrite Hw; unfold s1; cbn [kmem add_event set_kmem];
          rewrite upd_same; reflexivity|].
  split.
  { intros a Ha. rewrite Hother by exact Ha. unfold s1.
    cbn [kmem add_event set_kmem]. apply upd_other. exact Ha. }
  split; [rewrite Htr; reflexivity|].
  split; [rewrite Hp1 | rewrite Hp2]; reflexivity.
Qed.

Lemma mem_upd_vm_area_loop_mapped (n : nat) :
  forall (fuel : nat) (E T q k fl flags phy : Z) (st : kstate),
    (n < fuel)%nat -> 0 < T -> 0 <= q -> 0 <= k -> k + Z.of_nat n <= 1024 ->
    1024 * q + k + Z.of_nat n <= 2 ^ 20 ->
    has_flag flags MM_UPDADDR = true ->
    0 <= phy -> phy + Z.of_nat n <= MAX_PHY_PFN -> MAX_PHY_PFN <= 2 ^ 20 ->
    exists st',
      mem_upd_vm_area_loop fuel
        (mk_page_iterator E T (1024 * q + k) (1024 * q + k + Z.of_nat n) fl)
        flags phy st
      = Ret 0 st'
      /\ trace st' = trace st ++ flushes (1024 * q + k) n
      /\ (forall i, 0 <= i < Z.of_nat n ->
            kmem st' (entry_at T (k + i))
            = with_pg_table_flags
                (pte_set_frame (kmem st (entry_at T (k + i))) (phy + i)) flags)
      /\ (forall x, (forall i, 0 <= i < Z.of_nat n -> x <> entry_at T (k + i)) ->
                    kmem st' x = kmem st x)
      /\ pgtbl_pool st' = pgtbl_pool st /\ page_pool st' = page_pool st.
Proof.
  induction n as [|n IH];
    intros fuel E T q k fl flags phy st Hfuel HT Hq Hk Hkn Hmax Hupd Hphy Hbound
           Hlimit.
  - destruct fuel as [|fuel]; [lia|]. cbn [mem_upd_vm_area_loop].
    unfold __pg_iter_has_next. cbn [it_pfn it_last_pfn].
    rewrite Z.add_0_r, Z.ltb_irrefl.
    exists st. split; [reflexivity|].
    split; [cbn; now rewrite app_nil_r|].
    split; [intros i Hi; lia|]. auto.
  - destruct fuel as [|fuel]; [lia|]. cbn [mem_upd_vm_area_loop].
    unfold __pg_iter_has_next. cbn [it_pfn it_last_pfn].
    set (a := 1024 * q + k).
    destruct (Z.ltb_spec a (a + Z.of_nat (S n))); [|lia].
    assert (Hdiv : a / 1024 = q).
    { symmetry. apply (Z.div_unique _ 1024 q k); unfold a; lia. }
    assert (Hmod : a mod 1024 = k).
    { symmetry. apply (Z.mod_unique _ 1024 q k); unfold a; lia. }
    erewrite bind_Ret
      by (apply pg_iter_next_inside; [unfold a; lia | lia | rewrite Hdiv; unfold a; lia | lia]).
    rewrite Hmod.
    assert (He : entry_at T k <> 0) by (unfold entry_at; lia).
    destruct (mem_upd_vm_area_entry_mapped (entry_at T k) a flags phy st He Hupd
                ltac:(lia))
      as (s1 & Hrun & Hw1 & Hother1 & Htr1 & Hp1 & Hq1).
    erewrite bind_Ret by exact Hrun.
    assert (Hwrap : wrap32 (phy + 1) = phy + 1)
      by (unfold wrap32; apply Z.mod_small; lia).
    rewrite Hwrap.
    replace (a + Z.of_nat (S n)) with (1024 * q + (k + 1) + Z.of_nat n)
      by (unfold a; lia).
    replace (a + 1) with (1024 * q + (k + 1)) by (unfold a; lia).
    destruct (IH fuel E T q (k + 1) fl flags (phy + 1) s1)
      as (st' & Hloop & Htr & Hmapped & Hother & Hp & Hq');
      try lia; try assumption.
    exists st'. split; [exact Hloop|].
    split.
    { rewrite Htr, Htr1, <- app_assoc. cbn [flushes app].
      replace (a + 1) with (1024 * q + (k + 1)) by (unfold a; lia).
      reflexivity. }
    split.
    { intros i Hi. destruct (Z.eq_dec i 0) as [-> | Hne].
      - rewrite !Z.add_0_r. rewrite Hother; [exact Hw1|].
        intros j Hj Heq. apply entry_at_inj in Heq. lia.
      - replace (k + i) with (k + 1 + (i - 1)) by lia.
        rewrite Hmapped by lia.
        rewrite Hother1
          by (intros Heq; apply entry_at_inj in Heq; lia).
        replace (phy + 1 + (i - 1)) with (phy + i) by lia. reflexivity. }
    split.
    { intros x Hx. rewrite Hother.
      - apply Hother1. specialize (Hx 0 ltac:(lia)).
        rewrite Z.add_0_r in Hx. exact Hx.
      - intros i Hi. replace (k + 1 + i) with (k + (i + 1)) by lia.
        apply Hx. lia. }
    split; congruence.
Qed.

Lemma frame_of_mapped (w v flags : Z) :
  0 <= v < 2 ^ 20 ->
  pte_frame (with_pg_table_flags (pte_set_frame w v) flags) = v.
Proof.
  intros Hv.
  destruct (with_pg_table_flags_fields (pte_set_frame w v) flags) as (Hf & _).
  rewrite Hf. unfold pte_frame, pte_set_frame.
  rewrite get_field_set_field_same by lia.
  rewrite Z.land_ones by lia. apply Z.mod_small. lia.
Qed.

Lemma last_pfn_bound (x : Z) : 0 <= wrap32 x / PAGE_SIZE <= 2 ^ 20.
Proof.
  unfold wrap32, PAGE_SIZE.
  pose proof (Z.mod_pos_bound x (2 ^ 32) ltac:(lia)) as Hx.
  split; [apply Z.div_pos; lia|].
  apply Z.lt_le_incl. apply Z.div_lt_upper_bound; lia.
Qed.

(** X14. [mem_upd_vm_area] with [MM_UPDADDR], on a range whose pages lie in
    one page table, when the iterator could be set up and the physical
    frames are below [MAX_PHY_PFN]: it returns 0; the pages of the range are
    mapped, in order, to the frames that follow the frame of [phy_start],
    with the flag bits of [flags]; the TLB entry of each page is flushed, in
    order; no other entry changes. *)
Theorem mem_upd_vm_area_maps (pgd virt phys size flags : Z)
    (it : page_iterator_t) (st st1 : kstate) :
  pgd <> 0 -> 0 <= virt < 2 ^ 32 ->
  __pg_iter_init iter0 pgd virt size flags st = Ret (0, it) st1 ->
  0 < it_table it ->
  let first := virt / PAGE_SIZE in
  let last := wrap32 (virt + size + PAGE_SIZE - 1) / PAGE_SIZE in
  first <= last -> last <= (first / 1024 + 1) * 1024 ->
  has_flag flags MM_UPDADDR = true ->
  0 <= phys -> phys / PAGE_SIZE + (last - first) <= MAX_PHY_PFN ->
  MAX_PHY_PFN <= 2 ^ 20 ->
  exists st2,
    mem_upd_vm_area pgd virt phys size flags st = Ret 0 st2
    /\ trace st2 = trace st1 ++ flushes first (Z.to_nat (last - first))
    /\ (forall i, 0 <= i < last - first ->
          let w := kmem st2 (entry_at (it_table it) (first mod 1024 + i)) in
          pte_frame w = phys / PAGE_SIZE + i
          /\ pte_present w = has_flag flags MM_PRESENT
          /\ pte_rw w = has_flag flags MM_RW
          /\ pte_user w = has_flag flags MM_USER
          /\ pte_global w = has_flag flags MM_GLOBAL
          /\ pte_kernel_cow w = has_flag flags MM_COW)
    /\ (forall x,
          (forall i, 0 <= i < last - first ->
                     x <> entry_at (it_table it) (first mod 1024 + i)) ->
          kmem st2 x = kmem st1 x).
Proof.
  intros Hpgd Hvirt Hinit HT first last Hle Hsame Hupd Hphys Hbound Hlimit.
  destruct (pg_iter_init_spec _ _ _ _ _ _ _ _ Hvirt Hinit)
    as (HE & Hpfn & Hlast & Hfl & _).
  fold first in Hpfn. fold last in Hlast.
  unfold mem_upd_vm_area.
  destruct (Z.eqb_spec pgd 0) as [|_]; [lia|].
  erewrite bind_Ret by exact Hinit. cbv iota beta.
  change (0 <? 0) with false. cbv iota.
  destruct it as [E T a b fl]. cbn [it_table it_pfn it_last_pfn it_flags] in *.
  subst a b. unfold iter_fuel. cbn [it_pfn it_last_pfn].
  set (n := Z.to_nat (last - first)).
  assert (Hfirst : 0 <= first) by (apply Z.div_pos; unfold PAGE_SIZE; lia).
  pose proof (Z.div_mod first 1024 ltac:(lia)) as Hdm.
  pose proof (Z.mod_pos_bound first 1024 ltac:(lia)) as Hmod.
  pose proof (last_pfn_bound (virt + size + PAGE_SIZE - 1)) as Hlb.
  fold last in Hlb.
  assert (Hq : 0 <= first / 1024) by (apply Z.div_pos; lia).
  assert (Hphy0 : 0 <= phys / PAGE_SIZE)
    by (apply Z.div_pos; unfold PAGE_SIZE; lia).
  destruct (mem_upd_vm_area_loop_mapped n (S n) E T (first / 1024)
              (first mod 1024) fl flags (phys / PAGE_SIZE) st1)
    as (st2 & Hloop & Htr & Hmapped & Hother & _);
    try assumption; try (unfold n; lia).
  replace (1024 * (first / 1024) + first mod 1024) with first in Hloop, Htr
    by lia.
  replace (first + Z.of_nat n) with last in Hloop by (unfold n; lia).
  exists st2. split; [exact Hloop|]. split; [exact Htr|].
  split.
  - intros i Hi. cbv zeta. rewrite Hmapped by (unfold n; lia).
    split; [apply frame_of_mapped; lia|].
    destruct (with_pg_table_flags_fields
                (pte_set_frame (kmem st1 (entry_at T (first mod 1024 + i)))
                   (phys / PAGE_SIZE + i)) flags)
      as (_ & Hrw & Hp & Hc & Hg & Hu & _).
    auto.
  - intros x Hx. apply Hother. intros i Hi. apply Hx. unfold n in Hi. lia.
Qed.

Lemma mem_upd_vm_area_loop_limit (m : nat) :
  forall (fuel n : nat) (E T q k fl flags phy : Z) (st : kstate),
    (m < n)%nat -> (m < fuel)%nat -> 0 < T -> 0 <= q -> 0 <= k ->
    k + Z.of_nat n <= 1024 -> 1024 * q + k + Z.of_nat n <= 2 ^ 20 ->
    has_flag flags MM_UPDADDR = true ->
    0 <= phy -> phy + Z.of_nat m = MAX_PHY_PFN -> MAX_PHY_PFN <= 2 ^ 20 ->
    exists st',
      mem_upd_vm_area_loop fuel
        (mk_page_iterator E T (1024 * q + k) (1024 * q + k + Z.of_nat n) fl)
        flags phy st
      = Ret (-1) st'
      /\ trace st' = trace st ++ flushes (1024 * q + k) m
      /\ (forall i, 0 <= i < Z.of_nat m ->
            kmem st' (entry_at T (k + i))
            = with_pg_table_flags
                (pte_set_frame (kmem st (entry_at T (k + i))) (phy + i)) flags)
      /\ (forall x, (forall i, 0 <= i < Z.of_nat m -> x <> entry_at T (k + i)) ->
                    kmem st' x = kmem st x).
Proof.
  induction m as [|m IH];
    intros fuel n E T q k fl flags phy st Hmn Hfuel HT Hq Hk Hkn Hmax Hupd Hphy
           Hbound Hlimit;
    (destruct fuel as [|fuel]; [lia|]); cbn [mem_upd_vm_area_loop];
    unfold __pg_iter_has_next; cbn [it_pfn it_last_pfn];
    set (a := 1024 * q + k);
    (destruct (Z.ltb_spec a (a + Z.of_nat n)); [|lia]);
    assert (Hdiv : a / 1024 = q)
      by (symmetry; apply (Z.div_unique _ 1024 q k); unfold a; lia);
    assert (Hmod : a mod 1024 = k)
      by (symmetry; apply (Z.mod_unique _ 1024 q k); unfold a; lia);
    (erewrite bind_Ret
      by (apply pg_iter_next_inside;
          [unfold a; lia | lia | rewrite Hdiv; unfold a; lia | lia]));
    rewrite Hmod.
  - (* the frame is out of range *)
    assert (Hentry : mem_upd_vm_area_entry (mk_pg_iter_entry (entry_at T k) a)
                       flags phy st = Ret (inl (-1)) st).
    { unfold mem_upd_vm_area_entry. rewrite Hupd.
      destruct (Z.leb_spec MAX_PHY_PFN phy); [reflexivity | lia]. }
    erewrite bind_Ret by exact Hentry.
    exists st. split; [reflexivity|].
    split; [cbn; now rewrite app_nil_r|].
    split; [intros i Hi; lia | auto].
  - assert (He : entry_at T k <> 0) by (unfold entry_at; lia).
    destruct (mem_upd_vm_area_entry_mapped (entry_at T k) a flags phy st He Hupd
                ltac:(lia))
      as (s1 & Hrun & Hw1 & Hother1 & Htr1 & _).
    erewrite bind_Ret by exact Hrun.
    assert (Hwrap : wrap32 (phy + 1) = phy + 1)
      by (unfold wrap32; apply Z.mod_small; lia).
    rewrite Hwrap.
    destruct n as [|n]; [lia|].
    replace (a + Z.of_nat (S n)) with (1024 * q + (k + 1) + Z.of_nat n)
      by (unfold a; lia).
    replace (a + 1) with (1024 * q + (k + 1)) by (unfold a; lia).
    destruct (IH fuel n E T q (k + 1) fl flags (phy + 1) s1)
      as (st' & Hloop & Htr & Hmapped & Hother);
      try lia; try assumption.
    exists st'. split; [exact Hloop|].
    split.
    { rewrite Htr, Htr1, <- app_assoc. cbn [flushes app].
      replace (a + 1) with (1024 * q + (k + 1)) by (unfold a; lia).
      reflexivity. }
    split.
    { intros i Hi. destruct (Z.eq_dec i 0) as [-> | Hne].
      - rewrite !Z.add_0_r. rewrite Hother; [exact Hw1|].
        intros j Hj Heq. apply entry_at_inj in Heq. lia.
      - replace (k + i) with (k + 1 + (i - 1)) by lia.
        rewrite Hmapped by lia.
        rewrite Hother1
          by (intros Heq; apply entry_at_inj in Heq; lia).
        replace (phy + 1 + (i - 1)) with (phy + i) by lia. reflexivity. }
    intros x Hx. rewrite Hother.
    + apply Hother1. specialize (Hx 0 ltac:(lia)).
      rewrite Z.add_0_r in Hx. exact Hx.
    + intros i Hi. replace (k + 1 + i) with (k + (i + 1)) by lia.
      apply Hx. lia.
Qed.

(** X15. [mem_upd_vm_area] with [MM_UPDADDR], on a range whose pages lie in
    one page table, when the physical frames reach [MAX_PHY_PFN] before the
    end of the range: it returns -1, and what it did before is not undone.
    The pages whose frame is below the limit are mapped and their TLB
    entries flushed; the other entries are as they were. *)
Theorem mem_upd_vm_area_frame_limit (pgd virt phys size flags : Z)
    (it : page_iterator_t) (st st1 : kstate) :
  pgd <> 0 -> 0 <= virt < 2 ^ 32 ->
  __pg_iter_init iter0 pgd virt size flags st = Ret (0, it) st1 ->
  0 < it_table it ->
  let first := virt / PAGE_SIZE in
  let last := wrap32 (virt + size + PAGE_SIZE - 1) / PAGE_SIZE in
  let mapped := MAX_PHY_PFN - phys / PAGE_SIZE in
  last <= (first / 1024 + 1) * 1024 ->
  has_flag flags MM_UPDADDR = true ->
  0 <= phys -> 0 <= mapped < last - first -> MAX_PHY_PFN <= 2 ^ 20 ->
  exists st2,
    mem_upd_vm_area pgd virt phys size flags st = Ret (-1) st2
    /\ trace st2 = trace st1 ++ flushes first (Z.to_nat mapped)
    /\ (forall i, 0 <= i < mapped ->
          pte_frame (kmem st2 (entry_at (it_table it) (first mod 1024 + i)))
          = phys / PAGE_SIZE + i)
    /\ (forall x,
          (forall i, 0 <= i < mapped ->
                     x <> entry_at (it_table it) (first mod 1024 + i)) ->
          kmem st2 x = kmem st1 x).
Proof.
  intros Hpgd Hvirt Hinit HT first last mapped Hsame Hupd Hphys Hmapped Hlimit.
  destruct (pg_iter_init_spec _ _ _ _ _ _ _ _ Hvirt Hinit)
    as (HE & Hpfn & Hlast & Hfl & _).
  fold first in Hpfn. fold last in Hlast.
  unfold mem_upd_vm_area.
  destruct (Z.eqb_spec pgd 0) as [|_]; [lia|].
  erewrite bind_Ret by exact Hinit. cbv iota beta.
  change (0 <? 0) with false. cbv iota.
  destruct it as [E T a b fl]. cbn [it_table it_pfn it_last_pfn it_flags] in *.
  subst a b. unfold iter_fuel. cbn [it_pfn it_last_pfn].
  set (n := Z.to_nat (last - first)).
  assert (Hfirst : 0 <= first) by (apply Z.div_pos; unfold PAGE_SIZE; lia).
  pose proof (Z.div_mod first 1024 ltac:(lia)) as Hdm.
  pose proof (Z.mod_pos_bound first 1024 ltac:(lia)) as Hmod.
  pose proof (last_pfn_bound (virt + size + PAGE_SIZE - 1)) as Hlb.
  fold last in Hlb.
  assert (Hq : 0 <= first / 1024) by (apply Z.div_pos; lia).
  assert (Hphy0 : 0 <= phys / PAGE_SIZE)
    by (apply Z.div_pos; unfold PAGE_SIZE; lia).
  destruct (mem_upd_vm_area_loop_limit (Z.to_nat mapped) (S n) n E T
              (first / 1024) (first mod 1024) fl flags (phys / PAGE_SIZE) st1)
    as (st2 & Hloop & Htr & Hm & Hother);
    try assumption; try (unfold n, mapped in *; lia).
  replace (1024 * (first / 1024) + first mod 1024) with first in Hloop, Htr
    by lia.
  replace (first + Z.of_nat n) with last in Hloop by (unfold n; lia).
  exists st2. split; [exact Hloop|]. split; [exact Htr|].
  split.
  - intros i Hi. rewrite Hm by lia. apply frame_of_mapped. unfold mapped in *. lia.
  - intros x Hx. apply Hother. intros i Hi. apply Hx. lia.
Qed.

End PagingAreas.

(** * Cloning the entries of a range *)

Section CloneArea.
Import Paging.
Context `{flags_of : MemmapFlags} `{zone : ZoneAllocator}.

(** ** Pages *)

Lemma in_page_entry (p i : Z) : 0 <= i < 1024 -> in_page p (entry_at p i).
Proof. unfold in_page, entry_at, PAGE_SIZE. lia. Qed.

Lemma pages_apart (p p' x : Z) :
  page_aligned p -> page_aligned p' -> p <> p' -> in_page p x -> ~ in_page p' x.
Proof.
  unfold page_aligned, in_page, PAGE_SIZE.
  intros [_ Hp] [_ Hp'] Hne Hx Hx'.
  Z.div_mod_to_equations. lia.
Qed.

Lemma entry_in_page_ne (p p' i x : Z) :
  page_aligned p -> page_aligned p' -> p <> p' -> 0 <= i < 1024 ->
  in_page p' x -> x <> entry_at p i.
Proof.
  intros Hp Hp' Hne Hi Hx ->.
  apply (pages_apart p p' (entry_at p i)); auto. apply in_page_entry. exact Hi.
Qed.

Lemma entry_positive (p i : Z) :
  page_aligned p -> 0 <= i < 1024 ->
  0 < entry_at p i < 2 ^ 32 /\ Z.even (entry_at p i) = true.
Proof.
  unfold page_aligned, entry_at, PAGE_SIZE. intros [Hp Hm] Hi.
  split; [Z.div_mod_to_equations; lia|].
  rewrite Z.even_add.
  replace (4 * i) with (2 * (2 * i)) by lia. rewrite Z.even_mul. cbn [Z.even orb].
  assert (Hp2 : p = 2 * (2048 * (p / 4096))) by (Z.div_mod_to_equations; lia).
  rewrite Hp2, Z.even_mul. reflexivity.
Qed.

(** ** The page table of a directory entry *)

Lemma mem_pg_entry_alloc_slot (pgd q flags t : Z) (pool1 : list Z) (s : kstate) :
  entry_at pgd q <> 0 -> t <> 0 ->
  slot_table (kmem s) flags pgd q (pgtbl_pool s) = Some (t, pool1) ->
  exists s1,
    __mem_pg_entry_alloc (entry_at pgd q) flags s = Ret t s1
    /\ pgtbl_pool s1 = pool1 /\ trace s1 = trace s
    /\ forall a, a <> entry_at pgd q -> kmem s1 a = kmem s a.
Proof.
  intros He Ht Hslot. unfold slot_table in Hslot. cbv zeta in Hslot.
  unfold __mem_pg_entry_alloc.
  destruct (Z.eqb_spec (entry_at pgd q) 0) as [|_]; [contradiction|].
  erewrite bind_Ret by (apply load_ok; exact He).
  destruct (pde_present (kmem s (entry_at pgd q))) eqn:Hp; cbn [negb].
  - destruct (pde_global (kmem s (entry_at pgd q))
              && negb (has_flag flags MM_GLOBAL)) eqn:Hg; [discriminate|].
    inversion Hslot as [[Htab Hpool]]. clear Hslot.
    do 2 (erewrite bind_Ret by (apply update_ok; exact He)).
    erewrite bind_Ret by (apply load_ok; exact He).
    cbn [kmem set_kmem]. rewrite !upd_same.
    pose proof (pde_merged_word (kmem s (entry_at pgd q))
                  (has_flag flags MM_PRESENT) (has_flag flags MM_RW)
                  (has_flag flags MM_GLOBAL) (has_flag flags MM_USER)) as Hword.
    cbv zeta in Hword. destruct Hword as (Hg2 & _ & _ & _ & _ & Hf4).
    rewrite Hg2, Hg.
    do 2 (erewrite bind_Ret by (apply update_ok; exact He)).
    erewrite bind_Ret by (apply load_ok; exact He).
    cbn [kmem set_kmem]. rewrite !upd_same. rewrite Hf4.
    subst t. unfold table_of in *.
    destruct (get_page_from_physical_address _) as [page|]; [|contradiction].
    destruct (Z.eqb_spec (get_virtual_address_from_page page) 0) as [|_];
      [contradiction|].
    eexists. split; [reflexivity|].
    cbn [pgtbl_pool set_kmem kmem trace].
    split; [congruence|]. split; [reflexivity|].
    intros a Ha. rewrite !upd_other by exact Ha. reflexivity.
  - destruct (pgtbl_pool s) as [|t' ts] eqn:Hpool; [discriminate|].
    inversion Hslot; subst t' ts. clear Hslot.
    do 6 (erewrite bind_Ret by (apply update_ok; exact He)).
    unfold kmem_cache_alloc_pgtbl at 1. unfold bind at 1.
    cbn [pgtbl_pool set_kmem]. rewrite Hpool.
    destruct (Z.eqb_spec t 0) as [|_]; [contradiction|].
    eexists. split; [reflexivity|].
    cbn [pgtbl_pool set_pgtbl_pool set_kmem kmem trace].
    split; [reflexivity|]. split; [reflexivity|].
    intros a Ha. rewrite !upd_other by exact Ha. reflexivity.
Qed.

Lemma set_pg_entry_frame_only (entry table : Z) (s : kstate) :
  exists r s1,
    __set_pg_entry_frame entry table s = Ret r s1
    /\ pgtbl_pool s1 = pgtbl_pool s /\ trace s1 = trace s
    /\ forall a, a <> entry -> kmem s1 a = kmem s a.
Proof.
  unfold __set_pg_entry_frame.
  destruct (Z.eqb_spec entry 0) as [|He]; [eexists _, _; split; [reflexivity|auto]|].
  destruct (Z.eqb_spec table 0) as [|Ht]; [eexists _, _; split; [reflexivity|auto]|].
  destruct (get_page_from_virtual_address table) as [page|];
    [|eexists _, _; split; [reflexivity|auto]].
  destruct (Z.eqb_spec (get_physical_address_from_page page) 0) as [|Hphy];
    [eexists _, _; split; [reflexivity|auto]|].
  erewrite bind_Ret by (apply update_ok; exact He).
  eexists _, _. split; [reflexivity|].
  cbn [kmem set_kmem trace pgtbl_pool].
  split; [reflexivity|]. split; [reflexivity|].
  intros a Ha. apply upd_other. exact Ha.
Qed.

(** Entering a directory entry, as [__pg_iter_init] and [__pg_iter_next] do:
    the page table of the entry, then its frame. *)
Lemma enter_slot (pgd q flags t : Z) (pool1 : list Z) (s : kstate) :
  entry_at pgd q <> 0 -> t <> 0 ->
  slot_table (kmem s) flags pgd q (pgtbl_pool s) = Some (t, pool1) ->
  exists s1 r s2,
    __mem_pg_entry_alloc (entry_at pgd q) flags s = Ret t s1
    /\ __set_pg_entry_frame (entry_at pgd q) t s1 = Ret r s2
    /\ pgtbl_pool s2 = pool1 /\ trace s2 = trace s
    /\ forall a, a <> entry_at pgd q -> kmem s2 a = kmem s a.
Proof.
  intros He Ht Hslot.
  destruct (mem_pg_entry_alloc_slot pgd q flags t pool1 s He Ht Hslot)
    as (s1 & Hrun1 & Hp1 & Ht1 & Hm1).
  destruct (set_pg_entry_frame_only (entry_at pgd q) t s1)
    as (r & s2 & Hrun2 & Hp2 & Ht2 & Hm2).
  exists s1, r, s2. split; [exact Hrun1|]. split; [exact Hrun2|].
  split; [congruence|]. split; [congruence|].
  intros a Ha. rewrite Hm2 by exact Ha. apply Hm1. exact Ha.
Qed.

(** ** The page tables of a range *)

Lemma range_tables_ext (m m' : Z -> Z) (flags pgd : Z) (c : nat) :
  forall (q : Z) (pool : list Z),
    (forall i, 0 <= i < Z.of_nat c ->
               m' (entry_at pgd (q + i)) = m (entry_at pgd (q + i))) ->
    range_tables m' flags pgd q c pool = range_tables m flags pgd q c pool.
Proof.
  induction c as [|c IH]; intros q pool Hm; [reflexivity|].
  cbn [range_tables]. unfold slot_table.
  pose proof (Hm 0 ltac:(lia)) as H0. rewrite Z.add_0_r in H0. rewrite H0.
  assert (Hrest : forall pool,
             range_tables m' flags pgd (q + 1) c pool
             = range_tables m flags pgd (q + 1) c pool).
  { intros pool0. apply IH. intros i Hi.
    replace (q + 1 + i) with (q + (i + 1)) by lia. apply Hm. lia. }
  cbv zeta.
  destruct (pde_present (m (entry_at pgd q))).
  - destruct (pde_global (m (entry_at pgd q)) && negb (has_flag flags MM_GLOBAL));
      [reflexivity|]. now rewrite Hrest.
  - destruct pool as [|t pool]; [reflexivity|]. now rewrite Hrest.
Qed.

Lemma range_tables_length (m : Z -> Z) (flags pgd : Z) (c : nat) :
  forall (q : Z) (pool pool' ts : list Z),
    range_tables m flags pgd q c pool = Some (ts, pool') -> length ts = c.
Proof.
  induction c as [|c IH]; intros q pool pool' ts Hr; cbn [range_tables] in Hr.
  - inversion Hr. reflexivity.
  - destruct (slot_table m flags pgd q pool) as [[t pool1]|]; [|discriminate].
    destruct (range_tables m flags pgd (q + 1) c pool1) as [[ts1 pool2]|] eqn:Hrest;
      [|discriminate].
    inversion Hr; subst. cbn [length]. f_equal. eapply IH. exact Hrest.
Qed.

(** With an empty cache, the tables are those of present entries: they are
    the same whatever the cache holds, and the cache is left as it is. *)
Lemma slot_table_present (m : Z -> Z) (flags pgd q t : Z) (pool1 : list Z) :
  slot_table m flags pgd q [] = Some (t, pool1) ->
  forall pool, slot_table m flags pgd q pool = Some (t, pool).
Proof.
  unfold slot_table. cbv zeta. intros Hs pool.
  destruct (pde_present (m (entry_at pgd q))); [|discriminate].
  destruct (pde_global (m (entry_at pgd q)) && negb (has_flag flags MM_GLOBAL));
    [discriminate|].
  inversion Hs. reflexivity.
Qed.

Lemma slot_table_app (m : Z -> Z) (flags pgd q t : Z) (P P1 R : list Z) :
  slot_table m flags pgd q P = Some (t, P1) ->
  slot_table m flags pgd q (P ++ R) = Some (t, P1 ++ R)
  /\ (P = [] -> P1 = []).
Proof.
  unfold slot_table. cbv zeta. intros Hs.
  destruct (pde_present (m (entry_at pgd q))).
  - destruct (pde_global (m (entry_at pgd q)) && negb (has_flag flags MM_GLOBAL));
      [discriminate|].
    inversion Hs; subst. split; [reflexivity | auto].
  - destruct P as [|t' P]; [discriminate|].
    inversion Hs; subst. split; [reflexivity | discriminate].
Qed.

(** ** Pages and directory entries *)

Lemma div_step_cross (a : Z) :
  0 <= a -> (a + 1) mod 1024 = 0 -> (a + 1) / 1024 = a / 1024 + 1.
Proof. intros Ha Hm. Z.div_mod_to_equations. lia. Qed.

Lemma div_step_same (a : Z) :
  0 <= a -> (a + 1) mod 1024 <> 0 -> (a + 1) / 1024 = a / 1024.
Proof. intros Ha Hm. Z.div_mod_to_equations. lia. Qed.

Lemma nth_drop_cons (l : list Z) (k : nat) :
  (k < length l)%nat -> drop k l = nth k l 0 :: drop (S k) l.
Proof.
  revert k. induction l as [|x l IH]; intros k Hk; cbn in Hk; [lia|].
  destruct k as [|k]; [reflexivity|]. cbn. apply IH. lia.
Qed.

(** ** One turn of an iterator along the page tables of its range

    The iterator is on the page [f + j] of the [n] pages from [f] on, whose
    page tables are [tables]; [P] holds the page tables the cache will give
    for the directory entries that are not present, and [R] the rest of the
    cache. *)
Lemma pg_iter_next_walk (pgd flags f n : Z) (tables : list Z) (j E T : Z)
    (P R P' : list Z) (s : kstate) :
  page_aligned pgd -> Forall page_aligned tables ->
  0 <= f -> 0 <= j < n -> f + n <= 2 ^ 20 ->
  Z.of_nat (length tables) = (f + n - 1) / 1024 - f / 1024 + 1 ->
  E = entry_at pgd ((f + j) / 1024) ->
  T = nth (table_index f j) tables 0 ->
  pgtbl_pool s = P ++ R ->
  range_tables (kmem s) flags pgd ((f + j) / 1024 + 1)
    (length (drop (S (table_index f j)) tables)) P
  = Some (drop (S (table_index f j)) tables, P') ->
  exists E1 T1 P1 s1,
    __pg_iter_next (mk_page_iterator E T (f + j) (f + n) flags) s
    = Ret (mk_pg_iter_entry (leaf tables f j) (f + j),
           mk_page_iterator E1 T1 (f + j + 1) (f + n) flags) s1
    /\ trace s1 = trace s
    /\ pgtbl_pool s1 = P1 ++ R
    /\ (P = [] -> P1 = [])
    /\ (forall x, ~ in_page pgd x -> kmem s1 x = kmem s x)
    /\ (forall i, (f + j) / 1024 + 1 < i ->
                  kmem s1 (entry_at pgd i) = kmem s (entry_at pgd i))
    /\ (j + 1 = n -> P1 = P')
    /\ (j + 1 < n ->
        E1 = entry_at pgd ((f + j + 1) / 1024)
        /\ T1 = nth (table_index f (j + 1)) tables 0
        /\ range_tables (kmem s1) flags pgd ((f + j + 1) / 1024 + 1)
             (length (drop (S (table_index f (j + 1))) tables)) P1
           = Some (drop (S (table_index f (j + 1))) tables, P')).
Proof.
  intros Hpgd Htabs Hf Hj Hmax Hlen HE HT Hpool Hready.
  unfold __pg_iter_next. cbn [it_pfn it_table it_entry it_last_pfn it_flags].
  assert (Hw : wrap32 (f + j + 1) = f + j + 1)
    by (unfold wrap32; apply Z.mod_small; lia).
  rewrite Hw.
  assert (Hleaf : entry_at T ((f + j) mod 1024) = leaf tables f j)
    by (unfold leaf; rewrite HT; reflexivity).
  rewrite Hleaf.
  assert (Hq0 : 0 <= f / 1024) by (apply Z.div_pos; lia).
  assert (Hmono : f / 1024 <= (f + j) / 1024)
    by (apply Z.div_le_mono; lia).
  assert (Hlast : (f + j) / 1024 <= (f + n - 1) / 1024)
    by (apply Z.div_le_mono; lia).
  assert (Hidx : (f + n - 1) / 1024 < 1024)
    by (apply Z.div_lt_upper_bound; lia).
  destruct (Z.eqb_spec ((f + j + 1) mod 1024) 0) as [Hz | Hnz];
    [destruct (Z.eqb_spec (f + j + 1) (f + n)) as [Hend | Hmore]|];
    cbn [andb negb].
  - (* the last page of the range ends a page table *)
    exists E, T, P, s. split; [reflexivity|]. split; [reflexivity|].
    split; [exact Hpool|]. split; [auto|]. split; [auto|]. split; [auto|].
    split; [|intros; lia].
    intros _.
    assert (Hk : S (table_index f j) = length tables).
    { unfold table_index. replace (f + j) with (f + n - 1) by lia. lia. }
    rewrite Hk, drop_all in Hready. cbn in Hready. now inversion Hready.
  - (* the next page is in the next page table *)
    pose proof (div_step_cross (f + j) ltac:(lia) Hz) as Hdiv.
    assert (Hnext : (f + j + 1) / 1024 <= (f + n - 1) / 1024)
      by (apply Z.div_le_mono; lia).
    assert (Hk1 : table_index f (j + 1) = S (table_index f j)).
    { unfold table_index. replace (f + (j + 1)) with (f + j + 1) by lia.
      rewrite Hdiv. lia. }
    assert (Hlt : (S (table_index f j) < length tables)%nat).
    { unfold table_index. lia. }
    rewrite (nth_drop_cons tables _ Hlt) in Hready.
    cbn [length range_tables] in Hready.
    destruct (slot_table (kmem s) flags pgd ((f + j) / 1024 + 1) P)
      as [[t P1]|] eqn:Hslot; [|discriminate].
    destruct (range_tables (kmem s) flags pgd ((f + j) / 1024 + 1 + 1)
                (length (drop (S (S (table_index f j))) tables)) P1)
      as [[ts P2]|] eqn:Hrest; [|discriminate].
    inversion Hready as [[Ht Hts HP2]]. clear Hready. subst P2.
    destruct (slot_table_app _ _ _ _ _ _ _ R Hslot) as (Hslot' & Hnil).
    rewrite <- Hpool in Hslot'.
    assert (Hpage : page_aligned t).
    { rewrite Ht. rewrite Forall_forall in Htabs. apply Htabs.
      apply list_elem_of_In. apply nth_In. exact Hlt. }
    assert (Hent : wrap32 (E + 4) = entry_at pgd ((f + j) / 1024 + 1)).
    { rewrite HE. unfold entry_at, wrap32. destruct Hpgd as [Hp Hm].
      unfold PAGE_SIZE in Hm.
      rewrite Z.mod_small by (Z.div_mod_to_equations; lia). lia. }
    rewrite Hent.
    assert (Hoff : entry_at pgd ((f + j) / 1024 + 1) mod 4096 <> 0).
    { unfold entry_at. destruct Hpgd as [Hp Hm]. unfold PAGE_SIZE in Hm.
      Z.div_mod_to_equations. lia. }
    destruct (Z.eqb_spec (entry_at pgd ((f + j) / 1024 + 1) mod 4096) 0)
      as [|_]; [contradiction|].
    cbn [negb].
    assert (He : entry_at pgd ((f + j) / 1024 + 1) <> 0).
    { intros H0. rewrite H0 in Hoff. apply Hoff. reflexivity. }
    destruct (enter_slot pgd ((f + j) / 1024 + 1) flags t (P1 ++ R) s He
                ltac:(destruct Hpage; lia) Hslot')
      as (s1 & r & s2 & Hrun1 & Hrun2 & Hp2 & Ht2 & Hm2).
    erewrite bind_Ret by exact Hrun1.
    destruct (Z.eqb_spec t 0) as [Ht0|_]; [destruct Hpage; lia|].
    erewrite bind_Ret by exact Hrun2.
    exists (entry_at pgd ((f + j) / 1024 + 1)), t, P1, s2.
    split; [reflexivity|]. split; [exact Ht2|]. split; [exact Hp2|].
    split; [exact Hnil|].
    split.
    { intros x Hx. apply Hm2. intros ->. apply Hx. apply in_page_entry. lia. }
    split.
    { intros i Hi. apply Hm2. unfold entry_at. lia. }
    split; [intros; lia|].
    intros _. rewrite Hdiv, Hk1. split; [reflexivity|].
    split; [exact Ht|].
    rewrite Hts in Hrest.
    rewrite <- Hrest. apply range_tables_ext.
    intros i Hi. apply Hm2. unfold entry_at. lia.
  - (* the next page is in the same page table *)
    exists E, T, P, s. split; [reflexivity|]. split; [reflexivity|].
    split; [exact Hpool|]. split; [auto|]. split; [auto|]. split; [auto|].
    pose proof (div_step_same (f + j) ltac:(lia) Hnz) as Hdiv.
    assert (Hk1 : table_index f (j + 1) = table_index f j).
    { unfold table_index. replace (f + (j + 1)) with (f + j + 1) by lia.
      rewrite Hdiv. reflexivity. }
    split.
    { intros Hend.
      assert (Hk : S (table_index f j) = length tables).
      { unfold table_index. replace (f + n - 1) with (f + j) in Hlen by lia. lia. }
      rewrite Hk, drop_all in Hready. cbn in Hready. now inversion Hready. }
    intros _. rewrite Hdiv, Hk1. auto.
Qed.

(** ** The leaf entries of a range *)

Lemma lookup_nth_Z (l : list Z) (k : nat) :
  (k < length l)%nat -> l !! k = Some (nth k l 0).
Proof.
  revert k. induction l as [|x l IH]; intros k Hk; cbn in Hk; [lia|].
  destruct k as [|k]; [reflexivity|]. cbn. apply IH. lia.
Qed.

Lemma leaf_in_table (tables : list Z) (f n j : Z) :
  0 <= f -> 0 <= j < n ->
  Z.of_nat (length tables) = (f + n - 1) / 1024 - f / 1024 + 1 ->
  (table_index f j < length tables)%nat
  /\ leaf tables f j
     = entry_at (nth (table_index f j) tables 0) ((f + j) mod 1024)
  /\ 0 <= (f + j) mod 1024 < 1024.
Proof.
  intros Hf Hj Hlen.
  assert (Hmono : f / 1024 <= (f + j) / 1024) by (apply Z.div_le_mono; lia).
  assert (Hlast : (f + j) / 1024 <= (f + n - 1) / 1024)
    by (apply Z.div_le_mono; lia).
  split; [unfold table_index; lia|]. split; [reflexivity|].
  apply Z.mod_pos_bound. lia.
Qed.

Lemma leaf_page (tables : list Z) (f n j : Z) :
  Forall page_aligned tables ->
  0 <= f -> 0 <= j < n ->
  Z.of_nat (length tables) = (f + n - 1) / 1024 - f / 1024 + 1 ->
  exists t, t ∈ tables /\ page_aligned t /\ in_page t (leaf tables f j)
            /\ 0 < leaf tables f j < 2 ^ 32
            /\ Z.even (leaf tables f j) = true.
Proof.
  intros Htabs Hf Hj Hlen.
  destruct (leaf_in_table tables f n j Hf Hj Hlen) as (Hlt & Heq & Hi).
  exists (nth (table_index f j) tables 0).
  assert (Hin : nth (table_index f j) tables 0 ∈ tables)
    by (apply list_elem_of_In, nth_In; exact Hlt).
  assert (Hpage : page_aligned (nth (table_index f j) tables 0))
    by (rewrite Forall_forall in Htabs; apply Htabs; exact Hin).
  split; [exact Hin|]. split; [exact Hpage|].
  rewrite Heq. split; [apply in_page_entry; exact Hi|].
  apply entry_positive; assumption.
Qed.

Lemma leaf_not_in_page (tables : list Z) (f n j p : Z) :
  Forall page_aligned tables -> page_aligned p -> p ∉ tables ->
  0 <= f -> 0 <= j < n ->
  Z.of_nat (length tables) = (f + n - 1) / 1024 - f / 1024 + 1 ->
  ~ in_page p (leaf tables f j).
Proof.
  intros Htabs Hp Hnot Hf Hj Hlen.
  destruct (leaf_page tables f n j Htabs Hf Hj Hlen) as (t & Hin & Ht & Hx & _).
  apply (pages_apart t p); try assumption. intros ->. contradiction.
Qed.

Lemma leaf_inj (tables : list Z) (f n j j' : Z) :
  Forall page_aligned tables -> NoDup tables ->
  0 <= f -> 0 <= j < n -> 0 <= j' < n ->
  Z.of_nat (length tables) = (f + n - 1) / 1024 - f / 1024 + 1 ->
  leaf tables f j = leaf tables f j' -> j = j'.
Proof.
  intros Htabs Hnd Hf Hj Hj' Hlen Heq.
  destruct (leaf_in_table tables f n j Hf Hj Hlen) as (Hlt & Hl & Hi).
  destruct (leaf_in_table tables f n j' Hf Hj' Hlen) as (Hlt' & Hl' & Hi').
  rewrite Hl, Hl' in Heq.
  set (t := nth (table_index f j) tables 0) in *.
  set (t' := nth (table_index f j') tables 0) in *.
  assert (Hin : t ∈ tables) by (apply list_elem_of_In, nth_In; exact Hlt).
  assert (Hin' : t' ∈ tables) by (apply list_elem_of_In, nth_In; exact Hlt').
  rewrite Forall_forall in Htabs.
  pose proof (Htabs t Hin) as Hp. pose proof (Htabs t' Hin') as Hp'.
  assert (Htt : t = t').
  { destruct (Z.eq_dec t t') as [|Hne]; [assumption|]. exfalso.
    apply (pages_apart t t' (entry_at t ((f + j) mod 1024))); try assumption.
    - apply in_page_entry. exact Hi.
    - rewrite Heq. apply in_page_entry. exact Hi'. }
  assert (Hidx : table_index f j = table_index f j').
  { apply (NoDup_lookup tables _ _ t Hnd).
    - unfold t. apply lookup_nth_Z. exact Hlt.
    - rewrite Htt. unfold t'. apply lookup_nth_Z. exact Hlt'. }
  rewrite Htt in Heq. apply entry_at_inj in Heq.
  unfold table_index in Hidx.
  assert (Hmono : f / 1024 <= (f + j) / 1024) by (apply Z.div_le_mono; lia).
  assert (Hmono' : f / 1024 <= (f + j') / 1024) by (apply Z.div_le_mono; lia).
  assert (Hq : (f + j) / 1024 = (f + j') / 1024) by lia.
  pose proof (Z.div_mod (f + j) 1024 ltac:(lia)).
  pose proof (Z.div_mod (f + j') 1024 ltac:(lia)). lia.
Qed.

(** ** The loop of [mem_clone_vm_area] *)

Section Walk.
Variables (src_pgd dst_pgd flags fs fd n : Z) (TS TD : list Z).
Hypothesis Hlayout : clone_layout src_pgd dst_pgd TS TD.
Hypothesis Hfs : 0 <= fs.
Hypothesis Hfd : 0 <= fd.
Hypothesis Hmaxs : fs + n <= 2 ^ 20.
Hypothesis Hmaxd : fd + n <= 2 ^ 20.
Hypothesis HlenS : Z.of_nat (length TS) = (fs + n - 1) / 1024 - fs / 1024 + 1.
Hypothesis HlenD : Z.of_nat (length TD) = (fd + n - 1) / 1024 - fd / 1024 + 1.

(** The page tables of the directory entries that follow the one of the
    page [f + j] are ready in the memory [m]. *)
#[local] Abbreviation ready m pgd f tables j P P' :=
  (range_tables m flags pgd ((f + j) / 1024 + 1)
     (length (drop (S (table_index f j)) tables)) P
   = Some (drop (S (table_index f j)) tables, P')).

Lemma layout_facts :
  page_aligned src_pgd /\ page_aligned dst_pgd
  /\ Forall page_aligned TS /\ Forall page_aligned TD
  /\ src_pgd <> dst_pgd /\ NoDup TD
  /\ (src_pgd ∉ TS) /\ (dst_pgd ∉ TS) /\ (src_pgd ∉ TD) /\ (dst_pgd ∉ TD)
  /\ (forall t, t ∈ TD -> t ∉ TS).
Proof.
  destruct Hlayout as (Hall & Hne & Hnd & Hdir & Hsep).
  inversion Hall as [|? ? Hs Hall1]; subst.
  inversion Hall1 as [|? ? Hd Hall2]; subst.
  apply Forall_app in Hall2 as [HS HD].
  do 6 (split; [assumption|]).
  split; [|split; [|split; [|split; [|assumption]]]].
  - intros Hin. destruct (Hdir src_pgd) as [H1 _]; [|congruence].
    apply elem_of_app. left. exact Hin.
  - intros Hin. destruct (Hdir dst_pgd) as [_ H1]; [|congruence].
    apply elem_of_app. left. exact Hin.
  - intros Hin. destruct (Hdir src_pgd) as [H1 _]; [|congruence].
    apply elem_of_app. right. exact Hin.
  - intros Hin. destruct (Hdir dst_pgd) as [_ H1]; [|congruence].
    apply elem_of_app. right. exact Hin.
Qed.

Lemma ready_ext (pgd f : Z) (tables : list Z) (j : Z) (P : list Z)
    (m m' : Z -> Z) :
  0 <= f -> 0 <= j < n -> f + n <= 2 ^ 20 ->
  Z.of_nat (length tables) = (f + n - 1) / 1024 - f / 1024 + 1 ->
  (forall x, in_page pgd x -> m' x = m x) ->
  range_tables m' flags pgd ((f + j) / 1024 + 1)
    (length (drop (S (table_index f j)) tables)) P
  = range_tables m flags pgd ((f + j) / 1024 + 1)
      (length (drop (S (table_index f j)) tables)) P.
Proof.
  intros Hf Hj Hmax Hlen Hm. apply range_tables_ext.
  intros i Hi. apply Hm. apply in_page_entry.
  rewrite length_drop in Hi.
  assert (Hq0 : 0 <= f / 1024) by (apply Z.div_pos; lia).
  assert (Hmono : f / 1024 <= (f + j) / 1024) by (apply Z.div_le_mono; lia).
  assert (Hlast : (f + j) / 1024 <= (f + n - 1) / 1024)
    by (apply Z.div_le_mono; lia).
  assert (Hidx : (f + n - 1) / 1024 < 1024)
    by (apply Z.div_lt_upper_bound; lia).
  unfold table_index in Hi. lia.
Qed.

Lemma mem_clone_vm_area_loop_walk (r : nat) :
  forall (fuel : nat) (j Es Ts Ed Td : Z) (pool' : list Z) (s : kstate),
    (r < fuel)%nat -> 0 <= j -> j + Z.of_nat r = n ->
    ((0 < r)%nat ->
     Es = entry_at src_pgd ((fs + j) / 1024)
     /\ Ts = nth (table_index fs j) TS 0
     /\ ready (kmem s) src_pgd fs TS j [] []
     /\ Ed = entry_at dst_pgd ((fd + j) / 1024)
     /\ Td = nth (table_index fd j) TD 0
     /\ ready (kmem s) dst_pgd fd TD j (pgtbl_pool s) pool') ->
    (r = 0%nat -> pgtbl_pool s = pool') ->
    exists s',
      mem_clone_vm_area_loop fuel
        (mk_page_iterator Es Ts (fs + j) (fs + n) flags)
        (mk_page_iterator Ed Td (fd + j) (fd + n) flags) flags s
      = Ret 0 s'
      /\ trace s' = trace s ++ flushes (fd + j) r
      /\ pgtbl_pool s' = pool'
      /\ (forall i, j <= i < n ->
            entry_cloned flags (leaf TS fs i) (kmem s (leaf TS fs i))
                         (kmem s' (leaf TD fd i)))
      /\ (forall x, ~ in_page src_pgd x -> ~ in_page dst_pgd x ->
                    (forall i, j <= i < n -> x <> leaf TD fd i) ->
                    kmem s' x = kmem s x).
Proof.
  destruct layout_facts
    as (Hsp & Hdp & HTS & HTD & Hne & Hnd & HsS & HdS & HsD & HdD & Hsep).
  induction r as [|r IH];
    intros fuel j Es Ts Ed Td pool' s Hfuel Hj Hjr Hgo Hstop;
    (destruct fuel as [|fuel]; [lia|]); cbn [mem_clone_vm_area_loop];
    unfold __pg_iter_has_next; cbn [it_pfn it_last_pfn].
  - destruct (Z.ltb_spec (fs + j) (fs + n)) as [|_]; [lia|]. cbn [andb].
    exists s. split; [reflexivity|].
    split; [cbn; now rewrite app_nil_r|].
    split; [auto|]. split; [intros i Hi; lia | auto].
  - destruct (Z.ltb_spec (fs + j) (fs + n)) as [_|]; [|lia].
    destruct (Z.ltb_spec (fd + j) (fd + n)) as [_|]; [|lia]. cbn [andb].
    destruct (Hgo ltac:(lia)) as (HEs & HTs & Hrs & HEd & HTd & Hrd).
    assert (Hjn : 0 <= j < n) by lia.
    (* the source iterator *)
    destruct (pg_iter_next_walk src_pgd flags fs n TS j Es Ts [] (pgtbl_pool s)
                [] s Hsp HTS Hfs Hjn Hmaxs HlenS HEs HTs eq_refl Hrs)
      as (E1 & T1 & P1 & s1 & Hrun1 & Htr1 & Hp1 & Hnil1 & Hm1 & _ & _ & Hnext1).
    assert (HP1 : P1 = []) by (apply Hnil1; reflexivity). subst P1.
    cbn [app] in Hp1.
    erewrite bind_Ret by exact Hrun1. cbv beta iota.
    assert (Hrd1 : ready (kmem s1) dst_pgd fd TD j (pgtbl_pool s1) pool').
    { rewrite Hp1. rewrite <- Hrd. apply ready_ext; try assumption.
      intros x Hx. apply Hm1. apply (pages_apart dst_pgd src_pgd); auto. }
    (* the destination iterator *)
    destruct (pg_iter_next_walk dst_pgd flags fd n TD j Ed Td (pgtbl_pool s1) []
                pool' s1 Hdp HTD Hfd Hjn Hmaxd HlenD HEd HTd
                (eq_sym (app_nil_r _)) Hrd1)
      as (E2 & T2 & P2 & s2 & Hrun2 & Htr2 & Hp2 & _ & Hm2 & _ & Hlast2 & Hnext2).
    rewrite app_nil_r in Hp2.
    erewrite bind_Ret by exact Hrun2. cbv beta iota.
    (* the two entries *)
    destruct (leaf_page TS fs n j HTS Hfs Hjn HlenS)
      as (ts & Hts_in & Hts_page & Hts_leaf & Hsrc_pos & Hsrc_even).
    destruct (leaf_page TD fd n j HTD Hfd Hjn HlenD)
      as (td & Htd_in & Htd_page & Htd_leaf & Hdst_pos & _).
    destruct (mem_clone_vm_area_entry_ok
                (mk_pg_iter_entry (leaf TS fs j) (fs + j))
                (mk_pg_iter_entry (leaf TD fd j) (fd + j)) flags s2)
      as (s3 & Hrun3 & Htr3 & Hp3 & Hm3 & Hword);
      [cbn; lia | cbn; lia |].
    cbn [ie_entry ie_pfn] in Htr3, Hm3, Hword. cbv zeta in Hword.
    erewrite bind_Ret by exact Hrun3.
    (* what the turn changed *)
    assert (Hdir3 : forall x, in_page src_pgd x \/ in_page dst_pgd x ->
                              kmem s3 x = kmem s2 x).
    { intros x Hx. apply Hm3. intros ->.
      destruct Hx as [Hx | Hx].
      - apply (leaf_not_in_page TD fd n j src_pgd); assumption.
      - apply (leaf_not_in_page TD fd n j dst_pgd); assumption. }
    assert (Hturn : forall x, ~ in_page src_pgd x -> ~ in_page dst_pgd x ->
                              x <> leaf TD fd j -> kmem s3 x = kmem s x).
    { intros x Hxs Hxd Hxl. rewrite Hm3 by exact Hxl.
      rewrite Hm2 by exact Hxd. apply Hm1. exact Hxs. }
    assert (Hsrc_same : forall i, 0 <= i < n ->
                                  kmem s3 (leaf TS fs i) = kmem s (leaf TS fs i)).
    { intros i Hi. apply Hturn.
      - apply (leaf_not_in_page TS fs n i src_pgd); assumption.
      - apply (leaf_not_in_page TS fs n i dst_pgd); assumption.
      - intros Heq.
        destruct (leaf_page TS fs n i HTS Hfs Hi HlenS)
          as (t & Ht_in & Ht_page & Ht_leaf & _).
        rewrite Heq in Ht_leaf.
        apply (pages_apart td t (leaf TD fd j)); try assumption.
        intros ->. apply (Hsep t); assumption. }
    (* the turns that follow *)
    destruct (IH fuel (j + 1) E1 T1 E2 T2 pool' s3) as
      (s' & Hloop & Htr & Hpool & Hcloned & Hframe); try lia.
    { intros Hr. destruct (Hnext1 ltac:(lia)) as (HE1 & HT1 & Hrs1).
      destruct (Hnext2 ltac:(lia)) as (HE2 & HT2 & Hrd2).
      replace (fs + j + 1) with (fs + (j + 1)) in HE1, Hrs1 by lia.
      replace (fd + j + 1) with (fd + (j + 1)) in HE2, Hrd2 by lia.
      split; [exact HE1|]. split; [exact HT1|].
      split.
      { rewrite <- Hrs1.
        rewrite (ready_ext src_pgd fs TS (j + 1) [] (kmem s2) (kmem s3));
          try assumption; try lia; [|intros x Hx; apply Hdir3; auto].
        apply ready_ext; try assumption; try lia.
        intros x Hx. apply Hm2. apply (pages_apart src_pgd dst_pgd); auto. }
      split; [exact HE2|]. split; [exact HT2|].
      rewrite Hp3, Hp2. rewrite <- Hrd2.
      apply ready_ext; try assumption; try lia.
      intros x Hx. apply Hdir3. auto. }
    { intros Hr. rewrite Hp3, Hp2. apply Hlast2. lia. }
    replace (fs + (j + 1)) with (fs + j + 1) in Hloop by lia.
    replace (fd + (j + 1)) with (fd + j + 1) in Hloop, Htr by lia.
    exists s'. split; [exact Hloop|].
    split.
    { rewrite Htr, Htr3, Htr2, Htr1, <- app_assoc. reflexivity. }
    split; [exact Hpool|].
    assert (Hkept : kmem s' (leaf TD fd j) = kmem s3 (leaf TD fd j)).
    { apply Hframe.
      - apply (leaf_not_in_page TD fd n j src_pgd); assumption.
      - apply (leaf_not_in_page TD fd n j dst_pgd); assumption.
      - intros i Hi Heq.
        apply (leaf_inj TD fd n j i) in Heq; try assumption; lia. }
    split.
    + intros i Hi. destruct (Z.eq_dec i j) as [-> | Hij].
      * rewrite Hkept. unfold entry_cloned.
        assert (Hs2 : kmem s2 (leaf TS fs j) = kmem s (leaf TS fs j)).
        { rewrite Hm2; [apply Hm1|].
          - apply (leaf_not_in_page TS fs n j src_pgd); assumption.
          - apply (leaf_not_in_page TS fs n j dst_pgd); assumption. }
        rewrite Hs2 in Hword.
        destruct (pte_kernel_cow (kmem s (leaf TS fs j))).
        -- destruct Hword as (_ & Heven & Hnp). split; [auto | exact Hnp].
        -- exact Hword.
      * specialize (Hcloned i ltac:(lia)).
        rewrite Hsrc_same in Hcloned by lia. exact Hcloned.
    + intros x Hxs Hxd Hxl. rewrite Hframe; try assumption.
      * apply Hturn; try assumption. apply Hxl. lia.
      * intros i Hi. apply Hxl. lia.
Qed.

End Walk.

(** ** Setting up an iterator *)

Lemma table_index_0 (f : Z) : table_index f 0 = 0%nat.
Proof. unfold table_index. rewrite Z.add_0_r. lia. Qed.

Lemma pg_iter_init_walk (pgd flags start size f n : Z) (tables : list Z)
    (P R P' : list Z) (s : kstate) :
  page_aligned pgd -> Forall page_aligned tables ->
  0 <= start -> start + size + PAGE_SIZE - 1 < 2 ^ 32 ->
  f = start / PAGE_SIZE ->
  n = (start + size + PAGE_SIZE - 1) / PAGE_SIZE - f -> 0 < n ->
  pgtbl_pool s = P ++ R ->
  range_tables (kmem s) flags pgd (f / 1024) (tables_count f n) P
  = Some (tables, P') ->
  exists P1 s1,
    __pg_iter_init iter0 pgd start size flags s
    = Ret (0, mk_page_iterator (entry_at pgd (f / 1024)) (nth 0 tables 0)
                f (f + n) flags) s1
    /\ trace s1 = trace s
    /\ pgtbl_pool s1 = P1 ++ R
    /\ (P = [] -> P1 = [])
    /\ (forall x, ~ in_page pgd x -> kmem s1 x = kmem s x)
    /\ Z.of_nat (length tables) = (f + n - 1) / 1024 - f / 1024 + 1
    /\ range_tables (kmem s1) flags pgd (f / 1024 + 1)
         (length (drop 1 tables)) P1
       = Some (drop 1 tables, P').
Proof.
  intros Hpgd Htabs Hstart Hwrap Hf Hn Hpos Hpool Hready.
  subst n f.
  set (f := start / PAGE_SIZE) in *.
  set (n := (start + size + PAGE_SIZE - 1) / PAGE_SIZE - f) in *.
  assert (Hf0 : 0 <= f) by (apply Z.div_pos; unfold PAGE_SIZE; lia).
  assert (Hmax : f + n <= 2 ^ 20).
  { unfold n. replace (f + ((start + size + PAGE_SIZE - 1) / PAGE_SIZE - f))
      with ((start + size + PAGE_SIZE - 1) / PAGE_SIZE) by lia.
    apply Z.lt_le_incl. apply Z.div_lt_upper_bound; unfold PAGE_SIZE in *; lia. }
  assert (Hq0 : 0 <= f / 1024) by (apply Z.div_pos; lia).
  assert (Hlast : f / 1024 <= (f + n - 1) / 1024)
    by (apply Z.div_le_mono; lia).
  assert (Hidx : (f + n - 1) / 1024 < 1024)
    by (apply Z.div_lt_upper_bound; lia).
  pose proof (range_tables_length _ _ _ _ _ _ _ _ Hready) as Hlen.
  unfold tables_count in Hlen, Hready.
  destruct tables as [|t tables]; [cbn in Hlen; lia|].
  replace (Z.to_nat ((f + n - 1) / 1024 - f / 1024 + 1))
    with (S (length tables)) in Hready by (cbn in Hlen; lia).
  cbn [range_tables] in Hready.
  destruct (slot_table (kmem s) flags pgd (f / 1024) P)
    as [[t0 P1]|] eqn:Hslot; [|discriminate].
  destruct (range_tables (kmem s) flags pgd (f / 1024 + 1) (length tables) P1)
    as [[ts P2]|] eqn:Hrest; [|discriminate].
  inversion Hready; subst t0 ts P2. clear Hready.
  destruct (slot_table_app _ _ _ _ _ _ _ R Hslot) as (Hslot' & Hnil).
  rewrite <- Hpool in Hslot'.
  assert (Hpage : page_aligned t) by (inversion Htabs; assumption).
  assert (He : entry_at pgd (f / 1024) <> 0).
  { destruct (entry_positive pgd (f / 1024) Hpgd ltac:(lia)) as [? _]. lia. }
  destruct (enter_slot pgd (f / 1024) flags t (P1 ++ R) s He
              ltac:(destruct Hpage; lia) Hslot')
    as (s1 & r & s2 & Hrun1 & Hrun2 & Hp2 & Ht2 & Hm2).
  unfold __pg_iter_init. cbv zeta. fold f.
  destruct (Z.leb_spec MAX_PAGE_TABLE_ENTRIES (f / 1024)) as [Hbad|_];
    [unfold MAX_PAGE_TABLE_ENTRIES in Hbad; lia|].
  erewrite bind_Ret by exact Hrun1.
  destruct (Z.eqb_spec t 0) as [Ht0|_]; [destruct Hpage; lia|].
  erewrite bind_Ret by exact Hrun2.
  assert (Hend : wrap32 (start + size + PAGE_SIZE - 1) / PAGE_SIZE = f + n).
  { assert (Hsum : 0 <= start + size + PAGE_SIZE - 1).
    { unfold n, f, PAGE_SIZE in Hpos. unfold PAGE_SIZE.
      Z.div_mod_to_equations. lia. }
    unfold wrap32. rewrite Z.mod_small by (unfold PAGE_SIZE in *; lia).
    unfold n. lia. }
  rewrite Hend.
  exists P1, s2. split; [reflexivity|]. split; [exact Ht2|].
  split; [exact Hp2|]. split; [exact Hnil|].
  split.
  { intros x Hx. apply Hm2. intros ->. apply Hx. apply in_page_entry. lia. }
  split; [cbn [length] in *; lia|].
  change (drop 1 (t :: tables)) with tables.
  rewrite <- Hrest. apply range_tables_ext.
  intros i Hi. apply Hm2. unfold entry_at. lia.
Qed.

(** C3, as the code has it.  [mem_clone_vm_area] on two page directories and
    a range of [size] bytes that does not wrap around the 32-bit address
    space and starts at the same offset of a page in the source and in the
    destination.  The two directories and the page tables of the range are
    pages apart from one another; the source directory has the page tables
    of the range, and the destination directory has them or gets them from
    the cache.  The function returns 0.  For every page of the range, the
    source leaf entry is as it was, and when it is copy-on-write the
    destination leaf entry holds the address of the source entry and is not
    present; otherwise the destination leaf entry has the frame number of
    the source entry and the flag bits that [flags] gives.  The TLB is
    flushed for every destination page, in order, and no entry other than
    the destination leaf entries of the range changes outside the two
    directories. *)
Theorem mem_clone_vm_area_spec
    (src_pgd dst_pgd src_start dst_start size flags : Z)
    (src_tables dst_tables pool' : list Z) (st : kstate) :
  let first_src := src_start / PAGE_SIZE in
  let first_dst := dst_start / PAGE_SIZE in
  let n := (src_start + size + PAGE_SIZE - 1) / PAGE_SIZE - first_src in
  0 <= src_start -> 0 <= dst_start -> 0 < size ->
  src_start + size + PAGE_SIZE - 1 < 2 ^ 32 ->
  dst_start + size + PAGE_SIZE - 1 < 2 ^ 32 ->
  src_start mod PAGE_SIZE = dst_start mod PAGE_SIZE ->
  clone_layout src_pgd dst_pgd src_tables dst_tables ->
  range_tables (kmem st) flags src_pgd (first_src / 1024)
    (tables_count first_src n) []
  = Some (src_tables, []) ->
  range_tables (kmem st) flags dst_pgd (first_dst / 1024)
    (tables_count first_dst n) (pgtbl_pool st)
  = Some (dst_tables, pool') ->
  exists st',
    mem_clone_vm_area src_pgd dst_pgd src_start dst_start size flags st
    = Ret 0 st'
    /\ trace st' = trace st ++ flushes first_dst (Z.to_nat n)
    /\ pgtbl_pool st' = pool'
    /\ (forall j, 0 <= j < n ->
          let se := leaf src_tables first_src j in
          let sw := kmem st se in
          let dw := kmem st' (leaf dst_tables first_dst j) in
          kmem st' se = sw
          /\ if pte_kernel_cow sw then dw = se /\ pte_present dw = false
             else
               pte_frame dw = pte_frame sw
               /\ pte_rw dw = has_flag flags MM_RW
               /\ pte_present dw = has_flag flags MM_PRESENT
               /\ pte_kernel_cow dw = has_flag flags MM_COW
               /\ pte_global dw = has_flag flags MM_GLOBAL
               /\ pte_user dw = has_flag flags MM_USER)
    /\ (forall x, ~ in_page src_pgd x -> ~ in_page dst_pgd x ->
                  (forall j, 0 <= j < n -> x <> leaf dst_tables first_dst j) ->
                  kmem st' x = kmem st x).
Proof.
  intros fs fd n Hs0 Hd0 Hsize Hwraps Hwrapd Hoff Hlayout Hsrc Hdst.
  destruct (layout_facts src_pgd dst_pgd src_tables dst_tables Hlayout)
    as (Hsp & Hdp & HTS & HTD & Hne & Hnd & HsS & HdS & HsD & HdD & Hsep).
  assert (Hn : 0 < n).
  { unfold n, fs, PAGE_SIZE in *. Z.div_mod_to_equations. lia. }
  assert (Hnd' : n = (dst_start + size + PAGE_SIZE - 1) / PAGE_SIZE - fd).
  { unfold n, fs, fd, PAGE_SIZE in *. Z.div_mod_to_equations. lia. }
  unfold mem_clone_vm_area.
  destruct (Z.eqb_spec src_pgd 0) as [|_]; [destruct Hsp; lia|].
  destruct (Z.eqb_spec dst_pgd 0) as [|_]; [destruct Hdp; lia|].
  (* the source iterator *)
  destruct (pg_iter_init_walk src_pgd flags src_start size fs n src_tables
              [] (pgtbl_pool st) [] st)
    as (P1 & s1 & Hrun1 & Htr1 & Hp1 & Hnil1 & Hm1 & HlenS & Hrs1);
    try assumption; try reflexivity.
  assert (HP1 : P1 = []) by (apply Hnil1; reflexivity). subst P1.
  cbn [app] in Hp1.
  erewrite bind_Ret by exact Hrun1. cbv beta iota.
  change (0 <? 0) with false. cbv iota.
  (* the destination iterator *)
  assert (Hfd0 : 0 <= fd) by (apply Z.div_pos; unfold PAGE_SIZE; lia).
  assert (Hfs0 : 0 <= fs) by (apply Z.div_pos; unfold PAGE_SIZE; lia).
  assert (Hmaxs : fs + n <= 2 ^ 20).
  { unfold n. replace (fs + ((src_start + size + PAGE_SIZE - 1) / PAGE_SIZE - fs))
      with ((src_start + size + PAGE_SIZE - 1) / PAGE_SIZE) by lia.
    apply Z.lt_le_incl. apply Z.div_lt_upper_bound; unfold PAGE_SIZE in *; lia. }
  assert (Hmaxd : fd + n <= 2 ^ 20).
  { rewrite Hnd'.
    replace (fd + ((dst_start + size + PAGE_SIZE - 1) / PAGE_SIZE - fd))
      with ((dst_start + size + PAGE_SIZE - 1) / PAGE_SIZE) by lia.
    apply Z.lt_le_incl. apply Z.div_lt_upper_bound; unfold PAGE_SIZE in *; lia. }
  assert (Hdst1 : range_tables (kmem s1) flags dst_pgd (fd / 1024)
                    (tables_count fd n) (pgtbl_pool s1)
                  = Some (dst_tables, pool')).
  { rewrite Hp1, <- Hdst. apply range_tables_ext.
    intros i Hi. apply Hm1.
    apply (pages_apart dst_pgd src_pgd); auto.
    apply in_page_entry. unfold tables_count in Hi.
    assert (0 <= fd / 1024) by (apply Z.div_pos; lia).
    assert (fd / 1024 <= (fd + n - 1) / 1024) by (apply Z.div_le_mono; lia).
    assert ((fd + n - 1) / 1024 < 1024) by (apply Z.div_lt_upper_bound; lia).
    lia. }
  destruct (pg_iter_init_walk dst_pgd flags dst_start size fd n dst_tables
              (pgtbl_pool s1) [] pool' s1)
    as (P2 & s2 & Hrun2 & Htr2 & Hp2 & _ & Hm2 & HlenD & Hrd2);
    try assumption; try reflexivity.
  { symmetry. apply app_nil_r. }
  rewrite app_nil_r in Hp2.
  erewrite bind_Ret by exact Hrun2. cbv beta iota.
  change (0 <? 0) with false. cbv iota.
  unfold iter_fuel. cbn [it_pfn it_last_pfn].
  replace (fs + n - fs) with n by lia.
  (* the loop *)
  destruct (mem_clone_vm_area_loop_walk src_pgd dst_pgd flags fs fd n
              src_tables dst_tables Hlayout Hfs0 Hfd0 Hmaxs Hmaxd HlenS HlenD
              (Z.to_nat n) (S (Z.to_nat n)) 0
              (entry_at src_pgd (fs / 1024)) (nth 0 src_tables 0)
              (entry_at dst_pgd (fd / 1024)) (nth 0 dst_tables 0) pool' s2)
    as (st' & Hloop & Htr & Hpool & Hcloned & Hframe); try lia.
  { intros _. rewrite !Z.add_0_r, !table_index_0.
    split; [reflexivity|]. split; [reflexivity|].
    split.
    { rewrite <- Hrs1. apply range_tables_ext.
      intros i Hi. apply Hm2.
      apply (pages_apart src_pgd dst_pgd); auto.
      apply in_page_entry. rewrite length_drop in Hi.
      assert (0 <= fs / 1024) by (apply Z.div_pos; lia).
      assert ((fs + n - 1) / 1024 < 1024) by (apply Z.div_lt_upper_bound; lia).
      lia. }
    split; [reflexivity|]. split; [reflexivity|].
    rewrite Hp2. exact Hrd2. }
  replace (fs + 0) with fs in Hloop by lia.
  replace (fd + 0) with fd in Hloop, Htr by lia.
  assert (Hinit : forall x, ~ in_page src_pgd x -> ~ in_page dst_pgd x ->
                            kmem s2 x = kmem st x).
  { intros x Hxs Hxd. rewrite Hm2 by exact Hxd. apply Hm1. exact Hxs. }
  assert (Hleaf_src : forall j, 0 <= j < n ->
            ~ in_page src_pgd (leaf src_tables fs j)
            /\ ~ in_page dst_pgd (leaf src_tables fs j)).
  { intros j Hj. split.
    - apply (leaf_not_in_page src_tables fs n j src_pgd); assumption.
    - apply (leaf_not_in_page src_tables fs n j dst_pgd); assumption. }
  exists st'. split; [exact Hloop|].
  split; [rewrite Htr, Htr2, Htr1; reflexivity|].
  split; [exact Hpool|].
  split.
  - intros j Hj. cbv zeta.
    destruct (Hleaf_src j Hj) as [Hls Hld].
    split.
    + rewrite Hframe; [apply Hinit; assumption | assumption | assumption |].
      intros i Hi Heq.
      destruct (leaf_page src_tables fs n j HTS Hfs0 Hj HlenS)
        as (t & Ht_in & Ht_page & Ht_leaf & _).
      destruct (leaf_page dst_tables fd n i HTD Hfd0 ltac:(lia) HlenD)
        as (t' & Ht_in' & Ht_page' & Ht_leaf' & _).
      rewrite Heq in Ht_leaf.
      apply (pages_apart t' t (leaf dst_tables fd i)); try assumption.
      intros ->. apply (Hsep t); assumption.
    + specialize (Hcloned j ltac:(lia)). unfold entry_cloned in Hcloned.
      rewrite (Hinit _ Hls Hld) in Hcloned. exact Hcloned.
  - intros x Hxs Hxd Hxl. rewrite Hframe; try assumption.
    apply Hinit; assumption.
Qed.

End CloneArea.

(** * The copy [__push_args_on_stack] makes *)

Section ArgsCopy.
Import Mem Process.

Lemma load32_store32_same (m : mem) (a v : Z) :
  0 <= v < 2 ^ 32 -> load32 (store32 m a v) a = v.
Proof.
  intros Hv. unfold load32, store32.
  rewrite load8_store8_same.
  rewrite (load8_agree (fun x => x = a + 2) _ (store8 _ (a + 3) _) (a + 2))
    by (try reflexivity; intros x ->; apply store8_other; lia).
  rewrite load8_store8_same.
  rewrite (load8_agree (fun x => x = a + 1) _ (store8 _ (a + 3) _) (a + 1))
    by (try reflexivity; intros x ->; apply store8_other; lia).
  rewrite (load8_agree (fun x => x = a + 1) _ (store8 _ (a + 2) _) (a + 1))
    by (try reflexivity; intros x ->; apply store8_other; lia).
  rewrite load8_store8_same.
  rewrite (load8_agree (fun x => x = a) _ (store8 _ (a + 3) _) a)
    by (try reflexivity; intros x ->; apply store8_other; lia).
  rewrite (load8_agree (fun x => x = a) _ (store8 _ (a + 2) _) a)
    by (try reflexivity; intros x ->; apply store8_other; lia).
  rewrite (load8_agree (fun x => x = a) _ (store8 _ (a + 1) _) a)
    by (try reflexivity; intros x ->; apply store8_other; lia).
  rewrite load8_store8_same.
  change (2 ^ 8) with 256. change (2 ^ 16) with 65536.
  change (2 ^ 24) with 16777216. change (2 ^ 32) with 4294967296 in Hv.
  pose proof (Z.div_mod v 256 ltac:(lia)) as H0.
  pose proof (Z.div_mod (v / 256) 256 ltac:(lia)) as H1.
  pose proof (Z.div_mod (v / 256 / 256) 256 ltac:(lia)) as H2.
  pose proof (Z.mod_pos_bound v 256 ltac:(lia)).
  pose proof (Z.mod_pos_bound (v / 256) 256 ltac:(lia)).
  pose proof (Z.mod_pos_bound (v / 256 / 256) 256 ltac:(lia)).
  replace (v / 65536) with (v / 256 / 256) by (rewrite Z.div_div by lia; reflexivity).
  replace (v / 16777216) with (v / 256 / 256 / 256)
    by (rewrite !Z.div_div by lia; reflexivity).
  assert (Htop : 0 <= v / 256 / 256 / 256 < 256).
  { split; [repeat apply Z.div_pos; lia|].
    rewrite !Z.div_div by lia. apply Z.div_lt_upper_bound; lia. }
  rewrite (Z.mod_small (v / 256 / 256 / 256)) by lia.
  lia.
Qed.

(** A string whose bytes are found again at [q] is at [q]. *)
Lemma cstr_at_copy (m m' : mem) (l : list Z) : forall (p q : Z),
  cstr_at m p l ->
  (forall j, 0 <= j <= Z.of_nat (length l) -> load8 m' (q + j) = load8 m (p + j)) ->
  cstr_at m' q l.
Proof.
  induction l as [|c l IH]; intros p q Hc Hsame; cbn in *.
  - specialize (Hsame 0 ltac:(lia)). rewrite !Z.add_0_r in Hsame. congruence.
  - destruct Hc as (Hb & Hnz & Hrest).
    pose proof (Hsame 0 ltac:(lia)) as H0. rewrite !Z.add_0_r in H0.
    repeat split; [congruence | assumption |].
    apply (IH (p + 1)); [exact Hrest|].
    intros j Hj. replace (q + 1 + j) with (q + (1 + j)) by lia.
    replace (p + 1 + j) with (p + (1 + j)) by lia. apply Hsame. lia.
Qed.

Lemma cstr_at_unchanged (lo hi : Z) (m m' : mem) (l : list Z) (p : Z) :
  unchanged_outside lo hi m m' ->
  p + Z.of_nat (length l) < lo \/ hi <= p ->
  cstr_at m p l -> cstr_at m' p l.
Proof.
  intros Hun Hout Hc.
  apply (cstr_at_agree (fun a => ~ lo <= a < hi) m m'); [|intros k Hk; lia|exact Hc].
  intros a Ha. apply Hun. exact Ha.
Qed.

Lemma ptrs_at_unchanged (lo hi : Z) (m m' : mem) (ps : list Z) (p : Z) :
  unchanged_outside lo hi m m' ->
  p + 4 * (Z.of_nat (length ps) + 1) <= lo \/ hi <= p ->
  ptrs_at m p ps -> ptrs_at m' p ps.
Proof.
  intros Hun Hout Hp.
  apply (ptrs_at_agree (fun a => ~ lo <= a < hi) m m'); [|intros k Hk; lia|exact Hp].
  intros a Ha. apply Hun. exact Ha.
Qed.

(** Pushing the [k] first bytes of the string of [args[i]]: they are found
    again, in order, in the [k] bytes below [sp]. *)
Lemma push_chars_loop_copy (F : Z -> Prop) (m0 : mem) (args i p : Z) :
  (forall j, 0 <= j < 4 -> F (args + 4 * i + j)) ->
  load32 m0 (args + 4 * i) = p ->
  forall (k : nat) (sp : Z) (s : kstate),
    (forall j, 0 <= j < Z.of_nat k -> F (p + j)) ->
    agree_on F m0 (kmem s) ->
    (forall a, sp - Z.of_nat k <= a < sp -> ~ F a) ->
    Z.of_nat k <= sp < 2 ^ 32 ->
    exists m',
      push_chars_loop k args i sp s = Ret (sp - Z.of_nat k) (set_kmem m' s)
      /\ unchanged_outside (sp - Z.of_nat k) sp (kmem s) m'
      /\ (forall j, 0 <= j < Z.of_nat k ->
            load8 m' (sp - Z.of_nat k + j) = load8 m0 (p + j)).
Proof.
  intros Hslot Hload. induction k as [|k IH]; intros sp s HF Hag Hdis Hsp.
  - exists (kmem s). cbn [push_chars_loop]. unfold ret.
    rewrite set_kmem_same, Z.sub_0_r. split; [reflexivity|].
    split; [apply unchanged_outside_refl | intros j Hj; lia].
  - cbn [push_chars_loop].
    erewrite bind_Ret by reflexivity.
    erewrite bind_Ret by reflexivity.
    erewrite bind_Ret by (apply push8_ok; lia).
    assert (Hread : load32 (kmem s) (args + 4 * i) = p).
    { rewrite (load32_agree F m0) by assumption. exact Hload. }
    rewrite Hread.
    set (s1 := set_kmem _ s).
    assert (Hag1 : agree_on F m0 (kmem s1)).
    { apply (agree_unchanged F (sp - 1) sp m0 (kmem s)); [exact Hag| |].
      - unfold s1. cbn [kmem set_kmem].
        replace sp with (sp - 1 + 1) at 2 by lia. apply unchanged_store8.
      - intros a Ha. apply Hdis. lia. }
    destruct (IH (sp - 1) s1) as (m' & Hrun & Hun & Hbytes).
    { intros j Hj. apply HF. lia. }
    { exact Hag1. }
    { intros a Ha. apply Hdis. lia. }
    { lia. }
    exists m'. split; [|split].
    + rewrite Hrun. unfold s1. rewrite set_kmem_twice. f_equal. lia.
    + intros a Ha. rewrite Hun by lia.
      unfold s1. cbn [kmem set_kmem]. apply store8_other. lia.
    + intros j Hj. destruct (Z.eq_dec j (Z.of_nat k)) as [-> | Hne].
      * replace (sp - Z.of_nat (S k) + Z.of_nat k) with (sp - 1) by lia.
        unfold load8 at 1. rewrite Hun by lia. fold (load8 (kmem s1) (sp - 1)).
        unfold s1. cbn [kmem set_kmem]. rewrite load8_store8_same.
        rewrite (load8_agree F m0 (kmem s)) by (try assumption; apply HF; lia).
        unfold load8. apply Z.mod_mod. lia.
      * replace (sp - Z.of_nat (S k) + j) with (sp - 1 - Z.of_nat k + j) by lia.
        apply Hbytes. lia.
Qed.

(** The first loop of [__push_args_on_stack] over the [n] first arguments:
    the locations it records are those of copies of the strings, which lie
    in the bytes it has pushed. *)
Lemma push_strings_loop_copy (fuel : nat) (m0 : mem) (args : Z) (ps : list Z)
    (ls : list (list Z)) :
  args_at m0 args ps ls -> enough_fuel fuel ls ->
  forall (n : nat) (sp : Z) (locs : list Z) (s : kstate),
    (n <= length ps)%nat -> (n <= 256)%nat ->
    agree_on (in_args args ps ls) m0 (kmem s) ->
    (forall a, sp - chars_bytes (take n ls) <= a < sp -> ~ in_args args ps ls a) ->
    chars_bytes (take n ls) <= sp < 2 ^ 32 ->
    exists m' new,
      push_strings_loop fuel n args sp locs s
      = Ret (sp - chars_bytes (take n ls), new ++ locs) (set_kmem m' s)
      /\ unchanged_outside (sp - chars_bytes (take n ls)) sp (kmem s) m'
      /\ Forall2 (fun q l => cstr_at m' q l
                             /\ sp - chars_bytes (take n ls) <= q
                             /\ q + Z.of_nat (length l) < sp)
                 new (take n ls).
Proof.
  intros Hargs [_ Hfuel]. pose proof (args_at_length _ _ _ _ Hargs) as Hlen.
  induction n as [|n IH]; intros sp locs s Hn H256 Hag Hdis Hsp.
  - exists (kmem s), []. cbn [push_strings_loop take app]. unfold ret.
    change (chars_bytes []) with 0. rewrite set_kmem_same, Z.sub_0_r.
    split; [reflexivity|]. split; [apply unchanged_outside_refl | constructor].
  - destruct (args_at_lookup _ _ _ _ n Hargs ltac:(lia))
      as (p & l & Hp & Hl & Hload & Hc).
    rewrite (chars_bytes_take_S ls n l Hl) in *.
    rewrite (take_S_r ls n l Hl).
    pose proof (chars_bytes_nonneg (take n ls)) as Hnn.
    assert (Hslot : forall j, 0 <= j < 4 ->
                      in_args args ps ls (args + 4 * Z.of_nat n + j)).
    { intros j Hj. apply in_args_slot; lia. }
    cbn [push_strings_loop].
    erewrite bind_Ret by reflexivity.
    assert (Hread : load32 (kmem s) (args + 4 * Z.of_nat n) = p).
    { rewrite (load32_agree (in_args args ps ls) m0) by assumption. exact Hload. }
    rewrite Hread.
    assert (Hc' : cstr_at (kmem s) p l).
    { apply (cstr_at_agree (in_args args ps ls) m0); try assumption.
      intros k Hk. apply (in_args_char args ps ls n p l); assumption. }
    erewrite bind_Ret; cycle 1.
    { apply strlen_ok; [exact Hc'|].
      rewrite Forall_forall in Hfuel. apply Hfuel.
      apply (list_elem_of_lookup_2 _ n). exact Hl. }
    rewrite Nat2Z.id.
    destruct (push_chars_loop_copy (in_args args ps ls) m0 args (Z.of_nat n) p
                Hslot Hload (S (length l)) sp s) as (m1 & Hrun1 & Hun1 & Hbytes).
    { intros j Hj. apply (in_args_char args ps ls n p l); try assumption. lia. }
    { exact Hag. }
    { intros a Ha. apply Hdis. lia. }
    { lia. }
    erewrite bind_Ret by exact Hrun1.
    destruct (Z.leb_spec 256 (Z.of_nat n)) as [|_]; [lia|].
    set (sp1 := sp - Z.of_nat (S (length l))) in *.
    set (s1 := set_kmem m1 s).
    assert (Hag1 : agree_on (in_args args ps ls) m0 (kmem s1)).
    { apply (agree_unchanged _ sp1 sp m0 (kmem s)); [exact Hag|exact Hun1|].
      intros a Ha. apply Hdis. unfold sp1 in Ha. lia. }
    assert (Hcopy : cstr_at m1 sp1 l).
    { apply (cstr_at_copy m0 m1 l p sp1 Hc). intros j Hj. apply Hbytes. lia. }
    destruct (IH sp1 (sp1 :: locs) s1 ltac:(lia) ltac:(lia) Hag1)
      as (m' & new & Hrun & Hun & Hall).
    { intros a Ha. apply Hdis. unfold sp1 in Ha. lia. }
    { unfold sp1. lia. }
    exists m', (new ++ [sp1]). split; [|split].
    + rewrite Hrun. unfold s1. rewrite set_kmem_twice, <- app_assoc.
      replace (sp - (chars_bytes (take n ls) + (Z.of_nat (length l) + 1)))
        with (sp1 - chars_bytes (take n ls)) by (unfold sp1; lia).
      reflexivity.
    + intros a Ha. rewrite Hun by (unfold sp1; lia).
      unfold s1. cbn [kmem set_kmem]. apply Hun1. unfold sp1. lia.
    + apply Forall2_app.
      * eapply Forall2_impl; [exact Hall|]. cbv beta.
        intros q l' (H1 & H2 & H3). unfold sp1 in *.
        repeat split; [exact H1 | lia | lia].
      * constructor; [|constructor]. split; [|unfold sp1; lia].
        apply (cstr_at_unchanged (sp1 - chars_bytes (take n ls)) sp1 m1 m');
          [exact Hun | lia | exact Hcopy].
Qed.

(** The second loop: the locations it is given are found, in the reverse
    order, in the words it pushes, above the words that were there. *)
Lemma push_pointers_loop_copy (rlocs : list Z) :
  forall (sp : Z) (acc : list Z) (s : kstate),
    Forall (fun q => 0 < q < 2 ^ 32) rlocs ->
    ptrs_at (kmem s) sp acc ->
    4 * Z.of_nat (length rlocs) <= sp < 2 ^ 32 ->
    exists m',
      push_pointers_loop rlocs sp s
      = Ret (sp - 4 * Z.of_nat (length rlocs)) (set_kmem m' s)
      /\ unchanged_outside (sp - 4 * Z.of_nat (length rlocs)) sp (kmem s) m'
      /\ ptrs_at m' (sp - 4 * Z.of_nat (length rlocs)) (rev rlocs ++ acc).
Proof.
  induction rlocs as [|q rlocs IH]; intros sp acc s Hall Hacc Hsp.
  - exists (kmem s). cbn [push_pointers_loop length rev app]. unfold ret.
    rewrite set_kmem_same, Z.sub_0_r. split; [reflexivity|].
    split; [apply unchanged_outside_refl | exact Hacc].
  - cbn [push_pointers_loop]. cbn [length] in Hsp |- *.
    apply Forall_cons in Hall as [Hq Hall].
    erewrite bind_Ret by (apply push32_ok; lia).
    set (s1 := set_kmem _ s).
    assert (Hacc1 : ptrs_at (kmem s1) (sp - 4) (q :: acc)).
    { cbn [ptrs_at]. unfold s1. cbn [kmem set_kmem].
      split; [apply load32_store32_same; lia|]. split; [lia|].
      replace (sp - 4 + 4) with sp by lia.
      apply (ptrs_at_unchanged (sp - 4) sp (kmem s)); [|lia|exact Hacc].
      replace sp with (sp - 4 + 4) at 2 by lia. apply unchanged_store32. }
    destruct (IH (sp - 4) (q :: acc) s1 Hall Hacc1 ltac:(lia))
      as (m' & Hrun & Hun & Hptrs).
    exists m'. split; [|split].
    + rewrite Hrun. unfold s1. rewrite set_kmem_twice. f_equal. lia.
    + intros a Ha. rewrite Hun by lia. unfold s1. cbn [kmem set_kmem].
      apply unchanged_store32. lia.
    + cbn [rev]. rewrite <- app_assoc. cbn [app].
      replace (sp - 4 * Z.of_nat (S (length rlocs)))
        with (sp - 4 - 4 * Z.of_nat (length rlocs)) by lia.
      exact Hptrs.
Qed.

(** X16. [__push_args_on_stack] copies the argument array.  On a
    NULL-terminated array of at most 256 strings, when the bytes of the
    array are at most [sp], [sp] is below 2^32, and the bytes that will be
    pushed, from [sp] minus those of the array up to [sp], hold neither the
    pointers nor the strings of the source array: the pointer it returns,
    which is [sp] moved down by the bytes of the array, is a NULL-terminated
    array of pointers to the same strings, in the same order; the pointers
    and the strings of the copy lie in the bytes that were pushed; the source
    array is intact, and so is every byte outside those that were pushed. *)
Theorem push_args_on_stack_copies (fuel : nat) (sp args : Z) (ps : list Z)
    (ls : list (list Z)) (s : kstate) :
  args_at (kmem s) args ps ls -> enough_fuel fuel ls ->
  (length ps <= 256)%nat ->
  args_bytes ls <= sp < 2 ^ 32 ->
  (forall a, sp - args_bytes ls <= a < sp -> ~ in_args args ps ls a) ->
  exists m' ps',
    __push_args_on_stack fuel sp args s
    = Ret (sp - args_bytes ls) (set_kmem m' s)
    /\ args_at m' (sp - args_bytes ls) ps' ls
    /\ Forall (fun q => sp - args_bytes ls < q < sp) ps'
    /\ args_at m' args ps ls
    /\ unchanged_outside (sp - args_bytes ls) sp (kmem s) m'.
Proof.
  intros Hargs Hfuel H256 Hsp Hdis.
  pose proof (args_at_length _ _ _ _ Hargs) as Hlen.
  pose proof (chars_bytes_nonneg ls) as Hnn.
  unfold args_bytes in *.
  unfold __push_args_on_stack.
  erewrite bind_Ret; cycle 1.
  { apply count_args_ok; [exact (proj1 Hargs)|]. rewrite Hlen. exact (proj1 Hfuel). }
  rewrite Nat2Z.id.
  assert (Htake : take (length ps) ls = ls) by (apply take_ge; lia).
  destruct (push_strings_loop_copy fuel (kmem s) args ps ls Hargs Hfuel
              (length ps) sp [] s ltac:(lia) H256)
    as (m1 & new & Hrun1 & Hun1 & Hall).
  { intros a Ha. reflexivity. }
  { rewrite Htake. intros a Ha. apply Hdis. lia. }
  { rewrite Htake. lia. }
  rewrite Htake, app_nil_r in *.
  pose proof (Forall2_length _ _ _ Hall) as Hnew.
  erewrite bind_Ret by exact Hrun1. cbv beta iota.
  erewrite bind_Ret by (apply push32_ok; lia).
  set (sp1 := sp - chars_bytes ls) in *.
  set (s2 := set_kmem _ (set_kmem m1 s)).
  assert (Hbounds : Forall (fun q => sp1 <= q < sp) new).
  { apply Forall_forall. intros q Hq.
    apply list_elem_of_lookup in Hq as [i Hi].
    destruct (Forall2_lookup_l _ _ _ _ _ Hall Hi) as (l & _ & _ & H1 & H2).
    lia. }
  assert (Hterm : ptrs_at (kmem s2) (sp1 - 4) []).
  { cbn [ptrs_at]. unfold s2. cbn [kmem set_kmem].
    apply load32_store32_same. lia. }
  destruct (push_pointers_loop_copy (rev new) (sp1 - 4) [] s2)
    as (m' & Hrun & Hun & Hptrs); [| exact Hterm | |].
  { apply Forall_rev. eapply Forall_impl; [exact Hbounds|].
    cbv beta. intros q Hq. unfold sp1 in *. lia. }
  { rewrite length_rev, Hnew. unfold sp1. lia. }
  rewrite length_rev, Hnew, rev_involutive, app_nil_r in *.
  replace (sp1 - 4 - 4 * Z.of_nat (length ls))
    with (sp - (chars_bytes ls + (Z.of_nat (length ls) + 1) * 4)) in *
    by (unfold sp1; lia).
  set (sp' := sp - (chars_bytes ls + (Z.of_nat (length ls) + 1) * 4)) in *.
  assert (Hun' : unchanged_outside sp' sp (kmem s) m').
  { intros a Ha. rewrite Hun by (unfold sp', sp1 in *; lia).
    unfold s2. cbn [kmem set_kmem].
    rewrite unchanged_store32 by (unfold sp', sp1 in *; lia).
    apply Hun1. unfold sp', sp1 in *. lia. }
  exists m', new. split; [|split; [|split; [|split]]].
  - rewrite Hrun. unfold s2. rewrite !set_kmem_twice. reflexivity.
  - split; [exact Hptrs|].
    eapply Forall2_impl; [exact Hall|]. cbv beta.
    intros q l (Hc & Hlo & Hhi).
    apply (cstr_at_unchanged sp' (sp1 - 4) (kmem s2) m');
      [exact Hun | unfold sp1 in *; lia |].
    unfold s2. cbn [kmem set_kmem].
    apply (cstr_at_unchanged (sp1 - 4) sp1 m1);
      [|unfold sp1 in *; lia | exact Hc].
    replace sp1 with (sp1 - 4 + 4) at 2 by lia. apply unchanged_store32.
  - eapply Forall_impl; [exact Hbounds|]. cbv beta.
    intros q Hq. unfold sp', sp1 in *. lia.
  - apply (args_at_agree (kmem s)); [|exact Hargs].
    intros a Ha. apply Hun'. intros Hin. exact (Hdis a Hin Ha).
  - exact Hun'.
Qed.

(** X17. [__count_args] on a NULL-terminated array of pointers returns the
    number of pointers before the NULL and changes nothing. *)
Theorem count_args_counts (args : Z) (ps : list Z) (fuel : nat) (s : kstate) :
  ptrs_at (kmem s) args ps -> (length ps < fuel)%nat ->
  __count_args fuel args s = Ret (Z.of_nat (length ps)) s.
Proof. apply count_args_ok. Qed.

Lemma push_chars_loop_returns (k : nat) : forall (args i sp : Z) (s : kstate),
  exists sp' s', push_chars_loop k args i sp s = Ret sp' s'.
Proof.
  induction k as [|k IH]; intros args i sp s; cbn [push_chars_loop].
  - eexists _, _. reflexivity.
  - erewrite bind_Ret by reflexivity.
    erewrite bind_Ret by reflexivity.
    erewrite bind_Ret by reflexivity.
    apply IH.
Qed.

(** X18. [__push_args_on_stack] records the location of every argument in
    a local array of 256 entries and does not check the number of arguments:
    on an array of more than 256 arguments it writes past the local
    array. *)
Theorem push_args_on_stack_overrun (fuel : nat) (sp args : Z) (ps : list Z)
    (ls : list (list Z)) (s : kstate) :
  args_at (kmem s) args ps ls -> enough_fuel fuel ls ->
  (256 < length ps)%nat ->
  exists s', __push_args_on_stack fuel sp args s = Fault s'.
Proof.
  intros Hargs Hfuel H256.
  pose proof (args_at_length _ _ _ _ Hargs) as Hlen.
  unfold __push_args_on_stack.
  erewrite bind_Ret; cycle 1.
  { apply count_args_ok; [exact (proj1 Hargs)|]. rewrite Hlen. exact (proj1 Hfuel). }
  rewrite Nat2Z.id.
  destruct (length ps) as [|n] eqn:Hn; [lia|].
  destruct (args_at_lookup _ _ _ _ n Hargs ltac:(lia))
    as (p & l & Hp & Hl & Hload & Hc).
  destruct (push_chars_loop_returns (S (Z.to_nat (Z.of_nat (length l)))) args
              (Z.of_nat n) sp s) as (sp1 & s1 & Hrun).
  assert (Hloop : push_strings_loop fuel (S n) args sp [] s = Fault s1).
  { cbn [push_strings_loop].
    erewrite bind_Ret by reflexivity. rewrite Hload.
    erewrite bind_Ret; cycle 1.
    { apply strlen_ok; [exact Hc|].
      destruct Hfuel as [_ Hfuel]. rewrite Forall_forall in Hfuel. apply Hfuel.
      apply (list_elem_of_lookup_2 _ n). exact Hl. }
    erewrite bind_Ret by exact Hrun.
    destruct (Z.leb_spec 256 (Z.of_nat n)) as [_|]; [|lia].
    reflexivity. }
  exists s1. unfold bind at 1. rewrite Hloop. reflexivity.
Qed.

End ArgsCopy.

(** * More facts about processes *)

Section ProcessMore.
Import Mem Process.
Context `{config : Config} `{others : Collaborators}.

(** X19. What the child of [sys_fork] inherits.  The child has the user and
    group ids, the session and the process group, the name, the working
    directory and the table of file descriptors of the parent; it starts
    with no children, no pending signal and exit code 0.  The parent gets
    the child as its last child and is otherwise changed in its saved
    registers only; the other tasks are not touched. *)
Theorem sys_fork_inherits (f : pt_regs) (st : kstate) (cur : nat)
    (parent : task_struct) :
  current st = Some cur ->
  tasks st !! cur = Some parent ->
  exists st' p' child,
    sys_fork f st = Ret (pid child) st'
    /\ tasks st' = <[cur := p']> (tasks st) ++ [child]
    /\ (uid child = uid parent /\ ruid child = ruid parent
        /\ gid child = gid parent /\ rgid child = rgid parent
        /\ sid child = sid parent /\ pgid child = pgid parent)
    /\ (name child = name parent /\ cwd child = cwd parent
        /\ fd_list child = fd_list parent)
    /\ (children child = [] /\ pending child = [] /\ exit_code child = 0)
    /\ children p' = children parent ++ [length (tasks st)]
    /\ p' = set_children (children parent ++ [length (tasks st)])
              (set_thread (set_regs f (thread parent)) parent)
    /\ (forall i, i <> cur -> (i < length (tasks st))%nat ->
                  tasks st' !! i = tasks st !! i).
Proof.
  intros Hcur Htask.
  pose proof (sys_fork_runs f st cur parent Hcur Htask) as Hrun.
  cbv zeta in Hrun.
  set (p := set_thread (set_regs f (thread parent)) parent) in *.
  exists (set_runqueue (runqueue st ++ [length (tasks st)])
            (set_tasks
               (<[cur := set_children (children p ++ [length (tasks st)]) p]>
                  (tasks st)
                ++ [forked_child cur p
                      match pid_pool st with [] => -1 | q :: _ => q end
                      (ticks st)])
               (set_pid_pool (tl (pid_pool st)) st))),
    (set_children (children p ++ [length (tasks st)]) p),
    (forked_child cur p match pid_pool st with [] => -1 | q :: _ => q end
       (ticks st)).
  split; [exact Hrun|]. cbn.
  repeat split.
  intros i Hne Hlt.
  rewrite lookup_app_l by (rewrite length_insert; exact Hlt).
  apply list_lookup_insert_ne. congruence.
Qed.

(** X20. [sys_execve] checks its arguments first: with a NULL file name, a
    NULL argument array, an argument array whose first entry is NULL, or a
    NULL environment, it returns -1 and changes neither the trap frame nor
    anything else. *)
Theorem sys_execve_rejects_null (fuel : nat) (name_buffer saved_filename : Z)
    (f : pt_regs) (st : kstate) (cur : nat) :
  current st = Some cur ->
  ebx f = 0 \/ ecx f = 0 \/ load32 (kmem st) (ecx f) = 0 \/ edx f = 0 ->
  sys_execve fuel name_buffer saved_filename f st = Ret (-1, f) st.
Proof. apply sys_execve_null_runs. Qed.

(** [__has_shebang] tells whether the first two bytes of the file are [#]
    and [!]. *)
Lemma has_shebang_spec (file : vfs_file) :
  ((exists rest, f_data file = 35 :: 33 :: rest) -> __has_shebang file = true)
  /\ (__has_shebang file = true ->
      (2 <= length (f_data file))%nat ->
      exists rest, f_data file = 35 :: 33 :: rest).
Proof.
  unfold __has_shebang, vfs_read. split.
  - intros [rest ->]. reflexivity.
  - destruct (f_data file) as [|a [|b rest]]; intros Hs Hlen;
      cbn in Hlen; try lia.
    change (Z.to_nat 2) with 2%nat in Hs. change (Z.to_nat 0) with 0%nat in Hs.
    cbn [take drop nth] in Hs. apply andb_true_iff in Hs as [Ha Hb].
    apply Z.eqb_eq in Ha. apply Z.eqb_eq in Hb. subst a b.
    exists rest. reflexivity.
Qed.

(** X21. [__load_executable] checks the file before it destroys anything.
    When the path names no file, it returns the negated error number that
    [vfs_open] left in [errno]; when the task may not execute the file,
    [-EACCES]; when the file is neither an ELF executable nor a script,
    [-ENOEXEC].  In the three cases the task, its address space included,
    and the memory are as they were. *)
Theorem load_executable_rejects (fuel : nat) (path : Z) (task : nat)
    (name : list Z) (t : task_struct) (st : kstate) :
  path <> 0 -> cstr_at (kmem st) path name -> (length name < fuel)%nat ->
  tasks st !! task = Some t ->
  (vfs_lookup (vfs st) name = None ->
   __load_executable fuel path task st
   = Ret (- vfs_open_errno (errno st) name) (set_errno (vfs_open_errno (errno st) name) st))
  /\ (forall file,
        vfs_lookup (vfs st) name = Some file ->
        vfs_valid_exec_permission t file = false ->
        __load_executable fuel path task st = Ret (- EACCES) st)
  /\ (forall file,
        vfs_lookup (vfs st) name = Some file ->
        vfs_valid_exec_permission t file = true ->
        elf_check_file_type file = false -> __has_shebang file = false ->
        __load_executable fuel path task st = Ret (- ENOEXEC) st).
Proof. apply load_executable_refuses. Qed.

(** ** Resetting and loading *)

Lemma task_at_at (task : nat) (l : list task_struct) (x : task_struct)
    (s : kstate) :
  (task < length l)%nat -> tasks s = <[task := x]> l ->
  task_at task s = Ret x s.
Proof.
  intros Hlt Hs. apply task_at_ok. rewrite Hs.
  apply list_lookup_insert_eq. exact Hlt.
Qed.

Lemma update_task_at (task : nat) (l : list task_struct) (x : task_struct)
    (g : task_struct -> task_struct) (s : kstate) :
  (task < length l)%nat -> tasks s = <[task := x]> l ->
  update_task task g s = Ret tt (set_tasks (<[task := g x]> l) s).
Proof.
  intros Hlt Hs. erewrite update_task_ok; cycle 1.
  { rewrite Hs. apply list_lookup_insert_eq. exact Hlt. }
  rewrite Hs, list_insert_insert_eq. reflexivity.
Qed.

Lemma update_regs_at (task : nat) (l : list task_struct) (x : task_struct)
    (g : pt_regs -> pt_regs) (s : kstate) :
  (task < length l)%nat -> tasks s = <[task := x]> l ->
  update_regs task g s
  = Ret tt (set_tasks
              (<[task := set_thread (set_regs (g (regs (thread x))) (thread x)) x]> l)
              s).
Proof.
  intros Hlt Hs. unfold update_regs.
  exact (update_task_at task l x
           (fun y => set_thread (set_regs (g (regs (thread y))) (thread y)) y)
           s Hlt Hs).
Qed.

Lemma reset_process_runs (task : nat) (t : task_struct) (l : list task_struct)
    (st : kstate) :
  (task < length l)%nat -> tasks st = <[task := t]> l ->
  __reset_process task st
  = match blank_mms st with
    | [] =>
        Ret 0 (set_tasks (<[task := set_mm None t]> l)
                 (set_trace (trace st ++ [EvMmCreateBlank None]) st))
    | m :: bl =>
        Ret 1 (set_cur_pgd (cur_pgd st)
                 (set_tasks (<[task := reset_task m t]> l)
                    (set_kmem (zero_range (kmem st) (start_stack m)
                                 DEFAULT_STACK_SIZE)
                       (set_cur_pgd (pgd m)
                          (set_trace (trace st ++ [EvMmCreateBlank (Some m)])
                             (set_blank_mms bl st))))))
    end.
Proof.
  intros Hlt Hs.
  destruct st as [km tk cu rq pp tks kp bm fs en cp tr].
  cbn [tasks] in Hs. subst tk. unfold __reset_process.
  cbn [blank_mms trace kmem cur_pgd].
  unfold mm_create_blank at 1. unfold bind at 1. cbn [blank_mms].
  destruct bm as [|m bl].
  - erewrite bind_Ret by (eapply update_task_at; [exact Hlt | reflexivity]).
    reflexivity.
  - erewrite bind_Ret by (eapply update_task_at; [exact Hlt | reflexivity]).
    erewrite bind_Ret by reflexivity.
    erewrite bind_Ret by reflexivity.
    erewrite bind_Ret by reflexivity.
    erewrite bind_Ret by (eapply update_regs_at; [exact Hlt | reflexivity]).
    erewrite bind_Ret by (eapply update_regs_at; [exact Hlt | reflexivity]).
    erewrite bind_Ret by (eapply update_regs_at; [exact Hlt | reflexivity]).
    erewrite bind_Ret by reflexivity.
    unfold ret. cbn. unfold reset_task.
    destruct t as [? ? ? ? [r fpu] ? ? ? ? ? ? ? ? ? ? ? ? ? ? ? ? ? ? ?].
    destruct r. reflexivity.
Qed.

(** X22. [__reset_process] gives the task a blank address space.  When
    [mm_create_blank] gives one, it returns 1: the task is on that address
    space, its [ebp] and its stack pointer are at the top of the stack of
    the address space, its interrupt flag is set, its [eip] and [eax] are as
    they were; the stack is zeroed; the page directory in use at the end
    is the one that was in use.  When [mm_create_blank] fails, it returns 0
    and leaves the task without an address space. *)
Theorem reset_process_spec (task : nat) (t : task_struct) (st : kstate) :
  tasks st !! task = Some t ->
  exists st',
    __reset_process task st
    = Ret (match blank_mms st with [] => 0 | _ => 1 end) st'
    /\ cur_pgd st' = cur_pgd st
    /\ blank_mms st' = tl (blank_mms st)
    /\ trace st' = trace st ++ [EvMmCreateBlank (head (blank_mms st))]
    /\ match blank_mms st with
       | [] => tasks st' = <[task := set_mm None t]> (tasks st)
               /\ kmem st' = kmem st
       | m :: _ =>
           let top := wrap32 (start_stack m + DEFAULT_STACK_SIZE) in
           tasks st' = <[task := reset_task m t]> (tasks st)
           /\ kmem st' = zero_range (kmem st) (start_stack m) DEFAULT_STACK_SIZE
           /\ mm (reset_task m t) = Some m
           /\ ebp (regs (thread (reset_task m t))) = top
           /\ useresp (regs (thread (reset_task m t))) = top
           /\ eflags (regs (thread (reset_task m t)))
              = Z.lor (eflags (regs (thread t))) EFLAG_IF
           /\ eip (regs (thread (reset_task m t))) = eip (regs (thread t))
           /\ eax (regs (thread (reset_task m t))) = eax (regs (thread t))
       end.
Proof.
  intros Ht.
  assert (Hlt : (task < length (tasks st))%nat)
    by (apply lookup_lt_is_Some; eauto).
  assert (Hs : tasks st = <[task := t]> (tasks st))
    by (symmetry; apply list_insert_id; exact Ht).
  rewrite (reset_process_runs task t (tasks st) st Hlt Hs).
  destruct (blank_mms st) as [|m bl] eqn:Hbm.
  - eexists. split; [reflexivity|]. cbn. rewrite Hbm. repeat split.
  - eexists. split; [reflexivity|]. cbn. repeat split.
Qed.

(** X23. [__load_executable] on an ELF executable the task may execute,
    when a blank address space can be made.  The address space of the task
    is destroyed and replaced by the blank one, with the stack pointers at
    the top of its stack; the effective user and group ids become those of
    the file when it has the setuid or the setgid bit; the ELF loader is run
    on the task, and the function returns what the loader returns, with the
    entry point and the address space the loader gives stored in the task.
    The page directory in use is the one that was in use. *)
Theorem load_executable_elf (fuel : nat) (path : Z) (task : nat)
    (name : list Z) (t : task_struct) (file : vfs_file) (b : mm_struct)
    (bl : list mm_struct) (st : kstate) :
  path <> 0 -> cstr_at (kmem st) path name -> (length name < fuel)%nat ->
  tasks st !! task = Some t ->
  vfs_lookup (vfs st) name = Some file ->
  vfs_valid_exec_permission t file = true ->
  elf_check_file_type file = true ->
  __has_shebang file = false ->
  blank_mms st = b :: bl ->
  let t1 := reset_task b (with_file_ids file t) in
  let r := fst (fst (elf_load_file t1 file)) in
  exists st',
    __load_executable fuel path task st = Ret r st'
    /\ tasks st' = <[task := loaded_task file b t]> (tasks st)
    /\ trace st'
       = trace st
         ++ match mm t with Some m0 => [EvMmDestroy m0] | None => [] end
         ++ [EvMmCreateBlank (Some b); EvElfLoadFile (f_name file) r]
    /\ cur_pgd st' = cur_pgd st
    /\ kmem st' = zero_range (kmem st) (start_stack b) DEFAULT_STACK_SIZE
    /\ uid (loaded_task file b t)
       = (if has_flag (f_mask file) S_ISUID then f_uid file else uid t)
    /\ gid (loaded_task file b t)
       = (if has_flag (f_mask file) S_ISGID then f_gid file else gid t)
    /\ mm (loaded_task file b t) = snd (elf_load_file t1 file)
    /\ eip (regs (thread (loaded_task file b t)))
       = snd (fst (elf_load_file t1 file)).
Proof.
  intros Hne Hc Hfuel Ht Hl Hperm Helf Hsh Hbm t1 r.
  pose proof (vfs_open_ok fuel path name st Hne Hc Hfuel) as Hopen.
  rewrite Hl in Hopen.
  assert (Hlt : (task < length (tasks st))%nat)
    by (apply lookup_lt_is_Some; eauto).
  assert (Hs : tasks st = <[task := t]> (tasks st))
    by (symmetry; apply list_insert_id; exact Ht).
  unfold __load_executable. cbn [load_executable_from].
  erewrite bind_Ret by exact Hopen. cbv iota beta.
  erewrite bind_Ret by (apply task_at_ok; exact Ht).
  rewrite Hperm, Helf. cbn [negb orb].
  (* the effective ids *)
  set (ta := if has_flag (f_mask file) S_ISUID then set_uid (f_uid file) t else t).
  assert (Huid :
    (if has_flag (f_mask file) S_ISUID
     then update_task task (set_uid (f_uid file)) else ret tt) st
    = Ret tt (set_tasks (<[task := ta]> (tasks st)) st)).
  { unfold ta. destruct (has_flag (f_mask file) S_ISUID).
    - eapply update_task_at; eassumption.
    - unfold ret. rewrite <- Hs. destruct st; reflexivity. }
  erewrite bind_Ret by exact Huid.
  set (s1 := set_tasks (<[task := ta]> (tasks st)) st).
  assert (Hgid :
    (if has_flag (f_mask file) S_ISGID
     then update_task task (set_gid (f_gid file)) else ret tt) s1
    = Ret tt (set_tasks (<[task := with_file_ids file t]> (tasks st)) s1)).
  { unfold with_file_ids. fold ta. destruct (has_flag (f_mask file) S_ISGID).
    - eapply update_task_at; [exact Hlt | reflexivity].
    - reflexivity. }
  erewrite bind_Ret by exact Hgid.
  set (tb := with_file_ids file t).
  set (s2 := set_tasks (<[task := tb]> (tasks st)) s1).
  erewrite bind_Ret by (eapply task_at_at; [exact Hlt | reflexivity]).
  assert (Hmm : mm tb = mm t).
  { unfold tb, with_file_ids.
    destruct (has_flag (f_mask file) S_ISUID), (has_flag (f_mask file) S_ISGID);
      reflexivity. }
  set (evs := match mm t with Some m0 => [EvMmDestroy m0] | None => [] end).
  set (s3 := set_trace (trace st ++ evs) s2).
  assert (Hdestroy :
    match mm tb with Some m0 => mm_destroy m0 | None => ret tt end s2
    = Ret tt s3).
  { rewrite Hmm. unfold s3, evs. destruct (mm t) as [m0|].
    - reflexivity.
    - unfold ret. rewrite app_nil_r. destruct st; reflexivity. }
  erewrite bind_Ret by exact Hdestroy.
  pose proof (reset_process_runs task tb (tasks st) s3 Hlt eq_refl) as Hreset.
  change (blank_mms s3) with (blank_mms st) in Hreset. rewrite Hbm in Hreset.
  erewrite bind_Ret by exact Hreset.
  change (1 =? 0) with false. cbv iota. rewrite Hsh.
  erewrite bind_Ret by (eapply task_at_at; [exact Hlt | reflexivity]).
  unfold loaded_task. subst r t1. fold tb.
  destruct (elf_load_file (reset_task b tb) file) as [[r0 entry] m].
  cbn [fst snd]. cbv iota beta.
  erewrite bind_Ret by (eapply update_task_at; [exact Hlt | reflexivity]).
  erewrite bind_Ret by (eapply update_regs_at; [exact Hlt | reflexivity]).
  erewrite bind_Ret by reflexivity.
  change (negb (0 =? 0)) with false. cbv iota.
  eexists. split; [reflexivity|].
  cbn [tasks trace cur_pgd kmem set_tasks set_trace set_cur_pgd set_kmem
       set_blank_mms s3 s2 s1].
  split; [reflexivity|].
  split.
  { unfold s3, s2, s1. cbn. rewrite <- !app_assoc. reflexivity. }
  split; [reflexivity|]. split; [reflexivity|].
  unfold reset_task, tb, with_file_ids.
  destruct (has_flag (f_mask file) S_ISUID), (has_flag (f_mask file) S_ISGID);
    repeat split.
Qed.

End ProcessMore.

(** * Facts about memory mapping and the working directory *)

Section MmapMore.
Import Process Mmap.
Context `{flags_of : Paging.MemmapFlags} `{areas : VmArea}.

Lemma fget_runs (fd : Z) (st : kstate) (cur : nat) (t : task_struct) :
  current st = Some cur -> tasks st !! cur = Some t ->
  fget fd st
  = Ret (if (fd <? 0) || (max_fd t <=? fd) then None
         else fd_list t !! Z.to_nat fd) st.
Proof.
  intros Hcur Ht. unfold fget. erewrite bind_Ret by reflexivity. rewrite Hcur.
  erewrite bind_Ret by (apply task_at_ok; exact Ht).
  destruct ((fd <? 0) || (max_fd t <=? fd)); reflexivity.
Qed.

(** X24. [sys_mmap] returns NULL and changes nothing when the descriptor is
    out of the table of the current task, when it is not open, when the
    file cannot be examined, when the file is shorter than the end of the
    mapping, when no free range is found, and when the area cannot be
    created. *)
Theorem sys_mmap_rejects (addr length prot flags fd offset : Z) (st : kstate)
    (cur : nat) (t : task_struct) (m : mm_struct) :
  current st = Some cur -> tasks st !! cur = Some t -> mm t = Some m ->
  (fd < 0 \/ max_fd t <= fd ->
   sys_mmap addr length prot flags fd offset st = Ret 0 st)
  /\ (forall d, 0 <= fd < max_fd t -> fd_list t !! Z.to_nat fd = Some d ->
        match file_struct d with
        | None => sys_mmap addr length prot flags fd offset st = Ret 0 st
        | Some file =>
            (f_stat_ok file = false ->
             sys_mmap addr length prot flags fd offset st = Ret 0 st)
            /\ (wrap32 (Z.of_nat (List.length (f_data file)))
                < wrap32 (offset + length) ->
                sys_mmap addr length prot flags fd offset st = Ret 0 st)
            /\ (f_stat_ok file = true ->
                wrap32 (offset + length)
                <= wrap32 (Z.of_nat (List.length (f_data file))) ->
                let found :=
                  if negb (addr =? 0)
                     && vm_area_is_valid m addr (wrap32 (addr + length))
                  then Some addr else vm_area_search_free_area m length in
                match found with
                | None => sys_mmap addr length prot flags fd offset st = Ret 0 st
                | Some start =>
                    vm_area_create m start length
                      (Z.lor Paging.MM_PRESENT
                         (Z.lor Paging.MM_RW (Z.lor Paging.MM_COW Paging.MM_USER)))
                    = None ->
                    sys_mmap addr length prot flags fd offset st = Ret 0 st
                end)
        end).
Proof.
  intros Hcur Ht Hm.
  pose proof (fget_runs fd st cur t Hcur Ht) as Hfget.
  split.
  - intros Hfd. unfold sys_mmap. erewrite bind_Ret by reflexivity.
    erewrite bind_Ret by exact Hfget. cbv beta iota.
    replace ((fd <? 0) || (max_fd t <=? fd)) with true; [reflexivity|].
    symmetry. apply orb_true_iff.
    destruct Hfd; [left; apply Z.ltb_lt | right; apply Z.leb_le]; assumption.
  - intros d Hfd Hd.
    replace ((fd <? 0) || (max_fd t <=? fd)) with false in Hfget; cycle 1.
    { symmetry. apply orb_false_iff.
      split; [apply Z.ltb_ge | apply Z.leb_gt]; lia. }
    rewrite Hd in Hfget. cbv iota in Hfget.
    destruct (file_struct d) as [file|] eqn:Hfile.
    + split; [|split].
      * intros Hstat. unfold sys_mmap. erewrite bind_Ret by reflexivity.
        erewrite bind_Ret by exact Hfget. cbv beta iota. rewrite Hfile, Hstat. reflexivity.
      * intros Hsmall. unfold sys_mmap. erewrite bind_Ret by reflexivity.
        erewrite bind_Ret by exact Hfget. cbv beta iota. rewrite Hfile.
        destruct (negb (f_stat_ok file)); [reflexivity|].
        destruct (Z.ltb_spec (wrap32 (Z.of_nat (List.length (f_data file))))
                    (wrap32 (offset + length))); [reflexivity | lia].
      * intros Hstat Hsize. cbv zeta.
        unfold sys_mmap. erewrite bind_Ret by reflexivity.
        erewrite bind_Ret by exact Hfget. cbv beta iota.
        rewrite Hfile, Hstat. cbn [negb].
        destruct (Z.ltb_spec (wrap32 (Z.of_nat (List.length (f_data file))))
                    (wrap32 (offset + length))); [lia|].
        rewrite Hcur.
        erewrite bind_Ret by (apply task_at_ok; exact Ht).
        rewrite Hm.
        destruct (if negb (addr =? 0)
                     && vm_area_is_valid m addr (wrap32 (addr + length))
                  then Some addr else vm_area_search_free_area m length)
          as [start|]; [|reflexivity].
        intros Hcreate. rewrite Hcreate. reflexivity.
    + unfold sys_mmap. erewrite bind_Ret by reflexivity.
      erewrite bind_Ret by exact Hfget. cbv beta iota. rewrite Hfile. reflexivity.
Qed.

End MmapMore.

Section CwdFacts.
Import Mem Process Cwd.
Context `{config : Config} `{dirs : Directories}.

Lemma store_bytes_outside (l : list Z) (m : mem) (a x : Z) :
  x < a \/ a + Z.of_nat (length l) <= x -> store_bytes m a l x = m x.
Proof.
  revert m a. induction l as [|c l IH]; intros m a Hx; [reflexivity|].
  cbn [store_bytes]. cbn [length] in Hx. rewrite IH by lia.
  unfold store8. destruct (Z.eqb_spec x a); [lia | reflexivity].
Qed.

Lemma store_bytes_inside (l : list Z) (m : mem) (a : Z) (i : nat) (c : Z) :
  l !! i = Some c -> load8 (store_bytes m a l) (a + Z.of_nat i) = c mod 256.
Proof.
  revert m a i. induction l as [|d l IH]; intros m a i Hi; [discriminate|].
  cbn [store_bytes]. destruct i as [|i].
  - injection Hi as ->. unfold load8. rewrite store_bytes_outside by lia.
    unfold store8. replace (a + Z.of_nat 0) with a by lia.
    rewrite Z.eqb_refl. apply Z.mod_mod. lia.
  - cbn in Hi. replace (a + Z.of_nat (S i)) with (a + 1 + Z.of_nat i) by lia.
    apply IH. exact Hi.
Qed.

Lemma cstr_at_of_bytes (l : list Z) (m : mem) (p : Z) :
  (forall (i : nat) c, l !! i = Some c -> load8 m (p + Z.of_nat i) = c /\ c <> 0) ->
  load8 m (p + Z.of_nat (length l)) = 0 ->
  cstr_at m p l.
Proof.
  revert p. induction l as [|c l IH]; intros p Hl Hend.
  - cbn [length] in Hend. replace (p + Z.of_nat 0) with p in Hend by lia.
    exact Hend.
  - cbn [cstr_at]. destruct (Hl O c eq_refl) as [Hc Hnz].
    replace (p + Z.of_nat 0) with p in Hc by lia.
    repeat split; try assumption.
    apply IH.
    + intros i d Hi. replace (p + 1 + Z.of_nat i) with (p + Z.of_nat (S i)) by lia.
      apply Hl. exact Hi.
    + replace (p + 1 + Z.of_nat (length l))
        with (p + Z.of_nat (length (c :: l))) by (cbn [length]; lia).
      exact Hend.
Qed.

Lemma strncpy_bytes_length (src : list Z) (n : Z) :
  length (strncpy_bytes src n) = Z.to_nat n.
Proof.
  unfold strncpy_bytes. rewrite length_take, length_app, length_replicate. lia.
Qed.

Lemma strncpy_bytes_copied (src : list Z) (n : Z) (i : nat) (c : Z) :
  (i < Z.to_nat n)%nat -> src !! i = Some c -> strncpy_bytes src n !! i = Some c.
Proof.
  intros Hi Hc. unfold strncpy_bytes. rewrite lookup_take_lt by exact Hi.
  apply lookup_app_l_Some. exact Hc.
Qed.

Lemma strncpy_bytes_padded (src : list Z) (n : Z) (i : nat) :
  (length src <= i < Z.to_nat n)%nat -> strncpy_bytes src n !! i = Some 0.
Proof.
  intros Hi. unfold strncpy_bytes. rewrite lookup_take_lt by lia.
  rewrite lookup_app_r by lia. apply lookup_replicate_2. lia.
Qed.

(** X25. [sys_getcwd] with a current task and a non-NULL buffer returns the
    buffer and writes to its [size] bytes only.  When the working directory
    is shorter than [size], the buffer then holds it as a C string; when it
    is not, the buffer holds its first [size] characters and no
    terminator. *)
Theorem sys_getcwd_copies (buf size : Z) (st : kstate) (cur : nat)
    (t : task_struct) :
  current st = Some cur -> tasks st !! cur = Some t ->
  buf <> 0 -> 0 <= size ->
  Forall (fun c => 0 < c < 256) (cwd t) ->
  exists m',
    sys_getcwd buf size st = Ret buf (set_kmem m' st)
    /\ unchanged_outside buf (buf + size) (kmem st) m'
    /\ (Z.of_nat (length (cwd t)) < size -> cstr_at m' buf (cwd t))
    /\ (size <= Z.of_nat (length (cwd t)) ->
        forall i c, 0 <= i < size -> cwd t !! Z.to_nat i = Some c ->
                    load8 m' (buf + i) = c /\ c <> 0).
Proof.
  intros Hcur Ht Hbuf Hsize Hchars.
  exists (store_bytes (kmem st) buf (strncpy_bytes (cwd t) size)).
  assert (Hbyte : forall (i : nat) c, (i < Z.to_nat size)%nat ->
            cwd t !! i = Some c ->
            load8 (store_bytes (kmem st) buf (strncpy_bytes (cwd t) size))
              (buf + Z.of_nat i) = c /\ c <> 0).
  { intros i c Hi Hc.
    pose proof (proj1 (Forall_lookup _ _) Hchars i c Hc) as Hr. cbn beta in Hr.
    rewrite (store_bytes_inside _ _ _ i c)
      by (apply strncpy_bytes_copied; assumption).
    rewrite Z.mod_small by lia. split; [reflexivity | lia]. }
  split; [|split; [|split]].
  - unfold sys_getcwd. erewrite bind_Ret by reflexivity. rewrite Hcur.
    destruct (Z.eqb_spec buf 0) as [|_]; [contradiction|]. cbn [negb].
    erewrite bind_Ret by (apply task_at_ok; exact Ht).
    reflexivity.
  - intros a Ha. apply store_bytes_outside.
    rewrite strncpy_bytes_length. lia.
  - intros Hlen. apply cstr_at_of_bytes.
    + intros i c Hc. apply Hbyte; [|exact Hc].
      apply lookup_lt_Some in Hc. lia.
    + rewrite (store_bytes_inside _ _ _ (length (cwd t)) 0)
        by (apply strncpy_bytes_padded; lia).
      reflexivity.
  - intros Hlen i c Hi Hc.
    replace (buf + i) with (buf + Z.of_nat (Z.to_nat i)) by lia.
    apply Hbyte; [lia | exact Hc].
Qed.

(** X26. [sys_fchdir] with a current task returns.  Either it returns 0, and
    then the descriptor is in range and open on a directory whose name
    resolves, and the only change is that this resolved path is the working
    directory of the current task; or it changes nothing and returns
    [-EBADF], [-ENOENT] or [-ENOTDIR]. *)
Theorem sys_fchdir_spec (fd : Z) (st : kstate) (cur : nat) (t : task_struct) :
  current st = Some cur -> tasks st !! cur = Some t ->
  exists r st',
    sys_fchdir fd st = Ret r st'
    /\ ((r = 0
         /\ exists vfd file path,
              0 <= fd < max_fd t
              /\ fd_list t !! Z.to_nat fd = Some vfd
              /\ file_struct vfd = Some file
              /\ has_flag (file_flags file) DT_DIR = true
              /\ resolve_path (f_name file) = Some path
              /\ st' = set_tasks (<[cur := set_cwd path t]> (tasks st)) st)
        \/ (st' = st /\ (r = - EBADF \/ r = - ENOENT \/ r = - ENOTDIR))).
Proof.
  intros Hcur Ht.
  assert (Htable : max_fd t = Z.of_nat (length (fd_list t))) by reflexivity.
  unfold sys_fchdir. erewrite bind_Ret by reflexivity. rewrite Hcur.
  erewrite bind_Ret by (apply task_at_ok; exact Ht).
  destruct (Z.ltb_spec fd 0) as [Hneg | Hpos]; cbn [orb].
  { eexists _, _. split; [reflexivity|]. right. auto. }
  destruct (Z.leb_spec (max_fd t) fd) as [Hbig | Hsmall].
  { eexists _, _. split; [reflexivity|]. right. auto. }
  destruct (lookup_lt_is_Some_2 (fd_list t) (Z.to_nat fd) ltac:(lia)) as [vfd Hvfd].
  rewrite Hvfd.
  destruct (file_struct vfd) as [file|] eqn:Hfile.
  2: { eexists _, _. split; [reflexivity|]. right. auto. }
  destruct (has_flag (file_flags file) DT_DIR) eqn:Hdir; cbn [negb].
  2: { eexists _, _. split; [reflexivity|]. right. auto. }
  destruct (resolve_path (f_name file)) as [path|] eqn:Hpath.
  2: { eexists _, _. split; [reflexivity|]. right. auto. }
  erewrite bind_Ret by (apply update_task_ok; exact Ht).
  eexists _, _. split; [reflexivity|]. left. split; [reflexivity|].
  exists vfd, file, path. repeat split; try assumption; lia.
Qed.

End CwdFacts.

(** * Examples for the facts above *)

Section RtcExamples.
Import Rtc Samples.

(** The first update on the sample chip. *)
Lemma rtc_update_datetime_first_example :
  let s' := state_of rtc_boot (rtc_update_datetime 4 rtc_boot) in
  same_settings rtc_boot s'
  /\ first_update s' = 0
  /\ (first_update rtc_boot <> 0 ->
      rtc_are_different (previous_global_time s') (global_time s') = 1)
  /\ (first_update rtc_boot = 0 ->
      previous_global_time s' = previous_global_time rtc_boot).
Proof.
  cbv zeta. apply (rtc_update_datetime_first 4 rtc_boot).
  apply ret_of_result. vm_compute. reflexivity.
Defined.

(** [rtc_initialize] on the sample chip. *)
Lemma rtc_initialize_status_example :
  let s' := state_of rtc_boot (rtc_initialize 4 rtc_boot) in
  let b := byte (cmos rtc_boot (reads rtc_boot) 11) in
  let w := rtc_status_b b in
  0 = 0
  /\ writes s' = writes rtc_boot ++ [(11, w)]
  /\ Z.testbit w 1 = true /\ Z.testbit w 4 = true
  /\ Z.testbit w 5 = false /\ Z.testbit w 6 = false
  /\ (forall i, i = 0 \/ i = 2 \/ i = 3 \/ i = 7 -> Z.testbit w i = Z.testbit b i)
  /\ is_bcd s' = (if Z.testbit b 2 then 0 else 1)
  /\ trace s' = trace rtc_boot ++ [EvIrqInstall; EvIrqEnable]
  /\ first_update s' = 0.
Proof.
  cbv zeta. apply (rtc_initialize_status 4 rtc_boot _ 0).
  apply ret_of_result. vm_compute. reflexivity.
Defined.

End RtcExamples.

Section PagingMoreExamples.
Import Paging Samples.

(** Comparisons of closed numbers. *)
Ltac closed_order :=
  vm_compute; repeat split; solve [reflexivity | intro; discriminate].

(** The first fault on the copy-on-write page of the sample machine. *)
Lemma page_handle_cow_success_example :
  exists st',
    __page_handle_cow 8208 cow_machine = Ret 0 st'
    /\ page_pool st' = []
    /\ trace st' = trace cow_machine ++ [EvAllocPage 9; EvZeroPage 9]
    /\ (forall a, a <> 8208 -> kmem st' a = kmem cow_machine a)
    /\ pte_present (kmem st' 8208) = true
    /\ pte_kernel_cow (kmem st' 8208) = false
    /\ pte_frame (kmem st' 8208)
       = Z.land (Z.shiftr (get_physical_address_from_page 9) 12) (Z.ones 20)
    /\ pte_rw (kmem st' 8208) = pte_rw (kmem cow_machine 8208)
    /\ pte_user (kmem st' 8208) = pte_user (kmem cow_machine 8208)
    /\ pte_global (kmem st' 8208) = pte_global (kmem cow_machine 8208).
Proof.
  apply (page_handle_cow_success 8208 cow_machine 9 []);
    [lia | reflexivity | reflexivity | reflexivity | cbn; lia].
Defined.

(** The same fault through the handler. *)
Lemma page_fault_demand_paging_example :
  exists st',
    page_fault_handler (fault_frame 6) cow_machine = Ret tt st'
    /\ trace st'
       = trace cow_machine ++ [EvAllocPage 9; EvZeroPage 9; EvInvlpg (cr2 cow_machine)]
    /\ page_pool st' = []
    /\ pte_present (kmem st' 8208) = true
    /\ pte_kernel_cow (kmem st' 8208) = false
    /\ pte_frame (kmem st' 8208)
       = Z.land (Z.shiftr (get_physical_address_from_page 9) 12) (Z.ones 20)
    /\ (forall a, a <> 8208 -> kmem st' a = kmem cow_machine a).
Proof.
  change 8208 with (entry_at (get_virtual_address_from_page 2)
                      ((cr2 cow_machine / PAGE_SIZE) mod 1024)).
  apply (page_fault_demand_paging (fault_frame 6) cow_machine 1 2 9 []);
    try reflexivity; cbn; lia.
Defined.

(** The first entry of an empty directory, for a user page. *)
Lemma mem_pg_entry_alloc_fresh_example :
  exists st',
    __mem_pg_entry_alloc 4096 5 (cache_machine [])
    = Ret (match pgtbl_pool (cache_machine []) with [] => 0 | t :: _ => t end) st'
    /\ pgtbl_pool st' = tl (pgtbl_pool (cache_machine []))
    /\ (forall a, a <> 4096 -> kmem st' a = kmem (cache_machine []) a)
    /\ trace st' = trace (cache_machine [])
    /\ pde_present (kmem st' 4096) = true
    /\ pde_rw (kmem st' 4096) = true
    /\ pde_global (kmem st' 4096) = has_flag 5 MM_GLOBAL
    /\ pde_user (kmem st' 4096) = has_flag 5 MM_USER
    /\ pde_accessed (kmem st' 4096) = false
    /\ pde_available (kmem st' 4096) = 1
    /\ pde_frame (kmem st' 4096) = pde_frame (kmem (cache_machine []) 4096).
Proof.
  apply (mem_pg_entry_alloc_fresh 4096 5 (cache_machine []));
    [lia | reflexivity].
Defined.

(** The same entry once it is present, on the table at 0x2000. *)
Lemma mem_pg_entry_alloc_present_example :
  let st := cache_machine [(4096, 8193)] in
  exists st',
    __mem_pg_entry_alloc 4096 5 st
    = Ret (match get_page_from_physical_address
                   (wrap32 (Z.shiftl (pde_frame (kmem st 4096)) 12)) with
           | None => 0
           | Some page => get_virtual_address_from_page page
           end) st'
    /\ pgtbl_pool st' = pgtbl_pool st
    /\ trace st' = trace st
    /\ (forall a, a <> 4096 -> kmem st' a = kmem st a)
    /\ pde_present (kmem st' 4096) = true
    /\ pde_rw (kmem st' 4096) = pde_rw (kmem st 4096) || has_flag 5 MM_RW
    /\ pde_user (kmem st' 4096) = pde_user (kmem st 4096) || has_flag 5 MM_USER
    /\ pde_global (kmem st' 4096) = pde_global (kmem st 4096) && has_flag 5 MM_GLOBAL
    /\ pde_frame (kmem st' 4096) = pde_frame (kmem st 4096).
Proof.
  cbv zeta.
  apply (mem_pg_entry_alloc_present 4096 5 (cache_machine [(4096, 8193)]));
    [lia | reflexivity | reflexivity].
Defined.

(** An iterator over the two first pages of the sample directory. *)
Lemma pg_iter_init_spec_example :
  let it := mk_page_iterator 4096 8192 0 2 44 in
  it_entry it = entry_at 4096 (0 / PAGE_SIZE / 1024)
  /\ it_pfn it = 0 / PAGE_SIZE
  /\ it_last_pfn it = wrap32 (0 + 8192 + PAGE_SIZE - 1) / PAGE_SIZE
  /\ it_flags it = 44
  /\ ((0 = 0 /\ it_table it <> 0) \/ (0 = -1 /\ it_table it = 0)).
Proof.
  cbv zeta.
  apply (pg_iter_init_spec 4096 0 8192 44 0 (mk_page_iterator 4096 8192 0 2 44)
           (machine [(4096, 8193)] 0 None)
           (state_of (machine [(4096, 8193)] 0 None)
              (__pg_iter_init iter0 4096 0 8192 44 (machine [(4096, 8193)] 0 None))));
    [lia|].
  apply ret_of_result. vm_compute. reflexivity.
Defined.

(** Mapping the two first pages to the frames 5 and 6. *)
Lemma mem_upd_vm_area_maps_example :
  let st := machine [(4096, 8193)] 0 None in
  let st1 := state_of st (__pg_iter_init iter0 4096 0 8192 44 st) in
  exists st2,
    mem_upd_vm_area 4096 0 20480 8192 44 st = Ret 0 st2
    /\ trace st2 = trace st1 ++ flushes 0 2
    /\ (forall i, 0 <= i < 2 ->
          let w := kmem st2 (entry_at 8192 (0 + i)) in
          pte_frame w = 5 + i
          /\ pte_present w = has_flag 44 MM_PRESENT
          /\ pte_rw w = has_flag 44 MM_RW
          /\ pte_user w = has_flag 44 MM_USER
          /\ pte_global w = has_flag 44 MM_GLOBAL
          /\ pte_kernel_cow w = has_flag 44 MM_COW)
    /\ (forall x,
          (forall i, 0 <= i < 2 -> x <> entry_at 8192 (0 + i)) ->
          kmem st2 x = kmem st1 x).
Proof.
  cbv zeta.
  apply (mem_upd_vm_area_maps 4096 0 20480 8192 44
           (mk_page_iterator 4096 8192 0 2 44) (machine [(4096, 8193)] 0 None)
           (state_of (machine [(4096, 8193)] 0 None)
              (__pg_iter_init iter0 4096 0 8192 44 (machine [(4096, 8193)] 0 None))));
    closed_order.
Defined.

(** Mapping the two first pages from the last frame on: the second page has
    no frame. *)
Lemma mem_upd_vm_area_frame_limit_example :
  let st := machine [(4096, 8193)] 0 None in
  let st1 := state_of st (__pg_iter_init iter0 4096 0 8192 44 st) in
  let it := mk_page_iterator 4096 8192 0 2 44 in
  let first := 0 / PAGE_SIZE in
  let mapped := MAX_PHY_PFN - 4294963200 / PAGE_SIZE in
  mapped = 1
  /\ exists st2,
    mem_upd_vm_area 4096 0 4294963200 8192 44 st = Ret (-1) st2
    /\ trace st2 = trace st1 ++ flushes first (Z.to_nat mapped)
    /\ (forall i, 0 <= i < mapped ->
          pte_frame (kmem st2 (entry_at (it_table it) (first mod 1024 + i)))
          = 4294963200 / PAGE_SIZE + i)
    /\ (forall x,
          (forall i, 0 <= i < mapped ->
                     x <> entry_at (it_table it) (first mod 1024 + i)) ->
          kmem st2 x = kmem st1 x).
Proof.
  cbv zeta. split; [reflexivity|].
  apply (mem_upd_vm_area_frame_limit 4096 0 4294963200 8192 44
           (mk_page_iterator 4096 8192 0 2 44) (machine [(4096, 8193)] 0 None)
           (state_of (machine [(4096, 8193)] 0 None)
              (__pg_iter_init iter0 4096 0 8192 44 (machine [(4096, 8193)] 0 None))));
    closed_order.
Defined.

(** Cloning the pages 1023 and 1024 of the sample directories: the first
    one is the last page of the first page table, and the destination has no
    page table for the second one yet. *)
Lemma mem_clone_vm_area_spec_example :
  exists st',
    mem_clone_vm_area 4096 16384 4190208 4190208 8192 29 clone_machine
    = Ret 0 st'
    /\ trace st' = [EvInvlpg 4190208; EvInvlpg 4194304]
    /\ pgtbl_pool st' = []
    /\ (kmem st' 12284 = 28675
        /\ pte_frame (kmem st' 24572) = 7
        /\ pte_rw (kmem st' 24572) = true
        /\ pte_present (kmem st' 24572) = true
        /\ pte_kernel_cow (kmem st' 24572) = true
        /\ pte_global (kmem st' 24572) = false
        /\ pte_user (kmem st' 24572) = true)
    /\ (kmem st' 12288 = 37376
        /\ kmem st' 24576 = 12288
        /\ pte_present (kmem st' 24576) = false).
Proof.
  assert (Hlayout : clone_layout 4096 16384 [8192; 12288] [20480; 24576]).
  { split.
    { repeat constructor; vm_compute; try reflexivity; intro; discriminate. }
    split; [discriminate|].
    split.
    { repeat constructor; intros Hin;
        repeat (apply elem_of_cons in Hin as [Hin | Hin]; [discriminate|]);
        inversion Hin. }
    split.
    { intros t Hin.
      repeat (apply elem_of_cons in Hin as [Hin | Hin];
              [subst t; split; discriminate|]).
      inversion Hin. }
    intros t Hin Hin'.
    repeat (apply elem_of_cons in Hin as [Hin | Hin];
            [subst t;
             repeat (apply elem_of_cons in Hin' as [Hin' | Hin'];
                     [discriminate|]);
             inversion Hin'|]).
    inversion Hin. }
  destruct (mem_clone_vm_area_spec 4096 16384 4190208 4190208 8192 29
              [8192; 12288] [20480; 24576] [] clone_machine
              ltac:(lia) ltac:(lia) ltac:(lia)
              ltac:(vm_compute; reflexivity) ltac:(vm_compute; reflexivity)
              ltac:(vm_compute; reflexivity) Hlayout
              ltac:(vm_compute; reflexivity) ltac:(vm_compute; reflexivity))
    as (st' & Hrun & Htr & Hpool & Hcloned & _).
  exists st'. split; [exact Hrun|]. split; [exact Htr|]. split; [exact Hpool|].
  split.
  - exact (Hcloned 0 ltac:(vm_compute; split; [discriminate | reflexivity])).
  - exact (Hcloned 1 ltac:(vm_compute; split; [discriminate | reflexivity])).
Defined.

(** C3 fails as stated.  A range that ends at the end of the address space:
    the sum that gives the page after its last one wraps around to 0, so the
    loop has no turn; the function returns 0, and the entry of the page
    0xfffff, a plain page on the frame 7, is not cloned: the destination
    entry has no frame and no TLB entry is flushed.  And a range that starts
    at an offset of a page in the source, and at none in the destination:
    the source range has one page more than the destination range, the loop
    stops with the shorter one, and the entry of the second source page is
    not cloned either. *)
Lemma mem_clone_vm_area_skips_pages :
  (let out :=
     mem_clone_vm_area 4096 16384 4294963200 4294963200 4096 29 clone_machine in
   result_of out = Some 0
   /\ 4294963200 / PAGE_SIZE = 1048575
   /\ kmem clone_machine (entry_at 4096 1023) = 8193
   /\ pte_frame (kmem clone_machine (entry_at 8192 1023)) = 7
   /\ pte_kernel_cow (kmem clone_machine (entry_at 8192 1023)) = false
   /\ kmem clone_machine (entry_at 16384 1023) = 20481
   /\ kmem (state_of clone_machine out) (entry_at 20480 1023) = 0
   /\ trace (state_of clone_machine out) = [])
  /\ (let out :=
        mem_clone_vm_area 4096 16384 4190209 4190208 4096 29 clone_machine in
      result_of out = Some 0
      /\ (4190209 / PAGE_SIZE = 1023
          /\ (4190209 + 4096 - 1) / PAGE_SIZE = 1024)
      /\ pte_kernel_cow (kmem clone_machine (entry_at 12288 0)) = true
      /\ kmem (state_of clone_machine out) (entry_at 24576 0) = 0
      /\ trace (state_of clone_machine out) = [EvInvlpg 4190208]).
Proof.
  cbv zeta. repeat split; vm_compute; reflexivity.
Qed.

End PagingMoreExamples.

Section ProcessMoreExamples.
Import Mem Process Samples.

Ltac bytes_stored :=
  vm_compute; repeat split; try reflexivity; intro; discriminate.

(** Copying the arguments of the sample program below 0x2000. *)
Lemma push_args_on_stack_copies_example :
  let k := exec_kernel "/bin/sh" [] in
  let ls := [str "script"; str "a"] in
  exists m' ps',
    __push_args_on_stack 64 8192 4352 k
    = Ret (8192 - args_bytes ls) (set_kmem m' k)
    /\ args_at m' (8192 - args_bytes ls) ps' ls
    /\ Forall (fun q => 8192 - args_bytes ls < q < 8192) ps'
    /\ args_at m' 4352 [4608; 4615] ls
    /\ unchanged_outside (8192 - args_bytes ls) 8192 (kmem k) m'.
Proof.
  cbv zeta.
  apply (push_args_on_stack_copies 64 8192 4352 [4608; 4615]
           [str "script"; str "a"] (exec_kernel "/bin/sh" [])).
  - apply exec_argv_at.
  - split; [cbn; lia|]. repeat constructor; cbn; lia.
  - cbn; lia.
  - assert (Ea : args_bytes [str "script"; str "a"] = 21) by reflexivity.
    rewrite Ea. lia.
  - assert (Ea : args_bytes [str "script"; str "a"] = 21) by reflexivity.
    intros a Ha. rewrite Ea in Ha.
    intros [Hr | (i & p & l & Hp & Hl & Hin)].
    + cbn in Hr. lia.
    + destruct i as [|[|i]]; cbn in Hp, Hl; try discriminate;
        inversion Hp; inversion Hl; subst; cbn in Hin; lia.
Defined.

(** The sample program has two arguments. *)
Lemma count_args_counts_example :
  __count_args 64 4352 (exec_kernel "/bin/sh" [])
  = Ret (Z.of_nat (length [4608; 4615])) (exec_kernel "/bin/sh" []).
Proof.
  apply (count_args_counts 4352 [4608; 4615] 64 (exec_kernel "/bin/sh" []));
    [apply exec_argv_at | cbn; lia].
Defined.

Lemma many_pointers_at (n : nat) (a : Z) :
  4096 <= a -> a + 4 * Z.of_nat n = 5124 ->
  ptrs_at many_args_memory a (replicate n 16843009).
Proof.
  revert a. induction n as [|n IH]; intros a Hlo Hhi.
  - assert (a = 5124) as -> by lia. vm_compute. reflexivity.
  - cbn [replicate ptrs_at]. split; [|split; [lia|apply IH; lia]].
    assert (Hb : forall i, 0 <= i < 4 -> load8 many_args_memory (a + i) = 1).
    { intros i Hi. unfold load8, many_args_memory.
      destruct (Z.leb_spec 4096 (a + i)); [|lia].
      destruct (Z.ltb_spec (a + i) 5124); [|lia]. reflexivity. }
    unfold load32. rewrite !Hb by lia.
    replace a with (a + 0) at 1 by lia. rewrite Hb by lia. reflexivity.
Qed.

Lemma many_strings_at (n : nat) :
  Forall2 (cstr_at many_args_memory) (replicate n 16843009) (replicate n [97]).
Proof.
  induction n as [|n IH]; cbn [replicate]; constructor; [|exact IH].
  vm_compute. repeat split; try reflexivity. intro; discriminate.
Qed.

(** An array of 257 arguments. *)
Lemma push_args_on_stack_overrun_example :
  exists s', __push_args_on_stack 300 16384 4096 many_args_kernel = Fault s'.
Proof.
  apply (push_args_on_stack_overrun 300 16384 4096
           (replicate 257 16843009) (replicate 257 [97]) many_args_kernel).
  - split; [apply many_pointers_at; lia | apply many_strings_at].
  - split; [rewrite length_replicate; lia|].
    apply Forall_replicate. cbn; lia.
  - rewrite length_replicate; lia.
Defined.

(** The first task of the sample kernel forks. *)
Lemma sys_fork_inherits_example :
  let st := exec_kernel "/bin/sh" [] in
  exists st' p' child,
    sys_fork exec_frame st = Ret (pid child) st'
    /\ tasks st' = <[0%nat := p']> (tasks st) ++ [child]
    /\ (uid child = uid init_task /\ ruid child = ruid init_task
        /\ gid child = gid init_task /\ rgid child = rgid init_task
        /\ sid child = sid init_task /\ pgid child = pgid init_task)
    /\ (name child = name init_task /\ cwd child = cwd init_task
        /\ fd_list child = fd_list init_task)
    /\ (children child = [] /\ pending child = [] /\ exit_code child = 0)
    /\ children p' = children init_task ++ [length (tasks st)]
    /\ p' = set_children (children init_task ++ [length (tasks st)])
              (set_thread (set_regs exec_frame (thread init_task)) init_task)
    /\ (forall i, i <> 0%nat -> (i < length (tasks st))%nat ->
                  tasks st' !! i = tasks st !! i).
Proof.
  cbv zeta.
  apply (sys_fork_inherits exec_frame (exec_kernel "/bin/sh" []) 0%nat init_task);
    reflexivity.
Defined.

(** [execve] with a NULL file name. *)
Lemma sys_execve_rejects_null_example :
  let f := mk_pt_regs 0 0 0 0 0 0 0 0 0 4864 4352 11 128 0 8192 0 512 12288 0 in
  sys_execve 64 name_buffer saved_filename f (exec_kernel "/bin/sh" [])
  = Ret (-1, f) (exec_kernel "/bin/sh" []).
Proof.
  cbv zeta.
  apply (sys_execve_rejects_null 64 name_buffer saved_filename _
           (exec_kernel "/bin/sh" []) 0%nat);
    [reflexivity | left; reflexivity].
Defined.

Lemma script_name_at (k : kstate) :
  kmem k = exec_memory -> cstr_at (kmem k) 4096 (str "script").
Proof. intros ->. bytes_stored. Qed.

(** Loading [script] in a kernel that has no file, in one where the task
    may not execute it, and in one where it is a text that names no
    interpreter. *)
Lemma load_executable_rejects_example :
  let locked := file_kernel [(str "script", plain_file 420)] in
  let text := file_kernel [(str "script", plain_file 493)] in
  __load_executable 64 4096 0%nat (file_kernel [])
  = Ret (-2) (set_errno 2 (file_kernel []))
  /\ __load_executable 64 4096 0%nat locked = Ret (- EACCES) locked
  /\ __load_executable 64 4096 0%nat text = Ret (- ENOEXEC) text.
Proof.
  cbv zeta. split; [|split].
  - destruct (load_executable_rejects 64 4096 0%nat (str "script") init_task
                (file_kernel [])) as (Hnone & _);
      [lia | apply script_name_at; reflexivity | cbn; lia | reflexivity |].
    exact (Hnone eq_refl).
  - destruct (load_executable_rejects 64 4096 0%nat (str "script") init_task
                (file_kernel [(str "script", plain_file 420)]))
      as (_ & Hperm & _);
      [lia | apply script_name_at; reflexivity | cbn; lia | reflexivity |].
    exact (Hperm (plain_file 420) eq_refl eq_refl).
  - destruct (load_executable_rejects 64 4096 0%nat (str "script") init_task
                (file_kernel [(str "script", plain_file 493)]))
      as (_ & _ & Hexec);
      [lia | apply script_name_at; reflexivity | cbn; lia | reflexivity |].
    exact (Hexec (plain_file 493) eq_refl eq_refl eq_refl eq_refl).
Defined.

(** Resetting the first task of the sample kernel. *)
Lemma reset_process_spec_example :
  let st := exec_kernel "/bin/sh" [] in
  let t := init_task in
  exists st',
    __reset_process 0%nat st
    = Ret (match blank_mms st with [] => 0 | _ => 1 end) st'
    /\ cur_pgd st' = cur_pgd st
    /\ blank_mms st' = tl (blank_mms st)
    /\ trace st' = trace st ++ [EvMmCreateBlank (head (blank_mms st))]
    /\ match blank_mms st with
       | [] => tasks st' = <[0%nat := set_mm None t]> (tasks st)
               /\ kmem st' = kmem st
       | m :: _ =>
           let top := wrap32 (start_stack m + DEFAULT_STACK_SIZE) in
           tasks st' = <[0%nat := reset_task m t]> (tasks st)
           /\ kmem st' = zero_range (kmem st) (start_stack m) DEFAULT_STACK_SIZE
           /\ mm (reset_task m t) = Some m
           /\ ebp (regs (thread (reset_task m t))) = top
           /\ useresp (regs (thread (reset_task m t))) = top
           /\ eflags (regs (thread (reset_task m t)))
              = Z.lor (eflags (regs (thread t))) EFLAG_IF
           /\ eip (regs (thread (reset_task m t))) = eip (regs (thread t))
           /\ eax (regs (thread (reset_task m t))) = eax (regs (thread t))
       end.
Proof.
  cbv zeta.
  apply (reset_process_spec 0%nat init_task (exec_kernel "/bin/sh" [])).
  reflexivity.
Defined.

(** Loading [script] in the kernel where it is an ELF executable. *)
Lemma load_executable_elf_example :
  let st := elf_kernel in
  let t := init_task in
  let file := elf_file "script" in
  let b := blank_mm 7344128 in
  let t1 := reset_task b (with_file_ids file t) in
  let r := fst (fst (elf_load_file t1 file)) in
  exists st',
    __load_executable 64 4096 0%nat st = Ret r st'
    /\ tasks st' = <[0%nat := loaded_task file b t]> (tasks st)
    /\ trace st'
       = trace st
         ++ match mm t with Some m0 => [EvMmDestroy m0] | None => [] end
         ++ [EvMmCreateBlank (Some b); EvElfLoadFile (f_name file) r]
    /\ cur_pgd st' = cur_pgd st
    /\ kmem st' = zero_range (kmem st) (start_stack b) DEFAULT_STACK_SIZE
    /\ uid (loaded_task file b t)
       = (if has_flag (f_mask file) S_ISUID then f_uid file else uid t)
    /\ gid (loaded_task file b t)
       = (if has_flag (f_mask file) S_ISGID then f_gid file else gid t)
    /\ mm (loaded_task file b t) = snd (elf_load_file t1 file)
    /\ eip (regs (thread (loaded_task file b t)))
       = snd (fst (elf_load_file t1 file)).
Proof.
  cbv zeta.
  apply (load_executable_elf 64 4096 0%nat (str "script") init_task
           (elf_file "script") (blank_mm 7344128) [] elf_kernel);
    [lia | apply script_name_at; reflexivity | cbn; lia | reflexivity ..].
Defined.

End ProcessMoreExamples.

Section MmapMoreExamples.
Import Mem Process Mmap Cwd Samples.

(** Mapping 16384 bytes of the open file of 8192 bytes. *)
Lemma sys_mmap_rejects_example :
  let st := mmap_kernel in
  let t := mmap_task in
  let m := two_areas_mm in
  (3 < 0 \/ max_fd t <= 3 ->
   sys_mmap (areas := sample_areas) 0 16384 3 2 3 0 st = Ret 0 st)
  /\ (forall d, 0 <= 3 < max_fd t -> fd_list t !! Z.to_nat 3 = Some d ->
        match file_struct d with
        | None => sys_mmap (areas := sample_areas) 0 16384 3 2 3 0 st = Ret 0 st
        | Some file =>
            (f_stat_ok file = false ->
             sys_mmap (areas := sample_areas) 0 16384 3 2 3 0 st = Ret 0 st)
            /\ (wrap32 (Z.of_nat (List.length (f_data file)))
                < wrap32 (0 + 16384) ->
                sys_mmap (areas := sample_areas) 0 16384 3 2 3 0 st = Ret 0 st)
            /\ (f_stat_ok file = true ->
                wrap32 (0 + 16384)
                <= wrap32 (Z.of_nat (List.length (f_data file))) ->
                let found :=
                  if negb (0 =? 0)
                     && vm_area_is_valid (VmArea := sample_areas) m 0
                          (wrap32 (0 + 16384))
                  then Some 0
                  else vm_area_search_free_area (VmArea := sample_areas) m 16384 in
                match found with
                | None =>
                    sys_mmap (areas := sample_areas) 0 16384 3 2 3 0 st = Ret 0 st
                | Some start =>
                    vm_area_create (VmArea := sample_areas) m start 16384
                      (Z.lor Paging.MM_PRESENT
                         (Z.lor Paging.MM_RW (Z.lor Paging.MM_COW Paging.MM_USER)))
                    = None ->
                    sys_mmap (areas := sample_areas) 0 16384 3 2 3 0 st = Ret 0 st
                end)
        end).
Proof.
  cbv zeta.
  apply (sys_mmap_rejects (areas := sample_areas) 0 16384 3 2 3 0 mmap_kernel
           0%nat mmap_task two_areas_mm); reflexivity.
Defined.

(** The working directory of the first task, in a buffer of 16 bytes. *)
Lemma sys_getcwd_copies_example :
  let st := exec_kernel "/bin/sh" [] in
  let t := init_task in
  exists m',
    sys_getcwd 20480 16 st = Ret 20480 (set_kmem m' st)
    /\ unchanged_outside 20480 (20480 + 16) (kmem st) m'
    /\ (Z.of_nat (length (cwd t)) < 16 -> cstr_at m' 20480 (cwd t))
    /\ (16 <= Z.of_nat (length (cwd t)) ->
        forall i c, 0 <= i < 16 -> cwd t !! Z.to_nat i = Some c ->
                    load8 m' (20480 + i) = c /\ c <> 0).
Proof.
  cbv zeta.
  apply (sys_getcwd_copies 20480 16 (exec_kernel "/bin/sh" []) 0%nat init_task);
    [reflexivity | reflexivity | lia | lia |].
  repeat constructor; cbn; lia.
Defined.

(** [fchdir] on the descriptor of the open file. *)
Lemma sys_fchdir_spec_example :
  let st := mmap_kernel in
  let t := mmap_task in
  exists r st',
    sys_fchdir 3 st = Ret r st'
    /\ ((r = 0
         /\ exists vfd file path,
              0 <= 3 < max_fd t
              /\ fd_list t !! Z.to_nat 3 = Some vfd
              /\ file_struct vfd = Some file
              /\ has_flag (file_flags file) DT_DIR = true
              /\ resolve_path (f_name file) = Some path
              /\ st' = set_tasks (<[0%nat := set_cwd path t]> (tasks st)) st)
        \/ (st' = st /\ (r = - EBADF \/ r = - ENOENT \/ r = - ENOTDIR))).
Proof.
  cbv zeta.
  apply (sys_fchdir_spec 3 mmap_kernel 0%nat mmap_task); reflexivity.
Defined.

End MmapMoreExamples.

Section ExecveExamples.
Import Mem Process Samples.

#[local] Ltac bytes_laid :=
  vm_compute; repeat split; try reflexivity; intro; discriminate.





(** C10 fails as stated.  A caller gives, as its first argument, a pointer
    into the block that [kmalloc] then returns: both arrays are
    NULL-terminated and need 15 and 18 bytes when they are counted, but the
    second argument is pushed where the first one points, so the first one
    has become a string of one character when it is pushed, the pointer
    ends one byte below the block, and the assertion fails.  And with an
    array of 257 arguments, [__push_args_on_stack] writes past its local
    array of 256 pointers before it has moved the pointer to its end. *)
Lemma sys_execve_copy_arguments_assertion_fails :
  (args_at (kmem overlap_kernel) 4352 [3222274079; 4615] [[]; str "a"]
   /\ args_at (kmem overlap_kernel) 4864 [5120] [str "PATH=/bin"]
   /\ result_of (__count_args_bytes 64 4352 overlap_kernel) = Some 15
   /\ result_of (__count_args_bytes 64 4864 overlap_kernel) = Some 18
   /\ kmalloc_pool overlap_kernel = [3222274048]
   /\ 3222274048 <= 3222274079 < 3222274048 + 15 + 18
   /\ ending_of (sys_execve_copy_arguments 64 4352 4864 overlap_kernel)
      = AssertFailed
   /\ ending_of (sys_execve 64 name_buffer saved_filename exec_frame
                   overlap_kernel)
      = AssertFailed)
  /\ (args_at (kmem many_args_heap_kernel) 4096
        (replicate 257 16843009) (replicate 257 [97])
      /\ args_at (kmem many_args_heap_kernel) 5124 [] []
      /\ result_of (__count_args_bytes 300 4096 many_args_heap_kernel)
         = Some 1546
      /\ ending_of (sys_execve_copy_arguments 300 4096 5124
                      many_args_heap_kernel)
         = Faulted).
Proof.
  split.
  - split; [split; [bytes_laid | repeat constructor; bytes_laid]|].
    split; [split; [bytes_laid | repeat constructor; bytes_laid]|].
    repeat split; try (vm_compute; reflexivity); try lia.
  - split; [split; [apply many_pointers_at; lia | apply many_strings_at]|].
    split; [split; [vm_compute; reflexivity | constructor]|].
    split; vm_compute; reflexivity.
Qed.

End ExecveExamples.
